(* ===== verification/_CoqProject ===== *)
-Q . S2P
Prelude.v
PyStr.v
Posix.v
Glob.v
Vfs.v
Regex.v
Sanitize.v
Hash.v
Struct.v
Float.v
Proxy.v
Push.v
Totp.v
TotpProps.v
Gateway.v
KillQueue.v
Json.v
OtDecoys.v
OtProps.v
AuditChain.v
CounterAI.v
Synthetic.v
Session.v
Heuristics.v
Responses.v
Policy.v
Engagement.v
Shell.v
Search.v
Orchestrator.v
Pipeline.v
Registry.v
FsInvariant.v
ShellProps.v
Retention.v
Acks.v
Notes.v
Backup.v
Snapshots.v
Logs.v
Aggregations.v
Ipaddr.v
AuditViews.v
AuditProps.v
Iocs.v
DiffProps.v
VerifyChain.v
Api.v
Formats.v
Siem.v
SshServer.v
SshProps.v
ApiProps.v
Tenancy.v
Secrets.v
Http.v
Heartbeat.v
Rotation.v
Attacker.v
Training.v
Stix.v
MfaProviders.v
Compliance.v
