(* ===== verification/Prelude.v ===== *)
(** * Plenith: a verification library

    Plenith is a deception platform: an SSH honeypot whose shell is simulated over a
    virtual filesystem and a language model, with detectors and planted decoys, an audit
    log, industrial protocol decoys, and a second-factor gateway in front of the real
    hosts.  This library models its core, translated from the Python of src/, and proves
    what makes the parts correct.

    ** The program and the files

    An attacker's connection is a [Session] (plenith/session.py).  Each command goes
    through [Orchestrator.handle_command]: it is recorded and observed, answered by the
    first handler that takes it (the shell builtins over the virtual filesystem, [ps] and
    the like, the response cache, at last the language model), and then a policy picks
    actions: alerts, and decoys planted into the filesystem.  When the connection ends
    the state is saved and the next connection restores it; the actions go to a
    hash-chained log.  The gateway (linux-fork/mfa) and the industrial decoys
    (linux-fork/tools/ot_decoys.py) are separate servers.

    Language and libraries:
    - this file: Python strings as lists of code points with literals in the scope [py],
      results that may raise ([exc]), time in microseconds, sorting, sets, insertion-ordered
      dicts;
    - [PyStr], [Posix], [Glob], [Regex]: str methods, posixpath, fnmatch, re;
    - [Hash], [Struct], [Float], [Json]: hashlib and hmac, struct and streams, binary64,
      json.dumps with its injectivity.

    The honeypot (src/plenith):
    - [Vfs] (vfs.py): the record [vfs] has the object's five attributes, one function per
      method; [AuditChain] (audit_chain.py); [CounterAI] (counter_ai.py); [Synthetic]
      (persona.py, synthetic.py) over a class for [random.Random];
    - [Session] (session.py): the constructor and restore [connect], the observers
      [update_observations], [observe_vfs_event], [observe_search_event], decoy planting,
      [to_persistent_state];
    - [Heuristics] (heuristics.py): the if-ladder as the list [rules]; [Responses]
      (responses.py and the action loop of orchestrator.py), over a class of policies;
      [Policy] (policy.py);
    - [Shell], [Search], [Orchestrator] (orchestrator.py, response_cache.py): the handlers
      over a state-and-error monad [act], the pipeline [handle_command], and a connection
      [serve] (the worker loop of ssh_server.py);
    - [KillQueue] (kill_queue.py) and [SshServer] (ssh_server.py, state_store.py): many
      connections, their queues, the kill poller and the saved states, as the steps of an
      event loop; [Formats] (connectors/formats.py): the lines a SIEM receives;
    - [Engagement], [Pipeline], [FsInvariant], [ShellProps], [SshProps]: properties across
      components.

    The servers (src/linux-fork, and plenith/proxy_protocol.py):
    - [Proxy] (proxy_protocol.py), [Totp] (totp.py, enrollment.py) with [TotpProps],
      [Push] (push_sim.py), [Gateway] (mfa_gateway.py), which composes the three;
    - [OtDecoys] (ot_decoys.py) with [OtProps].

    The operators' side (src/plenith, src/tools):
    - [Acks] (acks.py), [Notes] (notes.py), [KillQueue]: what operators write about an
      engagement; [Registry] (plugins.py); [Siem] (connectors/siem.py): batches and frames;
    - [Retention] (retention.py, retention_purge.py), [Backup] (backup.py, restore.py),
      [Snapshots] (snapshots.py): the files a deployment keeps, ages out, saves and restores;
    - [Logs] (session_logger.py and the loaders of audit.py and api/server.py): from the
      stored logs to engagements; [Aggregations] (aggregations.py) over them;
    - [Sanitize] ([_safe], [_csv_safe], [_h] of audit.py, with laws of the regular-expression
      matcher), [AuditViews] and [AuditProps] (the terminal views), [Iocs] and [DiffProps]
      (the indicator exports and the diff), [VerifyChain] (verify_chain.py);
    - [Ipaddr] (ipaddress.ip_address), [Api] (api/server.py, api/auth.py, escalate.py) with
      [ApiProps]: one handler per route over the services it calls, behind the token check;
    - [Tenancy] (multitenancy.py), [Secrets] (secrets.py, secrets_check.py), [Heartbeat]
      (heartbeat.py);
    - [Stix] (connectors/mitre.py, stix.py): the techniques of the actions and the bundle of
      indicators; [Compliance] (compliance/controls.py, evidence.py, report.py): the controls,
      the harvest of their evidence and the report;
    - [Http] and [MfaProviders] (connectors/mfa_providers.py): the clients of the services that
      give a second factor, push_sim.py among them, over an HTTP service that is a function.

    Content and training (src/plenith/rotation, src/plenith/training):
    - [Rotation] (seeds.py, corp.py, artifacts.py, rotator.py): the company a deployment's seed
      gives, the decoys written from it, the manifest and the bundle;
    - [Attacker] (attacker.py) and [Training] (reward.py, env.py): the simulated attacker, and
      the environment whose step is [Orchestrator.handle_command].

    ** What the theorems show

    - The filesystem refines a finite map with overlay renderers; paths are canonical;
      baselines are immutable and tampered content is kept, over every sequence of calls
      and, in [FsInvariant], over everything an attacker can type; [ShellProps] follows
      [echo], [find] and [mv] to the bytes.
    - Observations latch; a rule fires once per engagement, reconnects included, and
      [Pipeline] carries this through the whole pipeline by showing that a run of it is
      an engagement in the sense of [Engagement.run]; the action loop ends of itself.
    - Saving and restoring is the identity on what a session must remember.
    - In every interleaving of the server's events a connection's session is the one it
      would have if served alone; a poll closes only connections for whose engagement a
      kill was requested after they opened, and leaves no request open ([SshProps]).
    - A CEF line is read back, by the rules of the format, as exactly the fields of the alert.
    - A stamped log verifies, and a log that verifies under the same tip is the same or
      exhibits a SHA-256 collision.
    - The detector's memory is bounded and its confidence is between 0 and 1, in binary64.
    - Frames: whole Modbus connections are answered in step, S7 and DNP3 replies parse
      back, the loops end, and the requests that crash a handler are characterised;
      PROXY headers round-trip and malformed ones raise the parser's own error.
    - Codes are the RFC's, exactly the codes of the window verify, enrolled users can log in.
    - The gateway: over any failures of channel, disk and services a pass needs its cause
      ([Gateway.verdict]); on a working disk exactly one decision is left; the
      challenge refines its verdict; polling ends by its deadline; and with the push
      service of this repository behind it, an approval was really given.

    - What operators write refines tables: acknowledgements, notes, kill requests.  Only a
      request with a configured token changes what the API keeps; a kill that it accepts
      closes the connection at the server's next poll.
    - Batches and frames to a SIEM lose and reorder nothing; plugins cannot lose alerts.
    - A purge removes exactly what is out of its window; a restore gives back what a backup
      took, byte for byte, and touches nothing for an archive that fails a check.
    - Every log and alert that is stored is in exactly one engagement that is served, and
      the charts add up to them.  The terminal views print no control sequence that an
      attacker chose, the CSV reads back as its observables with no formula among them, and
      the diff of an engagement is exactly what changed since its first connection
      ([DiffProps.diff_exact], over [Session.connect]).
    - The strict nightly check exits 0 exactly when every log verifies ([VerifyChain], over
      [AuditChain]).  Tenants share nothing; a configuration's secrets are each asked for
      once and its check predicts whether it loads.
    - The roster of agents is exactly what their heartbeats say ([Heartbeat.roster_exact]); a
      bundle holds each object once, under an id that depends on what it names
      ([Stix.bundle_exact]); a compliance report counts what the files hold and attests a
      control exactly when a source it names has data ([Compliance]).
    - A second factor counts only on its service's own answer to that request, and every
      failure is a refusal ([MfaProviders.providers_fail_closed]).
    - The planted decoys of a rotated deployment tell of one company, whatever the seed
      ([Rotation.one_company]); in training each bait is paid for once
      ([Training.bait_paid_once]).

    ** Bounds and fuel

    Loops that follow Python's [while] or general recursion take fuel, and it is enough:
    the connection loops take one more than the bytes received and each turn consumes at
    least one ([OtProps.decoys_terminate]); [dnp3_walk] stops at ten objects; [ancestors]
    is given the length of the path ([ShellProps.traverse_directories]); [glob] and
    [split_sep] the lengths of their arguments ([Glob.fnmatch_prefix] for the patterns of the
    gateway); [digits_aux] the logarithm.  The action loop's twenty is the source's own
    bound, and [Responses.action_loop_complete] shows that it is not reached.  The
    regular-expression parser has the length of the pattern; a pattern of the source is
    compiled while its definition is checked, so fuel that ran out would show.  The poll
    loop runs over the polls made, and [Gateway.challenge_concludes] says how many suffice.

    ** Assumptions

    Third-party code and the world are arguments: the language model, policies' networks
    and NumPy's reductions, plugins, random sources, the Unicode tables, asyncssh's channel,
    the disk and the clock.  Their laws, where a theorem needs one, are class members or
    hypotheses, and the witnesses give instances.  Python is CPython 3.11: [sum] of
    floats is left to right, and TimeoutError is the exception of asyncio.wait_for.  Code
    points beyond ASCII take the case and class of themselves.

    ** Not modelled

    Sockets, threads, log handlers and argument parsing; JSON and YAML text read back from
    disk (a file is its parsed content, or the error that reading it gives); addresses with
    a slash in the gateway's decision files; strftime; FastAPI's routing, types and
    status pages; the Vault and AWS clients of secrets.py, which are arguments of [Secrets].
    A turn of the SSH worker is one step, although the event loop may interleave other
    connections while it awaits the model.  The dashboard (HTML, CSS and JavaScript held as
    Python strings), the HTML page and Sigma rules of audit.py, the SOAR, TAXII and chat
    connectors, the language-model client, the simulated fleet's threads, the runbooks' texts,
    the NumPy networks with their training loops, and the demonstration tools are not
    modelled: they are rendering, transport, text and numerical code around these parts. *)

From stdpp Require Export base gmap list fin_maps sorting.
From Stdlib Require Export NArith ZArith Lia ZifyBool ZifyN.
From Stdlib Require Import Strings.Byte.

(** ** Python strings

    A Python [str] is a sequence of Unicode code points, so [str] is [list N].
    A literal in the scope [py] is written as the Python source writes it: the
    bytes of the Rocq literal are decoded as UTF-8, and the escapes for newline,
    tab, carriage return and backslash and the two-digit hexadecimal escape mean
    what they mean in Python. *)

Definition str := list N.

Inductive str_lit := LNil | LCons (c : N) (l : str_lit).

Definition hexval (n : N) : N :=
  if (n <? 58)%N then (n - 48)%N else if (n <? 71)%N then (n - 55)%N else (n - 87)%N.

(** UTF-8 decoding of the literal's bytes (well-formed input only: the literals
    of this development). *)
Fixpoint utf8 (bs : list N) : list N :=
  match bs with
  | [] => []
  | a :: r =>
      if (a <? 128)%N then a :: utf8 r else
      match r with
      | [] => [a]
      | b :: r2 =>
          if (a <? 224)%N then ((a - 192) * 64 + (b - 128))%N :: utf8 r2 else
          match r2 with
          | [] => [a; b]
          | c :: r3 =>
              if (a <? 240)%N
              then ((a - 224) * 4096 + (b - 128) * 64 + (c - 128))%N :: utf8 r3 else
              match r3 with
              | [] => [a; b; c]
              | d :: r4 =>
                  ((a - 240) * 262144 + (b - 128) * 4096 + (c - 128) * 64 + (d - 128))%N
                    :: utf8 r4
              end
          end
      end
  end.

Fixpoint unescape (bs : list N) : list N :=
  match bs with
  | [] => []
  | 92 :: 110 :: r => 10 :: unescape r
  | 92 :: 116 :: r => 9 :: unescape r
  | 92 :: 114 :: r => 13 :: unescape r
  | 92 :: 92 :: r => 92 :: unescape r
  | 92 :: 120 :: a :: b :: r => (16 * hexval a + hexval b) :: unescape r
  | c :: r => c :: unescape r
  end%N.

Definition parse_str (bs : list Byte.byte) : str_lit :=
  foldr LCons LNil (unescape (utf8 (List.map Byte.to_N bs))).

Fixpoint lit_codes (s : str_lit) : list N :=
  match s with LNil => [] | LCons c l => c :: lit_codes l end.

Definition print_str (s : str_lit) : option (list Byte.byte) :=
  mapM Byte.of_N (lit_codes s).

Declare Scope py_scope.
Delimit Scope py_scope with py.
Bind Scope py_scope with str.

#[warnings="-via-type-remapping,-via-type-mismatch"]
String Notation str parse_str print_str
  (via str_lit mapping [[nil] => LNil, [cons] => LCons]) : py_scope.

(** ** Results that may raise *)

(** The exceptions the modelled code raises or lets through. *)
Inductive exn :=
| KeyError (k : str)
| ValueError (msg : str)
| TypeError (msg : str)
| IndexError
| StructError
| UnicodeDecodeError
| ReError
| OSError (msg : str)
| AttributeError
| JSONDecodeError
| RuntimeError (msg : str)
| SecretResolutionError (msg : str)
| ProxyProtocolError (msg : str).

Inductive exc (A : Type) :=
| Ok (a : A)
| Raise (e : exn).
Arguments Ok {A} _.
Arguments Raise {A} _.

Definition exc_bind {A B} (m : exc A) (f : A → exc B) : exc B :=
  match m with Ok a => f a | Raise e => Raise e end.

Declare Scope exc_scope.
Delimit Scope exc_scope with exc.
Notation "'let*' x ':=' m 'in' k" := (exc_bind m (fun x => k))
  (at level 10, x pattern, m at level 100, k at level 200) : exc_scope.

Definition of_option {A} (e : exn) (o : option A) : exc A :=
  match o with Some a => Ok a | None => Raise e end.

Definition is_ok {A} (m : exc A) : bool := match m with Ok _ => true | Raise _ => false end.

Fixpoint exc_map {A B} (f : A → exc B) (l : list A) : exc (list B) :=
  match l with
  | [] => Ok []
  | x :: l' => exc_bind (f x) (λ y, exc_bind (exc_map f l') (λ ys, Ok (y :: ys)))
  end.

Lemma exc_bind_ok {A B} (m : exc A) (f : A → exc B) b :
  exc_bind m f = Ok b ↔ ∃ a, m = Ok a ∧ f a = Ok b.
Proof. destruct m; cbn; naive_solver. Qed.

(** ** Time

    [time.time()] is a count of microseconds. A double holds a present-day epoch
    time to better than a microsecond, so sums and differences of clock readings
    and whole seconds are the integer ones. *)
Definition time := Z.
Definition seconds (n : Z) : time := (n * 1000000)%Z.

(** ** Ordering of strings (Python compares code points lexicographically) *)

Fixpoint str_leb (a b : str) : bool :=
  match a, b with
  | [], _ => true
  | _ :: _, [] => false
  | x :: a', y :: b' => if (x <? y)%N then true else if (y <? x)%N then false else str_leb a' b'
  end.

Definition str_le (a b : str) : Prop := str_leb a b = true.

#[export] Instance str_le_dec : RelDecision str_le.
Proof. exact (λ a b, bool_eq_dec (str_leb a b) true). Defined.

#[export] Instance str_le_total : Total str_le.
Proof.
  intros a. induction a as [|x a IH]; intros [|y b]; unfold str_le; cbn; auto.
  specialize (IH b). unfold str_le in IH. repeat case_match; auto.
Qed.

#[export] Instance str_le_trans : Transitive str_le.
Proof.
  intros a. induction a as [|x a IH]; intros [|y b] [|z c]; unfold str_le in *; cbn; auto;
    try discriminate.
  destruct (N.ltb_spec x y), (N.ltb_spec y x), (N.ltb_spec y z), (N.ltb_spec z y),
    (N.ltb_spec x z), (N.ltb_spec z x); intros; auto; try discriminate; try lia.
  eapply IH; eauto.
Qed.

#[export] Instance str_le_antisym : AntiSymm (=) str_le.
Proof.
  intros a. induction a as [|x a IH]; intros [|y b]; unfold str_le in *; cbn; auto;
    try discriminate.
  destruct (N.ltb_spec x y), (N.ltb_spec y x); intros; auto; try discriminate; try lia.
  f_equal; [lia | by apply IH].
Qed.

(** [sorted(xs)] of an iterable of strings. *)
Definition py_sorted (l : list str) : list str := merge_sort str_le l.

Lemma py_sorted_perm l : py_sorted l ≡ₚ l.
Proof. apply merge_sort_Permutation. Qed.

Lemma py_sorted_elem l x : x ∈ py_sorted l ↔ x ∈ l.
Proof. by rewrite py_sorted_perm. Qed.

Lemma py_sorted_sorted l : Sorted str_le (py_sorted l).
Proof. apply Sorted_merge_sort, _. Qed.

Lemma py_sorted_NoDup l : NoDup (py_sorted l) ↔ NoDup l.
Proof. by rewrite py_sorted_perm. Qed.

(** Two sorted listings of the same set are the same list: [sorted] of a Python
    set does not depend on the iteration order. *)
Lemma py_sorted_unique l k : l ≡ₚ k → py_sorted l = py_sorted k.
Proof.
  intros H. apply (Sorted_unique str_le); try apply py_sorted_sorted.
  by rewrite !py_sorted_perm.
Qed.

(** [sorted(s)] for a set and [sorted(d)] for a dict (its keys). *)
Definition sorted_set (s : gset str) : list str := py_sorted (elements s).
Definition sorted_keys {V} (m : gmap str V) : list str := py_sorted (map fst (map_to_list m)).

Lemma sorted_set_elem s x : x ∈ sorted_set s ↔ x ∈ s.
Proof. unfold sorted_set. rewrite py_sorted_elem. apply elem_of_elements. Qed.

Lemma sorted_set_NoDup s : NoDup (sorted_set s).
Proof. apply py_sorted_NoDup, NoDup_elements. Qed.

(** [set(sorted(s))] is [s] again. *)
Lemma list_to_set_sorted_set (s : gset str) : list_to_set (sorted_set s) = s.
Proof. apply set_eq. intros x. by rewrite elem_of_list_to_set, sorted_set_elem. Qed.

Lemma sorted_keys_elem {V} (m : gmap str V) k : k ∈ sorted_keys m ↔ is_Some (m !! k).
Proof.
  unfold sorted_keys. rewrite py_sorted_elem, list_elem_of_fmap. split.
  - intros ([k' v] & -> & H%elem_of_map_to_list). eauto.
  - intros [v H]. exists (k, v). by rewrite elem_of_map_to_list.
Qed.

Lemma sorted_keys_NoDup {V} (m : gmap str V) : NoDup (sorted_keys m).
Proof. apply py_sorted_NoDup, NoDup_fst_map_to_list. Qed.

(** ** Stable sorting by an integer key: [sorted(l, key=f)] *)

Fixpoint insert_by {A} (f : A → Z) (x : A) (l : list A) : list A :=
  match l with
  | [] => [x]
  | y :: l' => if (f x <=? f y)%Z then x :: l else y :: insert_by f x l'
  end.
Definition sort_by {A} (f : A → Z) (l : list A) : list A := foldr (insert_by f) [] l.

Lemma insert_by_perm {A} (f : A → Z) x l : insert_by f x l ≡ₚ x :: l.
Proof. induction l as [|y l IH]; cbn; [done|]. case_match; [done|]. rewrite IH. constructor. Qed.

Lemma sort_by_perm {A} (f : A → Z) l : sort_by f l ≡ₚ l.
Proof. induction l as [|x l IH]; cbn; [done|]. by rewrite insert_by_perm, IH. Qed.

Lemma insert_by_sorted {A} (f : A → Z) x l :
  Sorted (λ x y, f x <= f y)%Z l → Sorted (λ x y, f x <= f y)%Z (insert_by f x l).
Proof.
  induction 1 as [|y l Hl IHl Hy]; cbn; [by repeat constructor|].
  destruct (Z.leb_spec (f x) (f y)).
  - repeat constructor; auto.
  - constructor; [done|]. destruct l as [|z l]; cbn in *; [constructor; lia|].
    inversion Hy; subst. case_match; constructor; lia.
Qed.

Lemma sort_by_sorted {A} (f : A → Z) l : Sorted (λ x y, f x <= f y)%Z (sort_by f l).
Proof. induction l; cbn; [constructor | by apply insert_by_sorted]. Qed.

Lemma Sorted_weaken {A} (R S : relation A) l : (∀ x y, R x y → S x y) → Sorted R l → Sorted S l.
Proof.
  intros HRS. induction 1 as [|x l Hl IH Hx]; constructor; [done|]. destruct Hx; constructor; auto.
Qed.

(** ** Dicts in insertion order: [d[k] = v] keeps the position of a present key *)

Fixpoint assoc_set {V} (k : str) (v : V) (d : list (str * V)) : list (str * V) :=
  match d with
  | [] => [(k, v)]
  | (k', v') :: d' => if decide (k = k') then (k, v) :: d' else (k', v') :: assoc_set k v d'
  end.

Fixpoint assoc_get {V} (k : str) (d : list (str * V)) : option V :=
  match d with
  | [] => None
  | (k', v') :: d' => if decide (k = k') then Some v' else assoc_get k d'
  end.

Lemma assoc_get_set {V} k k' (v : V) d :
  assoc_get k' (assoc_set k v d) = if decide (k' = k) then Some v else assoc_get k' d.
Proof.
  induction d as [|[x y] d IH]; cbn.
  - repeat case_decide; naive_solver.
  - destruct (decide (k = x)) as [->|]; cbn; repeat case_decide; naive_solver.
Qed.

Lemma assoc_set_keys {V} k (v : V) d :
  (assoc_set k v d).*1 = if decide (k ∈ d.*1) then d.*1 else d.*1 ++ [k].
Proof.
  induction d as [|[x y] d IH]; cbn; [by rewrite decide_False by set_solver|].
  destruct (decide (k = x)) as [->|Hne]; cbn.
  - by rewrite decide_True by set_solver.
  - rewrite IH. destruct (decide (k ∈ d.*1)).
    + by rewrite decide_True by set_solver.
    + by rewrite decide_False by set_solver.
Qed.

Lemma assoc_get_in {V} k (v : V) d : assoc_get k d = Some v → (k, v) ∈ d.
Proof.
  induction d as [|[x y] d IH]; cbn; [done|]. destruct (decide (k = x)) as [->|]; [intros [= ->]; by left|]. right. auto.
Qed.

Lemma assoc_get_elem {V} k (d : list (str * V)) v : NoDup (map fst d) → (k, v) ∈ d → assoc_get k d = Some v.
Proof.
  induction d as [|[a b] d IH]; [by intros _ ?%elem_of_nil|]. cbn. intros [Hn Hd]%NoDup_cons. intros [[= <- <-]|H']%elem_of_cons.
  - by rewrite decide_True.
  - rewrite decide_False; [by apply IH|]. intros ->. apply Hn. apply list_elem_of_fmap. by exists (a, v).
Qed.

Lemma assoc_set_elem {V} k (v : V) d x y : (x, y) ∈ assoc_set k v d → (x = k ∧ y = v) ∨ (x, y) ∈ d.
Proof.
  induction d as [|[a b] d IH]; cbn; [intros Hs%list_elem_of_singleton; injection Hs as -> ->; by left|].
  destruct (decide (k = a)) as [->|]; intros [E|Hin]%elem_of_cons.
  - injection E as -> ->. by left.
  - right. by right.
  - right. rewrite E. by left.
  - destruct (IH Hin) as [?|?]; [by left|right; by right].
Qed.

Lemma NoDup_snoc {A} (l : list A) x : NoDup l → x ∉ l → NoDup (l ++ [x]).
Proof. intros Hl Hx. apply NoDup_app. split; [done|]. split; [set_solver|apply NoDup_singleton]. Qed.

Lemma assoc_set_NoDup {V} k (v : V) d : NoDup (map fst d) → NoDup (map fst (assoc_set k v d)).
Proof.
  intros Hd. change (NoDup (assoc_set k v d).*1). rewrite assoc_set_keys. destruct (decide _); [done|]. by apply NoDup_snoc.
Qed.

(** ** Truthiness and last-n windows *)

(** [l[-n:]] for [n > 0]. *)
Definition last_n {A} (n : nat) (l : list A) : list A := drop (length l - n) l.

Lemma last_n_length {A} n (l : list A) : length (last_n n l) = min n (length l).
Proof. unfold last_n. rewrite length_drop. lia. Qed.

Lemma last_n_le {A} n (l : list A) : length l ≤ n → last_n n l = l.
Proof. intros H. unfold last_n. by replace (length l - n) with 0 by lia. Qed.

Lemma last_n_suffix {A} n (l : list A) : last_n n l `suffix_of` l.
Proof. unfold last_n. exists (take (length l - n) l). by rewrite take_drop. Qed.

(** Unlike [injection], leaves the values as they are written. *)
Lemma Ok_inj {A} (a b : A) : Ok a = Ok b → a = b.
Proof. by intros [= ->]. Qed.

(** ** Automation *)

(** Keys of the modelled dictionaries are literals: their (in)equality computes. *)
Ltac key_ne := solve [ vm_compute; discriminate | vm_compute; congruence | done ].

Create HintDb py discriminated.
Create Rewrite HintDb py.
#[export] Hint Rewrite @last_n_length : py.
#[export] Hint Resolve sorted_set_NoDup sorted_keys_NoDup py_sorted_sorted : py.

(** Split every conjunction of the goal and close what the database closes. *)
Ltac split_auto := repeat split; try done; try lia; auto with py.
