(* ===== verification/PyStr.v ===== *)
(** The methods of Python's [str] that the modelled code calls, on code points.

    Case conversion is that of ASCII ([lower] maps A-Z); white space is Python's
    full list for [str.isspace]; the character classes of the other methods are
    the ones the callers compare with. *)

From S2P Require Import Prelude.

(** ** Characters *)

Definition is_lower (c : N) : bool := (97 <=? c)%N && (c <=? 122)%N.
Definition is_upper (c : N) : bool := (65 <=? c)%N && (c <=? 90)%N.
Definition is_alpha (c : N) : bool := is_lower c || is_upper c.
Definition is_digit (c : N) : bool := (48 <=? c)%N && (c <=? 57)%N.

(** Python's white space ([str.isspace], [str.strip()], [str.split()]). *)
Definition is_space (c : N) : bool :=
  ((9 <=? c) && (c <=? 13) || (28 <=? c) && (c <=? 32) || (c =? 133) || (c =? 160)
   || (c =? 5760) || (8192 <=? c) && (c <=? 8202) || (c =? 8232) || (c =? 8233)
   || (c =? 8239) || (c =? 8287) || (c =? 12288))%N.

Definition lower_char (c : N) : N := if is_upper c then (c + 32)%N else c.
Definition lower (s : str) : str := map lower_char s.

Definition SLASH : N := 47.
Definition DOT : N := 46.
Definition BACKSLASH : N := 92.
Definition NEWLINE : N := 10.

(** Close a goal with an equation between two different character codes. *)
Ltac discriminate_code :=
  match goal with H : @eq N _ _ |- _ => solve [vm_compute in H; discriminate H] end.

(** ** Prefixes, suffixes, substrings *)

Fixpoint startswith (s p : str) {struct p} : bool :=
  match p, s with
  | [], _ => true
  | _, [] => false
  | y :: p', x :: s' => (x =? y)%N && startswith s' p'
  end.

Definition endswith (s p : str) : bool :=
  (length p <=? length s) && bool_decide (drop (length s - length p) s = p).

(** [p in s]. *)
Fixpoint contains (s p : str) : bool :=
  startswith s p || match s with [] => false | _ :: s' => contains s' p end.

Definition any_in (l : list str) (s : str) : bool := existsb (contains s) l.

(** ** Stripping *)

Fixpoint lstrip_by (f : N → bool) (s : str) : str :=
  match s with [] => [] | c :: s' => if f c then lstrip_by f s' else s end.
Definition rstrip_by (f : N → bool) (s : str) : str := rev (lstrip_by f (rev s)).

Definition strip (s : str) : str := rstrip_by is_space (lstrip_by is_space s).
Definition rstrip (s : str) : str := rstrip_by is_space s.
Definition lstrip_char (c : N) (s : str) : str := lstrip_by (N.eqb c) s.
Definition rstrip_char (c : N) (s : str) : str := rstrip_by (N.eqb c) s.

(** ** Splitting and joining *)

(** [s.split(c)] for a one-character separator. *)
Fixpoint split_on (c : N) (s : str) : list str :=
  match s with
  | [] => [[]]
  | x :: s' =>
      if (x =? c)%N then [] :: split_on c s'
      else match split_on c s' with
           | [] => [[x]]
           | p :: ps => (x :: p) :: ps
           end
  end.

(** [sep.join(l)]. *)
Fixpoint join (sep : str) (l : list str) : str :=
  match l with
  | [] => []
  | [x] => x
  | x :: l' => x ++ sep ++ join sep l'
  end.

(** [s.split()]: on runs of white space, no empty pieces. *)
Fixpoint split_ws_aux (cur : str) (s : str) : list str :=
  match s with
  | [] => match cur with [] => [] | _ => [rev cur] end
  | c :: s' =>
      if is_space c
      then match cur with [] => split_ws_aux [] s' | _ => rev cur :: split_ws_aux [] s' end
      else split_ws_aux (c :: cur) s'
  end.
Definition split_ws (s : str) : list str := split_ws_aux [] s.

(** [s.split(sep)] for a non-empty separator of any length. *)
Fixpoint split_sep_aux (fuel : nat) (sep cur s : str) : list str :=
  match fuel with
  | 0 => [rev cur ++ s]
  | S n =>
      match s with
      | [] => [rev cur]
      | c :: s' =>
          if startswith s sep then rev cur :: split_sep_aux n sep [] (drop (length sep) s)
          else split_sep_aux n sep (c :: cur) s'
      end
  end.
Definition split_sep (sep s : str) : list str := split_sep_aux (S (length s)) sep [] s.

(** [s.rsplit("/", 1)[-1]] and [s.rsplit("/", 1)[0]]. *)
Definition basename_of (s : str) : str := List.last (split_on SLASH s) [].
Definition dirname_of (s : str) : str :=
  match split_on SLASH s with
  | [] => s
  | [_] => s
  | ps => join [SLASH] (removelast ps)
  end.

(** [s.splitlines()] (line boundaries: \n, \r, \r\n, \v, \f, the information
    separators, NEL and the Unicode line and paragraph separators). *)
Definition is_linebreak (c : N) : bool :=
  ((10 <=? c) && (c <=? 13) || (28 <=? c) && (c <=? 30) || (c =? 133)
   || (c =? 8232) || (c =? 8233))%N.

Fixpoint splitlines_aux (cur s : str) : list str :=
  match s with
  | [] => match cur with [] => [] | _ => [rev cur] end
  | 13%N :: 10%N :: s' => rev cur :: splitlines_aux [] s'
  | c :: s' => if is_linebreak c then rev cur :: splitlines_aux [] s'
               else splitlines_aux (c :: cur) s'
  end.
Definition splitlines (s : str) : list str := splitlines_aux [] s.

(** [s.replace(a, b)] for one character. *)
Definition replace_char (a b : N) (s : str) : str := map (λ c, if (c =? a)%N then b else c) s.

(** [s.replace(old, new)] for a non-empty [old]. *)
Definition replace_str (old new s : str) : str := join new (split_sep old s).

Definition upper_char (c : N) : N := if is_lower c then (c - 32)%N else c.
Definition upper (s : str) : str := map upper_char s.

Definition count_char (c : N) (s : str) : nat := length (filter (λ x, x = c) s).

(** ** Numbers *)

(** [s.isdigit()] on ASCII. *)
Definition isdigit (s : str) : bool :=
  match s with [] => false | _ => forallb is_digit s end.

(** The digits of [int(s)]: at least one, single underscores between digits. *)
Fixpoint int_digits (acc : Z) (after_digit : bool) (s : str) : option Z :=
  match s with
  | [] => if after_digit then Some acc else None
  | c :: s' =>
      if is_digit c then int_digits (acc * 10 + (Z.of_N c - 48)) true s'
      else if (c =? 95)%N && after_digit then int_digits acc false s' else None
  end.

(** [int(s)]: white space around, an optional sign, decimal digits. *)
Definition py_int (s : str) : option Z :=
  match strip s with
  | 43%N :: r => int_digits 0 false r
  | 45%N :: r => Z.opp <$> int_digits 0 false r
  | r => int_digits 0 false r
  end.

(** [str(n)] of an integer. *)
Fixpoint digits_aux (fuel : nat) (n : Z) (acc : str) : str :=
  match fuel with
  | 0 => acc
  | S f =>
      let acc' := (48 + Z.to_N (n mod 10))%N :: acc in
      if (n <? 10)%Z then acc' else digits_aux f (n / 10) acc'
  end.
Definition str_of_nat (n : Z) : str := digits_aux (S (Z.to_nat (Z.log2 n))) n [].
Definition str_of_Z (n : Z) : str :=
  if (n <? 0)%Z then 45%N :: str_of_nat (- n) else str_of_nat n.

(** [f"{n:0{w}d}"] for [0 <= n < 10 ^ w]: the [w] decimal digits of [n]. *)
Fixpoint zero_pad (w : nat) (n : Z) : str :=
  match w with
  | 0 => []
  | S w' => zero_pad w' (n / 10) ++ [(48 + Z.to_N (n mod 10))%N]
  end.

(** ** [repr]

    Whether a non-ASCII code point is printable is a table of the Unicode database;
    the development does not fix it. *)
Class Unicode := printable : N → bool.

Definition hexd (n : N) : N := (if n <? 10 then 48 + n else 87 + n)%N.
Fixpoint hex_digits (w : nat) (n : N) : str :=
  match w with 0 => [] | S w' => hex_digits w' (n / 16) ++ [hexd (n mod 16)] end.

Definition repr_char `{Unicode} (quote c : N) : str :=
  (if c =? BACKSLASH then [BACKSLASH; BACKSLASH]
   else if c =? quote then [BACKSLASH; quote]
   else if c =? 10 then [BACKSLASH; 110]
   else if c =? 13 then [BACKSLASH; 114]
   else if c =? 9 then [BACKSLASH; 116]
   else if (32 <=? c) && (c <=? 126) then [c]
   else if (128 <=? c) && printable c then [c]
   else if c <? 256 then BACKSLASH :: 120 :: hex_digits 2 c
   else if c <? 65536 then BACKSLASH :: 117 :: hex_digits 4 c
   else BACKSLASH :: 85 :: hex_digits 8 c)%N.

(** [repr(s)]: single quotes unless the string has one and no double quote. *)
Definition py_repr `{Unicode} (s : str) : str :=
  let quote := (if existsb (N.eqb 39) s && negb (existsb (N.eqb 34) s) then 34 else 39)%N in
  quote :: flat_map (repr_char quote) s ++ [quote].

(** [str(l)] of a list of strings. *)
Definition repr_list `{Unicode} (l : list str) : str := "["%py ++ join ", "%py (map py_repr l) ++ "]"%py.

(** ** Lemmas *)

Lemma startswith_spec s p : startswith s p = true ↔ p `prefix_of` s.
Proof.
  revert s. induction p as [|y p IH]; intros [|x s]; cbn.
  - split; [intros _; by exists [] | done].
  - split; [intros _; by exists (x :: s) | done].
  - split; [done | intros [k H]; discriminate].
  - rewrite andb_true_iff, N.eqb_eq, IH. split.
    + intros [-> H]. by apply prefix_cons.
    + intros H. split; [by apply prefix_cons_inv_1 in H | by apply prefix_cons_inv_2 in H].
Qed.

Lemma startswith_app p s : startswith (p ++ s) p = true.
Proof. apply startswith_spec. by exists s. Qed.

Lemma endswith_spec s p : endswith s p = true ↔ p `suffix_of` s.
Proof.
  unfold endswith. rewrite andb_true_iff, Nat.leb_le, bool_decide_eq_true. split.
  - intros [Hl H]. exists (take (length s - length p) s). rewrite <- H at 2. by rewrite take_drop.
  - intros [k ->]. rewrite length_app. split; [lia|].
    replace (length k + length p - length p) with (length k) by lia. by rewrite drop_app_length.
Qed.

Lemma endswith_app s p : endswith (s ++ p) p = true.
Proof. apply endswith_spec. by exists s. Qed.

Lemma contains_spec s p : contains s p = true ↔ ∃ a b, s = a ++ p ++ b.
Proof.
  induction s as [|x s IH]; cbn [contains]; rewrite orb_true_iff, startswith_spec.
  - split; [intros [[k H]|]; [by exists [], k | done]|].
    intros (a & b & H). left. destruct a; [by exists b | discriminate].
  - rewrite IH. split.
    + intros [[k H]|(a & b & ->)]; [by exists [], k | by exists (x :: a), b].
    + intros ([|y a] & b & H); cbn in H; [left; by exists b |].
      right. exists a, b. congruence.
Qed.

Lemma split_on_nonempty c s : split_on c s ≠ [].
Proof. destruct s; cbn; [done|]. case_match; [done|]. by case_match. Qed.

Lemma join_cons sep x l : l ≠ [] → join sep (x :: l) = x ++ sep ++ join sep l.
Proof. by destruct l. Qed.

Lemma join_snoc sep (l : list str) x : l ≠ [] → join sep (l ++ [x]) = join sep l ++ sep ++ x.
Proof.
  induction l as [|a l IH]; [done|]. intros _. destruct l as [|b l]; [done|].
  change ((a :: b :: l) ++ [x]) with (a :: ((b :: l) ++ [x])).
  rewrite !join_cons by done. rewrite IH by done. by rewrite <- !app_assoc.
Qed.

Lemma join_snoc_nil sep (l : list str) : l ≠ [] → join sep (l ++ [[] : str]) = join sep l ++ sep.
Proof. intros Hl. by rewrite join_snoc, app_nil_r. Qed.

(** Joining what [split] returned gives the string back. *)
Lemma join_split_on c s : join [c] (split_on c s) = s.
Proof.
  induction s as [|x s IH]; [done|]. cbn [split_on].
  destruct (N.eqb_spec x c) as [->|Hne].
  - rewrite join_cons by apply split_on_nonempty. cbn. by rewrite IH.
  - destruct (split_on c s) as [|p ps] eqn:E; [by destruct (split_on_nonempty c s)|].
    destruct ps as [|q ps]; cbn in *; by rewrite IH.
Qed.

(** No piece of a split contains the separator. *)
Lemma split_on_free c s : Forall (λ p, c ∉ p) (split_on c s).
Proof.
  induction s as [|x s IH]; cbn [split_on].
  - constructor; [set_solver | constructor].
  - destruct (N.eqb_spec x c) as [->|Hne]; [constructor; [set_solver | done]|].
    destruct (split_on c s) as [|p ps]; [by repeat constructor; set_solver|].
    inversion IH; subst. constructor; [|done]. set_solver.
Qed.

Lemma split_on_no_sep c s : c ∉ s → split_on c s = [s].
Proof.
  induction s as [|x s IH]; [done|]. intros H. apply not_elem_of_cons in H as [H1 H2].
  cbn [split_on]. rewrite IH by done.
  destruct (N.eqb_spec x c) as [->|]; done.
Qed.

Lemma split_on_app c s t : c ∉ s → split_on c (s ++ c :: t) = s :: split_on c t.
Proof.
  induction s as [|x s IH]; intros H; cbn.
  - by rewrite N.eqb_refl.
  - apply not_elem_of_cons in H as [H1 H2]. rewrite IH by done.
    destruct (N.eqb_spec x c) as [->|]; done.
Qed.

Lemma split_on_app_sep c s t : split_on c (s ++ c :: t) = split_on c s ++ split_on c t.
Proof.
  induction s as [|x s IH]; cbn.
  - by rewrite N.eqb_refl.
  - rewrite IH. destruct (x =? c)%N; [done|].
    destruct (split_on c s) eqn:E; [by destruct (split_on_nonempty c s)|done].
Qed.

(** [split] undoes [join] on pieces free of the separator. *)
Lemma split_on_join c l : l ≠ [] → Forall (λ p, c ∉ p) l → split_on c (join [c] l) = l.
Proof.
  induction l as [|x l IH]; [done|]. intros _ H. inversion H as [|?? Hx Hl]; subst.
  destruct l as [|y l]; [by apply split_on_no_sep|].
  rewrite join_cons by done. cbn [app]. rewrite split_on_app by done. f_equal. by apply IH.
Qed.

Lemma lower_length s : length (lower s) = length s.
Proof. apply length_map. Qed.

Lemma lower_idemp s : lower (lower s) = lower s.
Proof.
  unfold lower. rewrite map_map. apply map_ext. intros c. unfold lower_char.
  destruct (is_upper c) eqn:E; [|by rewrite E].
  destruct (is_upper (c + 32)) eqn:F; [|done]. unfold is_upper in *. lia.
Qed.

Lemma zero_pad_length w n : length (zero_pad w n) = w.
Proof. revert n. induction w as [|w IH]; intros n; cbn [zero_pad]; [done|]. rewrite length_app, IH. cbn [length]. lia. Qed.

Lemma last_digit_bounds n : (Z.of_N (Z.to_N (n mod 10)) = n mod 10 ∧ 0 <= n mod 10 < 10)%Z.
Proof. pose proof (Z.mod_pos_bound n 10 ltac:(lia)). lia. Qed.

Lemma zero_pad_isdigit w n : 0 < w → isdigit (zero_pad w n) = true.
Proof.
  intros Hw. assert (forallb is_digit (zero_pad w n) = true) as H.
  { clear Hw. revert n. induction w as [|w IH]; intros n; cbn [zero_pad]; [done|].
    rewrite forallb_app, IH. cbn [forallb andb]. rewrite andb_true_r. unfold is_digit.
    pose proof (last_digit_bounds n).
    apply andb_true_iff. rewrite !N.leb_le. split; lia. }
  unfold isdigit. destruct (zero_pad w n) eqn:E; [|done].
  pose proof (zero_pad_length w n) as Hl. rewrite E in Hl. cbn in Hl. lia.
Qed.

(** [w] digits determine [n] modulo [10 ^ w]. *)
Lemma zero_pad_inj w n m :
  zero_pad w n = zero_pad w m → (n mod 10 ^ Z.of_nat w = m mod 10 ^ Z.of_nat w)%Z.
Proof.
  revert n m. induction w as [|w IH]; intros n m H.
  - cbn. by rewrite !Z.mod_1_r.
  - cbn [zero_pad] in H. apply app_inj_tail in H as [H1 H2].
    pose proof (last_digit_bounds n). pose proof (last_digit_bounds m).
    assert (n mod 10 = m mod 10)%Z as Hd by lia. apply IH in H1.
    replace (Z.of_nat (S w)) with (1 + Z.of_nat w)%Z by lia.
    rewrite Z.pow_add_r, Z.pow_1_r by lia.
    rewrite !Z.rem_mul_r by lia. congruence.
Qed.

#[export] Hint Rewrite lower_length zero_pad_length : py.
#[export] Hint Resolve split_on_nonempty split_on_free startswith_app endswith_app : py.
