(* ===== verification/Posix.v ===== *)
(** [posixpath.join] and [posixpath.normpath], and the normal form [normpath]
    produces: one or two leading slashes, then components none of which is
    empty, "." or "..". *)

From S2P Require Import Prelude PyStr.

Definition DOTS : str := "."%py.
Definition DOTDOT : str := ".."%py.

(** [posixpath.join(a, b)]. *)
Definition path_join (a b : str) : str :=
  if startswith b [SLASH] then b
  else if bool_decide (a = []) || endswith a [SLASH] then a ++ b
  else a ++ [SLASH] ++ b.

(** The number of leading slashes [normpath] keeps: POSIX lets exactly two be
    special. *)
Definition initial_slashes (p : str) : nat :=
  if startswith p [SLASH]
  then if startswith p [SLASH; SLASH] && negb (startswith p [SLASH; SLASH; SLASH])
       then 2 else 1
  else 0.

(** One component of the loop of [normpath]; [acc] is [new_comps], last first. *)
Definition norm_step (absolute : bool) (acc : list str) (comp : str) : list str :=
  if decide (comp = [] ∨ comp = DOTS) then acc
  else if decide (comp ≠ DOTDOT ∨ (absolute = false ∧ acc = []) ∨ head acc = Some DOTDOT)
       then comp :: acc
       else tail acc.

Definition norm_comps (absolute : bool) (comps : list str) : list str :=
  rev (foldl (norm_step absolute) [] comps).

Definition normpath (p : str) : str :=
  match p with
  | [] => DOTS
  | _ =>
      let k := initial_slashes p in
      let r := repeat SLASH k ++ join [SLASH] (norm_comps (0 <? k) (split_on SLASH p)) in
      match r with [] => DOTS | _ => r end
  end.

(** ** The normal form *)

Definition good_comp (c : str) : Prop := c ≠ [] ∧ c ≠ DOTS ∧ c ≠ DOTDOT ∧ SLASH ∉ c.

#[export] Instance good_comp_dec c : Decision (good_comp c).
Proof. unfold good_comp. apply _. Defined.

(** A canonical absolute path. *)
Definition abs_path (p : str) : Prop :=
  ∃ k cs, (k = 1 ∨ k = 2) ∧ Forall good_comp cs ∧ p = repeat SLASH k ++ join [SLASH] cs.

Lemma norm_step_good acc c :
  Forall good_comp acc → SLASH ∉ c → Forall good_comp (norm_step true acc c).
Proof.
  intros Ha Hc. unfold norm_step. case_decide as H1; [done|].
  case_decide as H2; [|by destruct Ha].
  destruct H2 as [? | [[? _] | Hh]]; [|done|].
  - apply Forall_cons. split; [|done]. unfold good_comp. naive_solver.
  - destruct Ha as [|top rest Ht Hr]; [done|]. injection Hh as ->.
    by destruct Ht as (_ & _ & ? & _).
Qed.

Lemma norm_fold_good comps acc :
  Forall good_comp acc → Forall (λ c, SLASH ∉ c) comps →
  Forall good_comp (foldl (norm_step true) acc comps).
Proof.
  intros Ha Hc. revert acc Ha. induction Hc as [|c comps H _ IH]; intros acc Ha; [done|].
  cbn. by apply IH, norm_step_good.
Qed.

(** Good components pass through the loop unchanged. *)
Lemma norm_fold_id absolute comps acc :
  Forall good_comp comps → foldl (norm_step absolute) acc comps = rev comps ++ acc.
Proof.
  intros H. revert acc. induction H as [|c comps (H1 & H2 & H3 & _) _ IH]; intros acc; [done|].
  cbn. rewrite IH, <- app_assoc. f_equal. cbn. unfold norm_step.
  rewrite decide_False by naive_solver. by rewrite decide_True by auto.
Qed.

Lemma initial_slashes_abs p : startswith p [SLASH] = true → initial_slashes p = 1 ∨ initial_slashes p = 2.
Proof. unfold initial_slashes. intros ->. case_match; auto. Qed.

Lemma normpath_abs p : startswith p [SLASH] = true → abs_path (normpath p).
Proof.
  intros Hp. pose proof (initial_slashes_abs p Hp) as Hk.
  assert (p ≠ []) as Hne by (by destruct p).
  exists (initial_slashes p), (norm_comps true (split_on SLASH p)). split_and!; [done|..].
  - unfold norm_comps. apply Forall_rev, norm_fold_good; [constructor | apply split_on_free].
  - unfold normpath. destruct p as [|c p]; [done|].
    assert ((0 <? initial_slashes (c :: p)) = true) as -> by (apply Nat.ltb_lt; lia).
    destruct Hk as [-> | ->]; done.
Qed.

Lemma join_good_head cs : Forall good_comp cs → startswith (join [SLASH] cs) [SLASH] = false.
Proof.
  intros H. apply not_true_iff_false. intros [k Hk]%startswith_spec.
  destruct H as [|c cs (H1 & _ & _ & H4) _]; [done|].
  destruct c as [|x c]; [done|]. destruct cs; injection Hk as -> _; set_solver.
Qed.

Lemma join_good_no_slash_comps cs :
  Forall good_comp cs → cs ≠ [] → split_on SLASH (join [SLASH] cs) = cs.
Proof.
  intros H Hn. apply split_on_join; [done|].
  eapply Forall_impl; [done|]. by intros x (_ & _ & _ & ?).
Qed.

Lemma initial_slashes_prefixed k r :
  k = 1 ∨ k = 2 → startswith r [SLASH] = false → initial_slashes (repeat SLASH k ++ r) = k.
Proof.
  unfold initial_slashes, SLASH. intros [-> | ->] H; destruct r as [|x r]; try done;
    simpl in *; by destruct (x =? 47)%N.
Qed.

(** [normpath] leaves canonical absolute paths alone. *)
Lemma normpath_id p : abs_path p → normpath p = p.
Proof.
  intros (k & cs & Hk & Hcs & ->).
  pose proof (initial_slashes_prefixed k _ Hk (join_good_head cs Hcs)) as Hi.
  assert (norm_comps true (split_on SLASH (repeat SLASH k ++ join [SLASH] cs)) = cs) as Hn.
  { unfold norm_comps.
    assert (∀ l acc, foldl (norm_step true) acc ([] :: l) = foldl (norm_step true) acc l)
      as Hskip by done.
    assert (foldl (norm_step true) [] (split_on SLASH (join [SLASH] cs)) = rev cs) as Hj.
    { destruct (decide (cs = [])) as [-> | Hne]; [done|].
      rewrite join_good_no_slash_comps by done. by rewrite norm_fold_id, app_nil_r. }
    destruct Hk as [-> | ->]; cbn [repeat app]; cbn -[join foldl norm_step];
      rewrite ?Hskip, Hj; apply rev_involutive. }
  unfold normpath. rewrite Hi.
  destruct (repeat SLASH k ++ join [SLASH] cs) as [|c r] eqn:E.
  - destruct Hk as [-> | ->]; discriminate.
  - assert ((0 <? k) = true) as -> by (apply Nat.ltb_lt; lia).
    rewrite Hn, E. done.
Qed.

Lemma abs_path_startswith p : abs_path p → startswith p [SLASH] = true.
Proof. intros (k & cs & [-> | ->] & _ & ->); done. Qed.

Lemma abs_path_nonempty p : abs_path p → p ≠ [].
Proof. by intros (k & cs & [-> | ->] & _ & ->). Qed.

Lemma join_last_suffix sep cs c : ∃ pre, join sep (cs ++ [c]) = pre ++ c.
Proof.
  induction cs as [|d cs [pre IH]]; [by exists []|].
  cbn [app]. rewrite join_cons by (by destruct cs). rewrite IH.
  exists (d ++ sep ++ pre). by rewrite <- !app_assoc.
Qed.

(** A canonical path never ends in a slash, except the roots. *)
Lemma abs_path_no_trailing p :
  abs_path p → endswith p [SLASH] = true → p = [SLASH] ∨ p = [SLASH; SLASH].
Proof.
  intros (k & cs & Hk & Hcs & ->) [q He]%endswith_spec.
  destruct (decide (cs = [])) as [-> | Hne]; [destruct Hk as [-> | ->]; auto|]. exfalso.
  destruct (exists_last Hne) as (cs' & c & ->).
  apply Forall_app in Hcs as [_ Hc]. inversion Hc as [|? ? Hgc _]; subst. clear Hc.
  destruct Hgc as (Hc1 & _ & _ & Hc4). destruct (join_last_suffix [SLASH] cs' c) as [pre Hpre].
  rewrite Hpre in He. destruct (exists_last Hc1) as (c' & x & ->).
  rewrite !app_assoc in He. apply app_inj_tail in He as [_ ->]. set_solver.
Qed.

#[export] Hint Resolve normpath_abs abs_path_startswith abs_path_nonempty : py.
