(* ===== verification/Glob.v ===== *)
(** Shell wildcards, as Python's fnmatch module matches them: the [find] builtin and the
    gateway's decision files use them. *)

From S2P Require Import Prelude PyStr.

(** The set inside a bracket of a glob: ranges and single characters. *)
Fixpoint glob_items (s : str) (c : N) : bool :=
  match s with
  | [] => false
  | a :: ((45%N :: b :: r) as r0) => ((a <=? c)%N && (c <=? b)%N) || glob_items r c
  | a :: r => (c =? a)%N || glob_items r c
  end.

(** The text up to the closing bracket, and what follows it; a bracket in the first
    position is part of the set. *)
Definition glob_bracket (s : str) : option (str * str) :=
  let '(bang, s1) := match s with 33%N :: r => (true, r) | _ => (false, s) end in
  let '(first, s2) := match s1 with 93%N :: r => ([93%N], r) | _ => ([], s1) end in
  match split_on 93 s2 with
  | body :: _ :: _ =>
      Some ((if bang then [33%N] else []) ++ first ++ body, drop (S (length body)) s2)
  | _ => None
  end.

Definition glob_set (stuff : str) (c : N) : bool :=
  match stuff with
  | 33%N :: r => negb (glob_items r c)
  | _ => glob_items stuff c
  end.

(** [fnmatch.fnmatchcase(name, pattern)]. *)
Fixpoint glob (fuel : nat) (p s : str) : bool :=
  match fuel with
  | 0 => false
  | S f =>
      match p with
      | [] => match s with [] => true | _ => false end
      | 42%N :: p' => glob f p' s || match s with [] => false | _ :: s' => glob f p s' end
      | 63%N :: p' => match s with [] => false | _ :: s' => glob f p' s' end
      | 91%N :: p' =>
          match glob_bracket p' with
          | Some (stuff, p2) =>
              match s with [] => false | c :: s' => glob_set stuff c && glob f p2 s' end
          | None => match s with 91%N :: s' => glob f p' s' | _ => false end
          end
      | c :: p' => match s with x :: s' => (x =? c)%N && glob f p' s' | [] => false end
      end
  end.

Definition _fnmatch (name pattern : str) : bool := glob (S (length name + length pattern)) pattern name.

Example fnmatch_examples :
  [_fnmatch "id_rsa.pem" "*.pem"; _fnmatch "a.txt" "?.tx[s-u]"; _fnmatch "a" "[!a-c]";
   _fnmatch "x]" "x[]]"; _fnmatch "x[" "x["; _fnmatch "abc" "*"; _fnmatch ".bashrc" "*bash"]%py
  = [true; true; false; true; true; true; false].
Proof. vm_compute. reflexivity. Qed.

(** ** Literal prefixes *)

(** A character that only matches itself. *)
Definition literal (c : N) : Prop := c ≠ 42%N ∧ c ≠ 63%N ∧ c ≠ 91%N.

Lemma glob_literal f c p s : literal c →
  glob (S f) (c :: p) s = match s with x :: s' => (x =? c)%N && glob f p s' | [] => false end.
Proof.
  intros (H1&H2&H3). destruct c as [|c]; [done|].
  do 7 (destruct c as [c|c|]; try done).
Qed.

Lemma glob_star f s : S (length s) < f → glob f [42%N] s = true.
Proof.
  revert f. induction s as [|x s IH]; intros [|[|f]] Hf; cbn in Hf; try lia; [done|].
  assert (glob (S (S f)) [42%N] (x :: s) = (glob (S f) [] (x :: s) || glob (S f) [42%N] s)) as -> by done.
  by rewrite IH by lia.
Qed.

Lemma glob_prefix f pre s : Forall literal pre → S (length pre + length s) < f →
  glob f (pre ++ [42%N]) s = startswith s pre.
Proof.
  intros Hl. revert f s. induction Hl as [|c pre Hc _ IH]; intros f s Hf.
  - cbn [app startswith]. rewrite glob_star by (cbn in Hf; lia). by destruct s.
  - destruct f as [|f]; [lia|]. cbn [app]. rewrite glob_literal by done. cbn in Hf.
    destruct s as [|x s]; [done|]. cbn in Hf. rewrite IH by lia. done.
Qed.

(** A pattern of literal characters and one star matches the names it begins. *)
Lemma fnmatch_prefix pre name : Forall literal pre →
  _fnmatch name (pre ++ [42%N]) = startswith name pre.
Proof. intros Hl. unfold _fnmatch. rewrite glob_prefix; [done|done|]. rewrite length_app. cbn. lia. Qed.
