(* ===== verification/Vfs.v ===== *)
(** plenith/vfs.py: the virtual file system of one deception session.

    [vfs] is the object's five attributes.  A dynamic renderer is a Python
    callable; here it is a value of a type [R], and [run r] is what calling it
    now returns ([None] when it raises), so the same state can be read while the
    renderers' output changes.  The methods take and return the state; the
    sequences of calls a session makes are lists of [vfs_op]. *)

From S2P Require Import Prelude PyStr Posix.

Definition setdefault {V} (k : str) (x : V) (m : gmap str V) : gmap str V :=
  match m !! k with Some _ => m | None => <[k := x]> m end.

Lemma setdefault_lookup {V} k (x : V) m j :
  setdefault k x m !! j = if decide (j = k) then Some (default x (m !! k)) else m !! j.
Proof.
  unfold setdefault. destruct (m !! k) eqn:E; case_decide; subst; rewrite ?E; cbn; try done.
  - by rewrite lookup_insert_eq.
  - by rewrite lookup_insert_ne.
Qed.

(** ** Paths *)

(** [x or d] for an optional string. *)
Definition str_or (o : option str) (d : str) : str :=
  match o with Some [] => d | Some s => s | None => d end.

Definition truthy_opt (o : option str) : bool :=
  match o with Some (_ :: _) => true | _ => false end.

Definition expand_tilde (path : str) (home : option str) : str :=
  if bool_decide (path = "~"%py) || startswith path "~/"%py then
    if truthy_opt home then str_or home [] ++ drop 1 path
    else [SLASH] ++ lstrip_char SLASH (drop 1 path)
  else path.

Definition _canon (path : str) (cwd home : option str) : str :=
  match path with
  | [] => []
  | _ =>
      let path := expand_tilde path home in
      let path := if startswith path [SLASH] then path
                  else path_join (str_or cwd [SLASH]) path in
      replace_char BACKSLASH SLASH (normpath path)
  end.

(** ** The state *)

Record vfs {R : Type} := mk_vfs {
  _files : gmap str str;
  _baseline : gmap str str;
  _deleted : gset str;
  _dynamic : gmap str R;
  _tampered : gset str;
}.
Arguments vfs : clear implicits.
Arguments mk_vfs {R} _ _ _ _ _.

(** What [to_dict] writes and [restore] reads ([data.get] of an absent key is
    [None]). *)
Record vfs_dict := mk_vfs_dict {
  d_files : option (gmap str str);
  d_baseline : option (gmap str str);
  d_deleted : option (list str);
  d_tampered : option (list str);
}.

Section vfs.
Context {R : Type} (run : R → option str).
Implicit Types v : vfs R.

Definition empty_vfs : vfs R := mk_vfs ∅ ∅ ∅ ∅ ∅.

(** [VirtualFS(seed_files)]: the seeds in the dict's order, a later one
    overwriting an earlier one with the same canonical path. *)
Definition init_vfs (seed_files : list (str * str)) : vfs R :=
  foldl (λ v pc, let c := _canon pc.1 None None in
                 mk_vfs (<[c := pc.2]> (_files v)) (<[c := pc.2]> (_baseline v)) ∅ ∅ ∅)
    empty_vfs seed_files.

Definition register_dynamic (path : str) (renderer : R) (cwd home : option str) v : vfs R :=
  mk_vfs (_files v) (_baseline v) (_deleted v)
    (<[_canon path cwd home := renderer]> (_dynamic v)) (_tampered v).

(** The part of [read] after the renderer: the stored content, snapshotting
    the baseline on the first read. *)
Definition read_static (p : str) v : option str * vfs R :=
  match _files v !! p with
  | Some b => (Some b, mk_vfs (_files v) (setdefault p b (_baseline v)) (_deleted v)
                         (_dynamic v) (_tampered v))
  | None => (None, v)
  end.

Definition read (path : str) (cwd home : option str) v : option str * vfs R :=
  let p := _canon path cwd home in
  if decide (p ∈ _deleted v) then (None, v) else
  match _dynamic v !! p with
  | Some r =>
      if decide (p ∈ _tampered v) then read_static p v else
      match run r with
      | Some fresh =>
          (Some fresh, mk_vfs (<[p := fresh]> (_files v)) (setdefault p fresh (_baseline v))
                         (_deleted v) (_dynamic v) (_tampered v))
      | None => read_static p v
      end
  | None => read_static p v
  end.

Definition exists_ (path : str) (cwd home : option str) v : bool :=
  let p := _canon path cwd home in
  bool_decide (is_Some (_files v !! p) ∧ p ∉ _deleted v).

Definition write (path content : str) (cwd home : option str) (append tamper : bool) v : vfs R :=
  let p := _canon path cwd home in
  let old := default [] (_files v !! p) in
  mk_vfs (<[p := if append then old ++ content else content]> (_files v))
    (setdefault p old (_baseline v))
    (_deleted v ∖ {[p]}) (_dynamic v)
    (if tamper then {[p]} ∪ _tampered v else _tampered v).

Definition touch (path : str) (cwd home : option str) v : vfs R :=
  let p := _canon path cwd home in
  mk_vfs (setdefault (V:=str) p [] (_files v)) (_baseline v) (_deleted v ∖ {[p]}) (_dynamic v)
    ({[p]} ∪ _tampered v).

Definition unlink (path : str) (cwd home : option str) v : vfs R :=
  let p := _canon path cwd home in
  mk_vfs (delete p (_files v)) (_baseline v) ({[p]} ∪ _deleted v) (_dynamic v)
    ({[p]} ∪ _tampered v).

(** The paths of [_files] that are not tombstoned. *)
Definition live_paths v : list str :=
  filter (λ p, p ∉ _deleted v) (map fst (map_to_list (_files v))).

Definition list_under (prefix : str) (cwd home : option str) v : list str :=
  let pfx := rstrip_char SLASH (_canon prefix cwd home) ++ [SLASH] in
  py_sorted (filter (λ p, startswith p pfx = true) (live_paths v)).

Definition dir_prefix (canon : str) : str :=
  if decide (canon = [SLASH]) then [SLASH] else rstrip_char SLASH canon ++ [SLASH].

(** One path of the loop of [list_directory_typed]: the child it contributes,
    [inl] a file, [inr] an inferred directory. *)
Definition dir_child (prefix p : str) : option (str + str) :=
  if startswith p prefix then
    match drop (length prefix) p with
    | [] => None
    | rest => match split_on SLASH rest with
              | [f] => Some (inl f)
              | d :: _ => Some (inr d)
              | [] => None
              end
    end
  else None.

Definition list_directory_typed (path : str) (cwd home : option str) v : list str * list str :=
  let prefix := dir_prefix (_canon path cwd home) in
  let cs := omap (dir_child prefix) (live_paths v) in
  (sorted_set (list_to_set (omap (λ c, match c with inl f => Some f | _ => None end) cs)),
   sorted_set (list_to_set (omap (λ c, match c with inr d => Some d | _ => None end) cs))).

Definition snapshot v : gmap str str := filter (λ pc, pc.1 ∉ _deleted v) (_files v).

Definition baseline_for (path : str) (cwd home : option str) v : option str :=
  _baseline v !! _canon path cwd home.

Definition tampered_files v : list str := sorted_set (_tampered v).

Definition to_dict v : vfs_dict :=
  mk_vfs_dict (Some (_files v)) (Some (_baseline v)) (Some (sorted_set (_deleted v)))
    (Some (sorted_set (_tampered v))).

(** [restore] replaces every attribute, so the state before it is irrelevant. *)
Definition restore (data : vfs_dict) : vfs R :=
  mk_vfs (default ∅ (d_files data)) (default ∅ (d_baseline data))
    (list_to_set (default [] (d_deleted data))) ∅ (list_to_set (default [] (d_tampered data))).

(** ** Sequences of calls *)

Inductive vfs_op :=
| ORead (path : str) (cwd home : option str)
| OWrite (path content : str) (cwd home : option str) (append tamper : bool)
| OTouch (path : str) (cwd home : option str)
| OUnlink (path : str) (cwd home : option str)
| ORegister (path : str) (renderer : R) (cwd home : option str).

Definition exec_op v (o : vfs_op) : vfs R :=
  match o with
  | ORead p c h => (read p c h v).2
  | OWrite p x c h a t => write p x c h a t v
  | OTouch p c h => touch p c h v
  | OUnlink p c h => unlink p c h v
  | ORegister p r c h => register_dynamic p r c h v
  end.

Definition exec_ops (ops : list vfs_op) v : vfs R := foldl exec_op v ops.

(** The operation changes the content stored at [p] on the attacker's or the
    system's behalf. *)
Definition mutates (p : str) (o : vfs_op) : bool :=
  match o with
  | OWrite q _ c h _ _ | OTouch q c h | OUnlink q c h => bool_decide (_canon q c h = p)
  | ORead _ _ _ | ORegister _ _ _ _ => false
  end.

(** ** Invariant: a tombstone is never also a file, and only an attacker's
    operation leaves one. *)
Definition vfs_inv v : Prop := _deleted v ## dom (_files v) ∧ _deleted v ⊆ _tampered v.
End vfs.

(** ** Canonical paths *)

Definition no_backslash (s : str) : Prop := BACKSLASH ∉ s.
Definition abs_opt (o : option str) : Prop := abs_path (str_or o [SLASH]).

Lemma join_elem sep l c : c ∈ join sep l → c ∈ sep ∨ ∃ p, p ∈ l ∧ c ∈ p.
Proof.
  induction l as [|x l IH]; [set_solver|]. destruct (decide (l = [])) as [-> | Hne].
  - intros H. right. exists x. set_solver.
  - rewrite join_cons by done. rewrite !elem_of_app. set_solver.
Qed.

Lemma split_on_elem c s p x : p ∈ split_on c s → x ∈ p → x ∈ s.
Proof.
  revert p. induction s as [|y s IH]; intros p; cbn [split_on].
  - intros ->%list_elem_of_singleton. done.
  - destruct (y =? c)%N.
    + rewrite elem_of_cons. intros [-> | H] Hx; [by apply not_elem_of_nil in Hx|].
      right. eauto.
    + destruct (split_on c s) as [|q qs].
      * intros ->%list_elem_of_singleton. rewrite list_elem_of_singleton. intros ->. left.
      * rewrite elem_of_cons. intros [-> | H] Hx; [|right; eapply IH; eauto; by right].
        apply elem_of_cons in Hx as [-> | Hx]; [left | right; eapply IH; eauto; left].
Qed.

Lemma norm_step_elem b acc c p : p ∈ norm_step b acc c → p ∈ acc ∨ p = c.
Proof.
  unfold norm_step. destruct (decide _); [auto|]. destruct (decide _).
  - intros ?%elem_of_cons. tauto.
  - destruct acc; [by left|]. cbn. intros Hp. left. by right.
Qed.

Lemma norm_fold_elem b comps acc p :
  p ∈ foldl (norm_step b) acc comps → p ∈ acc ∨ p ∈ comps.
Proof.
  revert acc. induction comps as [|c comps IH]; intros acc; cbn; [auto|].
  intros [H | H]%IH; [apply norm_step_elem in H as [|]; subst; [auto | right; left] | right; by right].
Qed.

Lemma repeat_elem {A} (x c : A) k : c ∈ repeat x k → c = x.
Proof. rewrite list_elem_of_In. intros H. by apply repeat_spec in H. Qed.

Lemma normpath_elem p c : c ∈ normpath p → c ∈ p ∨ c = SLASH ∨ c = DOT.
Proof.
  unfold normpath. destruct p as [|x p]; [set_solver|].
  destruct (repeat _ _ ++ _) eqn:E; [set_solver|]. rewrite <- E.
  intros [H%repeat_elem | [H | (q & Hq & Hx)]%join_elem]%elem_of_app; [auto|set_solver|].
  unfold norm_comps in Hq. rewrite list_elem_of_In, <- in_rev, <- list_elem_of_In in Hq.
  apply norm_fold_elem in Hq as [Hq | Hq]; [set_solver|]. left. by eapply split_on_elem.
Qed.

Lemma replace_char_absent a b s : a ∉ s → replace_char a b s = s.
Proof.
  unfold replace_char. intros H. rewrite <- (map_id s) at 2. apply map_ext_in. intros x Hx.
  destruct (N.eqb_spec x a) as [->|]; [|done]. by apply list_elem_of_In in Hx.
Qed.

Lemma expand_tilde_elem path home c :
  c ∈ expand_tilde path home → c ∈ path ∨ c = SLASH ∨ c ∈ str_or home [].
Proof.
  unfold expand_tilde. destruct (_ || _); [|auto]. destruct (truthy_opt home).
  - intros [|H]%elem_of_app; [auto|]. left.
    rewrite <- (take_drop 1 path). set_solver.
  - intros [H%list_elem_of_singleton | H]%elem_of_app; [auto|]. left.
    rewrite <- (take_drop 1 path). apply elem_of_app. right. revert H.
    generalize (drop 1 path) as s. unfold lstrip_char. induction s as [|y s IH]; [done|].
    cbn [lstrip_by]. destruct (SLASH =? y)%N; [|done]. intros H. right. auto.
Qed.

Lemma expand_tilde_abs p home : startswith p [SLASH] = true → expand_tilde p home = p.
Proof. intros [k ->]%startswith_spec. reflexivity. Qed.

Lemma path_join_abs a b : abs_path a → startswith (path_join a b) [SLASH] = true.
Proof.
  intros Ha%abs_path_startswith. unfold path_join. destruct (startswith b [SLASH]) eqn:E; [done|].
  apply startswith_spec in Ha as [k ->]. by destruct (_ || _).
Qed.

Lemma path_join_elem a b c : c ∈ path_join a b → c ∈ a ∨ c ∈ b ∨ c = SLASH.
Proof.
  unfold path_join. destruct (startswith b _); [auto|]. destruct (_ || _);
    rewrite ?elem_of_app, ?list_elem_of_singleton; tauto.
Qed.

Lemma str_or_no_backslash o d : no_backslash (str_or o []) → BACKSLASH ∉ d → BACKSLASH ∉ str_or o d.
Proof. by destruct o as [[|]|]. Qed.

(** The canonical form is absolute and free of backslashes. *)
Lemma canon_abs path cwd home :
  path ≠ [] → abs_opt cwd →
  no_backslash path → no_backslash (str_or cwd []) → no_backslash (str_or home []) →
  abs_path (_canon path cwd home) ∧ no_backslash (_canon path cwd home).
Proof.
  intros Hne Hcwd Hp Hc Hh.
  set (e := expand_tilde path home).
  set (q := if startswith e [SLASH] then e else path_join (str_or cwd [SLASH]) e).
  assert (startswith q [SLASH] = true) as Hq.
  { unfold q. destruct (startswith e [SLASH]) eqn:E; [done|].
    by apply path_join_abs. }
  assert (BACKSLASH ∉ q) as Hb.
  { assert (BACKSLASH ∉ e) as He.
    { intros [|[|]]%expand_tilde_elem; [by apply Hp | discriminate_code | by apply Hh]. }
    unfold q. destruct (startswith _ _); [done|].
    intros [H | [H | H]]%path_join_elem; [|done|discriminate_code].
    revert H. apply str_or_no_backslash; [done|].
    intros ?%list_elem_of_singleton. discriminate_code. }
  assert (_canon path cwd home = normpath q) as ->.
  { unfold _canon. destruct path; [done|]. apply replace_char_absent.
    intros [|[|]]%normpath_elem; [done | discriminate_code..]. }
  split; [by apply normpath_abs|]. intros [|[|]]%normpath_elem; [done | discriminate_code..].
Qed.

(** Canonicalising a canonical path changes nothing. *)
Lemma canon_id p cwd home : abs_path p → no_backslash p → _canon p cwd home = p.
Proof.
  intros Habs Hb. pose proof (abs_path_startswith _ Habs) as Hs.
  pose proof (expand_tilde_abs _ home Hs) as He.
  unfold _canon. destruct p as [|x r] eqn:E; [by apply abs_path_nonempty in Habs|].
  rewrite He, Hs. cbv iota zeta. rewrite normpath_id by done. by apply replace_char_absent.
Qed.

(** every key the file system uses is a canonical absolute path.  With an
    absolute working directory (or none) and no backslash in the inputs,
    [_canon] maps each non-empty spelling of a path (tilde, relative, doubled or
    trailing slashes, dot components) to one or two slashes followed by
    components that are not empty, dot or dot-dot, and canonicalising that again
    changes nothing, whatever the working directory and home are by then. *)
Theorem canon_canonical path cwd home cwd' home' :
  path ≠ [] → abs_opt cwd →
  no_backslash path → no_backslash (str_or cwd []) → no_backslash (str_or home []) →
  abs_path (_canon path cwd home) ∧
  _canon (_canon path cwd home) cwd' home' = _canon path cwd home.
Proof.
  intros Hne Hcwd Hp Hc Hh. destruct (canon_abs path cwd home) as [Ha Hb]; [done..|].
  split; [done | by apply canon_id].
Qed.

Definition canon_example : str := "~/projects/../.ssh//authorized_keys"%py.

Lemma canon_canonical_witness :
  _canon canon_example (Some "/tmp"%py) (Some "/home/jdoe"%py) = "/home/jdoe/.ssh/authorized_keys"%py ∧
  abs_path (_canon canon_example (Some "/tmp"%py) (Some "/home/jdoe"%py)).
Proof.
  split; [vm_compute; reflexivity|].
  assert (abs_opt (Some "/tmp"%py)) as H.
  { exists 1, ["tmp"%py]. split; [by left|]. split; [|reflexivity].
    constructor; [|constructor]. apply (bool_decide_unpack _). vm_compute. exact I. }
  apply (canon_canonical canon_example (Some "/tmp"%py) (Some "/home/jdoe"%py) None None).
  - discriminate.
  - exact H.
  - apply (bool_decide_unpack _). vm_compute. exact I.
  - apply (bool_decide_unpack _). vm_compute. exact I.
  - apply (bool_decide_unpack _). vm_compute. exact I.
Defined.

(** ** Lemmas on the operations *)

Section vfs_facts.
Context {R : Type} (run : R → option str).
Implicit Types v : vfs R.

Lemma read_static_frame p v :
  _files (read_static p v).2 = _files v ∧ _deleted (read_static p v).2 = _deleted v ∧
  _tampered (read_static p v).2 = _tampered v ∧ _dynamic (read_static p v).2 = _dynamic v ∧
  (read_static p v).1 = _files v !! p.
Proof. unfold read_static. by destruct (_files v !! p). Qed.

(** A read changes neither the tombstones nor the tampering flags nor the
    renderers, and stores at most the fresh render of its own path. *)
Lemma read_frame path cwd home v :
  let v' := (read run path cwd home v).2 in
  _deleted v' = _deleted v ∧ _tampered v' = _tampered v ∧ _dynamic v' = _dynamic v ∧
  (_files v' = _files v ∨
   ∃ fresh, _canon path cwd home ∉ _tampered v ∧ _canon path cwd home ∉ _deleted v ∧
            _files v' = <[_canon path cwd home := fresh]> (_files v)).
Proof.
  unfold read. pose proof (read_static_frame (_canon path cwd home) v) as (?&?&?&?&?).
  repeat case_match; cbn; naive_solver.
Qed.

Lemma exec_inv o v : vfs_inv v → vfs_inv (exec_op run v o).
Proof.
  intros [Hd Ht]. destruct o as [p c h|p x c h a t|p c h|p c h|p r c h]; cbn.
  - destruct (read_frame p c h v) as (E1 & E2 & E3 & E4). unfold vfs_inv.
    rewrite E1, E2. destruct E4 as [-> | (f & H1 & H2 & ->)]; [done|].
    rewrite dom_insert_L. set_solver.
  - unfold vfs_inv, write. cbn. rewrite dom_insert_L. destruct t; set_solver.
  - unfold vfs_inv, touch, setdefault. cbn.
    destruct (_files v !! _canon p c h); [|rewrite dom_insert_L]; set_solver.
  - unfold vfs_inv, unlink. cbn. rewrite dom_delete_L. set_solver.
  - done.
Qed.

Lemma exec_ops_inv ops v : vfs_inv v → vfs_inv (exec_ops run ops v).
Proof. revert v. induction ops as [|o ops IH]; intros v H; [done|]. by apply IH, exec_inv. Qed.

Lemma vfs_init_inv seeds : vfs_inv (init_vfs (R := R) seeds).
Proof.
  unfold init_vfs. assert (vfs_inv (@empty_vfs R)) as H by (split; set_solver).
  assert (_deleted (@empty_vfs R) = ∅ ∧ _tampered (@empty_vfs R) = ∅) as [Hd Ht] by done.
  revert H Hd Ht. generalize (@empty_vfs R). induction seeds as [|s seeds IH]; intros v H Hd Ht;
    [done|]. cbn. apply IH; [split; set_solver | done..].
Qed.

Lemma setdefault_keeps {V} k (x : V) m j y : m !! j = Some y → setdefault k x m !! j = Some y.
Proof. intros H. rewrite setdefault_lookup. case_decide; subst; rewrite ?H; done. Qed.

Lemma exec_baseline o v p b :
  _baseline v !! p = Some b → _baseline (exec_op run v o) !! p = Some b.
Proof.
  intros H. destruct o; cbn; try done; [|by apply setdefault_keeps].
  unfold read, read_static. repeat case_match; cbn; try done; by apply setdefault_keeps.
Qed.

(** On a path the attacker has touched, [read] returns the stored content
    (nothing when it is tombstoned) whatever the renderers do. *)
Lemma read_tampered path cwd home v :
  _canon path cwd home ∈ _tampered v →
  (read run path cwd home v).1 =
    if decide (_canon path cwd home ∈ _deleted v) then None else _files v !! _canon path cwd home.
Proof.
  intros H. unfold read. pose proof (read_static_frame (_canon path cwd home) v) as (_&_&_&_&E).
  case_decide; [done|]. destruct (_dynamic v !! _canon path cwd home); [|done].
  by rewrite decide_True.
Qed.

Lemma exec_tampered_frame o v p :
  p ∈ _tampered v → mutates p o = false →
  p ∈ _tampered (exec_op run v o) ∧
  (p ∈ _deleted (exec_op run v o) ↔ p ∈ _deleted v) ∧
  _files (exec_op run v o) !! p = _files v !! p.
Proof.
  intros Ht Hm. destruct o as [q c h|q x c h a t|q c h|q c h|q r c h]; cbn in Hm |- *;
    try apply bool_decide_eq_false in Hm.
  - destruct (read_frame q c h v) as (E1 & E2 & E3 & E4). rewrite E1, E2.
    destruct E4 as [-> | (f & H1 & H2 & ->)]; [done|].
    rewrite lookup_insert_ne by (by intros <-). done.
  - rewrite lookup_insert_ne by done. destruct t; set_solver.
  - rewrite setdefault_lookup, decide_False by done. set_solver.
  - rewrite lookup_delete_ne by done. set_solver.
  - done.
Qed.
End vfs_facts.

(** ** Properties *)

(** the representation invariant.  After any sequence of reads, writes,
    touches, deletions and renderer registrations on a freshly seeded file
    system, a tombstoned path holds no file, and every tombstone is recorded as
    attacker tampering. *)
Theorem vfs_reachable_inv {R} (run : R → option str) seeds ops :
  vfs_inv (exec_ops run ops (init_vfs seeds)).
Proof. apply exec_ops_inv, vfs_init_inv. Qed.

(** the baseline of a path is immutable.  Once a path's planted content has
    been snapshotted, no later sequence of operations changes what
    [baseline_for] returns for it. *)
Theorem baseline_immutable {R} (run : R → option str) ops (v : vfs R) path cwd home b :
  baseline_for path cwd home v = Some b →
  baseline_for path cwd home (exec_ops run ops v) = Some b.
Proof.
  unfold baseline_for. revert v. induction ops as [|o ops IH]; intros v H; [done|].
  by apply IH, exec_baseline.
Qed.

(** the attacker's modification of a path persists.  Once a path is marked as
    tampered, any sequence of operations that does not itself write, touch or
    delete the path leaves what [read] returns for it unchanged, whatever the
    dynamic renderers produce (or raise), also when one is registered for the
    path in between. *)
Theorem tamper_preserved {R} (run : R → option str) ops (v : vfs R) path cwd home :
  _canon path cwd home ∈ _tampered v →
  forallb (λ o, negb (mutates (_canon path cwd home) o)) ops = true →
  (read run path cwd home (exec_ops run ops v)).1 = (read run path cwd home v).1.
Proof.
  revert v. induction ops as [|o ops IH]; intros v Ht Hops; [done|].
  cbn in Hops. apply andb_true_iff in Hops as [Ho%negb_true_iff Hops].
  destruct (exec_tampered_frame run o v _ Ht Ho) as (H1 & H2 & H3).
  etransitivity; [by apply IH|]. rewrite !read_tampered by done. rewrite H3.
  do 2 case_decide; tauto.
Qed.

(** write, then read.  After an attacker's write the path reads as the new
    content, or as the old content followed by the new one when the write
    appends, under every spelling of the path; every other path keeps its
    stored content. *)
Theorem write_read {R} (run : R → option str) (v : vfs R) path content cwd home append
    path' cwd' home' :
  let p := _canon path cwd home in let p' := _canon path' cwd' home' in
  let v' := write path content cwd home append true v in
  (p' = p → (read run path' cwd' home' v').1 =
     Some (if append then default [] (_files v !! p) ++ content else content)) ∧
  (p' ≠ p → p' ∈ _tampered v →
     (read run path' cwd' home' v').1 = (read run path' cwd' home' v).1).
Proof.
  intros p p' v'. split.
  - intros E. rewrite read_tampered; fold p'; rewrite E; cbn; [|set_solver].
    rewrite decide_False by set_solver. by rewrite lookup_insert_eq.
  - intros E Ht. rewrite !read_tampered by (cbn; set_solver). fold p'. cbn. fold p.
    rewrite lookup_insert_ne by done. do 2 case_decide; set_solver.
Qed.

Definition wr_state : vfs unit := init_vfs [("/tmp/foo", "a\n")]%py.

Lemma write_read_witness :
  (read (λ _ : unit, None) "/tmp/./foo"%py None None
     (write "foo"%py "b\n"%py (Some "/tmp"%py) None true true wr_state)).1 = Some "a\nb\n"%py.
Proof.
  rewrite (proj1 (write_read (λ _ : unit, None) wr_state "foo"%py "b\n"%py (Some "/tmp"%py) None
    true "/tmp/./foo"%py None None) ltac:(vm_compute; reflexivity)).
  vm_compute. reflexivity.
Defined.

Lemma tamper_preserved_witness :
  (read (λ _ : unit, Some "fresh"%py) "/tmp/foo"%py None None
     (exec_ops (λ _ : unit, Some "fresh"%py)
        [ORegister "/tmp/foo"%py tt None None; ORead "/tmp/foo"%py None None]
        (unlink "/tmp/foo"%py None None wr_state))).1 = None.
Proof.
  rewrite (tamper_preserved (λ _ : unit, Some "fresh"%py)
    [ORegister "/tmp/foo"%py tt None None; ORead "/tmp/foo"%py None None]);
    [vm_compute; reflexivity | | vm_compute; reflexivity].
  apply (bool_decide_unpack _). vm_compute. exact I.
Defined.

Lemma baseline_immutable_witness :
  baseline_for "/tmp/foo"%py None None
    (exec_ops (λ _ : unit, None)
       [OWrite "/tmp/foo"%py "x"%py None None false true; OUnlink "/tmp/foo"%py None None] wr_state)
  = Some "a\n"%py.
Proof. apply baseline_immutable. vm_compute. reflexivity. Defined.

(** ** Listing *)

Lemma live_paths_elem {R} (v : vfs R) p :
  p ∈ live_paths v ↔ is_Some (_files v !! p) ∧ p ∉ _deleted v.
Proof.
  unfold live_paths. rewrite list_elem_of_filter, <- (py_sorted_elem (map _ _)).
  fold (sorted_keys (_files v)). rewrite sorted_keys_elem. tauto.
Qed.

Lemma dir_child_file prefix p f :
  dir_child prefix p = Some (inl f) ↔ p = prefix ++ f ∧ f ≠ [] ∧ SLASH ∉ f.
Proof.
  unfold dir_child. destruct (startswith p prefix) eqn:E.
  - apply startswith_spec in E as [r ->]. rewrite drop_app_length.
    transitivity (r ≠ [] ∧ split_on SLASH r = [f]).
    { destruct r as [|x r]; [naive_solver|].
      destruct (split_on SLASH (x :: r)) as [|a [|b l]]; naive_solver. }
    split.
    + intros [Hr Hs]. pose proof (join_split_on SLASH r) as Hj. rewrite Hs in Hj. cbn in Hj. subst.
      pose proof (split_on_free SLASH r) as Hf. rewrite Hs in Hf. by inversion Hf.
    + intros (->%app_inv_head & ? & ?). by rewrite split_on_no_sep.
  - split; [done|]. intros (-> & _). by rewrite startswith_app in E.
Qed.

Lemma dir_child_dir prefix p d :
  dir_child prefix p = Some (inr d) ↔ SLASH ∉ d ∧ ∃ rest, p = prefix ++ d ++ [SLASH] ++ rest.
Proof.
  unfold dir_child. destruct (startswith p prefix) eqn:E.
  - apply startswith_spec in E as [r ->]. rewrite drop_app_length.
    transitivity (∃ q l, split_on SLASH r = d :: q :: l).
    { destruct r as [|x r]; [cbn; naive_solver|].
      destruct (split_on SLASH (x :: r)) as [|a [|b l]]; naive_solver. }
    split.
    + intros (q & l & Hs). pose proof (join_split_on SLASH r) as Hj. rewrite Hs in Hj.
      rewrite join_cons in Hj by done. pose proof (split_on_free SLASH r) as Hf.
      rewrite Hs in Hf. inversion Hf; subst. eauto.
    + intros (Hd & rest & ->%app_inv_head). cbn. rewrite split_on_app by done.
      destruct (split_on SLASH rest) as [|q l] eqn:Hs; [by destruct (split_on_nonempty SLASH rest)|].
      eauto.
  - split; [done|]. intros (_ & rest & ->). by rewrite startswith_app in E.
Qed.

(** directory listings.  [list_directory_typed] returns, sorted and without
    duplicates, exactly the immediate children of the directory: a name is
    listed as a file iff the directory's prefix followed by the name is a live
    file, and as a directory iff some live file lies below it. *)
Theorem list_directory_correct {R} (v : vfs R) path cwd home :
  let prefix := dir_prefix (_canon path cwd home) in
  let live p := is_Some (_files v !! p) ∧ p ∉ _deleted v in
  let fs := (list_directory_typed path cwd home v).1 in
  let ds := (list_directory_typed path cwd home v).2 in
  (∀ f, f ∈ fs ↔ f ≠ [] ∧ SLASH ∉ f ∧ live (prefix ++ f)) ∧
  (∀ d, d ∈ ds ↔ SLASH ∉ d ∧ ∃ rest, live (prefix ++ d ++ [SLASH] ++ rest)) ∧
  NoDup fs ∧ NoDup ds ∧ Sorted str_le fs ∧ Sorted str_le ds.
Proof.
  cbn zeta. unfold list_directory_typed. cbn [fst snd].
  split_and!; try apply sorted_set_NoDup; try apply py_sorted_sorted.
  - intros f. rewrite sorted_set_elem, elem_of_list_to_set. setoid_rewrite list_elem_of_omap.
    setoid_rewrite list_elem_of_omap. setoid_rewrite live_paths_elem. split.
    + intros ([a|a] & (p & Hp & Hc) & [= ->]). apply dir_child_file in Hc as (-> & ? & ?). done.
    + intros (H1 & H2 & H3). exists (inl f). split; [|done]. exists (dir_prefix (_canon path cwd home) ++ f).
      split; [done|]. by apply dir_child_file.
  - intros d. rewrite sorted_set_elem, elem_of_list_to_set. setoid_rewrite list_elem_of_omap.
    setoid_rewrite list_elem_of_omap. setoid_rewrite live_paths_elem. split.
    + intros ([a|a] & (p & Hp & Hc) & [= ->]). apply dir_child_dir in Hc as (? & rest & ->). eauto.
    + intros (H1 & rest & H3). exists (inr d). split; [|done]. eexists. split; [exact H3|].
      apply dir_child_dir. eauto.
Qed.

(** ** The abstract file system: a map from canonical paths to contents *)

Definition spec_write (p content : str) (append : bool) (m : gmap str str) : gmap str str :=
  <[p := if append then default [] (m !! p) ++ content else content]> m.
Definition spec_touch (p : str) (m : gmap str str) : gmap str str := setdefault (V:=str) p [] m.
Definition spec_unlink (p : str) (m : gmap str str) : gmap str str := delete p m.

(** What an active renderer supplies for a path: nothing once it is tampered. *)
Definition fresh_of {R} (run : R → option str) (v : vfs R) (p : str) : option str :=
  if decide (p ∈ _tampered v) then None else _dynamic v !! p ≫= run.

Lemma snapshot_files {R} (v : vfs R) : vfs_inv v → snapshot v = _files v.
Proof.
  intros [Hd _]. apply map_filter_id. intros p c Hp. cbn.
  assert (p ∈ dom (_files v)) by (by apply elem_of_dom). set_solver.
Qed.

(** C35: refinement.  In every reachable state the virtual file system implements
    the abstract one, a map from canonical paths to contents, seen through
    [snapshot]: writing, touching and deleting are the map's insert, insert if
    absent and delete; [exists] is membership; [read] returns the active
    renderer's output, storing it, and otherwise the map's entry. *)
Theorem vfs_refines {R} (run : R → option str) seeds ops path cwd home content append tamper :
  let v := exec_ops run ops (init_vfs seeds) in
  let p := _canon path cwd home in
  snapshot (write path content cwd home append tamper v) = spec_write p content append (snapshot v) ∧
  snapshot (touch path cwd home v) = spec_touch p (snapshot v) ∧
  snapshot (unlink path cwd home v) = spec_unlink p (snapshot v) ∧
  exists_ path cwd home v = bool_decide (is_Some (snapshot v !! p)) ∧
  read run path cwd home v = match fresh_of run v p with
    | Some fresh => (Some fresh, (read run path cwd home v).2)
    | None => (snapshot v !! p, (read run path cwd home v).2)
    end ∧
  snapshot (read run path cwd home v).2 = match fresh_of run v p with
    | Some fresh => <[p := fresh]> (snapshot v)
    | None => snapshot v
    end.
Proof.
  cbn zeta. set (v := exec_ops run ops (init_vfs seeds)). set (p := _canon path cwd home).
  assert (vfs_inv v) as Hinv by apply exec_ops_inv, vfs_init_inv.
  pose proof (λ o, snapshot_files _ (exec_inv run o v Hinv)) as He.
  pose proof (He (OWrite path content cwd home append tamper)) as Hw.
  pose proof (He (OTouch path cwd home)) as Ht. pose proof (He (OUnlink path cwd home)) as Hu.
  pose proof (He (ORead path cwd home)) as Hr. cbn in Hw, Ht, Hu, Hr.
  rewrite Hw, Ht, Hu, Hr, (snapshot_files v Hinv).
  destruct Hinv as [Hd Hdt].
  assert (p ∈ _deleted v → _files v !! p = None) as Hdel.
  { intros H. apply not_elem_of_dom. set_solver. }
  split_and!; try done.
  - unfold exists_. fold p. apply bool_decide_ext. split; [tauto|].
    intros H. split; [done|]. intros Hp%Hdel. by rewrite Hp in H; destruct H.
  - unfold read, fresh_of. fold p. pose proof (read_static_frame p v) as (_ & _ & _ & _ & Hs).
    destruct (decide (p ∈ _deleted v)) as [Hp|Hp].
    + rewrite decide_True by set_solver. by rewrite (Hdel Hp).
    + destruct (_dynamic v !! p) as [r|] eqn:E; cbn;
        repeat case_decide; try (destruct (run r)); cbn; rewrite <- ?Hs; try done;
        by destruct (read_static p v).
  - unfold read, fresh_of. fold p. pose proof (read_static_frame p v) as (Hf & _ & _ & _ & Hs).
    destruct (decide (p ∈ _deleted v)) as [Hp|Hp]; [by rewrite decide_True by set_solver|].
    destruct (_dynamic v !! p) as [r|] eqn:E; cbn;
        repeat case_decide; try (destruct (run r)); done.
Qed.

(** ** Persistence *)

(** round trip.  Restoring what [to_dict] wrote gives back the same files,
    baselines, tombstones and tampering flags, with no renderer registered; a
    state saved again after being restored is the state that was saved. *)
Theorem restore_to_dict {R} (v : vfs R) :
  restore (R := R) (to_dict v) = mk_vfs (_files v) (_baseline v) (_deleted v) ∅ (_tampered v) ∧
  to_dict (restore (R := R) (to_dict v)) = to_dict v.
Proof. unfold restore, to_dict. cbn. by rewrite !list_to_set_sorted_set. Qed.
