(* ===== verification/Regex.v ===== *)
(** Python's [re] as the modelled code uses it: a parser for pattern strings and
    a backtracking matcher with the priorities of [re] (leftmost, greedy unless
    marked lazy).

    The patterns of the source are written here as the source writes them and
    compiled by [compile].  Supported: literals, dot, classes, the escapes for
    digits, words, spaces, word boundaries and hexadecimal codes, anchors, capturing, named and
    non-capturing groups, backreferences, alternation, greedy and lazy
    repetition; flags [IGNORECASE] (of ASCII letters) and [DOTALL].  [compile]
    is [None] where [re.compile] raises, and on look-around, possessive
    repetition, conditionals and inline flags, which no pattern of the source
    uses.  Word characters are the ASCII ones. *)

From S2P Require Import Prelude PyStr.

(** ** Syntax *)

Inductive re :=
| Eps
| Chr (f : N → bool)
| Cat (a b : re)
| Alt (a b : re)
| Star (greedy : bool) (a : re)
| Grp (n : nat) (a : re)
| Ref (n : nat)
| Bos
| Eos
| WordB (b : bool).

Definition is_word (c : N) : bool := is_alpha c || is_digit c || (c =? 95)%N.


Record flags := mk_flags { ignorecase : bool; dotall : bool }.

Definition chr (fl : flags) (f : N → bool) : re :=
  if ignorecase fl then Chr (λ c, f (lower_char c) || f (upper_char c)) else Chr f.

(** ** Matching *)

(** [m r caps prev s k]: match [r] at the start of [s], where [prev] is the
    character before [s], then continue with [k]; the first success in priority
    order is the result.  [Star] only repeats an iteration that consumed input. *)
Fixpoint m {X} (r : re) (caps : list (nat * str)) (prev : option N) (s : str)
    (k : list (nat * str) → option N → str → option X) {struct r} : option X :=
  match r with
  | Eps => k caps prev s
  | Chr f => match s with c :: s' => if f c then k caps (Some c) s' else None | [] => None end
  | Cat a b => m a caps prev s (λ caps prev s, m b caps prev s k)
  | Alt a b => match m a caps prev s k with Some x => Some x | None => m b caps prev s k end
  | Star greedy a =>
      (fix go (n : nat) caps prev s :=
         match n with
         | 0 => k caps prev s
         | S n' =>
             let again (_ : unit) :=
               m a caps prev s (λ caps' prev' s',
                 if length s' <? length s then go n' caps' prev' s' else None) in
             if greedy then match again tt with Some x => Some x | None => k caps prev s end
             else match k caps prev s with Some x => Some x | None => again tt end
         end) (S (length s)) caps prev s
  | Grp n a => m a caps prev s (λ caps' prev' s',
                 k ((n, take (length s - length s') s) :: caps') prev' s')
  | Ref n =>
      match find (λ c, fst c =? n) caps with
      | Some (_, t) =>
          if startswith s t
          then k caps (match last t with Some c => Some c | None => prev end) (drop (length t) s)
          else None
      | None => None
      end
  | Bos => match prev with None => k caps prev s | Some _ => None end
  | Eos => if match s with [] => true | [c] => (c =? NEWLINE)%N | _ => false end
           then k caps prev s else None
  | WordB b =>
      let before := match prev with Some c => is_word c | None => false end in
      let after := match s with c :: _ => is_word c | [] => false end in
      if Bool.eqb (xorb before after) b then k caps prev s else None
  end.

(** ** Parsing *)

Record pstate := mk_pstate { rest : str; ngroups : nat; gnames : list (str * nat) }.

Definition adv (n : nat) (st : pstate) : pstate := mk_pstate (drop n (rest st)) (ngroups st) (gnames st).

(** A class escape: digits, words, spaces and their complements. *)
Definition class_escape (c : N) : option (N → bool) :=
  if (c =? 100)%N then Some is_digit
  else if (c =? 68)%N then Some (λ x, negb (is_digit x))
  else if (c =? 119)%N then Some is_word
  else if (c =? 87)%N then Some (λ x, negb (is_word x))
  else if (c =? 115)%N then Some is_space
  else if (c =? 83)%N then Some (λ x, negb (is_space x))
  else None.

(** A character escape. *)
Definition char_escape (c : N) : option N :=
  if (c =? 110)%N then Some 10%N
  else if (c =? 116)%N then Some 9%N
  else if (c =? 114)%N then Some 13%N
  else if (c =? 102)%N then Some 12%N
  else if (c =? 118)%N then Some 11%N
  else if (c =? 97)%N then Some 7%N
  else if is_alpha c || is_digit c then None
  else Some c.

Definition is_hex (c : N) : bool := is_digit c || ((97 <=? c) && (c <=? 102))%N || ((65 <=? c) && (c <=? 70))%N.
Definition hex_val (c : N) : N := (if is_digit c then c - 48 else lower_char c - 87)%N.

(** One item of a class: a set, or a character that may start a range. *)
Definition class_item (s : str) : option ((N → bool) + N) * str :=
  match s with
  | [] => (None, [])
  | 92%N :: 120%N :: s' =>
      match s' with
      | a :: b :: s'' => if is_hex a && is_hex b then (Some (inr (16 * hex_val a + hex_val b)%N), s'') else (None, [])
      | _ => (None, [])
      end
  | 92%N :: c :: s' =>
      match class_escape c with
      | Some f => (Some (inl f), s')
      | None => if (c =? 98)%N then (Some (inr 8%N), s') else (inr <$> char_escape c, s')
      end
  | [92%N] => (None, [])
  | c :: s' => (Some (inr c), s')
  end.

(** The items of a class up to the closing bracket; [first] is where a bracket is
    still a literal. *)
Fixpoint class_items (fuel : nat) (first : bool) (s : str) (acc : N → bool)
    : option ((N → bool) * str) :=
  match fuel with
  | 0 => None
  | S n =>
      match s with
      | [] => None
      | c :: s0 =>
          if (c =? 93)%N && negb first then Some (acc, s0) else
          match class_item s with
          | (Some (inl f), s1) => class_items n false s1 (λ x, acc x || f x)
          | (Some (inr a), s1) =>
              match s1 with
              | 45%N :: (d :: _) as s2 =>
                  if (d =? 93)%N then class_items n false s1 (λ x, acc x || (x =? a)%N)
                  else match class_item (tail s1) with
                       | (Some (inr b), s3) =>
                           if (a <=? b)%N
                           then class_items n false s3 (λ x, acc x || ((a <=? x)%N && (x <=? b)%N))
                           else None
                       | _ => None
                       end
              | _ => class_items n false s1 (λ x, acc x || (x =? a)%N)
              end
          | (None, _) => None
          end
      end
  end.

Definition parse_class (s : str) : option ((N → bool) * str) :=
  match s with
  | 94%N :: s' => match class_items (S (length s)) true s' (λ _, false) with
                  | Some (f, r) => Some (λ x, negb (f x), r)
                  | None => None
                  end
  | _ => class_items (S (length s)) true s (λ _, false)
  end.

Fixpoint rep (n : nat) (r : re) : re := match n with 0 => Eps | S n' => Cat r (rep n' r) end.
Fixpoint opt_rep (greedy : bool) (n : nat) (r : re) : re :=
  match n with
  | 0 => Eps
  | S n' => if greedy then Alt (Cat r (opt_rep greedy n' r)) Eps
            else Alt Eps (Cat r (opt_rep greedy n' r))
  end.

(** Decimal digits at the head of a string. *)
Fixpoint take_digits (s : str) : str :=
  match s with c :: s' => if is_digit c then c :: take_digits s' else [] | [] => [] end.
Definition nat_of_digits (s : str) : nat := foldl (λ a c, a * 10 + (N.to_nat c - 48)) 0 s.

(** The bounds of a brace quantifier, and its length; [None] where the brace is a
    literal. *)
Definition brace_bounds (s : str) : option (nat * option nat * nat) :=
  let lo := take_digits s in
  match drop (length lo) s with
  | 125%N :: _ =>
      match lo with [] => None | _ => Some (nat_of_digits lo, Some (nat_of_digits lo), S (length lo)) end
  | 44%N :: s' =>
      let hi := take_digits s' in
      match drop (length hi) s' with
      | 125%N :: _ =>
          match lo, hi with
          | [], [] => None
          | _, [] => Some (nat_of_digits lo, None, length lo + 2)
          | _, _ => Some (nat_of_digits lo, Some (nat_of_digits hi), length lo + length hi + 2)
          end
      | _ => None
      end
  | _ => None
  end.

(** A quantifier after the atom [r]; a second quantifier is an error. *)
Definition quantify (r : re) (st : pstate) : option (re * pstate) :=
  let finish (mk : bool → re) (st : pstate) :=
    let '(q, st) := match rest st with
                    | 63%N :: _ => (mk false, adv 1 st)
                    | _ => (mk true, st)
                    end in
    match rest st with
    | 42%N :: _ | 43%N :: _ | 63%N :: _ => None
    | 123%N :: s => match brace_bounds s with Some _ => None | None => Some (q, st) end
    | _ => Some (q, st)
    end in
  match rest st with
  | 42%N :: _ => finish (λ g, Star g r) (adv 1 st)
  | 43%N :: _ => finish (λ g, Cat r (Star g r)) (adv 1 st)
  | 63%N :: _ => finish (λ g, opt_rep g 1 r) (adv 1 st)
  | 123%N :: s =>
      match brace_bounds s with
      | Some (lo, Some hi, n) =>
          if lo <=? hi then finish (λ g, Cat (rep lo r) (opt_rep g (hi - lo) r)) (adv (S n) st) else None
      | Some (lo, None, n) => finish (λ g, Cat (rep lo r) (Star g r)) (adv (S n) st)
      | None => Some (r, st)
      end
  | _ => Some (r, st)
  end.

(** The name of a named group, up to the closing angle bracket. *)
Fixpoint take_name (s : str) : option (str * str) :=
  match s with
  | [] => None
  | 62%N :: s' => Some ([], s')
  | c :: s' => if is_word c then match take_name s' with
                                 | Some (n, r) => Some (c :: n, r) | None => None end
               else None
  end.

Section parse.
Context (fl : flags).

Definition parse_escape (c : N) (st : pstate) : option (re * pstate) :=
  if (c =? 98)%N then Some (WordB true, st)
  else if (c =? 66)%N then Some (WordB false, st)
  else if (c =? 65)%N then Some (Bos, st)
  else if (c =? 120)%N then
    match rest st with
    | a :: b :: _ => if is_hex a && is_hex b then Some (chr fl (N.eqb (16 * hex_val a + hex_val b)%N), adv 2 st) else None
    | _ => None
    end
  else match class_escape c with
       | Some f => Some (Chr f, st)
       | None =>
           if is_digit c && negb (c =? 48)%N then
             let n := N.to_nat c - 48 in
             if n <=? ngroups st then Some (Ref n, st) else None
           else match char_escape c with
                | Some x => Some (chr fl (N.eqb x), st)
                | None => None
                end
       end.

(** What a recursive-descent step parses next. *)
Inductive goal_kind := GAlt | GSeq (acc : re) | GAtom.

Fixpoint parse (fuel : nat) (g : goal_kind) (st : pstate) : option (re * pstate) :=
  match fuel with
  | 0 => None
  | S n =>
      match g with
      | GAlt =>
          match parse n (GSeq Eps) st with
          | Some (a, st1) =>
              match rest st1 with
              | 124%N :: _ =>
                  match parse n GAlt (adv 1 st1) with
                  | Some (b, st2) => Some (Alt a b, st2)
                  | None => None
                  end
              | _ => Some (a, st1)
              end
          | None => None
          end
      | GSeq acc =>
          match rest st with
          | [] | 124%N :: _ | 41%N :: _ => Some (acc, st)
          | _ =>
              match parse n GAtom st with
              | Some (a, st1) =>
                  match quantify a st1 with
                  | Some (q, st2) => parse n (GSeq (Cat acc q)) st2
                  | None => None
                  end
              | None => None
              end
          end
      | GAtom =>
          let group (wrap : re → re) (st : pstate) :=
            match parse n GAlt st with
            | Some (a, st1) =>
                match rest st1 with 41%N :: _ => Some (wrap a, adv 1 st1) | _ => None end
            | None => None
            end in
          match rest st with
          | 40%N :: 63%N :: 58%N :: s => group (λ a, a) (adv 3 st)
          | 40%N :: 63%N :: 80%N :: 60%N :: s =>
              match take_name s with
              | Some (name, s') =>
                  let g := S (ngroups st) in
                  group (Grp g) (mk_pstate s' g ((name, g) :: gnames st))
              | None => None
              end
          | 40%N :: 63%N :: _ => None
          | 40%N :: s =>
              let g := S (ngroups st) in group (Grp g) (mk_pstate s g (gnames st))
          | 91%N :: s =>
              match parse_class s with
              | Some (f, s') => Some (chr fl f, mk_pstate s' (ngroups st) (gnames st))
              | None => None
              end
          | 46%N :: _ =>
              Some (Chr (λ c, dotall fl || negb (c =? NEWLINE)%N), adv 1 st)
          | 94%N :: _ => Some (Bos, adv 1 st)
          | 36%N :: _ => Some (Eos, adv 1 st)
          | 92%N :: c :: _ => parse_escape c (adv 2 st)
          | [92%N] => None
          | 42%N :: _ | 43%N :: _ | 63%N :: _ => None
          | c :: _ => Some (chr fl (N.eqb c), adv 1 st)
          | [] => None
          end
      end
  end.
End parse.

Record regex := mk_regex { re_prog : re; re_names : list (str * nat) }.

(** [re.compile(pattern, flags)]. *)
Definition compile (fl : flags) (pattern : str) : option regex :=
  match parse fl (4 * length pattern + 4) GAlt (mk_pstate pattern 0 []) with
  | Some (r, st) => match rest st with [] => Some (mk_regex r (gnames st)) | _ => None end
  | None => None
  end.

Definition no_flags : flags := mk_flags false false.
Definition IGNORECASE : flags := mk_flags true false.
Definition DOTALL : flags := mk_flags false true.

(** A pattern of the source, compiled; a pattern that does not compile matches
    nothing ([rx_compiles] below each pattern rules that out). *)
Definition rx_flags (fl : flags) (pattern : str) : regex :=
  default (mk_regex (Chr (λ _, false)) []) (compile fl pattern).
Definition rx (pattern : str) : regex := rx_flags no_flags pattern.
Definition rx_ok (pattern : str) : bool :=
  match compile no_flags pattern with Some _ => true | None => false end.

(** A match: the captures and the matched text's end. *)
Record match_ := mk_match { m_caps : list (nat * str); m_names : list (str * nat); m_rest : str }.

Definition match_at (r : regex) (prev : option N) (s : str) : option match_ :=
  m (re_prog r) [] prev s (λ caps _ s', Some (mk_match caps (re_names r) s')).

(** [r.match(s)]. *)
Definition re_match (r : regex) (s : str) : option match_ := match_at r None s.

(** [r.search(s)]: the leftmost match. *)
Fixpoint search_from (r : regex) (prev : option N) (s : str) : option match_ :=
  match match_at r prev s with
  | Some x => Some x
  | None => match s with [] => None | c :: s' => search_from r (Some c) s' end
  end.
Definition re_search (r : regex) (s : str) : option match_ := search_from r None s.

Definition matches (r : regex) (s : str) : bool := if re_match r s then true else false.
Definition searches (r : regex) (s : str) : bool := if re_search r s then true else false.

(** [len(r.findall(s))] for a pattern that never matches the empty string. *)
Fixpoint count_matches (fuel : nat) (r : regex) (prev : option N) (s : str) : nat :=
  match fuel with
  | 0 => 0
  | S n =>
      match s with
      | [] => 0
      | c :: s' =>
          match match_at r prev s with
          | Some x =>
              let used := length s - length (m_rest x) in
              S (count_matches n r (last (take used s)) (m_rest x))
          | None => count_matches n r (Some c) s'
          end
      end
  end.
Definition findall_count (r : regex) (s : str) : nat := count_matches (S (length s)) r None s.

(** [m.group(n)] and [m.group("name")]: [None] when the group took no part. *)
Definition group_n (x : match_) (n : nat) : option str := snd <$> find (λ c, fst c =? n) (m_caps x).
Definition group (x : match_) (name : str) : option str :=
  match find (λ p, bool_decide (fst p = name)) (m_names x) with
  | Some (_, n) => group_n x n
  | None => None
  end.

(** ** [r.sub(repl, s, count)] *)

Fixpoint max_group (r : re) : nat :=
  match r with
  | Cat a b | Alt a b => Nat.max (max_group a) (max_group b)
  | Star _ a => max_group a
  | Grp n a => Nat.max n (max_group a)
  | _ => 0
  end.

(** A piece of a replacement template: text, or a group of the match. *)
Inductive piece := PText (s : str) | PGroup (n : nat).

Definition is_octal (c : N) : bool := (48 <=? c)%N && (c <=? 55)%N.
Definition digit_val (c : N) : nat := N.to_nat (c - 48).

(** The template escapes that stand for one character. *)
Definition template_escape (c : N) : option N :=
  if (c =? 97)%N then Some 7%N else if (c =? 98)%N then Some 8%N
  else if (c =? 102)%N then Some 12%N else if (c =? 110)%N then Some 10%N
  else if (c =? 114)%N then Some 13%N else if (c =? 116)%N then Some 9%N
  else if (c =? 118)%N then Some 11%N else if (c =? 92)%N then Some 92%N else None.

(** The template of a replacement string, or the error [re] raises on it. *)
Fixpoint parse_template (fuel : nat) (ngroups : nat) (names : list (str * nat)) (s : str)
    : exc (list piece) :=
  let more f ps rest := exc_bind (parse_template f ngroups names rest) (λ l, Ok (ps ++ l)) in
  let group_ref f n rest := if n <=? ngroups then more f [PGroup n] rest else Raise ReError in
  match fuel with
  | 0 => Ok []
  | S f =>
      match s with
      | [] => Ok []
      | 92%N :: 103%N :: 60%N :: r =>
          match split_on 62 r with
          | name :: _ :: _ =>
              let rest := drop (S (length name)) r in
              if isdigit name then group_ref f (nat_of_digits name) rest
              else match find (λ p, bool_decide (fst p = name)) names with
                   | Some (_, n) => more f [PGroup n] rest
                   | None => Raise ReError
                   end
          | _ => Raise ReError
          end
      | 92%N :: 48%N :: r =>
          let ds := take 2 (take_digits r) in
          let ds := match ds with
                    | a :: b :: _ => if is_octal a then if is_octal b then [a; b] else [a] else []
                    | [a] => if is_octal a then [a] else []
                    | [] => []
                    end in
          more f [PText [N.of_nat (foldl (λ v c, v * 8 + digit_val c) 0 ds)]] (drop (length ds) r)
      | 92%N :: c :: r =>
          if is_digit c then
            match r with
            | d :: r2 =>
                if is_digit d then
                  match r2 with
                  | e :: r3 =>
                      if is_octal c && is_octal d && is_octal e then
                        let v := digit_val c * 64 + digit_val d * 8 + digit_val e in
                        if v <=? 255 then more f [PText [N.of_nat v]] r3 else Raise ReError
                      else group_ref f (digit_val c * 10 + digit_val d) r2
                  | [] => group_ref f (digit_val c * 10 + digit_val d) r2
                  end
                else group_ref f (digit_val c) r
            | [] => group_ref f (digit_val c) r
            end
          else match template_escape c with
               | Some x => more f [PText [x]] r
               | None => if is_alpha c then Raise ReError else more f [PText [92%N; c]] r
               end
      | [92%N] => Raise ReError
      | c :: r => more f [PText [c]] r
      end
  end.

Definition expand (ps : list piece) (x : match_) (whole : str) : str :=
  flat_map (λ p, match p with
                 | PText s => s
                 | PGroup 0 => whole
                 | PGroup n => default [] (group_n x n)
                 end) ps.

(** A match at the current position; [must] forbids the empty one. *)
Definition match_adv (r : regex) (must : bool) (prev : option N) (s : str) : option match_ :=
  m (re_prog r) [] prev s (λ caps _ s',
    if must && (length s' =? length s) then None else Some (mk_match caps (re_names r) s')).

(** [left]: how many replacements may still be made ([None]: any number). *)
Fixpoint sub_loop (fuel : nat) (r : regex) (ps : list piece) (left : option nat) (must : bool)
    (prev : option N) (s : str) : str :=
  match fuel with
  | 0 => s
  | S f =>
      match left with
      | Some 0 => s
      | _ =>
          match match_adv r must prev s with
          | Some x =>
              let used := length s - length (m_rest x) in
              let whole := take used s in
              expand ps x whole
                ++ sub_loop f r ps (Nat.pred <$> left) (used =? 0)
                     (match last whole with Some c => Some c | None => prev end) (m_rest x)
          | None =>
              match s with
              | [] => []
              | c :: s' => c :: sub_loop f r ps left false (Some c) s'
              end
          end
      end
  end.

Definition re_sub (r : regex) (repl : str) (count : nat) (s : str) : exc str :=
  exc_bind (parse_template (S (length repl)) (max_group (re_prog r)) (re_names r) repl) (λ ps,
    Ok (sub_loop (2 * length s + 2) r ps (if count =? 0 then None else Some count) false None s)).

(** ** Tests against [re] *)

Example search_word : searches (rx "\\bdb-prod\\b"%py) "ssh db-prod-01"%py = true.
Proof. vm_compute. reflexivity. Qed.
Example search_nonword : searches (rx "\\bdb-prod\\b"%py) "ssh xdb-prod"%py = false.
Proof. vm_compute. reflexivity. Qed.
Example named_group :
  (x ← re_match (rx "^\\s*rm\\s+(?:[-~‐–—−][a-zA-Z]+\\s+)*(?P<path>\\S+)\\s*$"%py) "rm —rf  /tmp/x "%py;
   group x "path"%py) = Some "/tmp/x"%py.
Proof. vm_compute. reflexivity. Qed.
Example lazy_group :
  (x ← re_match (rx "a(.*?)b"%py) "a12b3b"%py; group_n x 1) = Some "12"%py.
Proof. vm_compute. reflexivity. Qed.
Example bad_pattern : rx_ok "a(b"%py = false ∧ rx_ok "*a"%py = false ∧ rx_ok "[b-a]"%py = false.
Proof. vm_compute. auto. Qed.
Example backreference : matches (rx "^s([/|])x\\1y$"%py) "s|x|y"%py = true.
Proof. vm_compute. reflexivity. Qed.

Example sub_examples :
  [re_sub (rx "o"%py) "0"%py 0 "foo boo"%py; re_sub (rx "o"%py) "0"%py 1 "foo boo"%py;
   re_sub (rx "x*"%py) "-"%py 0 "abxd"%py; re_sub (rx "(a)(b)"%py) "\\2\\1"%py 0 "xaby"%py;
   re_sub (rx "a"%py) "\\q"%py 0 "a"%py; re_sub (rx "a"%py) "\\1"%py 0 "a"%py]
  = [Ok "f00 b00"; Ok "f0o boo"; Ok "-a-b--d-"; Ok "xbay"; Raise ReError; Raise ReError]%py.
Proof. vm_compute. reflexivity. Qed.
