(* ===== verification/Sanitize.v ===== *)
(** tools/audit.py: what makes the attacker's strings safe to show -- on a terminal
    ([_safe]), in a spreadsheet ([_csv_safe] and the CSV writer), in a page ([_h]). *)

From S2P Require Import Prelude PyStr Regex.

(** ** Laws of the matcher *)

(** [eps r]: [r] may match without consuming; [heads r c]: it may consume [c] first. *)
Fixpoint eps (r : re) : bool :=
  match r with
  | Chr _ => false
  | Cat a b => eps a && eps b
  | Alt a b => eps a || eps b
  | Grp _ a => eps a
  | _ => true
  end.
Fixpoint heads (r : re) (c : N) : bool :=
  match r with
  | Chr f => f c
  | Cat a b => heads a c || (eps a && heads b c)
  | Alt a b => heads a c || heads b c
  | Star _ a | Grp _ a => heads a c
  | Ref _ => true
  | _ => false
  end.

(** The loop of a star, by itself. *)
Definition m_star {X} (greedy : bool) (a : re) (k : list (nat * str) → option N → str → option X)
    : nat → list (nat * str) → option N → str → option X :=
  fix go n caps prev s :=
    match n with
    | 0 => k caps prev s
    | S n' =>
        let again (_ : unit) := m a caps prev s (λ caps' prev' s', if length s' <? length s then go n' caps' prev' s' else None) in
        if greedy then match again tt with Some x => Some x | None => k caps prev s end
        else match k caps prev s with Some x => Some x | None => again tt end
    end.

Lemma m_Star {X} g a caps prev s (k : list (nat * str) → option N → str → option X) :
  m (Star g a) caps prev s k = m_star g a k (S (length s)) caps prev s.
Proof. done. Qed.

(** A round of the loop: it stops, or [a] consumes and the loop goes on. *)
Lemma m_star_S {X} g a (k : list (nat * str) → option N → str → option X) n caps prev s x :
  m_star g a k (S n) caps prev s = Some x →
  k caps prev s = Some x ∨
  m a caps prev s (λ caps' prev' s', if length s' <? length s then m_star g a k n caps' prev' s' else None) = Some x.
Proof.
  cbn [m_star]. destruct g.
  - destruct (m a _ _ _ _) eqn:E; [|by left]. intros [= ->]. by right.
  - destruct (k caps prev s) eqn:E; [intros [= ->]; by left|]. by right.
Qed.

Lemma m_heads {X} (r : re) caps prev s (k : list (nat * str) → option N → str → option X) x :
  m r caps prev s k = Some x →
  (∃ c s', s = c :: s' ∧ heads r c = true) ∨ eps r = true ∧ ∃ caps' prev', k caps' prev' s = Some x.
Proof.
  revert caps prev s k. induction r as [|f|a IHa b IHb|a IHa b IHb|g a IHa|n a IHa|n| | |w]; intros caps prev s k; lazymatch goal with |- context [Star] => cbn [eps heads] | _ => cbn [m eps heads] end.
  - intros H. right. eauto.
  - destruct s as [|c s]; [done|]. destruct (f c) eqn:E; [|done]. intros _. left. eauto.
  - intros [(c & s' & -> & Hc)|(Ha & caps' & prev' & H)]%IHa; [left; exists c, s'; by rewrite Hc|].
    apply IHb in H as [(c & s' & -> & Hc)|(Hb & H)].
    + left. exists c, s'. by rewrite Ha, Hc, orb_true_r.
    + right. by rewrite Ha, Hb.
  - destruct (m a caps prev s k) eqn:E.
    + intros [= ->]. apply IHa in E as [(c & s' & -> & Hc)|(-> & H)]; [left; exists c, s'; by rewrite Hc|by right].
    + intros [(c & s' & -> & Hc)|(-> & H)]%IHb; [left; exists c, s'; by rewrite Hc, orb_true_r|right; by rewrite orb_true_r].
  - rewrite m_Star. intros [Hk|Hm]%m_star_S; [by right; eauto|].
    apply IHa in Hm as [(c & s' & -> & Hc)|(_ & caps' & prev' & Hm)]; [left; eauto|].
    by rewrite Nat.ltb_irrefl in Hm.
  - intros [H|(Ha & caps' & prev' & H)]%IHa; [by left|right]. eauto.
  - destruct (find _ caps) as [[i t]|]; [|done]. destruct (startswith s t) eqn:E; [|done]. intros H.
    destruct t as [|c t]; [right; eauto|]. left. destruct s as [|c' s]; [done|]. by exists c', s.
  - destruct prev; [done|]. right. eauto.
  - case_match; [|done]. right. eauto.
  - case_match; [|done]. right. eauto.
Qed.

(** [may r c]: [r] may consume [c]; [gmay r n c]: its group [n] may. *)
Fixpoint may (r : re) (c : N) : bool :=
  match r with
  | Chr f => f c
  | Cat a b | Alt a b => may a c || may b c
  | Star _ a | Grp _ a => may a c
  | Ref _ => true
  | _ => false
  end.
Fixpoint gmay (r : re) (n : nat) (c : N) : bool :=
  match r with
  | Cat a b | Alt a b => gmay a n c || gmay b n c
  | Star _ a => gmay a n c
  | Grp k a => ((k =? n) && may a c) || gmay a n c
  | _ => false
  end.

(** The captures of [caps'] that [r] added to [caps] hold what their groups may consume. *)
Definition captured (r : re) (caps caps' : list (nat * str)) : Prop :=
  ∀ n t, (n, t) ∈ caps' → (n, t) ∈ caps ∨ Forall (λ c, gmay r n c = true) t.

Lemma captured_refl r caps : captured r caps caps.
Proof. intros n t H. by left. Qed.
Lemma captured_mono a r caps caps' : (∀ n c, gmay a n c = true → gmay r n c = true) → captured a caps caps' → captured r caps caps'.
Proof. intros Hm H n t [Hin|Hf]%H; [by left|right]. eapply Forall_impl; [exact Hf|]. cbn. intros c. apply Hm. Qed.
Lemma captured_trans r caps1 caps2 caps3 : captured r caps1 caps2 → captured r caps2 caps3 → captured r caps1 caps3.
Proof. intros H1 H2 n t [Hin|Hf]%H2; [by apply H1|by right]. Qed.

(** What a match consumes and captures. *)
Definition consumes {X} (r : re) caps s (k : list (nat * str) → option N → str → option X) (x : X) : Prop :=
  ∃ caps' prev' pre s', s = pre ++ s' ∧ k caps' prev' s' = Some x ∧ (eps r = false → pre ≠ []) ∧
    Forall (λ c, may r c = true) pre ∧ captured r caps caps'.

Lemma consumes_nothing {X} r caps prev s (k : list (nat * str) → option N → str → option X) x :
  eps r = true → k caps prev s = Some x → consumes r caps s k x.
Proof. intros He Hk. exists caps, prev, [], s. split_and!; [done|done|by rewrite He|constructor|apply captured_refl]. Qed.

Lemma consumes_mono {X} a r caps s (k : list (nat * str) → option N → str → option X) x :
  (eps r = false → eps a = false) → (∀ c, may a c = true → may r c = true) → (∀ n c, gmay a n c = true → gmay r n c = true) →
  consumes a caps s k x → consumes r caps s k x.
Proof.
  intros He Hm Hg (caps' & prev' & pre & s' & -> & Hk & Hn & Hp & Hc). exists caps', prev', pre, s'. split_and!; [done|done|auto| |].
  - eapply Forall_impl; [exact Hp|]. cbn. auto.
  - by eapply captured_mono.
Qed.

Lemma consumes_seq {X} a b r caps s (k : list (nat * str) → option N → str → option X) (K : list (nat * str) → option N → str → option X) x :
  (eps r = false → eps a = false ∨ eps b = false) → (∀ c, may a c = true → may r c = true) → (∀ c, may b c = true → may r c = true) →
  (∀ n c, gmay a n c = true → gmay r n c = true) → (∀ n c, gmay b n c = true → gmay r n c = true) →
  consumes a caps s K x → (∀ caps prev s, K caps prev s = Some x → consumes b caps s k x) → consumes r caps s k x.
Proof.
  intros He Hma Hmb Hga Hgb (c1 & p1 & pre1 & s1 & -> & HK & Hn1 & Hf1 & Hc1) Hb.
  destruct (Hb _ _ _ HK) as (c2 & p2 & pre2 & s2 & -> & Hk & Hn2 & Hf2 & Hc2).
  exists c2, p2, (pre1 ++ pre2), s2. split_and!; [by rewrite app_assoc|done| | |].
  - intros Hr [-> ->]%app_eq_nil. destruct (He Hr) as [H|H]; [by apply Hn1|by apply Hn2].
  - apply Forall_app. split; (eapply Forall_impl; [eassumption|]; cbn; auto).
  - eapply captured_trans; [exact (captured_mono _ _ _ _ Hga Hc1)|exact (captured_mono _ _ _ _ Hgb Hc2)].
Qed.

Lemma m_consumes {X} (r : re) caps prev s (k : list (nat * str) → option N → str → option X) x :
  m r caps prev s k = Some x → consumes r caps s k x.
Proof.
  revert caps prev s k. induction r as [|f|a IHa b IHb|a IHa b IHb|g a IHa|n a IHa|n| | |w]; intros caps prev s k.
  - by apply (consumes_nothing _ _ prev).
  - cbn [m]. destruct s as [|c s]; [done|]. destruct (f c) eqn:Ef; [|done]. intros Hk. exists caps, (Some c), [c], s.
    split_and!; [done|done|done|by repeat constructor|apply captured_refl].
  - cbn [m]. intros H%IHa. eapply (consumes_seq a b); [| | | | |exact H|].
    + intros [|]%andb_false_iff; auto.
    + intros c Hc. cbn. by rewrite Hc.
    + intros c Hc. cbn. by rewrite Hc, orb_true_r.
    + intros n c Hc. cbn. by rewrite Hc.
    + intros n c Hc. cbn. by rewrite Hc, orb_true_r.
    + intros caps' prev' s'. apply IHb.
  - cbn [m]. destruct (m a caps prev s k) eqn:E.
    + intros [= ->]. apply IHa in E. revert E. apply consumes_mono; cbn; [by intros [? ?]%orb_false_iff|by intros c -> |by intros n c ->].
    + intros H%IHb. revert H. apply consumes_mono; cbn; [by intros [? ?]%orb_false_iff|intros c ->; by rewrite orb_true_r|intros n c ->; by rewrite orb_true_r].
  - rewrite m_Star. generalize (S (length s)). intros n. revert caps prev s.
    induction n as [|n IH]; intros caps prev s Hs; [by eapply consumes_nothing|].
    apply m_star_S in Hs as [Hs|Hs%IHa]; [by eapply consumes_nothing|].
    eapply (consumes_seq a (Star g a)); [done|auto..|exact Hs|]. intros c1 p1 s1. cbn beta. destruct (_ <? _); [|done]. apply IH.
  - cbn [m]. intros (c1 & p1 & pre & s1 & -> & Hk & Hn & Hf & Hc)%IHa. eexists _, p1, pre, s1. split_and!; [done|exact Hk|done|done|].
    intros i t [[= -> ->]|Hin]%elem_of_cons.
    + right. rewrite length_app, Nat.add_sub, take_app_length. eapply Forall_impl; [exact Hf|]. cbn. intros c ->. by rewrite Nat.eqb_refl.
    + apply Hc in Hin as [Hin|Hin]; [by left|]. right. eapply Forall_impl; [exact Hin|]. cbn. intros c ->. by rewrite orb_true_r.
  - cbn [m]. destruct (find _ caps) as [[i t]|]; [|done]. destruct (startswith s t) eqn:E; [|done]. intros Hk.
    eexists caps, _, (take (length t) s), _. split_and!; [symmetry; apply take_drop|exact Hk|done|by apply Forall_true|apply captured_refl].
  - cbn [m]. destruct prev; [done|]. by eapply consumes_nothing.
  - cbn [m]. case_match; [|done]. by eapply consumes_nothing.
  - cbn [m]. case_match; [|done]. by eapply consumes_nothing.
Qed.

(** What a group of a search holds. *)
Lemma search_group r s x n t : re_search r s = Some x → group_n x n = Some t → Forall (λ c, gmay (re_prog r) n c = true) t.
Proof.
  unfold re_search. generalize (None : option N). revert s. assert (Hat : ∀ prev s, match_at r prev s = Some x → group_n x n = Some t → Forall (λ c, gmay (re_prog r) n c = true) t).
  { intros prev s (caps & prev' & pre & s' & -> & Hk & _ & _ & Hc)%m_consumes. injection Hk as <-. unfold group_n. cbn [m_caps].
    destruct (find _ caps) as [[i u]|] eqn:E; [|done]. cbn. intros [= ->]. apply find_some in E as [Hin%list_elem_of_In E]. cbn in E. apply Nat.eqb_eq in E as ->.
    apply Hc in Hin as [Hin|Hin]; [by apply not_elem_of_nil in Hin|done]. }
  induction s as [|c s IH]; intros prev; cbn [search_from]; destruct (match_at r prev _) as [y|] eqn:E; try done.
  - intros [= ->]. by eapply Hat.
  - intros [= ->]. by eapply Hat.
  - apply IH.
Qed.

(** Some alternative of [r] is one character, [c] among it. *)
Fixpoint covers (r : re) (c : N) : bool :=
  match r with
  | Chr f => f c
  | Cat Eps b => covers b c
  | Alt a b => covers a c || covers b c
  | _ => false
  end.

Lemma m_covers {X} r c caps prev s (k : list (nat * str) → option N → str → option X) :
  covers r c = true → (∀ caps' prev' s', is_Some (k caps' prev' s')) → is_Some (m r caps prev (c :: s) k).
Proof.
  intros Hc Hk. revert caps prev. induction r as [|f|a IHa b IHb|a IHa b IHb|g a IHa|n a IHa|n| | |w]; intros caps prev; cbn in Hc |- *; try done.
  - by rewrite Hc.
  - destruct a; try done. cbn. by apply IHb.
  - destruct (m a caps prev (c :: s) k) eqn:E; [by eexists|]. apply orb_true_iff in Hc as [Hc|Hc]; [|by apply IHb].
    destruct (IHa Hc caps prev) as [? E']. congruence.
Qed.

(** ** Substitution *)

Section sub.
Context (r : regex) (ps : list piece).
Context (Hr : eps (re_prog r) = false).

Lemma match_progress must prev s x : match_adv r must prev s = Some x → ∃ pre, pre ≠ [] ∧ s = pre ++ m_rest x.
Proof.
  intros (caps & prev' & pre & s' & -> & Hk & Hn & _)%m_consumes. case_match; [done|]. injection Hk as <-. exists pre. split; [by apply Hn|done].
Qed.

(** All that a substitution leaves is what the template gives and what does not match. *)
Lemma sub_all (Q : N → Prop) : (∀ x w, Forall Q (expand ps x w)) → (∀ prev c s, match_adv r false prev (c :: s) = None → Q c) →
  ∀ f prev s, length s < f → Forall Q (sub_loop f r ps None false prev s).
Proof.
  intros Hps Hc. induction f as [|f IH]; intros prev s Hf; [lia|]. cbn [sub_loop].
  destruct (match_adv r false prev s) as [x|] eqn:E.
  - destruct (match_progress _ _ _ _ E) as (pre & Hp & Es). apply Forall_app. split; [apply Hps|].
    assert (Hlen : length s = length pre + length (m_rest x)) by (rewrite Es at 1; apply length_app).
    destruct pre as [|c pre]; [done|]. cbn [length] in Hlen. destruct (length s - length (m_rest x) =? 0) eqn:E0; [apply Nat.eqb_eq in E0; lia|].
    apply IH. lia.
  - destruct s as [|c s]; [constructor|]. cbn [length] in Hf. constructor; [by eapply Hc|]. apply IH. lia.
Qed.

(** A text in which nothing can start a match is left as it is. *)
Lemma sub_id f prev s : Forall (λ c, heads (re_prog r) c = false) s → sub_loop f r ps None false prev s = s.
Proof.
  revert prev s. induction f as [|f IH]; intros prev s Hs; [done|]. cbn [sub_loop].
  destruct (match_adv r false prev s) as [x|] eqn:E.
  - apply m_heads in E as [(c & s' & -> & Hc)|(He & _)]; [|congruence]. apply Forall_cons in Hs as [Hs _]. congruence.
  - destruct s as [|c s]; [done|]. f_equal. apply IH. by apply Forall_cons in Hs as [_ Hs].
Qed.
End sub.

(** ** [_safe] *)

Definition _CONTROL_RE : regex :=
  rx ("\\x1b\\[[\\x30-\\x3f]*[\\x20-\\x2f]*[\\x40-\\x7e]"%py ++ "|\\x1b\\][^\\x07\\x1b]*(?:\\x07|\\x1b\\\\)"%py
      ++ "|\\x1b[PX^_][^\\x1b]*\\x1b\\\\"%py ++ "|\\x1b[@-Z\\\\-_]"%py ++ "|[\\x00-\\x08\\x0b\\x0c\\x0e-\\x1f\\x7f-\\x9f]"%py).

Definition _safe (value : option str) : str :=
  match value with
  | None => []
  | Some s => match re_sub _CONTROL_RE "?"%py 0 s with Ok t => t | Raise _ => [] end
  end.

Example safe_examples :
  _safe (Some ("a\x1b[2Jb"%py ++ [27]%N ++ "]8;;http://x\x07c\x9b1m\td\n"%py)) = "a?b?c?1m\td\n"%py ∧ _safe (Some "\x1b"%py) = "?"%py.
Proof. vm_compute. split; reflexivity. Qed.

(** What a terminal shows as it is: the characters outside C0 and C1, and the white space
    kept on purpose. *)
Definition shown (c : N) : Prop := (c = 9 ∨ c = 10 ∨ c = 13 ∨ 32 ≤ c < 127 ∨ 160 ≤ c)%N.
#[export] Instance shown_dec c : Decision (shown c).
Proof. unfold shown. apply _. Defined.

Lemma heads_control : heads (re_prog _CONTROL_RE) = (λ c,
  (((((27 =? c)%N || false) || false) || false) || false) || (((((27 =? c)%N || false) || false) || false)
  || ((((((27 =? c)%N || false) || false) || false) || false) || (((27 =? c)%N || false)
  || (((((false || ((0 <=? c)%N && (c <=? 8)%N)) || (c =? 11)%N) || (c =? 12)%N) || ((14 <=? c)%N && (c <=? 31)%N)) || ((127 <=? c)%N && (c <=? 159)%N)))))).
Proof. vm_compute. reflexivity. Qed.

Lemma shown_heads c : shown c → heads (re_prog _CONTROL_RE) c = false.
Proof. rewrite heads_control. unfold shown. cbn [orb]. intros H. rewrite !orb_false_r, !orb_false_iff, !andb_false_iff, !N.eqb_neq, !N.leb_gt. lia. Qed.

Lemma covers_control c : ¬ shown c → covers (re_prog _CONTROL_RE) c = true.
Proof.
  intros Hc. assert (Hall : forallb (λ n, bool_decide (shown (N.of_nat n)) || covers (re_prog _CONTROL_RE) (N.of_nat n)) (seq 0 160) = true)
    by (vm_compute; reflexivity).
  rewrite forallb_forall in Hall. specialize (Hall (N.to_nat c)). rewrite N2Nat.id in Hall.
  assert (Hin : In (N.to_nat c) (seq 0 160)) by (apply in_seq; unfold shown in Hc; lia).
  apply Hall, orb_true_iff in Hin as [H|H]; [|done]. by apply bool_decide_eq_true in H.
Qed.

Lemma safe_sub s : _safe (Some s) = sub_loop (2 * length s + 2) _CONTROL_RE [PText "?"%py] None false None s.
Proof. done. Qed.

Lemma safe_id t : Forall shown t → _safe (Some t) = t.
Proof. intros Ht. rewrite safe_sub. apply sub_id; [done|]. eapply Forall_impl; [exact Ht|]. apply shown_heads. Qed.

Lemma safe_is_shown s : Forall shown (_safe s).
Proof.
  destruct s as [s|]; [|constructor]. rewrite safe_sub. apply sub_all; [done|intros ? ?; apply Forall_cons; split; [unfold shown; lia|constructor]|intros prev c s' Hm|lia].
  destruct (decide (shown c)) as [|Hn]; [done|]. apply covers_control in Hn.
  destruct (m_covers (re_prog _CONTROL_RE) c [] prev s' (λ caps _ s', Some (mk_match caps (re_names _CONTROL_RE) s')) Hn) as [x Hx]; [by eexists|].
  unfold match_adv in Hm. cbn [andb] in Hm. congruence.
Qed.

(** what the audit tool prints of the attacker's text holds no escape character and no
    other control but tab, newline and carriage return; text without them is printed as it
    is, and sanitising twice changes nothing. *)
Theorem safe_shown s : Forall shown (_safe s) ∧ (∀ t, s = Some t → Forall shown t → _safe s = t) ∧ _safe (Some (_safe s)) = _safe s.
Proof. split; [apply safe_is_shown|]. split; [intros t -> Ht; by apply safe_id|]. apply safe_id, safe_is_shown. Qed.

(** ** [_csv_safe] and the CSV writer *)

Definition COMMA : N := 44.
Definition QUOTE : N := 34.

Definition _csv_safe (value : str) : str :=
  let s := replace_char 10 32 (replace_char 13 32 value) in
  match s with c :: _ => if bool_decide (c ∈ "=+-@\t"%py) then 39%N :: s else s | [] => s end.

(** [csv.writer] with [QUOTE_MINIMAL] and the line terminator "\n". *)
Definition needs_quotes (field : str) : bool := existsb (λ c, (c =? COMMA) || (c =? QUOTE) || (c =? NEWLINE))%N field.
Definition csv_field (field : str) : str :=
  if needs_quotes field then QUOTE :: flat_map (λ c, if (c =? QUOTE)%N then [QUOTE; QUOTE] else [c]) field ++ [QUOTE] else field.
Definition writerow (row : list str) : str := join [COMMA] (map csv_field row) ++ [NEWLINE].

(** ** [_h] *)

Definition replace_all (c : N) (t s : str) : str := flat_map (λ x, if (x =? c)%N then t else [x]) s.
Definition _h (s : str) : str := replace_all 34 "&quot;"%py (replace_all 62 "&gt;"%py (replace_all 60 "&lt;"%py (replace_all 38 "&amp;"%py s))).

(** *** A reader of CSV text (RFC 4180, with newlines as line ends). *)

Inductive csv_state := AtStart | Plain | Quoted | QuoteSeen.

Fixpoint csv_read (st : csv_state) (field : str) (row : list str) (s : str) : list (list str) :=
  match s with
  | [] => match st, field, row with AtStart, [], [] => [] | _, _, _ => [row ++ [field]] end
  | c :: s =>
      match st with
      | Quoted => if (c =? QUOTE)%N then csv_read QuoteSeen field row s else csv_read Quoted (field ++ [c]) row s
      | _ =>
          if (c =? COMMA)%N then csv_read AtStart [] (row ++ [field]) s
          else if (c =? NEWLINE)%N then (row ++ [field]) :: csv_read AtStart [] [] s
          else if (c =? QUOTE)%N then
            match st with
            | QuoteSeen => csv_read Quoted (field ++ [c]) row s
            | AtStart => csv_read Quoted field row s
            | _ => csv_read Plain (field ++ [c]) row s
            end
          else csv_read Plain (field ++ [c]) row s
      end
  end.
Definition csv_rows (s : str) : list (list str) := csv_read AtStart [] [] s.

Lemma read_plain f field row c s : needs_quotes f = false → c = COMMA ∨ c = NEWLINE →
  ∀ st, st = AtStart ∨ st = Plain →
  csv_read st field row (f ++ c :: s) =
    (if (c =? COMMA)%N then csv_read AtStart [] (row ++ [field ++ f]) s else (row ++ [field ++ f]) :: csv_read AtStart [] [] s).
Proof.
  intros Hf Hc. revert field. induction f as [|x f IH]; intros field st Hst; cbn [app].
  - rewrite app_nil_r. by destruct Hst as [->| ->], Hc as [->| ->].
  - cbn in Hf. rewrite !orb_false_iff in Hf. destruct Hf as [[[Hx1 Hx2] Hx3] Hf].
    assert (E : csv_read st field row (x :: f ++ c :: s) = csv_read Plain (field ++ [x]) row (f ++ c :: s)).
    { cbn [csv_read]. rewrite Hx1, Hx2, Hx3. by destruct Hst as [->| ->]. }
    rewrite E, (IH Hf) by (by right). by rewrite <- app_assoc.
Qed.

Lemma read_quoted f field row s :
  csv_read Quoted field row (flat_map (λ c, if (c =? QUOTE)%N then [QUOTE; QUOTE] else [c]) f ++ QUOTE :: s) = csv_read QuoteSeen (field ++ f) row s.
Proof.
  revert field. induction f as [|x f IH]; intros field; [cbn; by rewrite app_nil_r|]. cbn [flat_map].
  destruct (x =? QUOTE)%N eqn:E; cbn [app csv_read].
  - apply N.eqb_eq in E as ->. change ((QUOTE =? QUOTE)%N) with true. change ((QUOTE =? COMMA)%N) with false. change ((QUOTE =? NEWLINE)%N) with false.
    cbn iota. rewrite IH. by rewrite <- app_assoc.
  - rewrite E, IH. by rewrite <- app_assoc.
Qed.

Lemma read_field f row c s : c = COMMA ∨ c = NEWLINE →
  csv_read AtStart [] row (csv_field f ++ c :: s) =
    (if (c =? COMMA)%N then csv_read AtStart [] (row ++ [f]) s else (row ++ [f]) :: csv_read AtStart [] [] s).
Proof.
  intros Hc. unfold csv_field. destruct (needs_quotes f) eqn:Hf; [|by rewrite (read_plain _ [] _ _ _ Hf Hc AtStart); [|left]].
  cbn [app csv_read]. change ((QUOTE =? COMMA)%N) with false. change ((QUOTE =? NEWLINE)%N) with false. change ((QUOTE =? QUOTE)%N) with true. cbn iota.
  rewrite <- app_assoc. cbn [app]. rewrite read_quoted. cbn [app csv_read]. by destruct Hc as [->| ->].
Qed.

Lemma read_row fs row s : fs ≠ [] →
  csv_read AtStart [] row (join [COMMA] (map csv_field fs) ++ NEWLINE :: s) = (row ++ fs) :: csv_read AtStart [] [] s.
Proof.
  intros Hn. revert row. induction fs as [|f fs IH]; intros row; [done|]. destruct fs as [|f' fs].
  - cbn [map join]. rewrite (read_field f row NEWLINE) by (by right). done.
  - change (join [COMMA] (map csv_field (f :: f' :: fs))) with (csv_field f ++ [COMMA] ++ join [COMMA] (map csv_field (f' :: fs))).
    rewrite <- !app_assoc. cbn [app]. rewrite (read_field f row COMMA) by (by left). rewrite N.eqb_refl, IH by done. by rewrite <- app_assoc.
Qed.

(** Rows with at least one field read back as they were written. *)
Lemma csv_reads_back rows : Forall (λ r, r ≠ []) rows → csv_rows (flat_map writerow rows) = rows.
Proof.
  unfold csv_rows. induction 1 as [|r rows Hr _ IH]; [done|]. cbn [flat_map]. unfold writerow at 1. rewrite <- !app_assoc. cbn [app].
  by rewrite read_row, IH by done.
Qed.

(** Excel, LibreOffice and Sheets take a cell that starts with one of these for a formula. *)
Definition formula_start (s : str) : bool := match s with c :: _ => bool_decide (c ∈ "=+-@\t\r"%py) | [] => false end.

Lemma csv_safe_inert value : formula_start (_csv_safe value) = false ∧ 13%N ∉ _csv_safe value ∧ NEWLINE ∉ _csv_safe value.
Proof.
  unfold _csv_safe. set (s := replace_char 10 32 _). assert (Hs : ∀ c, c ∈ s → c ≠ 13%N ∧ c ≠ NEWLINE).
  { intros c (x & -> & (y & -> & _)%list_elem_of_fmap)%list_elem_of_fmap. unfold NEWLINE.
    destruct (N.eqb_spec y 13) as [->|Hy]; [done|]. by destruct (N.eqb_spec y 10) as [->|Hz]. }
  assert (Hin : ∀ d, d = 13%N ∨ d = NEWLINE → d ∉ s) by (intros d Hd Hin%Hs; naive_solver).
  destruct s as [|c s'] eqn:E; [split; [done|split; apply not_elem_of_nil]|]. case_bool_decide as Hc.
  - split; [done|]. split; (intros [H|H]%elem_of_cons; [vm_compute in H; discriminate H|]; revert H; apply Hin; auto).
  - split; [|split; apply Hin; auto]. cbn. apply bool_decide_eq_false. intros Hc'. destruct (Hs c) as [H13 _]; [by left|].
    apply Hc. set_solver.
Qed.

(** *** Reading a page *)

Definition markup (c : N) : bool := ((c =? 60) || (c =? 62) || (c =? 34))%N.

Definition h_char (c : N) : str :=
  if (c =? 38)%N then "&amp;"%py else if (c =? 60)%N then "&lt;"%py else if (c =? 62)%N then "&gt;"%py else if (c =? 34)%N then "&quot;"%py else [c].

Lemma replace_all_other c t x : x ≠ c → replace_all c t [x] = [x].
Proof. intros Hx. cbn. by apply N.eqb_neq in Hx as ->. Qed.

Lemma h_chars s : _h s = flat_map h_char s.
Proof.
  unfold _h. induction s as [|c s IH]; [done|]. change (c :: s) with ([c] ++ s). unfold replace_all in *. rewrite !flat_map_app, IH. f_equal. clear.
  fold (replace_all 38 "&amp;"%py [c]). unfold h_char.
  destruct (N.eqb_spec c 38) as [->|]; [done|]. rewrite replace_all_other by done. fold (replace_all 60 "&lt;"%py [c]).
  destruct (N.eqb_spec c 60) as [->|]; [done|]. rewrite replace_all_other by done. fold (replace_all 62 "&gt;"%py [c]).
  destruct (N.eqb_spec c 62) as [->|]; [done|]. rewrite replace_all_other by done. fold (replace_all 34 "&quot;"%py [c]).
  destruct (N.eqb_spec c 34) as [->|]; [done|]. rewrite replace_all_other by done.
  cbn. by rewrite !(proj2 (N.eqb_neq _ _)) by done.
Qed.

(** Escaped text holds no character of markup. *)
Lemma h_inert s : Forall (λ c, markup c = false) (_h s).
Proof.
  rewrite h_chars. apply Forall_flat_map, Forall_forall. intros c _. unfold h_char.
  destruct (N.eqb_spec c 38); [by repeat constructor|]. destruct (N.eqb_spec c 60); [by repeat constructor|].
  destruct (N.eqb_spec c 62); [by repeat constructor|]. destruct (N.eqb_spec c 34); [by repeat constructor|].
  constructor; [|constructor]. unfold markup. rewrite !orb_false_iff, !N.eqb_neq. done.
Qed.
