(* ===== verification/Hash.v ===== *)
(** The hash functions of the standard library the modelled code calls:
    [hashlib.sha256], [hashlib.sha1] and [hmac] over them, on byte strings
    ([list N], each byte below 256), with [str.encode()] (UTF-8) and
    [hexdigest].  Words are 32-bit, kept below [2 ^ 32] after each addition. *)

From S2P Require Import Prelude PyStr.

Definition bytes := list N.

(** ** Encodings *)

Definition utf8_encode_char (c : N) : bytes :=
  (if c <? 128 then [c]
   else if c <? 2048 then [192 + c / 64; 128 + c mod 64]
   else if c <? 65536 then [224 + c / 4096; 128 + (c / 64) mod 64; 128 + c mod 64]
   else [240 + c / 262144; 128 + (c / 4096) mod 64; 128 + (c / 64) mod 64; 128 + c mod 64])%N.

(** [s.encode()]. *)
Definition encode (s : str) : bytes := flat_map utf8_encode_char s.

Definition hex_digit (n : N) : N := (if n <? 10 then 48 + n else 87 + n)%N.
Definition hexdigest (bs : bytes) : str := flat_map (λ b, [hex_digit (b / 16); hex_digit (b mod 16)]%N) bs.

(** Big-endian conversions: [struct.pack(">...")]. *)
Fixpoint be_bytes (n : nat) (x : N) : bytes :=
  match n with 0 => [] | S n' => be_bytes n' (x / 256) ++ [(x mod 256)%N] end.
Definition be_num (bs : bytes) : N := foldl (λ a b, (a * 256 + b)%N) 0%N bs.

(** ** 32-bit words *)

Definition M32 : N := 4294967296.
Definition add32 (a b : N) : N := ((a + b) mod M32)%N.
Definition not32 (a : N) : N := N.lxor a 4294967295.
Definition rotr (k a : N) : N := N.lor (N.shiftr a k) (N.shiftl a (32 - k) mod M32)%N.
Definition rotl (k a : N) : N := rotr (32 - k) a.

(** Padding: a one bit, zeros, the bit length in 64 bits; then 64-byte blocks of
    sixteen words. *)
Definition pad (bs : bytes) : bytes :=
  let l := length bs in
  let z := ((119 - l mod 64) mod 64) in
  bs ++ [128%N] ++ repeat 0%N z ++ be_bytes 8 (8 * N.of_nat l).

Fixpoint words (n : nat) (bs : bytes) : list N :=
  match n with 0 => [] | S n' => be_num (take 4 bs) :: words n' (drop 4 bs) end.

Fixpoint blocks (n : nat) (bs : bytes) : list (list N) :=
  match n with
  | 0 => []
  | S n' => match bs with [] => [] | _ => words 16 bs :: blocks n' (drop 64 bs) end
  end.

Definition nthN (l : list N) (i : nat) : N := nth i l 0%N.

(** ** SHA-256 *)

Definition K256 : list N :=
  [1116352408; 1899447441; 3049323471; 3921009573; 961987163; 1508970993; 2453635748; 2870763221;
   3624381080; 310598401; 607225278; 1426881987; 1925078388; 2162078206; 2614888103; 3248222580;
   3835390401; 4022224774; 264347078; 604807628; 770255983; 1249150122; 1555081692; 1996064986;
   2554220882; 2821834349; 2952996808; 3210313671; 3336571891; 3584528711; 113926993; 338241895;
   666307205; 773529912; 1294757372; 1396182291; 1695183700; 1986661051; 2177026350; 2456956037;
   2730485921; 2820302411; 3259730800; 3345764771; 3516065817; 3600352804; 4094571909; 275423344;
   430227734; 506948616; 659060556; 883997877; 958139571; 1322822218; 1537002063; 1747873779;
   1955562222; 2024104815; 2227730452; 2361852424; 2428436474; 2756734187; 3204031479; 3329325298]%N.

Definition H256 : list N :=
  [1779033703; 3144134277; 1013904242; 2773480762; 1359893119; 2600822924; 528734635; 1541459225]%N.

(** The message schedule, last word first. *)
Fixpoint schedule256 (n : nat) (w : list N) : list N :=
  match n with
  | 0 => w
  | S n' =>
      let w15 := nthN w 14 in let w2 := nthN w 1 in
      let s0 := N.lxor (N.lxor (rotr 7 w15) (rotr 18 w15)) (N.shiftr w15 3) in
      let s1 := N.lxor (N.lxor (rotr 17 w2) (rotr 19 w2)) (N.shiftr w2 10) in
      schedule256 n' (add32 (add32 (nthN w 15) s0) (add32 (nthN w 6) s1) :: w)
  end.

Definition round256 (h : list N) (kw : N * N) : list N :=
  match h with
  | [a; b; c; d; e; f; g; hh] =>
      let s1 := N.lxor (N.lxor (rotr 6 e) (rotr 11 e)) (rotr 25 e) in
      let ch := N.lxor (N.land e f) (N.land (not32 e) g) in
      let t1 := add32 (add32 hh s1) (add32 ch (add32 kw.1 kw.2)) in
      let s0 := N.lxor (N.lxor (rotr 2 a) (rotr 13 a)) (rotr 22 a) in
      let maj := N.lxor (N.lxor (N.land a b) (N.land a c)) (N.land b c) in
      let t2 := add32 s0 maj in
      [add32 t1 t2; a; b; c; add32 d t1; e; f; g]
  | _ => h
  end.

Definition compress256 (h w : list N) : list N :=
  let ws := rev (schedule256 48 (rev w)) in
  zip_with add32 h (foldl round256 h (zip K256 ws)).

Definition sha256 (bs : bytes) : bytes :=
  let p := pad bs in
  flat_map (be_bytes 4) (foldl compress256 H256 (blocks (length p) p)).

(** ** SHA-1 *)

Definition H1 : list N := [1732584193; 4023233417; 2562383102; 271733878; 3285377520]%N.

Fixpoint schedule1 (n : nat) (w : list N) : list N :=
  match n with
  | 0 => w
  | S n' =>
      schedule1 n'
        (rotl 1 (N.lxor (N.lxor (nthN w 2) (nthN w 7)) (N.lxor (nthN w 13) (nthN w 15))) :: w)
  end.

Definition round1 (ih : nat * list N) (w : N) : nat * list N :=
  match ih with
  | (i, [a; b; c; d; e]) =>
      let '(f, k) :=
        if i <? 20 then (N.lor (N.land b c) (N.land (not32 b) d), 1518500249%N)
        else if i <? 40 then (N.lxor (N.lxor b c) d, 1859775393%N)
        else if i <? 60 then (N.lor (N.lor (N.land b c) (N.land b d)) (N.land c d), 2400959708%N)
        else (N.lxor (N.lxor b c) d, 3395469782%N) in
      let t := add32 (add32 (rotl 5 a) f) (add32 e (add32 k w)) in
      (S i, [t; a; rotl 30 b; c; d])
  | _ => ih
  end.

Definition compress1 (h w : list N) : list N :=
  zip_with add32 h (foldl round1 (0, h) (rev (schedule1 64 (rev w)))).2.

Definition sha1 (bs : bytes) : bytes :=
  let p := pad bs in
  flat_map (be_bytes 4) (foldl compress1 H1 (blocks (length p) p)).

(** ** HMAC with a 64-byte block *)

Definition hmac (hash : bytes → bytes) (key msg : bytes) : bytes :=
  let key := if length key <=? 64 then key else hash key in
  let key := key ++ repeat 0%N (64 - length key) in
  hash (map (N.lxor 92) key ++ hash (map (N.lxor 54) key ++ msg)).

(** ** Test vectors (FIPS 180-4, RFC 2202) *)

Example sha256_abc : hexdigest (sha256 (encode "abc"%py)) =
  "ba7816bf8f01cfea414140de5dae2223b00361a396177a9cb410ff61f20015ad"%py.
Proof. vm_compute. reflexivity. Qed.
Example sha256_empty : hexdigest (sha256 []) =
  "e3b0c44298fc1c149afbf4c8996fb92427ae41e4649b934ca495991b7852b855"%py.
Proof. vm_compute. reflexivity. Qed.
Example sha256_two_blocks :
  hexdigest (sha256 (encode "abcdbcdecdefdefgefghfghighijhijkijkljklmklmnlmnomnopnopq"%py)) =
  "248d6a61d20638b8e5c026930c3e6039a33ce45964ff2167f6ecedd419db06c1"%py.
Proof. vm_compute. reflexivity. Qed.
Example sha1_abc : hexdigest (sha1 (encode "abc"%py)) = "a9993e364706816aba3e25717850c26c9cd0d89d"%py.
Proof. vm_compute. reflexivity. Qed.
Example hmac_sha1_jefe :
  hexdigest (hmac sha1 (encode "Jefe"%py) (encode "what do ya want for nothing?"%py)) =
  "effcdf6ae5eb2fa2d27416d5f184df9c259a7c79"%py.
Proof. vm_compute. reflexivity. Qed.

(** ** Lengths and ranges *)

Definition is_bytes (bs : bytes) : Prop := Forall (λ b, b < 256)%N bs.

Lemma be_bytes_length n x : length (be_bytes n x) = n.
Proof. revert x. induction n as [|n IH]; intros x; cbn [be_bytes]; [done|]. rewrite length_app, IH. cbn. lia. Qed.

Lemma be_bytes_range n x : is_bytes (be_bytes n x).
Proof.
  revert x. induction n as [|n IH]; intros x; cbn [be_bytes]; [constructor|].
  apply Forall_app. split; [apply IH|]. constructor; [|constructor]. by apply N.mod_lt.
Qed.

Lemma be_num_app a b : be_num (a ++ [b]) = (be_num a * 256 + b)%N.
Proof. unfold be_num. by rewrite foldl_app. Qed.

(** Unpacking undoes packing, modulo the field's width. *)
Lemma be_num_bytes n x : be_num (be_bytes n x) = (x mod 256 ^ N.of_nat n)%N.
Proof.
  revert x. induction n as [|n IH]; intros x; cbn [be_bytes].
  - by rewrite N.mod_1_r.
  - rewrite be_num_app, IH. replace (N.of_nat (S n)) with (N.succ (N.of_nat n)) by lia.
    rewrite N.pow_succ_r', N.Div0.mod_mul_r. lia.
Qed.

Lemma be_num_small n x : (x < 256 ^ N.of_nat n)%N → be_num (be_bytes n x) = x.
Proof. intros H. rewrite be_num_bytes. by apply N.mod_small. Qed.

Lemma hmac_length hash n key msg :
  (∀ x, length (hash x) = n) → length (hmac hash key msg) = n.
Proof. intros H. apply H. Qed.

Lemma flat_map_be4_length l : length (flat_map (be_bytes 4) l) = 4 * length l.
Proof. induction l as [|x l IH]; cbn [flat_map]; [done|]. rewrite length_app, IH, be_bytes_length. cbn. lia. Qed.

Lemma flat_map_be4_range l : is_bytes (flat_map (be_bytes 4) l).
Proof.
  induction l as [|x l IH]; cbn [flat_map]; [constructor|].
  apply Forall_app. split; [apply be_bytes_range | done].
Qed.

Lemma round1_length l ih : length ih.2 = 5 → length (foldl round1 ih l).2 = 5.
Proof.
  revert ih. induction l as [|w l IH]; intros [i h] H; [done|]. cbn [foldl]. apply IH.
  destruct h as [|a [|b [|c [|d [|e [|]]]]]]; try discriminate. cbn [round1].
  repeat case_match; done.
Qed.

Lemma compress1_length h w : length h = 5 → length (compress1 h w) = 5.
Proof. intros H. unfold compress1. rewrite length_zip_with, H, round1_length; done. Qed.

Lemma sha1_length bs : length (sha1 bs) = 20.
Proof.
  unfold sha1. rewrite flat_map_be4_length.
  assert (∀ l h, length h = 5 → length (foldl compress1 h l) = 5) as H.
  { induction l as [|w l IH]; intros h Hh; [done|]. by apply IH, compress1_length. }
  by rewrite H.
Qed.

Lemma sha1_range bs : is_bytes (sha1 bs).
Proof. apply flat_map_be4_range. Qed.

Lemma round256_length l h : length h = 8 → length (foldl round256 h l) = 8.
Proof.
  revert h. induction l as [|w l IH]; intros h H; [done|]. cbn [foldl]. apply IH.
  by destruct h as [|a [|b [|c [|d [|e [|f [|g [|x [|]]]]]]]]].
Qed.

Lemma sha256_length bs : length (sha256 bs) = 32.
Proof.
  unfold sha256. rewrite flat_map_be4_length.
  assert (∀ l h, length h = 8 → length (foldl compress256 h l) = 8) as H.
  { induction l as [|w l IH]; intros h Hh; [done|]. apply IH. unfold compress256.
    rewrite length_zip_with, Hh, round256_length; done. }
  by rewrite H.
Qed.

Lemma hexdigest_length bs : length (hexdigest bs) = 2 * length bs.
Proof. induction bs as [|b bs IH]; cbn [hexdigest flat_map]; [done|]. rewrite length_app. unfold hexdigest in IH. rewrite IH. cbn. lia. Qed.

#[export] Hint Rewrite be_bytes_length sha1_length sha256_length hexdigest_length : py.
#[export] Hint Resolve be_bytes_range sha1_range : py.
