(* ===== verification/Struct.v ===== *)
(** Binary framing: [struct.pack] and [struct.unpack] of big-endian unsigned fields,
    byte slices and exact reads from a stream, with the lemmas that a packed header
    parses back. *)

From S2P Require Import Prelude PyStr Hash.

(** ** Packing *)

(** One field of [n] bytes; a value that does not fit raises [struct.error]. *)
Definition pack (n : nat) (x : N) : exc bytes :=
  if (x <? 256 ^ N.of_nat n)%N then Ok (be_bytes n x) else Raise StructError.

(** [struct.pack(">...", x1, x2, ...)]: the fields with their widths. *)
Fixpoint packs (fs : list (nat * N)) : exc bytes :=
  match fs with
  | [] => Ok []
  | (n, x) :: fs' => exc_bind (pack n x) (λ b, exc_bind (packs fs') (λ r, Ok (b ++ r)))
  end.

(** [bs[a:b]]. *)
Definition slice {A} (a b : nat) (l : list A) : list A := take (b - a) (drop a l).

(** [bs[i]] for an index known to be in range. *)
Definition byte_at (i : nat) (bs : bytes) : N := nth i bs 0%N.

(** [struct.unpack(">H", bs[a:a+2])[0]]. *)
Definition u16_at (i : nat) (bs : bytes) : N := be_num (slice i (i + 2) bs).

(** [await reader.readexactly(n)] on what the peer will still send; [None] is
    [IncompleteReadError]. *)
Definition readexactly (n : nat) (input : bytes) : option (bytes * bytes) :=
  if n <=? length input then Some (take n input, drop n input) else None.

Definition lenN {A} (l : list A) : N := N.of_nat (length l).

(** [f"0x{b:02x}"]. *)
Definition hex_byte (b : N) : str := "0x"%py ++ [hex_digit (b / 16); hex_digit (b mod 16)]%N.

(** [table.get(k)] of a table of constants keyed by integers. *)
Fixpoint table_get {V} (k : N) (t : list (N * V)) : option V :=
  match t with [] => None | (k', v) :: t' => if (k =? k')%N then Some v else table_get k t' end.

(** ** Lemmas *)

Definition fits (f : nat * N) : Prop := (f.2 < 256 ^ N.of_nat f.1)%N.

Lemma pack_ok n x : (x < 256 ^ N.of_nat n)%N → pack n x = Ok (be_bytes n x).
Proof. intros H. unfold pack. by apply N.ltb_lt in H as ->. Qed.

Lemma packs_ok fs : Forall fits fs → packs fs = Ok (flat_map (λ f, be_bytes f.1 f.2) fs).
Proof.
  induction 1 as [|[n x] fs H _ IH]; [done|]. cbn [packs flat_map fst snd].
  rewrite pack_ok by exact H. cbn [exc_bind]. by rewrite IH.
Qed.

Lemma pack_inv n x r : pack n x = r → (r = Ok (be_bytes n x) ∧ fits (n, x)) ∨ (r = Raise StructError ∧ ¬ fits (n, x)).
Proof.
  intros <-. unfold pack, fits. cbn [fst snd]. destruct (N.ltb_spec x (256 ^ N.of_nat n)); [by left|].
  right. split; [done|]. lia.
Qed.

Lemma packs_inv fs :
  (packs fs = Ok (flat_map (λ f, be_bytes f.1 f.2) fs) ∧ Forall fits fs) ∨
  (packs fs = Raise StructError ∧ ¬ Forall fits fs).
Proof.
  induction fs as [|[n x] fs IH]; [by left|]. cbn [packs flat_map fst snd].
  destruct (pack_inv n x _ eq_refl) as [[-> Hf]|[-> Hf]]; cbn [exc_bind].
  - destruct IH as [[-> HF]|[-> HF]]; cbn [exc_bind]; [left; by split; [|constructor]|].
    right. split; [done|]. by intros [_ ?]%Forall_cons.
  - right. split; [done|]. by intros [? _]%Forall_cons.
Qed.

Lemma packs_ok_inv fs b : packs fs = Ok b → b = flat_map (λ f, be_bytes f.1 f.2) fs ∧ Forall fits fs.
Proof. intros E. destruct (packs_inv fs) as [[E' H]|[E' H]]; rewrite E' in E; by simplify_eq. Qed.

Lemma readexactly_app a b : readexactly (length a) (a ++ b) = Some (a, b).
Proof.
  unfold readexactly. rewrite length_app.
  assert ((length a <=? length a + length b) = true) as -> by (apply Nat.leb_le; lia).
  by rewrite take_app_length, drop_app_length.
Qed.

Lemma readexactly_app' n a b : n = length a → readexactly n (a ++ b) = Some (a, b).
Proof. intros ->. apply readexactly_app. Qed.

Lemma readexactly_spec n i a r : readexactly n i = Some (a, r) → i = a ++ r ∧ length a = n.
Proof.
  unfold readexactly. destruct (Nat.leb_spec n (length i)); [|done]. intros [= <- <-].
  rewrite take_drop, length_take. split; [done | lia].
Qed.

Lemma be_bytes_1 x : (x < 256)%N → be_bytes 1 x = [x].
Proof. intros H. cbn [be_bytes app]. by rewrite N.mod_small. Qed.

Lemma u16_be x r : (x < 65536)%N → u16_at 0 (be_bytes 2 x ++ r) = x.
Proof.
  intros H. unfold u16_at, slice. rewrite drop_0, Nat.add_0_l, Nat.sub_0_r.
  rewrite (take_app_length' (be_bytes 2 x)) by by rewrite be_bytes_length. by apply be_num_small.
Qed.

(** Reading a field at an offset skips what precedes it. *)
Lemma u16_at_app a i r : i = length a → u16_at i (a ++ r) = u16_at 0 r.
Proof.
  intros ->. unfold u16_at, slice. rewrite drop_app_length. do 2 f_equal. lia.
Qed.

Lemma byte_at_app a i x r : i = length a → byte_at i (a ++ x :: r) = x.
Proof. intros ->. unfold byte_at. by rewrite nth_middle. Qed.

Lemma byte_at_range i bs : is_bytes bs → (byte_at i bs < 256)%N.
Proof.
  intros H. unfold byte_at. revert i. induction H as [|b bs Hb _ IH]; intros [|i]; cbn; try lia. apply IH.
Qed.

Lemma slice_bytes a b bs : is_bytes bs → is_bytes (slice a b bs).
Proof. intros H. by apply Forall_take, Forall_drop. Qed.

Lemma slice_app {A} a b c (l : list A) : a ≤ b ≤ c → slice a b l ++ slice b c l = slice a c l.
Proof.
  intros H. unfold slice. replace (drop b l) with (drop (b - a) (drop a l)) by (rewrite drop_drop; f_equal; lia).
  rewrite take_take_drop. f_equal. lia.
Qed.

Lemma be_num_range bs : is_bytes bs → (be_num bs < 256 ^ lenN bs)%N.
Proof.
  unfold is_bytes. induction bs as [|b bs IH] using rev_ind; [done|]. rewrite Forall_app. intros [H Hb].
  specialize (IH H). apply Forall_cons in Hb as [Hb _]. unfold lenN in *.
  rewrite be_num_app, length_app, Nat2N.inj_add, N.pow_add_r. cbn [length].
  change (256 ^ N.of_nat 1)%N with 256%N. nia.
Qed.

Lemma u16_range i bs : is_bytes bs → (u16_at i bs < 65536)%N.
Proof.
  intros H. unfold u16_at. eapply N.lt_le_trans; [by apply be_num_range, slice_bytes|].
  change 65536%N with (256 ^ 2)%N. apply N.pow_le_mono_r; [done|].
  unfold lenN, slice. rewrite length_take. lia.
Qed.

Lemma be_bytes_num bs n : is_bytes bs → length bs = n → be_bytes n (be_num bs) = bs.
Proof.
  intros H <-. induction bs as [|b bs IH] using rev_ind; [done|].
  apply Forall_app in H as [H Hb]. apply Forall_cons in Hb as [Hb _].
  rewrite length_app, Nat.add_1_r. cbn [be_bytes].
  rewrite be_num_app. 
  assert ((be_num bs * 256 + b) / 256 = be_num bs)%N as -> by (rewrite N.div_add_l by lia; rewrite N.div_small; lia).
  assert ((be_num bs * 256 + b) mod 256 = b)%N as ->
    by (rewrite N.add_comm, N.Div0.mod_add; by apply N.mod_small).
  by rewrite IH.
Qed.

(** The fields of a header fit, from bounds in the context. *)
Ltac solve_fits :=
  repeat (apply List.Forall_cons;
    [unfold fits; cbn [fst snd];
     try change (256 ^ N.of_nat 1)%N with 256%N; try change (256 ^ N.of_nat 2)%N with 65536%N; lia|]);
  apply List.Forall_nil.

(** ** Little-endian halves *)

Lemma ones8_spec i : N.testbit 255 i = (i <? 8)%N.
Proof.
  change 255%N with (N.ones 8). destruct (N.ltb_spec i 8); [by apply N.ones_spec_low | by apply N.ones_spec_high].
Qed.

(** A 16-bit number split into its bytes and put together again. *)
Lemma u16_split x : (x < 65536)%N →
  N.lor (N.land x 255) (N.shiftl (N.land (N.shiftr x 8) 255) 8) = x.
Proof.
  intros Hx. apply N.bits_inj. intros i. rewrite N.lor_spec, N.land_spec, ones8_spec.
  destruct (N.ltb_spec i 8).
  - rewrite N.shiftl_spec_low by done. by rewrite andb_true_r, orb_false_r.
  - rewrite N.shiftl_spec_high', N.land_spec, N.shiftr_spec', ones8_spec by done.
    rewrite N.sub_add, andb_false_r by done. cbn [orb].
    destruct (N.ltb_spec (i - 8) 8); [by rewrite andb_true_r|]. rewrite andb_false_r. symmetry.
    destruct (N.eq_dec x 0) as [->|Hn]; [apply N.bits_0|]. apply N.bits_above_log2.
    assert (N.log2 x < 16)%N by (apply N.log2_lt_pow2; [lia | exact Hx]). lia.
Qed.

Lemma lor_shiftl hi lo : (lo < 256)%N → N.lor (N.shiftl hi 8) lo = (hi * 256 + lo)%N.
Proof.
  intros Hl. assert (N.land (N.shiftl hi 8) lo = 0)%N as HL.
  { apply N.bits_inj. intros i. rewrite N.land_spec, N.bits_0. destruct (N.lt_ge_cases i 8).
    - by rewrite N.shiftl_spec_low.
    - destruct (N.eq_dec lo 0) as [->|Hn]; [by rewrite N.bits_0, andb_false_r|].
      rewrite (N.bits_above_log2 lo), andb_false_r; [done|].
      assert (N.log2 lo < 8)%N by (apply N.log2_lt_pow2; [lia | exact Hl]). lia. }
  rewrite <- N.lxor_lor by done. rewrite <- N.add_nocarry_lxor by done.
  rewrite N.shiftl_mul_pow2. done.
Qed.

Lemma land255 x : N.land x 255 = (x mod 256)%N.
Proof. change 255%N with (N.ones 8). by rewrite N.land_ones. Qed.
