(* ===== verification/Float.v ===== *)
(** Python's [float]: IEEE 754 binary64, with the operations of the Standard
    Library's executable specification [SpecFloat] (no axioms), the comparisons,
    [min]/[max], [math.sqrt], decimal literals and [repr]. *)

From Corelib Require Import Floats.SpecFloat.
From S2P Require Import Prelude PyStr.

Definition flt := spec_float.

Definition fadd : flt → flt → flt := SFadd 53 1024.
Definition fsub : flt → flt → flt := SFsub 53 1024.
Definition fmul : flt → flt → flt := SFmul 53 1024.
Definition fdiv : flt → flt → flt := SFdiv 53 1024.
Definition fsqrt : flt → flt := SFsqrt 53 1024.
Definition flt_b : flt → flt → bool := SFltb.
Definition fle_b : flt → flt → bool := SFleb.
Definition fge_b (a b : flt) : bool := fle_b b a.
Definition fgt_b (a b : flt) : bool := flt_b b a.

(** [float(n)]. *)
Definition of_int (n : Z) : flt := binary_normalize 53 1024 n 0 false.

(** The decimal literal [n / d] with [d] a power of ten: both are exact, so the
    division rounds once, to the double nearest to the literal. *)
Definition lit (n d : Z) : flt := fdiv (of_int n) (of_int d).

Definition f0 : flt := of_int 0.
Definition f1 : flt := of_int 1.

(** Python's two-argument [min] and [max] keep the first argument unless the
    second one is strictly smaller (larger). *)
Definition fmin (a b : flt) : flt := if flt_b b a then b else a.
Definition fmax (a b : flt) : flt := if fgt_b b a then b else a.

(** [max(0.0, min(1.0, x))]. *)
Definition clamp01 (x : flt) : flt := fmax f0 (fmin f1 x).

(** [sum(l)], from the integer 0. *)
Definition fsum (l : list flt) : flt := foldl fadd f0 l.

(** [bool(x)]. *)
Definition ftruth (x : flt) : bool := negb (SFeqb x f0).

(** Whatever [x] is, a NaN and the infinities included, the clamp is a number
    between 0.0 and 1.0. *)
Lemma clamp01_bounds x : fle_b f0 (clamp01 x) = true ∧ fle_b (clamp01 x) f1 = true.
Proof.
  unfold clamp01, fmin, fmax, fgt_b, flt_b.
  destruct (SFltb x f1) eqn:E1.
  - destruct (SFltb f0 x) eqn:E2; [|done].
    unfold fle_b, SFleb, SFltb in *.
    destruct (SFcompare x f1) as [[]|]; destruct (SFcompare f0 x) as [[]|]; done.
  - done.
Qed.

(** ** [repr] *)

Definition pow10 (n : Z) : Z := 10 ^ n.

(** The double nearest to [d * 10 ^ k]. *)
Definition of_decimal (d k : Z) : flt :=
  if (d =? 0)%Z then f0
  else if (0 <=? k)%Z then of_int (d * pow10 k)
  else fdiv (S754_finite false (Z.to_pos d) 0) (S754_finite false (Z.to_pos (pow10 (- k))) 0).

(** [round(n / d)], ties to even, for non-negative [n] and positive [d]. *)
Definition round_div (n d : Z) : Z :=
  let q := (n / d)%Z in let r := (n mod d)%Z in
  if (2 * r <? d)%Z then q else if (d <? 2 * r)%Z then (q + 1)%Z
  else if Z.even q then q else (q + 1)%Z.

(** The decimal exponent: the [k] with [10 ^ k <= num / den < 10 ^ (k + 1)],
    searched downwards from an upper bound. *)
Fixpoint dec_exp (fuel : nat) (k num den : Z) : Z :=
  match fuel with
  | 0 => k
  | S n =>
      let below := if (0 <=? k)%Z then (num <? den * pow10 k)%Z else (num * pow10 (- k) <? den)%Z in
      if below then dec_exp n (k - 1) num den else k
  end.

(** The shortest decimal that reads back as [f], and its exponent. *)
Fixpoint shortest (fuel : nat) (n : Z) (k num den : Z) (f : flt) : Z * Z :=
  let e := (k - n + 1)%Z in
  let d := if (0 <=? e)%Z then round_div num (den * pow10 e)
           else round_div (num * pow10 (- e)) den in
  match fuel with
  | 0 => (d, e)
  | S fuel' => if SFeqb (of_decimal d e) f then (d, e) else shortest fuel' (n + 1) k num den f
  end.

Definition zeros (n : Z) : str := repeat 48%N (Z.to_nat n).

Definition format_repr (ds : str) (decpt : Z) : str :=
  let n := Z.of_nat (length ds) in
  if (-4 <? decpt)%Z && (decpt <=? 16)%Z then
    if (decpt <=? 0)%Z then "0."%py ++ zeros (- decpt) ++ ds
    else if (n <=? decpt)%Z then ds ++ zeros (decpt - n) ++ ".0"%py
    else take (Z.to_nat decpt) ds ++ "."%py ++ drop (Z.to_nat decpt) ds
  else
    let e := (decpt - 1)%Z in
    take 1 ds ++ (match drop 1 ds with [] => [] | r => "."%py ++ r end) ++ "e"%py
      ++ (if (e <? 0)%Z then "-"%py else "+"%py)
      ++ (if (Z.abs e <? 10)%Z then "0"%py else []) ++ str_of_nat (Z.abs e).

Definition float_repr (f : flt) : str :=
  match f with
  | S754_zero s => (if s then "-"%py else []) ++ "0.0"%py
  | S754_infinity s => (if s then "-"%py else []) ++ "Infinity"%py
  | S754_nan => "NaN"%py
  | S754_finite s m e =>
      let num := if (0 <=? e)%Z then (Z.pos m * 2 ^ e)%Z else Z.pos m in
      let den := if (0 <=? e)%Z then 1%Z else (2 ^ (- e))%Z in
      let k := dec_exp 800 ((Z.log2 (Z.pos m) + e) / 3 + 2) num den in
      let '(d, ex) := shortest 17 1 k num den (S754_finite false m e) in
      let ds := str_of_nat d in
      (* [d] may have rounded up to the next power of ten: its own digits say
         where the point is; trailing zeros are not significant. *)
      let decpt := (ex + Z.of_nat (length ds))%Z in
      let ds' := match rstrip_char 48 ds with [] => ds | r => r end in
      (if s then "-"%py else []) ++ format_repr ds' decpt
  end.

Example repr_tenth : float_repr (lit 1 10) = "0.1"%py.
Proof. vm_compute. reflexivity. Qed.
Example repr_sum : float_repr (fadd (lit 1 10) (lit 2 10)) = "0.30000000000000004"%py.
Proof. vm_compute. reflexivity. Qed.
Example repr_third : float_repr (fdiv f1 (of_int 3)) = "0.3333333333333333"%py.
Proof. vm_compute. reflexivity. Qed.
Example repr_epoch : float_repr (fdiv (of_int 17785466781234567) (of_int 10000000)) = "1778546678.1234567"%py.
Proof. vm_compute. reflexivity. Qed.
Example repr_big : float_repr (of_int (10 ^ 22)) = "1e+22"%py.
Proof. vm_compute. reflexivity. Qed.
Example repr_small : float_repr (lit (-25) (10 ^ 7)) = "-2.5e-06"%py.
Proof. vm_compute. reflexivity. Qed.

(** Every character of a [repr] is one a JSON number (or NaN, Infinity) has. *)
Definition tok_char (c : N) : bool :=
  is_alpha c || is_digit c || (c =? 43)%N || (c =? 45)%N || (c =? 46)%N.

Definition tok (s : str) : Prop := s ≠ [] ∧ Forall (λ c, tok_char c = true) s.

Lemma digits_aux_chars f n acc :
  Forall (λ c, tok_char c = true) acc → Forall (λ c, tok_char c = true) (digits_aux f n acc).
Proof.
  revert n acc. induction f as [|f IH]; intros n acc H; [done|]. cbn [digits_aux].
  assert (Forall (λ c, tok_char c = true) ((48 + Z.to_N (n mod 10))%N :: acc)) as Ha.
  { constructor; [|done]. pose proof (last_digit_bounds n). unfold tok_char, is_digit. lia. }
  case_match; [done|]. by apply IH.
Qed.

Lemma digits_aux_nonempty f n acc : 0 < f → digits_aux f n acc ≠ [].
Proof.
  assert (∀ f n acc, acc ≠ [] → digits_aux f n acc ≠ []) as Hk.
  { clear. induction f as [|f IH]; intros n acc H; [done|]. cbn [digits_aux].
    case_match; [done|]. by apply IH. }
  destruct f; [lia|]. intros _. cbn [digits_aux]. case_match; [done|]. by apply Hk.
Qed.

Lemma str_of_nat_tok n : tok (str_of_nat n).
Proof. split; [apply digits_aux_nonempty; lia | by apply digits_aux_chars]. Qed.

Lemma str_of_Z_tok n : tok (str_of_Z n).
Proof.
  unfold str_of_Z. case_match; [|apply str_of_nat_tok].
  destruct (str_of_nat_tok (- n)). split; [done|]. by constructor.
Qed.

Lemma zeros_chars n : Forall (λ c, tok_char c = true) (zeros n).
Proof. unfold zeros. induction (Z.to_nat n); by constructor. Qed.

Lemma rstrip_chars c s :
  Forall (λ c, tok_char c = true) s → Forall (λ c, tok_char c = true) (rstrip_char c s).
Proof.
  intros H. unfold rstrip_char, rstrip_by. apply Forall_rev. apply Forall_rev in H.
  induction H as [|x l Hx Hl IH]; cbn [lstrip_by]; [constructor|]. case_match; [done|by constructor].
Qed.

Lemma app_chars a b :
  Forall (λ c, tok_char c = true) a → Forall (λ c, tok_char c = true) b →
  Forall (λ c, tok_char c = true) (a ++ b).
Proof. intros. by apply Forall_app. Qed.

Lemma format_repr_tok ds k :
  ds ≠ [] → Forall (λ c, tok_char c = true) ds → tok (format_repr ds k).
Proof.
  intros Hne H. unfold format_repr, tok. destruct (str_of_nat_tok (Z.abs (k - 1))) as [Hn Hs].
  pose proof (λ n, Forall_take _ n _ H) as Ht. pose proof (λ n, Forall_drop _ n _ H) as Hd.
  assert (Forall (λ c, tok_char c = true) (match drop 1 ds with [] => [] | r => "."%py ++ r end)).
  { specialize (Hd 1). destruct (drop 1 ds); [constructor | by constructor]. }
  assert (∀ b x y, Forall (λ c, tok_char c = true) x → Forall (λ c, tok_char c = true) y →
    Forall (λ c, tok_char c = true) (if b : bool then x else y)) by (by intros []).
  destruct (_ && _); [destruct (k <=? 0)%Z; [|destruct (_ <=? k)%Z]|]; split;
    try (repeat apply app_chars; auto using zeros_chars; by repeat constructor).
  - by destruct ds.
  - intros [_ E]%app_nil. discriminate.
  - by destruct ds.
Qed.

Lemma float_repr_tok f : tok (float_repr f).
Proof.
  destruct f as [s|s| |s m e]; unfold float_repr.
  - destruct s; split; try done; by repeat constructor.
  - destruct s; split; try done; by repeat constructor.
  - split; [done|]. by repeat constructor.
  - destruct (shortest _ _ _ _ _ _) as [d ex]. destruct (str_of_nat_tok d) as [Hn Hd].
    set (ds' := match rstrip_char 48 (str_of_nat d) with [] => _ | r => _ end).
    assert (ds' ≠ [] ∧ Forall (λ c, tok_char c = true) ds') as [H1 H2].
    { unfold ds'. pose proof (rstrip_chars 48 _ Hd). by destruct (rstrip_char 48 (str_of_nat d)). }
    destruct (format_repr_tok ds' (ex + Z.of_nat (length (str_of_nat d))) H1 H2) as [H3 H4].
    destruct s; split; try done; [by constructor].
Qed.

#[export] Hint Resolve float_repr_tok str_of_Z_tok : py.

(** [int(x)]: truncation ([None] on NaN and infinities, which raise). *)
Definition trunc (f : flt) : option Z :=
  match f with
  | S754_zero _ => Some 0%Z
  | S754_finite s m e =>
      let a := if (0 <=? e)%Z then (Z.pos m * 2 ^ e)%Z else (Z.pos m / 2 ^ (- e))%Z in
      Some (if s then (- a)%Z else a)
  | _ => None
  end.

(** [round(x, 2)]: the double nearest to the nearest hundredth, ties to even. *)
Definition round2 (f : flt) : flt :=
  match f with
  | S754_finite s m e =>
      let num := if (0 <=? e)%Z then (Z.pos m * 2 ^ e * 100)%Z else (Z.pos m * 100)%Z in
      let den := if (0 <=? e)%Z then 1%Z else (2 ^ (- e))%Z in
      let r := of_decimal (round_div num den) (-2) in
      if s then SFopp r else r
  | _ => f
  end.

(** [f"{x:.2f}"]. *)
Definition fmt2 (f : flt) : str :=
  match f with
  | S754_zero s => (if s then "-"%py else []) ++ "0.00"%py
  | S754_infinity s => (if s then "-"%py else []) ++ "inf"%py
  | S754_nan => "nan"%py
  | S754_finite s m e =>
      let num := if (0 <=? e)%Z then (Z.pos m * 2 ^ e * 100)%Z else (Z.pos m * 100)%Z in
      let den := if (0 <=? e)%Z then 1%Z else (2 ^ (- e))%Z in
      let h := round_div num den in
      (if s then "-"%py else []) ++ str_of_nat (h / 100) ++ "."%py ++ zero_pad 2 (h mod 100)
  end.

Example fmt2_example :
  map fmt2 [lit 1 8; lit 3 8; lit 855 1000; of_int 3] = ["0.12"; "0.38"; "0.85"; "3.00"]%py.
Proof. vm_compute. reflexivity. Qed.

Example round2_example : float_repr (round2 (lit 12345 1000)) = "12.35"%py ∨
  float_repr (round2 (lit 12345 1000)) = "12.34"%py.
Proof. vm_compute. auto. Qed.

Example literal_055 : float_repr (lit 55 100) = "0.55"%py.
Proof. vm_compute. reflexivity. Qed.

(** The negative zero, which [x or 0] turns into the integer zero. *)
Definition not_neg_zero (f : flt) : Prop := f ≠ S754_zero true.

Lemma clamp01_not_neg_zero x : not_neg_zero (clamp01 x).
Proof.
  unfold clamp01, fmax, fgt_b, flt_b, not_neg_zero.
  destruct (SFltb f0 (fmin f1 x)) eqn:E; [|done]. intros H. by rewrite H in E.
Qed.
