(* ===== verification/Proxy.v ===== *)
(** plenith/proxy_protocol.py (and its copy under linux-fork/mfa): the PROXY protocol v1
    header in front of a connection, parsed and read off the stream. *)

From S2P Require Import Prelude PyStr Posix Vfs Hash Float.

Definition MAX_HEADER_BYTES : nat := 107.
Definition PREFIX : bytes := "PROXY "%py.
Definition CRLF : bytes := [13; 10]%N.

Record ProxyV1Header := mk_header {
  protocol : str;
  src_ip : option str;
  dst_ip : option str;
  src_port : option Z;
  dst_port : option Z;
  raw_length : nat;
}.

Definition is_known (h : ProxyV1Header) : bool :=
  bool_decide (protocol h = "TCP4"%py ∨ protocol h = "TCP6"%py) && bool_decide (is_Some (src_ip h)).

Definition str_of_len (n : nat) : str := str_of_Z (Z.of_nat n).

(** The first byte that is not ASCII, with its position. *)
Fixpoint non_ascii (i : nat) (bs : bytes) : option (nat * N) :=
  match bs with
  | [] => None
  | b :: bs' => if (b <? 128)%N then non_ascii (S i) bs' else Some (i, b)
  end.

Section parse.
Context `{Unicode}.

Definition fail {A} (msg : str) : exc A := Raise (ProxyProtocolError msg).

(** The part after the protocol token, for TCP4 and TCP6. *)
Definition parse_addresses (proto : str) (parts : list str) (raw : nat) : exc ProxyV1Header :=
  match parts with
  | [_; src; dst; sp; dp] =>
      match py_int sp, py_int dp with
      | Some p, Some q =>
          if negb ((0 <=? p) && (p <=? 65535) && (0 <=? q) && (q <=? 65535))%Z then fail "port out of range"%py
          else if bool_decide (proto = "TCP4"%py) then
            if negb (count_char DOT src =? 3) || negb (count_char DOT dst =? 3)
            then fail ("TCP4 with non-dotted IP: "%py ++ src ++ " / "%py ++ dst)
            else Ok (mk_header proto (Some src) (Some dst) (Some p) (Some q) raw)
          else
            if negb (contains src ":"%py) || negb (contains dst ":"%py)
            then fail ("TCP6 with non-colon IP: "%py ++ src ++ " / "%py ++ dst)
            else Ok (mk_header proto (Some src) (Some dst) (Some p) (Some q) raw)
      | _, _ => fail ("non-integer port: "%py ++ sp ++ " / "%py ++ dp)
      end
  | _ => fail ("expected 5 tokens for "%py ++ proto ++ ", got "%py ++ str_of_len (length parts) ++ ": "%py
               ++ repr_list parts)
  end.

Definition parse_v1 (line : bytes) : exc ProxyV1Header :=
  if MAX_HEADER_BYTES <? length line then
    fail ("header too long: "%py ++ str_of_len (length line) ++ " > 107"%py)
  else if negb (endswith line CRLF) then fail "header missing CRLF terminator"%py
  else if negb (startswith line PREFIX) then fail "header missing PROXY prefix"%py
  else
    let body := take (length line - 8) (drop 6 line) in
    match non_ascii 0 body with
    | Some (i, b) =>
        fail ("non-ASCII in header: 'ascii' codec can't decode byte 0x"%py ++ hex_digits 2 b
              ++ " in position "%py ++ str_of_len i ++ ": ordinal not in range(128)"%py)
    | None =>
        let parts := split_on 32 body in
        let proto := hd [] parts in
        if bool_decide (proto = "UNKNOWN"%py) then
          Ok (mk_header "UNKNOWN"%py None None None None (length line))
        else if negb (bool_decide (proto = "TCP4"%py ∨ proto = "TCP6"%py)) then
          fail ("unknown protocol token "%py ++ py_repr proto)
        else parse_addresses proto parts (length line)
    end.

(** How the peer's bytes stop coming before the reader has its line. *)
Inductive arrival := Stalled | Gone.

(** The position after the first CRLF. *)
Fixpoint find_crlf (i : nat) (bs : bytes) : option nat :=
  match bs with
  | 13%N :: ((10%N :: _) as rest) => Some (S (S i))
  | _ :: rest => find_crlf (S i) rest
  | [] => None
  end.

(** The stream reader's limit. *)
Definition LIMIT : N := 65536.

(** [read_v1_header(reader)]: the header and what is left on the stream. *)
Definition read_v1_header (input : bytes) (a : arrival) : exc (ProxyV1Header * bytes) :=
  match find_crlf 0 input with
  | Some n =>
      if (LIMIT <? N.of_nat (n - 2))%N then fail "buffer overrun — no CRLF in first 64KB"%py
      else exc_bind (parse_v1 (take n input)) (λ h, Ok (h, drop n input))
  | None =>
      if (LIMIT <? N.of_nat (length input - 1))%N then fail "buffer overrun — no CRLF in first 64KB"%py
      else match a with
           | Stalled => fail "timed out waiting for PROXY header"%py
           | Gone => fail ("connection closed mid-header (read "%py ++ str_of_len (length input) ++ " bytes)"%py)
           end
  end.
End parse.

(** ** [int] undoes [str] *)

Lemma int_digit_mod a b m r : (0 <= m < 10)%Z →
  int_digits a b ((48 + Z.to_N m)%N :: r) = int_digits (a * 10 + m) true r.
Proof.
  intros Hm. cbn [int_digits].
  assert (is_digit (48 + Z.to_N m) = true) as ->.
  { unfold is_digit. apply andb_true_iff. rewrite !N.leb_le. lia. }
  f_equal. lia.
Qed.

Lemma int_digit a b n r : (0 <= n < 10)%Z →
  int_digits a b ((48 + Z.to_N (n mod 10))%N :: r) = int_digits (a * 10 ^ 1 + n) true r.
Proof. intros Hn. rewrite Z.mod_small by done. by apply int_digit_mod. Qed.

Lemma digits_aux_value f n r : (0 <= n < 2 ^ Z.of_nat (S f))%Z →
  ∃ k, (0 <= k)%Z ∧ ∀ a b, int_digits a b (digits_aux (S f) n r) = int_digits (a * 10 ^ k + n) true r.
Proof.
  revert n r. induction f as [|f IH]; intros n r Hn; cbn [digits_aux].
  - change (2 ^ Z.of_nat 1)%Z with 2%Z in Hn. destruct (Z.ltb_spec n 10); [|lia].
    exists 1%Z. split; [lia|]. intros a b. apply int_digit; lia.
  - destruct (Z.ltb_spec n 10).
    { exists 1%Z. split; [lia|]. intros a b. apply int_digit; lia. }
    rewrite (Nat2Z.inj_succ (S f)), Z.pow_succ_r in Hn by lia.
    pose proof (Z.div_mod n 10). pose proof (Z.mod_pos_bound n 10).
    destruct (IH (n / 10)%Z ((48 + Z.to_N (n mod 10))%N :: r)) as (k & Hk & E); [lia|].
    exists (k + 1)%Z. split; [lia|]. intros a b. rewrite E.
    rewrite int_digit_mod by lia. f_equal. rewrite Z.pow_add_r by lia. lia.
Qed.

Lemma str_of_nat_digits n : (0 <= n)%Z → isdigit (str_of_nat n) = true.
Proof.
  intros Hn. unfold str_of_nat.
  assert (∀ f m r, 0 <= m → forallb is_digit r = true → forallb is_digit (digits_aux f m r) = true)%Z as H.
  { induction f as [|f IH]; intros m r Hm Hr; cbn [digits_aux]; [done|].
    pose proof (Z.mod_pos_bound m 10 ltac:(lia)).
    assert (forallb is_digit ((48 + Z.to_N (m mod 10))%N :: r) = true) as Hr'.
    { cbn [forallb]. rewrite Hr, andb_true_r. unfold is_digit. apply andb_true_iff. rewrite !N.leb_le. lia. }
    destruct (m <? 10)%Z; [exact Hr'|]. apply IH; [|done]. apply Z.div_pos; lia. }
  pose proof (digits_aux_nonempty (S (Z.to_nat (Z.log2 n))) n [] (Nat.lt_0_succ _)) as Hne.
  specialize (H (S (Z.to_nat (Z.log2 n))) n [] Hn eq_refl). unfold isdigit.
  by destruct (digits_aux _ _ _).
Qed.

(** A string of digits has nothing to strip and no sign. *)
Lemma py_int_digits s : isdigit s = true → py_int s = int_digits 0 false s.
Proof.
  intros Hs. assert (Forall (λ c, is_digit c = true) s) as HF.
  { unfold isdigit in Hs. destruct s as [|c s]; [done|].
    apply Forall_forall. intros x Hx. rewrite forallb_forall in Hs. by apply Hs, list_elem_of_In. }
  assert (∀ l, Forall (λ c, is_digit c = true) l → lstrip_by is_space l = l) as Hstrip.
  { intros [|c l] Hl; [done|]. apply Forall_cons in Hl as [Hc _]. cbn [lstrip_by].
    assert (is_space c = false) as ->; [|done].
    unfold is_digit in Hc. apply andb_true_iff in Hc as [H1%N.leb_le H2%N.leb_le].
    unfold is_space. lia. }
  assert (strip s = s) as E.
  { unfold strip, rstrip_by. rewrite (Hstrip s HF). rewrite Hstrip by by apply Forall_rev.
    apply rev_involutive. }
  unfold py_int. rewrite E. destruct s as [|c s]; [done|]. apply Forall_cons in HF as [Hc _].
  unfold is_digit in Hc. apply andb_true_iff in Hc as [H1%N.leb_le H2%N.leb_le].
  clear -H1 H2. destruct c as [|c]; [lia|]. do 6 (destruct c as [c|c|]; try reflexivity; try lia).
Qed.

Lemma py_int_str_of_Z n : (0 <= n)%Z → py_int (str_of_Z n) = Some n.
Proof.
  intros Hn. unfold str_of_Z. destruct (Z.ltb_spec n 0); [lia|].
  rewrite py_int_digits by by apply str_of_nat_digits. unfold str_of_nat.
  destruct (digits_aux_value (Z.to_nat (Z.log2 n)) n []) as (k & _ & E).
  - split; [done|]. destruct (Z.eq_dec n 0) as [->|]; [apply Z.pow_pos_nonneg; lia|].
    rewrite Nat2Z.inj_succ, Z2Nat.id by apply Z.log2_nonneg.
    apply Z.log2_spec. lia.
  - by rewrite E.
Qed.

(** ** Formatting, and what a header is *)

(** The header an upstream balancer writes. *)
Definition header_line (proto src dst : str) (sp dp : Z) : bytes :=
  PREFIX ++ join [32%N] [proto; src; dst; str_of_Z sp; str_of_Z dp] ++ CRLF.

Definition port_ok (p : Z) : Prop := (0 <= p <= 65535)%Z.

(** An address token: ASCII without spaces or carriage returns, shaped like its protocol. *)
Definition address_ok (proto a : str) : Prop :=
  Forall (λ c, c < 128 ∧ c ≠ 32 ∧ c ≠ 13)%N a ∧
  ((proto = "TCP4"%py ∧ count_char DOT a = 3) ∨ (proto = "TCP6"%py ∧ contains a ":"%py = true)).

Lemma non_ascii_none i bs : Forall (λ b, b < 128)%N bs → non_ascii i bs = None.
Proof.
  intros H. revert i. induction H as [|b bs Hb _ IH]; intros i; cbn [non_ascii]; [done|].
  apply N.ltb_lt in Hb as ->. apply IH.
Qed.

Lemma str_of_Z_chars z c : (0 <= z)%Z → c ∈ str_of_Z z → (48 <= c <= 57)%N.
Proof.
  intros Hz Hc. unfold str_of_Z in Hc. destruct (Z.ltb_spec z 0); [lia|].
  pose proof (str_of_nat_digits z Hz) as Hd. unfold isdigit in Hd.
  destruct (str_of_nat z) as [|x s]; [done|]. rewrite forallb_forall in Hd.
  apply list_elem_of_In, Hd in Hc. unfold is_digit in Hc.
  apply andb_true_iff in Hc as [H1%N.leb_le H2%N.leb_le]. lia.
Qed.

Section laws.
Context `{Unicode}.

Lemma parse_v1_body body : length body ≤ 99 → Forall (λ b, b < 128)%N body →
  parse_v1 (PREFIX ++ body ++ CRLF) =
    let parts := split_on 32 body in
    let proto := hd [] parts in
    let raw := 8 + length body in
    if bool_decide (proto = "UNKNOWN"%py) then Ok (mk_header "UNKNOWN"%py None None None None raw)
    else if negb (bool_decide (proto = "TCP4"%py ∨ proto = "TCP6"%py)) then
      fail ("unknown protocol token "%py ++ py_repr proto)
    else parse_addresses proto parts raw.
Proof.
  intros Hl Ha. unfold parse_v1.
  assert (length (PREFIX ++ body ++ CRLF) = 8 + length body) as El.
  { rewrite !length_app. cbn. lia. }
  rewrite El. destruct (Nat.ltb_spec MAX_HEADER_BYTES (8 + length body)); [unfold MAX_HEADER_BYTES in *; lia|].
  assert (endswith (PREFIX ++ body ++ CRLF) CRLF = true) as ->.
  { rewrite app_assoc. apply endswith_app. }
  rewrite startswith_app. cbn [negb].
  assert (take (8 + length body - 8) (drop 6 (PREFIX ++ body ++ CRLF)) = body) as ->.
  { replace (8 + length body - 8) with (length body) by lia. cbn [PREFIX drop].
    change (drop 6 (PREFIX ++ body ++ CRLF)) with (body ++ CRLF). by rewrite take_app_length. }
  by rewrite non_ascii_none.
Qed.

Definition known_header (proto src dst : str) (sp dp : Z) : ProxyV1Header :=
  mk_header proto (Some src) (Some dst) (Some sp) (Some dp) (length (header_line proto src dst sp dp)).

Lemma parse_header_line proto src dst sp dp :
  address_ok proto src → address_ok proto dst → port_ok sp → port_ok dp →
  length (header_line proto src dst sp dp) ≤ MAX_HEADER_BYTES →
  parse_v1 (header_line proto src dst sp dp) = Ok (known_header proto src dst sp dp).
Proof.
  intros [Hs Hsp] [Hd Hdp] Hp Hq Hl. unfold header_line in *.
  set (body := join [32%N] _) in *.
  assert (length (PREFIX ++ body ++ CRLF) = 8 + length body) as El.
  { rewrite !length_app. cbn. lia. }
  assert (proto = "TCP4"%py ∨ proto = "TCP6"%py) as Hproto by naive_solver.
  assert (∀ z, port_ok z → Forall (λ c, c < 128 ∧ c ≠ 32 ∧ c ≠ 13)%N (str_of_Z z)) as HZ.
  { intros z [Hz _]. apply Forall_forall. intros c Hc. apply str_of_Z_chars in Hc; lia. }
  assert (Forall (λ c, c < 128 ∧ c ≠ 32 ∧ c ≠ 13)%N proto) as HP.
  { destruct Hproto as [-> | ->]; apply (bool_decide_unpack _); vm_compute; exact I. }
  assert (Forall (Forall (λ c, c < 128 ∧ c ≠ 32 ∧ c ≠ 13)%N) [proto; src; dst; str_of_Z sp; str_of_Z dp]) as HF.
  { repeat apply List.Forall_cons; auto using List.Forall_nil. }
  rewrite parse_v1_body.
  - assert (split_on 32 body = [proto; src; dst; str_of_Z sp; str_of_Z dp]) as ->.
    { apply split_on_join; [done|]. eapply Forall_impl; [exact HF|]. cbn. intros t Ht Hin.
      rewrite Forall_forall in Ht. by apply Ht in Hin as (_ & ? & _). }
    cbv zeta. cbn [hd]. rewrite bool_decide_eq_false_2 by by destruct Hproto as [-> | ->].
    rewrite bool_decide_eq_true_2 by done. cbn [negb]. unfold parse_addresses.
    rewrite !py_int_str_of_Z by (unfold port_ok in *; lia).
    assert ((0 <=? sp) && (sp <=? 65535) && (0 <=? dp) && (dp <=? 65535) = true)%Z as ->
      by (unfold port_ok in *; lia).
    cbn [negb]. unfold known_header, header_line. fold body. rewrite El.
    destruct Hsp as [[-> Hsc]|[-> Hsc]], Hdp as [[? Hdc]|[? Hdc]]; try done.
    + rewrite bool_decide_eq_true_2 by done. by rewrite Hsc, Hdc.
    + rewrite bool_decide_eq_false_2 by done. by rewrite Hsc, Hdc.
  - unfold MAX_HEADER_BYTES in *. lia.
  - apply Forall_forall. intros c Hc. apply join_elem in Hc as [Hc|(t & Ht & Hc)].
    + apply list_elem_of_singleton in Hc as ->. done.
    + rewrite Forall_forall in HF. specialize (HF t Ht). rewrite Forall_forall in HF. by apply HF in Hc as [? _].
Qed.
End laws.

Lemma find_crlf_app i xs rest : 13%N ∉ xs → find_crlf i (xs ++ CRLF ++ rest) = Some (i + length xs + 2).
Proof.
  revert i. induction xs as [|x xs IH]; intros i Hx; cbn [app length].
  - cbn. f_equal. lia.
  - apply not_elem_of_cons in Hx as [Hne Hx].
    assert (find_crlf i (x :: xs ++ CRLF ++ rest) = find_crlf (S i) (xs ++ CRLF ++ rest)) as ->.
    { cbn [find_crlf]. destruct x as [|p]; [done|].
      do 4 (destruct p as [p|p|]; try done). }
    rewrite IH by done. f_equal. lia.
Qed.

Lemma read_header_line `{Unicode} proto src dst sp dp rest a :
  address_ok proto src → address_ok proto dst → port_ok sp → port_ok dp →
  length (header_line proto src dst sp dp) ≤ MAX_HEADER_BYTES →
  read_v1_header (header_line proto src dst sp dp ++ rest) a = Ok (known_header proto src dst sp dp, rest).
Proof.
  intros Hs Hd Hp Hq Hl. unfold read_v1_header.
  set (xs := PREFIX ++ join [32%N] [proto; src; dst; str_of_Z sp; str_of_Z dp]).
  assert (header_line proto src dst sp dp = xs ++ CRLF) as E.
  { unfold xs, header_line. by rewrite app_assoc. }
  assert (13%N ∉ xs) as Hx.
  { intros [Hc|Hc]%elem_of_app.
    { assert (13%N ∉ PREFIX) as Hn by (apply (bool_decide_unpack _); vm_compute; exact I). done. }
    apply join_elem in Hc as [Hc%list_elem_of_singleton|(t & Ht & Hc)]; [done|].
    destruct Hs as [Hs Hs'], Hd as [Hd _]. rewrite Forall_forall in Hs, Hd.
    assert (13%N ∉ proto) as Hpr.
    { assert (proto = "TCP4"%py ∨ proto = "TCP6"%py) as [-> | ->] by naive_solver;
        apply (bool_decide_unpack _); vm_compute; exact I. }
    assert (∀ z, port_ok z → 13%N ∉ str_of_Z z) as HZ.
    { intros z [Hz _] Hin. apply str_of_Z_chars in Hin; lia. }
    repeat (apply elem_of_cons in Ht as [->|Ht]); [by destruct Hpr | | | by destruct (HZ sp) | by destruct (HZ dp)|].
    - by apply Hs in Hc as (_ & _ & ?).
    - by apply Hd in Hc as (_ & _ & ?).
    - by apply not_elem_of_nil in Ht. }
  assert ((header_line proto src dst sp dp ++ rest) = xs ++ CRLF ++ rest) as ER by by rewrite E, <- app_assoc.
  rewrite ER, find_crlf_app by done. rewrite <- ER.
  assert (0 + length xs + 2 = length (header_line proto src dst sp dp)) as -> by (rewrite E, length_app; cbn; lia).
  rewrite take_app_length, drop_app_length. unfold MAX_HEADER_BYTES in Hl.
  destruct (N.ltb_spec LIMIT (N.of_nat (length (header_line proto src dst sp dp) - 2))); [unfold LIMIT in *; lia|].
  by rewrite parse_header_line.
Qed.

(** C32: a balancer's header is read exactly.  For addresses of the protocol's shape and
    ports in range, whatever follows on the stream, the reader consumes the header and
    nothing more and returns its protocol, addresses and ports. *)
Theorem header_round_trip `{Unicode} proto src dst sp dp rest a :
  address_ok proto src → address_ok proto dst → port_ok sp → port_ok dp →
  length (header_line proto src dst sp dp) ≤ MAX_HEADER_BYTES →
  read_v1_header (header_line proto src dst sp dp ++ rest) a = Ok (known_header proto src dst sp dp, rest).
Proof. apply read_header_line. Qed.

(** a header is accepted only when it is one.  Whatever bytes arrive, the parser
    either raises its own error, the one on which callers close the connection, or the
    line is framed and within the limit and the result is an UNKNOWN header without
    addresses, or one whose ports are in range and whose addresses have the shape of
    the protocol. *)
Theorem parse_v1_sound `{Unicode} line :
  match parse_v1 line with
  | Raise e => ∃ msg, e = ProxyProtocolError msg
  | Ok h =>
      raw_length h = length line ∧ length line ≤ MAX_HEADER_BYTES ∧
      PREFIX `prefix_of` line ∧ endswith line CRLF = true ∧
      ((h = mk_header "UNKNOWN"%py None None None None (length line) ∧ is_known h = false) ∨
       ∃ src dst sp dp,
         h = mk_header (protocol h) (Some src) (Some dst) (Some sp) (Some dp) (length line) ∧
         is_known h = true ∧ port_ok sp ∧ port_ok dp ∧
         ((protocol h = "TCP4"%py ∧ count_char DOT src = 3 ∧ count_char DOT dst = 3) ∨
          (protocol h = "TCP6"%py ∧ contains src ":"%py = true ∧ contains dst ":"%py = true)))
  end.
Proof.
  unfold parse_v1. destruct (Nat.ltb_spec MAX_HEADER_BYTES (length line)) as [|Hl]; [by eexists|].
  destruct (endswith line CRLF) eqn:Ee; cbn [negb]; [|by eexists].
  destruct (startswith line PREFIX) eqn:Es; cbn [negb]; [|by eexists].
  destruct (non_ascii _ _) as [[i b]|]; [by eexists|]. set (parts := split_on _ _).
  destruct (bool_decide (hd [] parts = _)).
  { apply startswith_spec in Es. split_and!; [done..|]. by left. }
  case_bool_decide as Hp; cbn [negb]; [|by eexists].
  unfold parse_addresses. destruct parts as [|p0 [|src [|dst [|sp [|dp [|]]]]]]; try by eexists.
  cbn [hd] in Hp |- *. destruct (py_int sp) as [x|]; [|by eexists]. destruct (py_int dp) as [y|]; [|by eexists].
  destruct (_ && _) eqn:Er; cbn [negb]; [|by eexists].
  apply startswith_spec in Es. case_bool_decide as H4.
  - destruct (Nat.eqb_spec (count_char DOT src) 3), (Nat.eqb_spec (count_char DOT dst) 3); cbn [negb orb]; try by eexists.
    split_and!; [done..|]. right. exists src, dst, x, y. cbn [protocol].
    split_and!; [done| |unfold port_ok; lia..|by left]. unfold is_known. cbn [protocol src_ip].
    by rewrite (bool_decide_eq_true_2 _ Hp), bool_decide_eq_true_2.
  - destruct (contains src _) eqn:C1, (contains dst _) eqn:C2; cbn [negb orb]; try by eexists.
    split_and!; [done..|]. right. exists src, dst, x, y. cbn [protocol].
    split_and!; [done| |unfold port_ok; lia..|right]. 
    + unfold is_known. cbn [protocol src_ip]. by rewrite (bool_decide_eq_true_2 _ Hp), bool_decide_eq_true_2.
    + by destruct Hp.
Qed.

(** ** Examples *)

#[local] Instance only_ascii : Unicode := λ _, false.

Lemma header_round_trip_witness :
  read_v1_header (header_line "TCP4" "192.0.2.99" "10.0.0.50" 49234 22 ++ "SSH-2.0-x")%py Gone
  = Ok (mk_header "TCP4" (Some "192.0.2.99") (Some "10.0.0.50") (Some 49234%Z) (Some 22%Z) 42, "SSH-2.0-x")%py.
Proof.
  etransitivity.
  - apply (header_round_trip "TCP4"%py "192.0.2.99"%py "10.0.0.50"%py 49234 22 "SSH-2.0-x"%py Gone);
      try (split; [apply (bool_decide_unpack _); vm_compute; exact I | by left]).
    + unfold port_ok. lia.
    + unfold port_ok. lia.
    + vm_compute. lia.
  - vm_compute. reflexivity.
Defined.

(** Ports go through [int], which takes signs, underscores and white space. *)
Example lenient_ports :
  parse_v1 ("PROXY TCP4 1.2.3.4 5.6.7.8 +8_0 \t22\r\n")%py
  = Ok (mk_header "TCP4" (Some "1.2.3.4") (Some "5.6.7.8") (Some 80%Z) (Some 22%Z) 37)%py.
Proof. vm_compute. reflexivity. Qed.

(** Any token with three dots is an IPv4 address. *)
Example not_an_address :
  is_ok (parse_v1 "PROXY TCP4 *.*.*.* ../.x 1 2\r\n"%py) = true.
Proof. vm_compute. reflexivity. Qed.
