(* ===== verification/Push.v ===== *)
(** linux-fork/mfa/push_sim.py: the push-approval service, its requests and HTTP routes.

    The table of requests is the module's dict, in insertion order; every operation takes
    the time at which it runs. *)

From S2P Require Import Prelude PyStr.

Inductive status := Pending | Approved | Denied.
#[export] Instance status_eq_dec : EqDecision status.
Proof. solve_decision. Defined.

Definition status_str (s : status) : str :=
  match s with Pending => "pending" | Approved => "approved" | Denied => "denied" end%py.

Record PushRequest := mk_push {
  p_token : str; p_username : str; p_ip : str; p_status : status; created_at : time; ttl : time
}.

Definition expires_at (r : PushRequest) : time := (created_at r + ttl r)%Z.
Definition remaining (now : time) (r : PushRequest) : time := Z.max 0 (expires_at r - now).
Definition is_expired (now : time) (r : PushRequest) : bool := (expires_at r <=? now)%Z.

(** [to_dict]: what a poll shows. *)
Record view := mk_view {
  v_token : str; v_username : str; v_ip : str; v_status : str; age : time; expires_in : time
}.
Definition to_view (now : time) (r : PushRequest) : view :=
  mk_view (p_token r) (p_username r) (p_ip r)
    (if is_expired now r then "expired"%py else status_str (p_status r))
    (now - created_at r)%Z (remaining now r).

Definition with_status (s : status) (r : PushRequest) : PushRequest :=
  mk_push (p_token r) (p_username r) (p_ip r) s (created_at r) (ttl r).

Definition pushes := list (str * PushRequest).

(** The module's settings. *)
Record config := mk_config { DEFAULT_TTL : time; AUTO_DENY : gset str; AUTO_APPROVE : gset str }.

Section push.
Context (cfg : config).

Definition create_push (token username ip : str) (ttl_seconds : option time) (now : time) (t : pushes)
    : PushRequest * pushes :=
  let s := if decide (username ∈ AUTO_DENY cfg) then Denied
           else if decide (username ∈ AUTO_APPROVE cfg) then Approved else Pending in
  let req := mk_push token username ip s now (default (DEFAULT_TTL cfg) ttl_seconds) in
  (req, assoc_set token req t).

Definition get_push (token : str) (t : pushes) : option PushRequest := assoc_get token t.

(** [approve] and [deny]: settle the request, unless it is gone, expired or settled the
    other way. *)
Definition settle (s : status) (token : str) (now : time) (t : pushes) : bool * pushes :=
  match assoc_get token t with
  | None => (false, t)
  | Some r =>
      if is_expired now r || negb (bool_decide (p_status r = Pending ∨ p_status r = s)) then (false, t)
      else (true, assoc_set token (with_status s r) t)
  end.
Definition approve : str → time → pushes → bool * pushes := settle Approved.
Definition deny : str → time → pushes → bool * pushes := settle Denied.

Definition list_pushes (now : time) (t : pushes) : list view := map (λ kr, to_view now kr.2) t.

(** ** The HTTP routes *)

(** The body of a request: absent, not JSON, or the fields the handler reads. *)
Inductive body :=
| NoBody
| BadBody
| Fields (username ip : option str) (ttl_seconds : option time).

Inductive response :=
| Created (token : str) (expires : time) (s : str)   (* 201 *)
| NoContent                                          (* 204 *)
| BadRequest                                         (* 400 *)
| NotFound                                           (* 404 with a JSON error *)
| Poll (v : view) | Listing (vs : list view) | Healthy   (* 200 *)
| NoRoute.                                           (* 404 *)

Definition or_question (o : option str) : str := match o with Some ((_ :: _) as s) => s | _ => "?"%py end.

(** [path[len(prefix):]] when the path starts with the prefix. *)
Definition after_prefix (prefix path : str) : option str :=
  if startswith path prefix then Some (drop (length prefix) path) else None.

(** [fresh] is the next token of [secrets.token_urlsafe]. *)
Definition do_POST (raw_path : str) (b : body) (fresh : str) (now : time) (t : pushes) : response * pushes :=
  let path := rstrip_char SLASH raw_path in
  if bool_decide (path = "/push/request"%py) then
    match b with
    | BadBody => (BadRequest, t)
    | NoBody =>
        let '(req, t') := create_push fresh "?"%py "?"%py None now t in
        (Created (p_token req) (expires_at req) (status_str (p_status req)), t')
    | Fields u ip l =>
        let '(req, t') := create_push fresh (or_question u) (or_question ip) l now t in
        (Created (p_token req) (expires_at req) (status_str (p_status req)), t')
    end
  else
    match after_prefix "/push/approve/"%py path, after_prefix "/push/deny/"%py path with
    | Some token, _ => let '(ok, t') := approve token now t in (if ok then NoContent else NotFound, t')
    | None, Some token => let '(ok, t') := deny token now t in (if ok then NoContent else NotFound, t')
    | None, None => (NoRoute, t)
    end.

Definition do_GET (raw_path : str) (now : time) (t : pushes) : response :=
  let path := rstrip_char SLASH raw_path in
  match after_prefix "/push/poll/"%py path with
  | Some token => match get_push token t with None => NotFound | Some r => Poll (to_view now r) end
  | None =>
      if bool_decide (path = "/push/list"%py) then Listing (list_pushes now t)
      else if bool_decide (path = "/"%py ∨ path = "/healthz"%py) then Healthy
      else NoRoute
  end.

(** ** Runs of the service *)

(** A request served: its time, path, body and the token drawn for it. *)
Record call := mk_call { c_now : time; c_path : str; c_body : body; c_fresh : str }.

Definition serve_post (c : call) (t : pushes) : pushes := (do_POST (c_path c) (c_body c) (c_fresh c) (c_now c) t).2.

(** Runs from [t]: time does not go back and tokens are new. *)
Inductive served : time → pushes → list call → time → pushes → Prop :=
| served_nil now t : served now t [] now t
| served_cons now t c cs now' t' :
    (now <= c_now c)%Z → assoc_get (c_fresh c) t = None →
    served (c_now c) (serve_post c t) cs now' t' → served now t (c :: cs) now' t'.

(** How a request may change: a pending one is settled while it is live, and nothing
    else moves. *)
Definition evolves_to (now : time) (r r' : PushRequest) : Prop :=
  r' = r ∨ (p_status r = Pending ∧ is_expired now r = false ∧ ∃ s, s ≠ Pending ∧ r' = with_status s r).

Lemma evolves_trans now now' r r' r'' : (now <= now')%Z →
  evolves_to now r r' → evolves_to now' r' r'' → evolves_to now r r''.
Proof.
  unfold evolves_to, is_expired. intros Hn [->|(Hp & He & s & Hs & ->)] [->|(Hp' & He' & s' & Hs' & ->)].
  - by left.
  - right. split; [done|]. split; [lia|]. by exists s'.
  - right. split; [done|]. split; [done|]. by exists s.
  - by destruct Hs.
Qed.

Lemma settle_evolves s token now t k r : s ≠ Pending →
  assoc_get k t = Some r → ∃ r', assoc_get k (settle s token now t).2 = Some r' ∧ evolves_to now r r'.
Proof.
  intros Hs Hk. unfold settle. destruct (assoc_get token t) as [q|] eqn:E; [|exists r; split; [done | by left]].
  destruct (is_expired now q || _) eqn:C; [exists r; split; [done | by left]|].
  apply orb_false_iff in C as [He C%negb_false_iff%bool_decide_eq_true]. cbn [snd].
  rewrite assoc_get_set. case_decide as Hkt.
  - subst. rewrite E in Hk. injection Hk as ->. eexists. split; [done|].
    destruct C as [Hp|Hp].
    + right. split; [done|]. split; [done|]. by exists s.
    + left. unfold with_status. by destruct r; cbn in *; subst.
  - exists r. split; [done | by left].
Qed.

(** Creating under a new token leaves the other requests alone. *)
Lemma create_keeps token u ip l now t k r : assoc_get token t = None →
  assoc_get k t = Some r → assoc_get k (create_push token u ip l now t).2 = Some r.
Proof. intros Hf Hk. cbn. rewrite assoc_get_set. case_decide; congruence. Qed.

(** The three ways a request is served. *)
Inductive posted (c : call) (t : pushes) : pushes → Prop :=
| posted_same : posted c t t
| posted_create u ip l : posted c t (create_push (c_fresh c) u ip l (c_now c) t).2
| posted_approve token :
    rstrip_char SLASH (c_path c) = ("/push/approve/"%py ++ token) →
    posted c t (approve token (c_now c) t).2
| posted_deny token :
    rstrip_char SLASH (c_path c) = ("/push/deny/"%py ++ token) →
    posted c t (deny token (c_now c) t).2.

Lemma after_prefix_app pre path s : after_prefix pre path = Some s → path = pre ++ s.
Proof.
  unfold after_prefix. destruct (startswith path pre) eqn:E; [|done]. intros [= <-].
  apply startswith_spec in E as [k ->]. by rewrite drop_app_length.
Qed.

Lemma serve_posted c t : posted c t (serve_post c t).
Proof.
  unfold serve_post, do_POST. case_bool_decide.
  - destruct (c_body c) as [| |u ip l]; cbn [snd]; [apply (posted_create c t) | constructor | apply (posted_create c t)].
  - destruct (after_prefix "/push/approve/"%py _) as [k|] eqn:E.
    + apply after_prefix_app in E. pose proof (posted_approve c t k E) as P. by destruct (approve _ _ _).
    + destruct (after_prefix "/push/deny/"%py _) as [k|] eqn:E'; [|constructor].
      apply after_prefix_app in E'. pose proof (posted_deny c t k E') as P. by destruct (deny _ _ _).
Qed.

Lemma serve_post_evolves c t k r : assoc_get (c_fresh c) t = None →
  assoc_get k t = Some r → ∃ r', assoc_get k (serve_post c t) = Some r' ∧ evolves_to (c_now c) r r'.
Proof.
  intros Hf Hk. destruct (serve_posted c t).
  - exists r. split; [done | by left].
  - exists r. split; [by apply create_keeps | by left].
  - by apply settle_evolves.
  - by apply settle_evolves.
Qed.

Lemma evolves_later now now' r r' : (now <= now')%Z → evolves_to now' r r' → evolves_to now r r'.
Proof. intros Hn [->|H]; [by left | right]. unfold is_expired in *. destruct H as (?&?&?). split_and!; [done|lia|done]. Qed.

Lemma served_evolves now t cs now' t' k r : served now t cs now' t' →
  assoc_get k t = Some r → ∃ r', assoc_get k t' = Some r' ∧ evolves_to now r r'.
Proof.
  intros H. revert r. induction H as [now t|now t c cs now' t' Hn Hf _ IH]; intros r Hr.
  - exists r. split; [done | by left].
  - destruct (serve_post_evolves c t k r Hf Hr) as (r1&H1&E1).
    destruct (IH r1 H1) as (r2&H2&E2). exists r2. split; [done|].
    eapply evolves_later, evolves_trans; [exact Hn | | exact E1 | exact E2]. lia.
Qed.

Lemma served_time now t cs now' t' : served now t cs now' t' → (now <= now')%Z.
Proof. induction 1; lia. Qed.

(** The answers a poll may give after answer [s]. *)
Definition progress (s s' : str) : Prop :=
  s = "pending"%py ∨ s' = "expired"%py ∨ s' = s.

(** polling a request twice over any run of the service, the answers only move
    forward: a pending request may become anything, an approval or a denial stays what it
    is until the request expires, and an expired request is never revived. *)
Theorem poll_progress now t cs now' t' path v :
  served now t cs now' t' → do_GET path now t = Poll v →
  ∃ v', do_GET path now' t' = Poll v' ∧ progress (v_status v) (v_status v') ∧
        v_username v' = v_username v ∧ v_ip v' = v_ip v ∧ (expires_in v' <= expires_in v)%Z.
Proof.
  intros H. pose proof (served_time _ _ _ _ _ H) as Hn. unfold do_GET, get_push.
  destruct (after_prefix "/push/poll/"%py _) as [k|]; [|by repeat case_bool_decide].
  destruct (assoc_get k t) as [r|] eqn:E; [|done]. intros [= <-].
  destruct (served_evolves _ _ _ _ _ k r H E) as (r'&->&Hr). eexists. split; [done|].
  unfold to_view, remaining, progress, is_expired in *. cbn [v_status v_username v_ip expires_in].
  destruct Hr as [->|(Hp&He&s&Hs&->)]; unfold expires_at in *; cbn in *.
  - split_and!; [|done|done|lia]. destruct (Z.leb_spec (created_at r + ttl r) now'); [by right; left|].
    destruct (Z.leb_spec (created_at r + ttl r) now); [lia | by right; right].
  - unfold is_expired, expires_at in He. rewrite He, Hp. split_and!; [by left|done|done|lia].
Qed.

(** Why a request is approved: the auto-approve list, or an approval served in time. *)
Definition approved_by (cs : list call) (k : str) (r : PushRequest) : Prop :=
  (p_username r ∈ AUTO_APPROVE cfg ∧ p_username r ∉ AUTO_DENY cfg) ∨
  ∃ c, c ∈ cs ∧ rstrip_char SLASH (c_path c) = ("/push/approve/"%py ++ k) ∧ (c_now c < expires_at r)%Z.

(** The approved requests of a table all have their cause in [cs]. *)
Definition accounted (cs : list call) (t : pushes) : Prop :=
  ∀ k r, assoc_get k t = Some r → p_status r = Approved → approved_by cs k r.

Lemma accounted_post cs c t : accounted cs t → accounted (cs ++ [c]) (serve_post c t).
Proof.
  assert (Hmono : ∀ k r, approved_by cs k r → approved_by (cs ++ [c]) k r).
  { intros k r [?|(c'&?&?)]; [by left|]. right. exists c'. split; [|done]. apply elem_of_app. by left. }
  intros Ha. destruct (serve_posted c t) as [|u ip l|token Hp|token Hp]; intros k r Hk Hs.
  - by apply Hmono, Ha.
  - cbn in Hk. rewrite assoc_get_set in Hk. case_decide; [|by apply Hmono, Ha].
    injection Hk as <-. left. cbn in *. repeat case_decide; done.
  - unfold approve, settle in Hk. destruct (assoc_get token t) as [q|] eqn:E; [|by apply Hmono, Ha].
    destruct (is_expired _ q || _) eqn:C; [by apply Hmono, Ha|]. apply orb_false_iff in C as [He _].
    cbn in Hk. rewrite assoc_get_set in Hk. case_decide; [|by apply Hmono, Ha].
    injection Hk as <-. subst. right. exists c. split_and!; [apply elem_of_app; right; by constructor|done|].
    unfold is_expired in He. unfold expires_at in *. cbn. lia.
  - unfold deny, settle in Hk. destruct (assoc_get token t) as [q|] eqn:E; [|by apply Hmono, Ha].
    destruct (is_expired _ q || _); [by apply Hmono, Ha|].
    cbn in Hk. rewrite assoc_get_set in Hk. case_decide; [|by apply Hmono, Ha].
    injection Hk as <-. done.
Qed.

Lemma accounted_served now t cs now' t' before :
  served now t cs now' t' → accounted before t → accounted (before ++ cs) t'.
Proof.
  intros H. revert before. induction H as [|now t c cs now' t' _ _ _ IH]; intros before Ha.
  - by rewrite app_nil_r.
  - specialize (IH (before ++ [c])). rewrite <- app_assoc in IH. apply IH, accounted_post, Ha.
Qed.

Lemma accounted_poll cs path now t v : accounted cs t → do_GET path now t = Poll v → v_status v = "approved"%py →
  ∃ k r, rstrip_char SLASH path = ("/push/poll/"%py ++ k) ∧ assoc_get k t = Some r ∧
         v_username v = p_username r ∧ approved_by cs k r.
Proof.
  intros Ha. unfold do_GET, get_push.
  destruct (after_prefix "/push/poll/"%py _) as [k|] eqn:P; [|by repeat case_bool_decide].
  apply after_prefix_app in P. destruct (assoc_get k t) as [r|] eqn:E; [|done]. intros [= <-] Hv.
  exists k, r. split_and!; [done|done|done|]. apply (Ha k r E).
  unfold to_view in Hv. cbn in Hv. destruct (is_expired now r); [done|]. by destruct (p_status r).
Qed.

(** a poll that answers "approved" has a cause: over any run of the service from its
    empty table, the request's user is on the auto-approve list and not on the auto-deny
    list, or an approval of this very token was posted before the request expired. *)
Theorem approval_has_cause now cs now' t' path v :
  served now [] cs now' t' → do_GET path now' t' = Poll v → v_status v = "approved"%py →
  ∃ k r, rstrip_char SLASH path = ("/push/poll/"%py ++ k) ∧ assoc_get k t' = Some r ∧
         v_username v = p_username r ∧ approved_by cs k r.
Proof. intros H. apply accounted_poll. by apply (accounted_served _ _ _ _ _ [] H). Qed.
End push.

(** A run: a request is opened, polled, approved, and a later denial is refused. *)
Definition demo_config : config := mk_config (seconds 60) {["mallory"%py]} ∅.
Definition demo_calls : list call :=
  [mk_call (seconds 10) "/push/request"%py (Fields (Some "alice"%py) (Some "10.0.0.5"%py) None) "tok"%py;
   mk_call (seconds 12) "/push/approve/tok"%py NoBody "t2"%py;
   mk_call (seconds 13) "/push/deny/tok"%py NoBody "t3"%py].
Definition demo_table (n : nat) : pushes :=
  foldl (λ t c, serve_post demo_config c t) [] (take n demo_calls).

Lemma demo_served : served demo_config (seconds 10) [] demo_calls (seconds 13) (demo_table 3).
Proof. repeat (apply served_cons; [vm_compute; discriminate | reflexivity |]). apply served_nil. Qed.

Lemma poll_progress_witness :
  ∃ v v', do_GET "/push/poll/tok"%py (seconds 10) (demo_table 1) = Poll v ∧ v_status v = "pending"%py ∧
          do_GET "/push/poll/tok"%py (seconds 13) (demo_table 3) = Poll v' ∧ v_status v' = "approved"%py.
Proof.
  destruct (poll_progress demo_config (seconds 10) (demo_table 1) (drop 1 demo_calls) (seconds 13) (demo_table 3)
              "/push/poll/tok"%py (mk_view "tok"%py "alice"%py "10.0.0.5"%py "pending"%py 0%Z (seconds 60)))
    as (v'&H&_).
  - repeat (apply served_cons; [vm_compute; discriminate | reflexivity |]). apply served_nil.
  - reflexivity.
  - eexists _, v'. split_and!; [reflexivity | reflexivity | exact H |].
    cut (Poll v' = do_GET "/push/poll/tok"%py (seconds 13) (demo_table 3)); [|by rewrite H].
    vm_compute. by intros [= ->].
Defined.

Lemma approval_has_cause_witness :
  ∃ v, do_GET "/push/poll/tok"%py (seconds 13) (demo_table 3) = Poll v ∧
       ∃ k r, rstrip_char SLASH "/push/poll/tok"%py = ("/push/poll/"%py ++ k) ∧
              approved_by demo_config demo_calls k r.
Proof.
  eexists. split; [reflexivity|].
  destruct (approval_has_cause demo_config _ _ _ _ "/push/poll/tok"%py
              (mk_view "tok"%py "alice"%py "10.0.0.5"%py "approved"%py (seconds 3) (seconds 57)) demo_served)
    as (k&r&?&_&_&?); [reflexivity | reflexivity | exists k, r; done].
Defined.

(** The root path loses its slash before it is compared with ["/"]. *)
Example root_not_found : do_GET "/"%py 0%Z [] = NoRoute.
Proof. reflexivity. Qed.
