(* ===== verification/Totp.v ===== *)
(** linux-fork/mfa/totp.py and enrollment.py: one-time codes, and the store of the
    secrets they are checked against. *)

From S2P Require Import Prelude PyStr Hash Struct Float Proxy.

(** ** HOTP *)

(** [_hotp(secret_bytes, counter, digits)]: a counter that does not fit an unsigned
    64-bit field raises [struct.error]. *)
Definition truncation (h : bytes) : N :=
  let offset := N.to_nat (N.land (byte_at (length h - 1) h) 15) in
  N.lor (N.lor (N.lor
    (N.shiftl (N.land (byte_at offset h) 127) 24)
    (N.shiftl (N.land (byte_at (offset + 1) h) 255) 16))
    (N.shiftl (N.land (byte_at (offset + 2) h) 255) 8))
    (N.land (byte_at (offset + 3) h) 255).

Definition _hotp (secret : bytes) (counter : Z) (digits : nat) : exc str :=
  exc_bind (if (counter <? 0)%Z then Raise StructError else pack 8 (Z.to_N counter)) (λ msg,
    let code := truncation (hmac sha1 secret msg) in
    Ok (zero_pad digits (Z.of_N code mod 10 ^ Z.of_nat digits))).

(** ** TOTP

    The clock is a time in microseconds; [clock // period] is the integer quotient. *)
Definition step_at (period : Z) (clock : time) : Z := (clock / seconds period)%Z.

Definition totp_now (secret : bytes) (period : Z) (digits : nat) (clock : time) : exc str :=
  _hotp secret (step_at period clock) digits.

Section verify.
(** [c.isdigit()] for characters beyond ASCII: a table of the Unicode database. *)
Context (unicode_digit : N → bool).

Definition str_isdigit (s : str) : bool :=
  match s with
  | [] => false
  | _ => forallb (λ c, if (c <? 128)%N then is_digit c else unicode_digit c) s
  end.

(** [hmac.compare_digest] on strings: both must be ASCII. *)
Definition compare_digest (a b : str) : exc bool :=
  if forallb (λ c, c <? 128)%N (a ++ b) then Ok (bool_decide (a = b))
  else Raise (TypeError "comparing strings with non-ASCII characters is not supported"%py).

(** The steps from [t] on, [n] of them. *)
Fixpoint verify_steps (secret : bytes) (digits : nat) (code : str) (t : Z) (n : nat) : exc bool :=
  match n with
  | 0 => Ok false
  | S n' =>
      exc_bind (_hotp secret t digits) (λ expected,
      exc_bind (compare_digest expected code) (λ same,
        if same then Ok true else verify_steps secret digits code (t + 1) n'))
  end.

Definition totp_verify (secret : bytes) (code : str) (window : nat) (period : Z) (digits : nat)
    (clock : time) : exc bool :=
  if negb (str_isdigit code) || negb (length code =? digits) then Ok false
  else verify_steps secret digits code (step_at period clock - Z.of_nat window) (2 * window + 1).
End verify.

(** ** Demo secrets *)

Record DemoSecret := mk_demo { deployment_id : str; demo_username : str }.

Definition demo_bytes (d : DemoSecret) : bytes :=
  take 20 (sha256 (encode (deployment_id d ++ "\x1f"%py ++ demo_username d))).

(** [secret_for(username, deployment_id)]; [env] is the environment variable. *)
Definition secret_for (username : str) (deployment env : option str) : DemoSecret :=
  let or_ (a : option str) (b : str) := match a with Some ((_ :: _) as s) => s | _ => b end in
  mk_demo (or_ deployment (or_ env "dev-fabric"%py)) username.

(** ** Base32 (RFC 4648), as [base64.b32encode] and [b32decode] *)

Definition B32_ALPHABET : str := "ABCDEFGHIJKLMNOPQRSTUVWXYZ234567"%py.

Definition b32_char (d : N) : N := nth (N.to_nat d) B32_ALPHABET 0%N.
Definition b32_digit (c : N) : option N :=
  (if (65 <=? c) && (c <=? 90) then Some (c - 65)
   else if (50 <=? c) && (c <=? 55) then Some (c - 24) else None)%N.

(** [n] base-32 digits of [x], most significant first. *)
Fixpoint b32_digits (n : nat) (x : N) : list N :=
  match n with 0 => [] | S n' => b32_digits n' (x / 32) ++ [x mod 32]%N end.

Definition b32_num (ds : list N) : N := foldl (λ a d, a * 32 + d)%N 0%N ds.

(** Groups of [n] elements ([k] of them at most). *)
Fixpoint chunks {A} (k n : nat) (l : list A) : list (list A) :=
  match k with
  | 0 => []
  | S k' => match l with [] => [] | _ => take n l :: chunks k' n (drop n l) end
  end.

(** The padding characters for a last group of [n] bytes. *)
Definition b32_pad (n : nat) : nat := match n with 1 => 6 | 2 => 4 | 3 => 3 | 4 => 1 | _ => 0 end.

Definition b32encode (bs : bytes) : str :=
  let leftover := length bs mod 5 in
  let full := bs ++ repeat 0%N (if leftover =? 0 then 0 else 5 - leftover) in
  let out := flat_map (λ g, map b32_char (b32_digits 8 (be_num g))) (chunks (length full) 5 full) in
  let p := b32_pad leftover in
  take (length out - p) out ++ repeat 61%N p.

Definition decode_quantum (q : str) : option N := b32_num <$> mapM b32_digit q.

Definition b32decode (s : str) : option bytes :=
  if negb (length s mod 8 =? 0) then None
  else
    let body := rstrip_char 61 s in
    let padchars := length s - length body in
    accs ← mapM decode_quantum (chunks (length body) 8 body);
    if negb (bool_decide (padchars ∈ [0; 1; 3; 4; 6])) then None
    else
      let decoded := flat_map (be_bytes 5) accs in
      match padchars, last accs with
      | 0, _ | _, None => Some decoded
      | _, Some acc =>
          let leftover := (43 - 5 * padchars) / 8 in
          Some (take (length decoded - 5) decoded
                ++ take leftover (be_bytes 5 (acc * 32 ^ N.of_nat padchars)%N))
      end.

(** ** The enrollment store *)

Record EnrollmentRecord := mk_enrollment { secret_b32 : str; enrolled_at : Z; label : str }.

(** The file's contents: the users with their records, and the revoked names. *)
Record store := mk_store { users : gmap str EnrollmentRecord; revoked : list str }.

(** What [_read] makes of a missing or unreadable file. *)
Definition empty_store : store := mk_store ∅ [].
Definition _read (file : option store) : store := default empty_store file.

Definition enrolled (file : option store) (username : str) : option EnrollmentRecord :=
  let data := _read file in
  if bool_decide (username ∈ revoked data) then None else users data !! username.

(** [-n % 8]. *)
Definition pad_to_8 (n : nat) : nat := (8 - n mod 8) mod 8.

Definition secret_bytes (file : option store) (username : str) : option bytes :=
  rec ← enrolled file username;
  b32decode (upper (secret_b32 rec ++ repeat 61%N (pad_to_8 (length (secret_b32 rec))))).

Definition list_users (file : option store) : list str := sorted_keys (users (_read file)).
Definition list_revoked (file : option store) : list str := py_sorted (revoked (_read file)).

(** [list.remove]: the first occurrence. *)
Fixpoint remove_first (x : str) (l : list str) : list str :=
  match l with [] => [] | y :: l' => if bool_decide (x = y) then l' else y :: remove_first x l' end.

(** [add(username, label, secret_b32)] at time [now], [token] being
    [secrets.token_bytes(20)]: the record, and the file after. *)
Definition add (username : str) (lab secret : option str) (token : bytes) (now : time) (file : option store)
    : EnrollmentRecord * option store :=
  let data := _read file in
  match users data !! username with
  | Some rec => (rec, file)
  | None =>
      let secret := match secret with Some s => s | None => rstrip_char 61 (b32encode token) end in
      let rec := mk_enrollment secret (now / 1000000)
                   (match lab with Some ((_ :: _) as l) => l | _ => username end) in
      (rec, Some (mk_store (<[username := rec]> (users data)) (remove_first username (revoked data))))
  end.

Definition revoke (username : str) (file : option store) : bool * option store :=
  let data := _read file in
  match users data !! username with
  | None => (false, file)
  | Some _ =>
      (true, Some (mk_store (delete username (users data))
               (if bool_decide (username ∈ revoked data) then revoked data else revoked data ++ [username])))
  end.

(** ** The secret the gateway checks against *)

Inductive secret := Demo (d : DemoSecret) | Enrolled (rec : EnrollmentRecord) (key : option bytes).

Definition resolve_secret (username : str) (deployment env : option str) (allow_demo_fallback : bool)
    (file : option store) : option secret :=
  match enrolled file username with
  | Some rec => Some (Enrolled rec (secret_bytes file username))
  | None => if allow_demo_fallback then Some (Demo (secret_for username deployment env)) else None
  end.

(** [secret.verify(code, window)]. *)
Definition verify (unicode_digit : N → bool) (s : secret) (code : str) (window : nat) (clock : time) : exc bool :=
  match s with
  | Demo d => totp_verify unicode_digit (demo_bytes d) code window 30 6 clock
  | Enrolled _ (Some ((_ :: _) as key)) => totp_verify unicode_digit key code window 30 6 clock
  | Enrolled _ _ => Ok false
  end.

Definition otpauth_uri (quote : str → str) (rec : EnrollmentRecord) (issuer : str) : str :=
  "otpauth://totp/"%py ++ quote (issuer ++ ":"%py ++ label rec) ++ "?secret="%py ++ secret_b32 rec
    ++ "&issuer="%py ++ quote issuer ++ "&algorithm=SHA1&digits=6&period=30"%py.

(** ** Test vectors: RFC 6238 (SHA-1) and RFC 4648 *)

Example rfc6238 :
  map (λ t, totp_now (encode "12345678901234567890"%py) 30 8 (seconds t)) [59; 1111111109; 20000000000]%Z
  = [Ok "94287082"; Ok "07081804"; Ok "65353130"]%py.
Proof. vm_compute. reflexivity. Qed.

Example rfc4648 :
  map (λ s, b32encode (encode s)) [""; "f"; "fo"; "foo"; "foob"; "fooba"; "foobar"]%py
  = [""; "MY======"; "MZXQ===="; "MZXW6==="; "MZXW6YQ="; "MZXW6YTB"; "MZXW6YTBOI======"]%py ∧
  map b32decode ["MZXW6YTBOI======"; "MZXW6YQ="; "MZXW6YQ1"; "MZ"]%py
  = [Some (encode "foobar"); Some (encode "foob"); None; None]%py.
Proof. split; vm_compute; reflexivity. Qed.
