(* ===== verification/TotpProps.v ===== *)
(** Properties of the one-time codes and the enrollment store: which codes verify, the
    agreement with the RFC's truncation, and what enrolling and revoking do. *)

From S2P Require Import Prelude PyStr Hash Struct Float Proxy Totp.

(** ** Groups *)

Lemma chunks_concat {A} k n (gs : list (list A)) : n ≠ 0 → Forall (λ g, length g = n) gs → length gs ≤ k →
  chunks k n (concat gs) = gs.
Proof.
  intros Hn HF. revert k. induction HF as [|g gs Hg _ IH]; intros k Hk; [by destruct k|].
  destruct k as [|k]; [cbn in Hk; lia|]. cbn [concat chunks].
  destruct (g ++ concat gs) as [|x l] eqn:E.
  - apply app_eq_nil in E as [-> _]. cbn in Hg. lia.
  - rewrite <- E. cbn [length] in Hk. subst n. rewrite take_app_length, drop_app_length, IH by lia. done.
Qed.

Lemma groups_exist {A} n m (l : list A) : length l = n * m →
  ∃ gs, l = concat gs ∧ Forall (λ g, length g = n) gs ∧ length gs = m.
Proof.
  revert l. induction m as [|m IH]; intros l Hl.
  - exists []. split_and!; [|constructor|done]. apply length_zero_iff_nil. lia.
  - destruct (IH (drop n l)) as (gs & E & HF & Hm).
    { rewrite length_drop. lia. }
    exists (take n l :: gs). cbn [concat length]. rewrite <- E, take_drop, Hm.
    split_and!; [done| |done]. constructor; [rewrite length_take; lia | done].
Qed.

(** ** Base 32 *)

Lemma b32_num_app a d : b32_num (a ++ [d]) = (b32_num a * 32 + d)%N.
Proof. unfold b32_num. by rewrite foldl_app. Qed.

Lemma b32_num_digits n x : b32_num (b32_digits n x) = (x mod 32 ^ N.of_nat n)%N.
Proof.
  revert x. induction n as [|n IH]; intros x; cbn [b32_digits]; [by rewrite N.mod_1_r|].
  rewrite b32_num_app, IH. replace (N.of_nat (S n)) with (N.succ (N.of_nat n)) by lia.
  rewrite N.pow_succ_r', N.Div0.mod_mul_r. lia.
Qed.

Lemma b32_digits_small n x : Forall (λ d, d < 32)%N (b32_digits n x).
Proof.
  revert x. induction n as [|n IH]; intros x; cbn [b32_digits]; [constructor|].
  apply Forall_app. split; [apply IH|]. constructor; [by apply N.mod_lt | constructor].
Qed.

Lemma b32_digits_length n x : length (b32_digits n x) = n.
Proof. revert x. induction n as [|n IH]; intros x; cbn [b32_digits]; [done|]. rewrite length_app, IH. cbn. lia. Qed.

(** What holds of the 32 digits, by computation. *)
Lemma b32_char_spec d : (d < 32)%N →
  b32_digit (b32_char d) = Some d ∧ upper_char (b32_char d) = b32_char d ∧ b32_char d ≠ 61%N.
Proof.
  intros Hd.
  assert (Forall (λ n, b32_digit (b32_char (N.of_nat n)) = Some (N.of_nat n) ∧
    upper_char (b32_char (N.of_nat n)) = b32_char (N.of_nat n) ∧ b32_char (N.of_nat n) ≠ 61%N) (seq 0 32)) as HF.
  { apply (bool_decide_unpack _). vm_compute. exact I. }
  rewrite Forall_forall in HF. specialize (HF (N.to_nat d)). rewrite N2Nat.id in HF.
  apply HF, elem_of_seq. lia.
Qed.

Definition b32_group (g : bytes) : str := map b32_char (b32_digits 8 (be_num g)).

Lemma b32_group_chars g : Forall (λ c, upper_char c = c ∧ c ≠ 61%N) (b32_group g).
Proof.
  apply Forall_map. eapply Forall_impl; [apply b32_digits_small|]. intros d Hd. by apply b32_char_spec.
Qed.

Lemma decode_group g : is_bytes g → length g = 5 → decode_quantum (b32_group g) = Some (be_num g).
Proof.
  intros Hg Hl. unfold decode_quantum, b32_group.
  assert (mapM b32_digit (map b32_char (b32_digits 8 (be_num g))) = Some (b32_digits 8 (be_num g))) as ->.
  { apply mapM_Some. apply Forall2_fmap_l, Forall_Forall2_diag.
    eapply Forall_impl; [apply b32_digits_small|]. intros d Hd. by apply b32_char_spec. }
  cbn [fmap option_fmap option_map]. rewrite b32_num_digits. f_equal. apply N.mod_small.
  pose proof (be_num_range g Hg) as Hr. unfold lenN in Hr. by rewrite Hl in Hr.
Qed.

Lemma b32encode_groups gs : Forall (λ g, length g = 5) gs → b32encode (concat gs) = flat_map b32_group gs.
Proof.
  intros HF. assert (length (concat gs) = 5 * length gs) as El.
  { induction HF as [|g gs Hg _ IH]; [done|]. cbn [concat length]. rewrite length_app, Hg, IH. lia. }
  unfold b32encode. rewrite El, Nat.mul_comm, Nat.Div0.mod_mul. cbn [Nat.eqb b32_pad repeat].
  rewrite !app_nil_r, chunks_concat by (done || rewrite El; lia).
  rewrite Nat.sub_0_r, take_ge by done. done.
Qed.

Lemma rstrip_char_absent c s : c ∉ s → rstrip_char c s = s.
Proof.
  intros Hc. unfold rstrip_char, rstrip_by. destruct (rev s) as [|x l] eqn:E.
  - apply (f_equal (@rev N)) in E. by rewrite rev_involutive in E.
  - cbn [lstrip_by]. destruct (N.eqb_spec c x) as [->|].
    + destruct Hc. apply list_elem_of_In, in_rev. rewrite E. by left.
    + rewrite <- E. apply rev_involutive.
Qed.

Lemma upper_absent s : Forall (λ c, upper_char c = c) s → upper s = s.
Proof. intros H. unfold upper. induction H as [|c s Hc _ IH]; cbn; [done|]. by rewrite Hc, IH. Qed.

(** A secret of whole groups survives the way through the store: stripped of padding,
    padded again, upper-cased and decoded. *)
Lemma b32_round_trip bs m : is_bytes bs → length bs = 5 * m →
  let s := rstrip_char 61 (b32encode bs) in
  b32decode (upper (s ++ repeat 61%N (pad_to_8 (length s)))) = Some bs.
Proof.
  intros Hb Hl. destruct (groups_exist 5 m bs Hl) as (gs & -> & HF & Hm). cbv zeta.
  rewrite b32encode_groups by done.
  assert (Forall (λ c, upper_char c = c ∧ c ≠ 61%N) (flat_map b32_group gs)) as HC.
  { clear. induction gs as [|g gs IH]; cbn [flat_map]; [constructor|]. apply Forall_app.
    split; [apply b32_group_chars | exact IH]. }
  assert (61%N ∉ flat_map b32_group gs) as Hne.
  { intros Hin. rewrite Forall_forall in HC. by apply HC in Hin as [_ ?]. }
  assert (length (flat_map b32_group gs) = 8 * m) as E8.
  { rewrite <- Hm. clear. induction gs as [|g gs IH]; cbn [flat_map length]; [done|].
    rewrite length_app, IH. unfold b32_group at 1. rewrite length_map, b32_digits_length. lia. }
  rewrite rstrip_char_absent by done.
  assert (pad_to_8 (length (flat_map b32_group gs)) = 0) as ->.
  { unfold pad_to_8. by rewrite E8, Nat.mul_comm, Nat.Div0.mod_mul. }
  cbn [repeat]. rewrite app_nil_r, upper_absent by (eapply Forall_impl; [exact HC | by intros c [? _]]).
  unfold b32decode. rewrite rstrip_char_absent by done. rewrite E8 at 1.
  rewrite Nat.mul_comm, Nat.Div0.mod_mul, Nat.sub_diag. cbn [Nat.eqb negb].
  assert (chunks (length (flat_map b32_group gs)) 8 (flat_map b32_group gs) = map b32_group gs) as ->.
  { rewrite flat_map_concat_map. apply chunks_concat; [done| |].
    - apply Forall_map, Forall_true. intros g. unfold b32_group. by rewrite length_map, b32_digits_length.
    - rewrite length_map, <- flat_map_concat_map, E8. apply (Nat.le_trans _ m); [exact (Nat.eq_le_incl _ _ Hm) | lia]. }
  assert (is_bytes (concat gs) → Forall is_bytes gs) as Hgs.
  { clear. induction gs as [|g gs IH]; cbn [concat]; [constructor|].
    intros [H1 H2]%Forall_app. constructor; [done | by apply IH]. }
  specialize (Hgs Hb).
  assert (mapM decode_quantum (map b32_group gs) = Some (map be_num gs)) as ->.
  { apply mapM_Some, Forall2_fmap_l, Forall2_fmap_r, Forall_Forall2_diag.
    rewrite Forall_forall in HF, Hgs |- *. intros g Hg. apply decode_group; auto. }
  cbn [mbind option_bind]. rewrite bool_decide_eq_true_2 by set_solver. cbn [negb].
  f_equal. clear -HF Hgs. induction HF as [|g gs Hg _ IH]; [done|].
  apply Forall_cons in Hgs as [Hg' Hgs]. cbn [map flat_map concat].
  rewrite be_bytes_num by done. by rewrite IH.
Qed.

(** ** Codes *)

Lemma truncation_bytes a b c d : (a < 256 → b < 256 → c < 256 → d < 256 →
  N.lor (N.lor (N.lor (N.shiftl (N.land a 127) 24) (N.shiftl (N.land b 255) 16)) (N.shiftl (N.land c 255) 8))
    (N.land d 255)
  = be_num [a; b; c; d] mod 2 ^ 31)%N.
Proof.
  intros Ha Hb Hc Hd. rewrite !land255, !(N.mod_small _ 256) by done.
  change 127%N with (N.ones 7). rewrite N.land_ones. change (2 ^ 7)%N with 128%N.
  set (a' := (a mod 128)%N).
  assert (N.shiftl a' 24 = N.shiftl (N.shiftl (N.shiftl a' 8) 8) 8) as -> by by rewrite !N.shiftl_shiftl.
  assert (N.shiftl b 16 = N.shiftl (N.shiftl b 8) 8) as -> by by rewrite N.shiftl_shiftl.
  rewrite <- !N.shiftl_lor, !lor_shiftl by done.
  unfold be_num. cbn [foldl]. apply (N.mod_unique _ _ (a / 128)%N).
  - pose proof (N.mod_lt a 128). fold a' in H. change (2 ^ 31)%N with 2147483648%N. lia.
  - pose proof (N.div_mod a 128). fold a' in H. change (2 ^ 31)%N with 2147483648%N. lia.
Qed.

Lemma slice_four i h : i + 4 ≤ length h →
  slice i (i + 4) h = [byte_at i h; byte_at (i + 1) h; byte_at (i + 2) h; byte_at (i + 3) h].
Proof.
  revert h. induction i as [|i IH]; intros h Hl.
  - destruct h as [|a [|b [|c [|d h]]]]; cbn in Hl; try lia. done.
  - destruct h as [|x h]; cbn in Hl; [lia|]. unfold slice. cbn [drop]. apply (IH h). lia.
Qed.

(** C39: the code is the RFC's.  For a counter that fits 64 bits, the code is the decimal
    form, in the asked number of digits, of the four digest bytes at the offset given
    by the digest's last half-byte, as a 31-bit number; the bytes are always inside
    the digest, whatever the secret. *)
Theorem hotp_rfc secret counter digits :
  0 < digits → (0 <= counter < 2 ^ 64)%Z →
  let h := hmac sha1 secret (be_bytes 8 (Z.to_N counter)) in
  let offset := N.to_nat (byte_at 19 h mod 16) in
  ∃ code, _hotp secret counter digits = Ok code ∧
    offset + 4 ≤ length h ∧
    code = zero_pad digits (Z.of_N (be_num (slice offset (offset + 4) h) mod 2 ^ 31) mod 10 ^ Z.of_nat digits) ∧
    length code = digits ∧ isdigit code = true.
Proof.
  intros Hd Hc. cbv zeta. set (h := hmac _ _ _). set (offset := N.to_nat _).
  assert (length h = 20) as Hl by by apply hmac_length, sha1_length.
  assert (offset + 4 ≤ length h) as Ho.
  { unfold offset. pose proof (N.mod_lt (byte_at 19 h) 16). rewrite Hl. lia. }
  assert (is_bytes h) as Hb by apply sha1_range.
  assert (truncation h = be_num (slice offset (offset + 4) h) mod 2 ^ 31)%N as Et.
  { unfold truncation. rewrite Hl. change (20 - 1) with 19.
    change 15%N with (N.ones 4). rewrite N.land_ones. change (2 ^ 4)%N with 16%N. fold offset.
    rewrite slice_four by done. apply truncation_bytes; by apply byte_at_range. }
  eexists. split; [|split; [exact Ho|split; [reflexivity|]]].
  - unfold _hotp. destruct (Z.ltb_spec counter 0); [lia|].
    rewrite pack_ok by (change (256 ^ N.of_nat 8)%N with (2 ^ 64)%N; lia). cbn [exc_bind]. fold h. by rewrite Et.
  - split; [apply zero_pad_length | by apply zero_pad_isdigit].
Qed.

Definition counter_ok (c : Z) : Prop := (0 <= c < 2 ^ 64)%Z.

Lemma hotp_total secret counter digits : 0 < digits → counter_ok counter →
  ∃ code, _hotp secret counter digits = Ok code ∧ length code = digits ∧ isdigit code = true.
Proof.
  intros Hd Hc. unfold counter_ok in Hc. unfold _hotp. destruct (Z.ltb_spec counter 0); [lia|].
  rewrite pack_ok by (change (256 ^ N.of_nat 8)%N with (2 ^ 64)%N; lia). cbn [exc_bind].
  eexists. split; [done|]. split; [apply zero_pad_length | by apply zero_pad_isdigit].
Qed.

Definition ascii (s : str) : Prop := Forall (λ c, c < 128)%N s.

Lemma isdigit_spec s : isdigit s = true ↔ s ≠ [] ∧ Forall (λ c, is_digit c = true) s.
Proof.
  unfold isdigit. destruct s as [|c s]; [split; [done | by intros []]|].
  rewrite forallb_forall, Forall_forall. setoid_rewrite <- list_elem_of_In. naive_solver.
Qed.

Lemma digits_ascii s : isdigit s = true → ascii s.
Proof.
  intros [_ HF]%isdigit_spec. eapply Forall_impl; [exact HF|]. intros c Hc. unfold is_digit in Hc.
  apply andb_true_iff in Hc as [_ H2%N.leb_le]. lia.
Qed.

Lemma compare_ascii a b : ascii a → ascii b → compare_digest a b = Ok (bool_decide (a = b)).
Proof.
  intros Ha Hb. unfold compare_digest.
  assert (forallb (λ c, c <? 128)%N (a ++ b) = true) as ->; [|done].
  apply forallb_forall. intros c Hc%list_elem_of_In. apply N.ltb_lt.
  assert (ascii (a ++ b)) as H by by apply Forall_app. unfold ascii in H. rewrite Forall_forall in H. by apply H.
Qed.

Section verify.
Context (unicode_digit : N → bool).

Lemma str_isdigit_ascii s : ascii s → str_isdigit unicode_digit s = isdigit s.
Proof.
  intros Hs. unfold str_isdigit, isdigit. destruct s as [|c s]; [done|].
  induction Hs as [|x l Hx _ IH]; [done|]. cbn [forallb]. rewrite IH. by apply N.ltb_lt in Hx as ->.
Qed.

Lemma verify_steps_spec secret digits code t n : 0 < digits → ascii code →
  (∀ i, (0 <= i < Z.of_nat n)%Z → counter_ok (t + i)) →
  ∃ b, verify_steps secret digits code t n = Ok b ∧
    (b = true ↔ ∃ i, (0 <= i < Z.of_nat n)%Z ∧ _hotp secret (t + i) digits = Ok code).
Proof.
  intros Hd Ha. revert t. induction n as [|n IH]; intros t Hc; cbn [verify_steps].
  - exists false. split; [done|]. split; [done|]. intros (i & Hi & _). lia.
  - destruct (hotp_total secret (t + 0) digits Hd) as (e & He & _ & Hde); [apply Hc; lia|].
    rewrite Z.add_0_r in He. rewrite He. cbn [exc_bind].
    rewrite compare_ascii by (done || by apply digits_ascii). cbn [exc_bind].
    case_bool_decide as Heq.
    + exists true. split; [done|]. split; [|done]. intros _. exists 0%Z.
      rewrite Z.add_0_r. split; [lia|]. by rewrite He, Heq.
    + destruct (IH (t + 1)%Z) as (b & Hb & Hspec).
      { intros i Hi. replace (t + 1 + i)%Z with (t + (1 + i))%Z by lia. apply Hc. lia. }
      exists b. split; [done|]. rewrite Hspec. split.
      * intros (i & Hi & E). exists (1 + i)%Z. split; [lia|].
        by replace (t + (1 + i))%Z with (t + 1 + i)%Z by lia.
      * intros (i & Hi & E). destruct (Z.eq_dec i 0) as [->|].
        { rewrite Z.add_0_r, He in E. congruence. }
        exists (i - 1)%Z. split; [lia|]. by replace (t + 1 + (i - 1))%Z with (t + i)%Z by lia.
Qed.

Lemma totp_verify_spec secret code window period digits clock : 0 < digits → ascii code →
  let s := step_at period clock in
  (0 <= s - Z.of_nat window)%Z → (s + Z.of_nat window < 2 ^ 64)%Z →
  ∃ b, totp_verify unicode_digit secret code window period digits clock = Ok b ∧
    (b = true ↔ ∃ d, (Z.abs d <= Z.of_nat window)%Z ∧ _hotp secret (s + d) digits = Ok code).
Proof.
  intros Hd Ha s H0 H1. unfold totp_verify. rewrite str_isdigit_ascii by done. fold s.
  destruct (verify_steps_spec secret digits code (s - Z.of_nat window) (2 * window + 1) Hd Ha) as (b & Hb & Hspec).
  { intros i Hi. unfold counter_ok. lia. }
  assert ((∃ i, (0 <= i < Z.of_nat (2 * window + 1))%Z ∧ _hotp secret (s - Z.of_nat window + i) digits = Ok code)
          ↔ ∃ d, (Z.abs d <= Z.of_nat window)%Z ∧ _hotp secret (s + d) digits = Ok code) as Hre.
  { split.
    - intros (i & Hi & E). exists (i - Z.of_nat window)%Z. split; [lia|].
      by replace (s + (i - Z.of_nat window))%Z with (s - Z.of_nat window + i)%Z by lia.
    - intros (d & Hdd & E). exists (d + Z.of_nat window)%Z. split; [lia|].
      by replace (s - Z.of_nat window + (d + Z.of_nat window))%Z with (s + d)%Z by lia. }
  destruct (negb (isdigit code) || negb (length code =? digits)) eqn:C.
  - exists false. split; [done|]. split; [done|]. intros (d & Hdd & E). exfalso.
    destruct (hotp_total secret (s + d) digits Hd) as (e & He & Hl & Hde); [unfold counter_ok; lia|].
    rewrite He in E. assert (e = code) as -> by congruence. rewrite Hde, Hl, Nat.eqb_refl in C. done.
  - exists b. split; [exact Hb|]. by rewrite Hspec, Hre.
Qed.
End verify.

(** exactly the codes of the window verify.  For an ASCII input, away from the
    ends of the counter's range, verification answers without an exception, and it
    answers yes precisely for the codes of the steps from [window] before to [window]
    after the current one. *)
Theorem totp_verify_exact unicode_digit secret code window period digits clock :
  0 < digits → ascii code →
  let s := step_at period clock in
  (0 <= s - Z.of_nat window)%Z → (s + Z.of_nat window < 2 ^ 64)%Z →
  ∃ b, totp_verify unicode_digit secret code window period digits clock = Ok b ∧
    (b = true ↔ ∃ d, (Z.abs d <= Z.of_nat window)%Z ∧ _hotp secret (s + d) digits = Ok code).
Proof. apply totp_verify_spec. Qed.

(** A code made within [window] periods of the check is accepted. *)
Lemma totp_now_verifies unicode_digit secret window period digits c1 c2 code :
  0 < digits → (0 < period)%Z → (Z.abs (c1 - c2) <= Z.of_nat window * seconds period)%Z →
  (Z.of_nat window <= step_at period c2)%Z → (step_at period c2 + Z.of_nat window < 2 ^ 64)%Z →
  totp_now secret period digits c1 = Ok code →
  totp_verify unicode_digit secret code window period digits c2 = Ok true.
Proof.
  intros Hd Hp Hskew H0 H1 E. unfold totp_now in E.
  assert (Z.abs (step_at period c1 - step_at period c2) <= Z.of_nat window)%Z as Hs.
  { unfold step_at, seconds in *. set (P := (period * 1000000)%Z) in *.
    assert (0 < P)%Z by (unfold P; lia).
    assert (c1 / P <= (c2 + Z.of_nat window * P) / P)%Z by (apply Z.div_le_mono; lia).
    assert (c2 / P <= (c1 + Z.of_nat window * P) / P)%Z by (apply Z.div_le_mono; lia).
    rewrite Z.div_add in * by lia. lia. }
  destruct (hotp_total secret (step_at period c1) digits Hd) as (e & He & _ & Hde); [unfold counter_ok; lia|].
  rewrite He in E. assert (e = code) as -> by congruence.
  destruct (totp_verify_spec unicode_digit secret code window period digits c2 Hd (digits_ascii _ Hde))
    as (b & Hb & Hspec); [lia..|].
  assert (b = true) as ->; [|done]. apply Hspec. exists (step_at period c1 - step_at period c2)%Z.
  split; [done|]. by rewrite Z.add_sub_assoc, Z.add_sub_swap, Z.sub_diag, Z.add_0_l.
Qed.

(** ** The store *)

(** No name is revoked twice or both enrolled and revoked. *)
Definition store_inv (s : store) : Prop :=
  NoDup (revoked s) ∧ ∀ u, u ∈ revoked s → users s !! u = None.

Lemma remove_first_elem x l y : NoDup l → y ∈ remove_first x l ↔ y ∈ l ∧ y ≠ x.
Proof.
  induction 1 as [|z l Hz Hl IH]; cbn [remove_first]; [split; [by intros ?%not_elem_of_nil | by intros [?%not_elem_of_nil _]]|].
  case_bool_decide as E.
  - subst z. rewrite elem_of_cons. split; [|tauto]. intros Hy. split; [by right|]. by intros ->.
  - rewrite !elem_of_cons, IH. split; [|tauto]. intros [->|]; [|tauto]. split; [by left | done].
Qed.

Lemma remove_first_NoDup x l : NoDup l → NoDup (remove_first x l).
Proof.
  induction 1 as [|z l Hz Hl IH]; cbn [remove_first]; [constructor|].
  case_bool_decide; [done|]. constructor; [|done]. rewrite remove_first_elem by done. tauto.
Qed.

Lemma empty_store_inv : store_inv (_read None).
Proof. split; [constructor|]. intros u Hu. by apply not_elem_of_nil in Hu. Qed.

Lemma add_inv u lab sec token now file :
  store_inv (_read file) → store_inv (_read (add u lab sec token now file).2).
Proof.
  intros [Hn Hr]. unfold add. destruct (users (_read file) !! u) eqn:E; [done|].
  cbn [snd _read default from_option id]. split; cbn [users revoked]; [by apply remove_first_NoDup|].
  intros v. rewrite remove_first_elem by done. intros [Hv Hne]. rewrite lookup_insert_ne by done. by apply Hr.
Qed.

Lemma revoke_inv u file : store_inv (_read file) → store_inv (_read (revoke u file).2).
Proof.
  intros [Hn Hr]. unfold revoke. destruct (users (_read file) !! u) eqn:E; [|done].
  cbn [snd _read default from_option id]. split; cbn [users revoked].
  - case_bool_decide; [done|]. apply NoDup_app. split_and!; [done| |by apply NoDup_singleton].
    intros v Hv ->%list_elem_of_singleton. done.
  - intros v Hv. destruct (decide (v = u)) as [->|Hne]; [apply lookup_delete_eq|].
    rewrite lookup_delete_ne by done. apply Hr. case_bool_decide; [done|].
    apply elem_of_app in Hv as [|Hv]; [done|]. by apply list_elem_of_singleton in Hv.
Qed.

Lemma add_enrolled u lab sec token now file :
  store_inv (_read file) → users (_read file) !! u = None →
  let r := add u lab sec token now file in
  enrolled r.2 u = Some r.1 ∧
  secret_b32 r.1 = match sec with Some s => s | None => rstrip_char 61 (b32encode token) end.
Proof.
  intros [Hn Hr] E. cbv zeta. unfold add. rewrite E. cbn [fst snd]. split; [|done].
  unfold enrolled. cbn [_read default from_option id users revoked].
  rewrite bool_decide_eq_false_2 by (rewrite remove_first_elem by done; tauto). apply lookup_insert_eq.
Qed.

(** enrolling works.  In a store kept by its own operations, a new user (revoked
    before or not) enrolled with a fresh 20-byte token is found again, the token comes
    back through its base-32 text unchanged, and the codes it makes are accepted by the
    gateway's check for thirty seconds either way. *)
Theorem enroll_round_trip unicode_digit u lab token now file dep env fallback c1 c2 code :
  store_inv (_read file) → users (_read file) !! u = None → is_bytes token → length token = 20 →
  let file' := (add u lab None token now file).2 in
  store_inv (_read file') ∧ secret_bytes file' u = Some token ∧
  ∃ s, resolve_secret u dep env fallback file' = Some s ∧
    ((Z.abs (c1 - c2) <= seconds 30)%Z → (1 <= step_at 30 c2)%Z → (step_at 30 c2 + 1 < 2 ^ 64)%Z →
     totp_now token 30 6 c1 = Ok code → verify unicode_digit s code 1 c2 = Ok true).
Proof.
  intros Hinv Hu Hb Hl. cbv zeta.
  destruct (add_enrolled u lab None token now file Hinv Hu) as [He Hs].
  assert (secret_bytes (add u lab None token now file).2 u = Some token) as Hsb.
  { unfold secret_bytes. rewrite He. cbn [mbind option_bind]. rewrite Hs.
    by apply (b32_round_trip token 4). }
  split; [by apply add_inv|]. split; [done|].
  eexists. split; [unfold resolve_secret; by rewrite He, Hsb|].
  intros Hskew H0 H1 E. cbn [verify]. destruct token as [|x token]; [done|].
  eapply (totp_now_verifies unicode_digit _ 1 30 6 c1 c2); [lia | done | lia..| exact E].
Qed.

(** revoking a user does not lock them out.  After [revoke] the user is no longer
    enrolled, so with the default fallback the gateway checks codes against the demo
    secret, which anyone who knows the deployment's and the user's names can compute:
    its codes are accepted.  Only strict enrollment refuses. *)
Theorem revoked_falls_back unicode_digit u rec file dep env c1 c2 code :
  users (_read file) !! u = Some rec →
  let file' := (revoke u file).2 in
  let demo := secret_for u dep env in
  (revoke u file).1 = true ∧ enrolled file' u = None ∧
  resolve_secret u dep env false file' = None ∧
  resolve_secret u dep env true file' = Some (Demo demo) ∧
  ((Z.abs (c1 - c2) <= seconds 30)%Z → (1 <= step_at 30 c2)%Z → (step_at 30 c2 + 1 < 2 ^ 64)%Z →
   totp_now (demo_bytes demo) 30 6 c1 = Ok code → verify unicode_digit (Demo demo) code 1 c2 = Ok true).
Proof.
  intros E. cbv zeta.
  assert (enrolled (revoke u file).2 u = None) as He.
  { unfold enrolled, revoke. rewrite E. cbn [snd _read default from_option id users revoked].
    destruct (bool_decide (u ∈ _)); [done | apply lookup_delete_eq]. }
  split; [unfold revoke; by rewrite E|]. split; [done|].
  unfold resolve_secret. rewrite He. split_and!; [done..|].
  intros Hskew H0 H1 Et. cbn [verify].
  eapply (totp_now_verifies unicode_digit _ 1 30 6 c1 c2); [lia | done | lia..| exact Et].
Qed.

(** ** Witnesses *)

Definition no_digits (_ : N) : bool := false.
Definition rfc_secret : bytes := encode "12345678901234567890"%py.

Lemma hotp_rfc_witness : _hotp rfc_secret 1 6 = Ok "287082"%py.
Proof.
  destruct (hotp_rfc rfc_secret 1 6) as (code & E & _ & Hc & _); [lia | lia|].
  rewrite E, Hc. vm_compute. reflexivity.
Defined.

Lemma totp_verify_exact_witness :
  totp_verify no_digits rfc_secret "287082"%py 1 30 6 (seconds 89) = Ok true ∧
  totp_verify no_digits rfc_secret "287082"%py 1 30 6 (seconds 90) = Ok false.
Proof.
  split; [|vm_compute; reflexivity].
  destruct (totp_verify_exact no_digits rfc_secret "287082"%py 1 30 6 (seconds 89)) as (b & E & H).
  - lia.
  - apply (bool_decide_unpack _). vm_compute. exact I.
  - vm_compute. discriminate.
  - vm_compute. reflexivity.
  - rewrite E. f_equal. apply H. exists (-1)%Z. split; [lia|]. vm_compute. reflexivity.
Defined.

Lemma enroll_round_trip_witness :
  let file := Some (mk_store ∅ ["jdoe"; "old"]%py) in
  secret_bytes (add "jdoe"%py None None rfc_secret (seconds 1000) file).2 "jdoe"%py = Some rfc_secret ∧
  secret_b32 (add "jdoe"%py None None rfc_secret (seconds 1000) file).1 = "GEZDGNBVGY3TQOJQGEZDGNBVGY3TQOJQ"%py.
Proof.
  cbv zeta. split; [|vm_compute; reflexivity].
  refine (proj1 (proj2 (enroll_round_trip no_digits "jdoe"%py None rfc_secret (seconds 1000) _ None None true
    0%Z 0%Z [] _ _ _ _))).
  - split; [apply (bool_decide_unpack _); vm_compute; exact I | intros u _; apply lookup_empty].
  - reflexivity.
  - apply (bool_decide_unpack _). vm_compute. exact I.
  - reflexivity.
Defined.

Lemma revoked_falls_back_witness :
  let file := (add "jdoe"%py None None rfc_secret 0%Z None).2 in
  verify no_digits (Demo (secret_for "jdoe" None None))%py "585114"%py 1 (seconds 60) = Ok true ∧
  resolve_secret "jdoe"%py None None true (revoke "jdoe"%py file).2 = Some (Demo (secret_for "jdoe" None None))%py.
Proof.
  cbv zeta.
  destruct (revoked_falls_back no_digits "jdoe"%py (mk_enrollment "GEZDGNBVGY3TQOJQGEZDGNBVGY3TQOJQ" 0 "jdoe")%py
    (add "jdoe"%py None None rfc_secret 0%Z None).2 None None (seconds 60) (seconds 60) "585114"%py)
    as (_ & _ & _ & Hr & Hv); [vm_compute; reflexivity|].
  split; [|exact Hr]. apply Hv; [vm_compute; discriminate | vm_compute; discriminate | vm_compute; reflexivity|].
  vm_compute. reflexivity.
Defined.
