(* ===== verification/Gateway.v ===== *)
(** linux-fork/mfa/mfa_gateway.py: the second-factor challenge.  The channel of the
    session, the push service's answers, the disk and the clock are inputs; the decision
    directory, the text shown and the session's end are the state. *)

From S2P Require Import Prelude PyStr Glob Hash Float Proxy Push Totp.

(** ** The line editor of the session *)

Record editor := mk_editor { _buf : str; _submitted : option str; _done : bool }.
Definition new_editor : editor := mk_editor [] None false.

Inductive input := Data (s : str) | Break | Eof.

Definition is_enter (c : N) : bool := (c =? 13)%N || (c =? 10)%N.

Definition type_char (e : editor) (ch : N) : editor :=
  if is_enter ch then
    match _submitted e with
    | None => mk_editor [] (Some (strip (_buf e))) true
    | Some _ => mk_editor [] (_submitted e) (_done e)
    end
  else mk_editor (_buf e ++ [ch]) (_submitted e) (_done e).

Definition data_received (s : str) (e : editor) : editor := foldl type_char e s.
Definition break_received (e : editor) : editor := mk_editor (_buf e) (Some []) true.
Definition eof_received (e : editor) : editor :=
  mk_editor (_buf e) (Some (default [] (_submitted e))) true.

Definition receive (e : editor) (i : input) : editor :=
  match i with Data s => data_received s e | Break => break_received e | Eof => eof_received e end.

(** ** The push service, as a client sees it *)

Inductive outcome := PushApproved | PushDenied | PushExpired | Timeout | Unreachable | Skipped.
#[export] Instance outcome_eq_dec : EqDecision outcome.
Proof. solve_decision. Defined.

Definition outcome_str (o : outcome) : str :=
  match o with
  | PushApproved => "approved" | PushDenied => "denied" | PushExpired => "expired"
  | Timeout => "timeout" | Unreachable => "unreachable" | Skipped => "skipped"
  end%py.

(** An HTTP answer: its code (0 when there was none), and the field of the JSON body that
    the caller reads; or the exception a helper lets through. *)
Definition answer := exc (Z * option str).

(** [push_request]: [ans] is what the POST brings back. *)
Definition push_request (push_url : str) (ans : answer) : exc (option str) :=
  match push_url with
  | [] => Ok None
  | _ => exc_bind ans (λ '(status, token), Ok (if (status =? 201)%Z then token else None))
  end.

(** One turn of the polling loop: the clock at its deadline test, and the GET's answer. *)
Record poll := mk_poll { at_ : time; got : answer }.

Definition final_status (s : option str) : option outcome :=
  match s with
  | Some s =>
      if bool_decide (s = "approved"%py) then Some PushApproved
      else if bool_decide (s = "denied"%py) then Some PushDenied
      else if bool_decide (s = "expired"%py) then Some PushExpired else None
  | None => None
  end.

(** [None] when the turns given do not yet decide. *)
Fixpoint push_poll_until_decision (deadline : time) (polls : list poll) : option (exc outcome) :=
  match polls with
  | [] => None
  | p :: polls' =>
      if (deadline <=? at_ p)%Z then Some (Ok Timeout)
      else match got p with
           | Raise e => Some (Raise e)
           | Ok (status, st) =>
               if (status =? 0)%Z || (status =? 404)%Z then Some (Ok Unreachable)
               else match final_status st with
                    | Some o => Some (Ok o)
                    | None => push_poll_until_decision deadline polls'
                    end
           end
  end.

(** ** The client's address behind the proxy *)


Definition _resolve_real_ip (real_ip_by_local_port : gmap Z str) (ip : str) (port : Z) : str :=
  if bool_decide (ip = "127.0.0.1"%py ∨ ip = "::1"%py) then
    match real_ip_by_local_port !! port with Some ((_ :: _) as real) => real | _ => ip end
  else ip.

(** [_proxy_strip_and_forward] up to the bridge: [input] is what the peer sends, and
    [backend] the local port of the inner connection when it can be opened.  [None] is a
    closed connection; otherwise the local port and the bytes left for the inner server. *)
Definition _proxy_strip_and_forward `{Unicode} (peer : str) (input : bytes) (a : arrival)
    (backend : option Z) (t : gmap Z str) : option (Z * bytes) * gmap Z str :=
  match read_v1_header input a with
  | Raise _ => (None, t)
  | Ok (h, rest) =>
      let real_ip := if is_known h then default peer (src_ip h) else peer in
      match backend with
      | None => (None, t)
      | Some local_port => (Some (local_port, rest), <[local_port := real_ip]> t)
      end
  end.

(** The bridge's [finally]. *)
Definition close_bridge (local_port : Z) (t : gmap Z str) : gmap Z str := delete local_port t.

(** ** The challenge *)

(** The outcome of a call on the disk: what [mkdir] and [write_text] raise, whether the
    file exists after a failed write, and which files cannot be unlinked. *)
Record disk_call := mk_disk { mkdir_error : option exn; stuck : str → bool; write_error : option (bool * exn) }.
Definition healthy : disk_call := mk_disk None (λ _, false) None.

(** The settings of the module. *)
Record settings := mk_settings {
  CORP_NAME : str; DEPLOYMENT_ID : str; DEMO_LOG_CODE : bool; TOTP_WINDOW : nat;
  MFA_PUSH_URL : str; MFA_PUSH_TIMEOUT_S : time; STRICT_ENROLLMENT : bool;
}.

(** What happens around one challenge. *)
Record world := mk_world {
  source_ip : str; username : str;
  chan_error : nat → option exn;     (* what the n-th call on the channel raises *)
  disk : nat → disk_call;            (* the n-th decision written *)
  write_time : nat → time;
  requested : answer;                (* to the push request *)
  asked_at : time; polls : list poll;
  enrollments : option store;        (* the enrollment file *)
  logged_at : time;                  (* the clock when the demo code is logged *)
  inputs : list input;               (* what the session received before the wait ended *)
  verified_at : time;
}.

Record state := mk_state {
  decisions : gmap str str; chan_calls : nat; disk_calls : nat; shown : list str; exits : list Z
}.

(** An operation returns, raises, or is still waiting. *)
Definition mfa (A : Type) : Type := state → option (exc A * state).

Definition ret {A} (a : A) : mfa A := λ g, Some (Ok a, g).
Definition lift {A} (m : exc A) : mfa A := λ g, Some (m, g).
Definition bind {A B} (m : mfa A) (f : A → mfa B) : mfa B := λ g,
  match m g with
  | Some (Ok a, g') => f a g'
  | Some (Raise e, g') => Some (Raise e, g')
  | None => None
  end.

Declare Scope mfa_scope.
Delimit Scope mfa_scope with mfa.
Notation "x <-- m ;; k" := (bind m (λ x, k)) (at level 100, m at next level, right associativity) : mfa_scope.
Notation "m ;;; k" := (bind m (λ _, k)) (at level 100, right associativity) : mfa_scope.

Section challenge.
Context (unicode_digit : N → bool) (cfg : settings) (w : world).

Definition chan_write (s : str) : mfa unit := λ g,
  let g' := mk_state (decisions g) (S (chan_calls g)) (disk_calls g) (shown g ++ [s]) (exits g) in
  match chan_error w (chan_calls g) with
  | Some e => Some (Raise e, mk_state (decisions g) (S (chan_calls g)) (disk_calls g) (shown g) (exits g))
  | None => Some (Ok tt, g')
  end.

Definition chan_exit (status : Z) : mfa unit := λ g,
  let g' := mk_state (decisions g) (S (chan_calls g)) (disk_calls g) (shown g) (exits g ++ [status]) in
  match chan_error w (chan_calls g) with Some e => Some (Raise e, g') | None => Some (Ok tt, g') end.

Definition PASS : str := "pass".
Definition FAIL : str := "fail".
Definition decision_file (d : str) : str := source_ip w ++ "."%py ++ d.
Definition decision_text (d : str) (now : time) : str :=
  "ip="%py ++ source_ip w ++ "\x0adecision="%py ++ d ++ "\x0ats="%py ++ str_of_Z (now / 1000000) ++ "\x0a"%py.

(** The files that a glob over the directory finds: a pattern with [**] inside a component
    is refused.  The address is taken to be one path component, without a slash. *)
Definition stale_files (files : gmap str str) : exc (gmap str str) :=
  let pattern := source_ip w ++ ".*"%py in
  if contains pattern "**"%py
  then Raise (ValueError "Invalid pattern: '**' can only be an entire path component"%py)
  else Ok (filter (λ kv, _fnmatch kv.1 pattern = true) files).

Definition _write_decision (d : str) : mfa unit := λ g,
  let call := disk w (disk_calls g) in
  let result files (r : exc unit) :=
    Some (r, mk_state files (chan_calls g) (S (disk_calls g)) (shown g) (exits g)) in
  match mkdir_error call, stale_files (decisions g) with
  | Some e, _ => result (decisions g) (Raise e)
  | None, Raise e => result (decisions g) (Raise e)
  | None, Ok stale =>
      let left := filter (λ kv, stale !! kv.1 = None ∨ stuck call kv.1 = true) (decisions g) in
      match write_error call with
      | Some (false, e) => result left (Raise e)
      | Some (true, e) => result (<[decision_file d := []]> left) (Raise e)
      | None => result (<[decision_file d := decision_text d (write_time w (disk_calls g))]> left) (Ok tt)
      end
  end.

(** ** The text of the session *)

Definition _PROMPT_BANNER (corp_name : str) : str :=
  "\x1b[1;36m=== "%py ++ corp_name ++ " — multi-factor authentication required ===\x1b[0m\n\n  Risk score for this session was elevated. To continue, we need\n  to verify your identity with a second factor.\n\n"%py.

Definition _PUSH_TEXT_WITH_URL (approve_url deny_url : str) : str :=
  "  → Push notification sent to your registered device.\n    Approve at: \x1b[1m"%py ++ approve_url
    ++ "\x1b[0m\n    Deny at:    "%py ++ deny_url ++ "\n    Or press Ctrl+C to cancel.\n"%py.

Definition _PUSH_DENIED_TEXT (reason : str) : str :=
  "  \x1b[33m✗ Push approval was not received ("%py ++ reason ++ ").\x1b[0m\n\n  Fall back to your authenticator app:\n"%py.

Definition _TOTP_PROMPT : str := "  Enter your 6-digit code: ".
Definition _PASS_MSG : str := "\n  \x1b[32m✓ MFA verified.\x1b[0m\n\n  Please reconnect with the same credentials. You will be routed to the\n  production jumphost. This grant expires in 5 minutes.\n".
Definition _FAIL_MSG : str := "\n  \x1b[31m✗ MFA verification failed.\x1b[0m\n\n  For your security, contact the IT helpdesk if this is unexpected.\n".
Definition _TIMEOUT_MSG : str := "\n  \x1b[31m✗ MFA challenge timed out (no code received within 60s).\x1b[0m\n".

(** ** The two tiers *)

Definition wait_decision (deadline : time) : mfa outcome := λ g,
  match push_poll_until_decision deadline (polls w) with Some o => Some (o, g) | None => None end.

Definition _maybe_run_push : mfa outcome :=
  match MFA_PUSH_URL cfg with
  | [] => ret Skipped
  | url =>
      (token <-- lift (push_request url (requested w)) ;;
       match token with
       | Some ((_ :: _) as token) =>
           let base := rstrip_char SLASH url in
           chan_write (_PUSH_TEXT_WITH_URL (base ++ "/push/approve/"%py ++ token) (base ++ "/push/deny/"%py ++ token)) ;;;
           wait_decision (asked_at w + MFA_PUSH_TIMEOUT_S cfg)%Z
       | _ => ret Unreachable
       end)%mfa
  end.

Definition conclude (msg d : str) (status : Z) : mfa unit :=
  (chan_write msg ;;; _write_decision d ;;; chan_exit status)%mfa.

(** The line the user submitted; [None] when the wait timed out. *)
Definition submission : option str :=
  let e := foldl receive new_editor (inputs w) in
  if _done e then Some (default [] (_submitted e)) else None.

(** [secret.current_code()]. *)
Definition current_code (s : secret) (clock : time) : exc str :=
  match s with
  | Demo d => totp_now (demo_bytes d) 30 6 clock
  | Enrolled _ key => totp_now (default [] key) 30 6 clock
  end.

Definition the_secret : option secret :=
  resolve_secret (username w) (Some (DEPLOYMENT_ID cfg)) None (negb (STRICT_ENROLLMENT cfg)) (enrollments w).

Definition check_code (s : secret) (submitted : str) : exc bool :=
  match strip submitted with
  | [] => Ok false
  | code => verify unicode_digit s code (TOTP_WINDOW cfg) (verified_at w)
  end.

Definition totp_tier : mfa unit :=
  match the_secret with
  | None => conclude _FAIL_MSG FAIL 1
  | Some s =>
      ((if DEMO_LOG_CODE cfg then _ <-- lift (current_code s (logged_at w)) ;; ret tt else ret tt) ;;;
       chan_write _TOTP_PROMPT ;;;
       match submission with
       | None => conclude _TIMEOUT_MSG FAIL 1
       | Some line =>
           ok <-- lift (check_code s line) ;;
           if ok then conclude _PASS_MSG PASS 0 else conclude _FAIL_MSG FAIL 1
       end)%mfa
  end.

Definition challenge : mfa unit :=
  (chan_write (_PROMPT_BANNER (CORP_NAME cfg)) ;;;
   push_outcome <-- _maybe_run_push ;;
   match push_outcome with
   | PushApproved => conclude _PASS_MSG PASS 0
   | PushDenied => conclude _FAIL_MSG FAIL 1
   | _ => chan_write (_PUSH_DENIED_TEXT (outcome_str push_outcome)) ;;; totp_tier
   end)%mfa.

(** [try: m finally: after]. *)
Definition finally (m after : mfa unit) : mfa unit := λ g,
  match m g with
  | Some (r, g') =>
      match after g' with
      | Some (Ok _, g'') => Some (r, g'')
      | other => other
      end
  | None => None
  end.

(** The body with its handler: whatever is raised, a failure is recorded. *)
Definition _run_challenge : mfa unit := λ g,
  match challenge g with
  | Some (Raise _, g') => finally (_write_decision FAIL) (chan_exit 1) g'
  | other => other
  end.

(** ** What the challenge should decide *)

Definition push_verdict : option (exc outcome) :=
  match MFA_PUSH_URL cfg with
  | [] => Some (Ok Skipped)
  | url =>
      match push_request url (requested w) with
      | Raise e => Some (Raise e)
      | Ok (Some (_ :: _)) => push_poll_until_decision (asked_at w + MFA_PUSH_TIMEOUT_S cfg)%Z (polls w)
      | Ok _ => Some (Ok Unreachable)
      end
  end.

(** The code tier: whether the line submitted is a current code of the user's secret. *)
Definition code_verdict : bool :=
  match the_secret, submission with
  | Some s, Some line =>
      (negb (DEMO_LOG_CODE cfg) || is_ok (current_code s (logged_at w)))
      && match check_code s line with Ok b => b | Raise _ => false end
  | _, _ => false
  end.

(** A pass takes an approved push, or a push that came to nothing and a current code. *)
Definition verdict : option bool :=
  match push_verdict with
  | None => None
  | Some (Raise _) | Some (Ok PushDenied) => Some false
  | Some (Ok PushApproved) => Some true
  | Some (Ok _) => Some code_verdict
  end.

(** The decisions of other addresses. *)
Definition others (files : gmap str str) : gmap str str :=
  filter (λ kv, startswith kv.1 (source_ip w ++ "."%py) = false) files.

(** One decision for the address, the others as they were. *)
Definition decided (d : str) (files files' : gmap str str) : Prop :=
  ∃ now, files' = <[decision_file d := decision_text d now]> (others files).

(** ** Reasoning about the operations *)

(** [m] leaves the decisions alone. *)
Definition quiet {A} (m : mfa A) : Prop := ∀ g r g', m g = Some (r, g') → decisions g' = decisions g.

Lemma quiet_ret {A} (a : A) : quiet (ret a).
Proof. by intros g r g' [= <- <-]. Qed.

Lemma quiet_lift {A} (m : exc A) : quiet (lift m).
Proof. by intros g r g' [= <- <-]. Qed.

Lemma quiet_write s : quiet (chan_write s).
Proof. intros g r g'. unfold chan_write. by destruct (chan_error _ _); intros [= <- <-]. Qed.

Lemma quiet_exit z : quiet (chan_exit z).
Proof. intros g r g'. unfold chan_exit. by destruct (chan_error _ _); intros [= <- <-]. Qed.

Lemma quiet_wait deadline : quiet (wait_decision deadline).
Proof. intros g r g'. unfold wait_decision. destruct (push_poll_until_decision _ _); [by intros [= <- <-] | done]. Qed.

Lemma quiet_bind {A B} (m : mfa A) (f : A → mfa B) : quiet m → (∀ a, quiet (f a)) → quiet (bind m f).
Proof.
  intros Hm Hf g r g'. unfold bind. destruct (m g) as [[[a|e] g1]|] eqn:E; [|intros [= <- <-]; eauto|done].
  intros H. rewrite (Hf a g1 r g' H). eauto.
Qed.

Lemma quiet_push : quiet _maybe_run_push.
Proof.
  unfold _maybe_run_push. destruct (MFA_PUSH_URL cfg) as [|c url]; [apply quiet_ret|].
  apply quiet_bind; [apply quiet_lift|]. intros [[|d token]|]; [apply quiet_ret | | apply quiet_ret].
  apply quiet_bind; [apply quiet_write|]. intros _. apply quiet_wait.
Qed.

Lemma push_outcome g o g' : _maybe_run_push g = Some (Ok o, g') → push_verdict = Some (Ok o).
Proof.
  unfold _maybe_run_push, push_verdict. destruct (MFA_PUSH_URL cfg) as [|c url]; [by intros [= <- _]|].
  unfold bind at 1, lift. destruct (push_request _ _) as [[[|d token]|]|e]; [by intros [= <- _] | | by intros [= <- _] | done].
  unfold bind, chan_write. destruct (chan_error _ _); [done|]. unfold wait_decision.
  destruct (push_poll_until_decision _ _); [|done]. by intros [= -> _].
Qed.

(** What holds of the ways a challenge ends, a pass only under a passing verdict, and is
    kept by quiet steps before them, holds of the challenge. *)
Lemma challenge_ind (P : mfa unit → Prop) :
  (∀ A (m : mfa A) f, quiet m → (∀ a g g', m g = Some (Ok a, g') → P (f a)) → P (bind m f)) →
  (verdict = Some true → ∀ msg z, P (conclude msg PASS z)) →
  (∀ msg z, P (conclude msg FAIL z)) → P challenge.
Proof.
  intros Hb HP HF. unfold challenge. apply Hb; [apply quiet_write|]. intros _ _ _ _.
  apply Hb; [apply quiet_push|]. intros o g g' Ho%push_outcome.
  assert (Htier : verdict = Some code_verdict → P totp_tier).
  { unfold totp_tier, code_verdict. intros Hv. destruct the_secret as [s|]; [|apply HF].
    apply Hb.
    { destruct (DEMO_LOG_CODE cfg); [apply quiet_bind; [apply quiet_lift|intros _]|]; apply quiet_ret. }
    intros [] g1 g2 Hlog. apply Hb; [apply quiet_write|]. intros _ _ _ _.
    destruct submission as [line|]; [|apply HF]. apply Hb; [apply quiet_lift|]. intros ok g3 g4 [= Hok _].
    destruct ok; [|apply HF]. apply HP. rewrite Hv, Hok, andb_true_r. f_equal.
    destruct (DEMO_LOG_CODE cfg); [|done]. unfold bind, lift in Hlog. by destruct (current_code s _). }
  unfold verdict in HP, Htier. rewrite Ho in HP, Htier.
  destruct o; [by apply HP | by apply HF | ..]; apply Hb; try apply quiet_write; intros; by apply Htier.
Qed.

Lemma bind_inv {A B} (m : mfa A) (f : A → mfa B) g r g' : bind m f g = Some (r, g') →
  (∃ a g1, m g = Some (Ok a, g1) ∧ f a g1 = Some (r, g')) ∨ (∃ e, m g = Some (Raise e, g') ∧ r = Raise e).
Proof.
  unfold bind. destruct (m g) as [[[a|e] g1]|]; [|intros [= <- <-]|done]; [left | right]; eauto.
Qed.

(** A conclusion: nothing but its decision is written. *)
Lemma conclude_inv msg d z g r g' : conclude msg d z g = Some (r, g') →
  (decisions g' = decisions g ∧ r ≠ Ok tt) ∨
  ∃ g1 r1 g2, decisions g1 = decisions g ∧ _write_decision d g1 = Some (r1, g2) ∧
              decisions g' = decisions g2 ∧ (r = Ok tt → r1 = Ok tt).
Proof.
  intros [(u&g1&H1&H)|(e&H1&->)]%bind_inv; apply quiet_write in H1 as E1; [|by left]. right.
  apply bind_inv in H as [([]&g2&H2&H)|(e&H2&->)].
  - apply quiet_exit in H as E2. by exists g1, (Ok tt), g2.
  - by exists g1, (Raise e), g'.
Qed.

(** The handler: a raised challenge records a failure. *)
Lemma run_inv g r g' : _run_challenge g = Some (r, g') →
  challenge g = Some (Ok tt, g') ∨
  ∃ e g1 r1 g2, challenge g = Some (Raise e, g1) ∧ _write_decision FAIL g1 = Some (r1, g2) ∧
                decisions g' = decisions g2.
Proof.
  unfold _run_challenge. destruct (challenge g) as [[[[]|e] g1]|]; [by intros [= <- <-]; left | | done].
  unfold finally. destruct (_write_decision FAIL g1) as [[r1 g2]|] eqn:Ew; [|done].
  destruct (chan_exit 1 g2) as [[r2 g3]|] eqn:Ex; [|done]. apply quiet_exit in Ex as E.
  intros H. right. exists e, g1, r1, g2. split_and!; [done|done|]. by destruct r2; injection H as _ <-.
Qed.

Lemma write_pass_origin d c g r g' : d ≠ PASS →
  _write_decision d g = Some (r, g') → decisions g' !! decision_file PASS = Some c →
  is_Some (decisions g !! decision_file PASS).
Proof.
  intros Hd. unfold _write_decision. destruct (mkdir_error _); [intros [= <- <-] H; by exists c|].
  destruct (stale_files _) as [stale|e]; [|intros [= <- <-] H; by exists c].
  assert (Hne : decision_file d ≠ decision_file PASS) by (unfold decision_file; by intros ?%app_inv_head%app_inv_head).
  destruct (write_error _) as [[[] e]|]; intros [= <- <-]; cbn [decisions];
    rewrite ?lookup_insert_ne by done; intros [H _]%map_lookup_filter_Some; by exists c.
Qed.

(** a pass is never recorded without its cause.  Whatever the channel, the disk or the
    push service do in the course of a challenge, if there was no pass for the address
    before and there is one after, then the push was approved, or it came to nothing
    and the line submitted is a current code of the user's secret. *)
Theorem pass_needs_verdict g r g' :
  _run_challenge g = Some (r, g') → decisions g !! decision_file PASS = None →
  is_Some (decisions g' !! decision_file PASS) → verdict = Some true.
Proof.
  intros Hrun Hno Hyes.
  pose (caused (m : mfa unit) := ∀ g1 r1 g2, m g1 = Some (r1, g2) →
          is_Some (decisions g2 !! decision_file PASS) →
          verdict = Some true ∨ is_Some (decisions g1 !! decision_file PASS)).
  assert (Hc : caused challenge).
  { apply challenge_ind.
    - intros A m f Hq Hf g1 r1 g2 [(a&g3&Hm&H)|(e&Hm&_)]%bind_inv Hs; apply Hq in Hm as E; rewrite <- E;
        [exact (Hf a g1 g3 Hm g3 r1 g2 H Hs) | by right].
    - intros Hv msg z g1 r1 g2 _ _. by left.
    - intros msg z g1 r1 g2 [[-> _]|(g3&r3&g4&<-&Hw&->&_)]%conclude_inv [c Hs]; [by right; exists c|].
      right. by apply (write_pass_origin FAIL c g3 r3 g4). }
  apply run_inv in Hrun as [Hok|(e&g1&r1&g2&He&Hw&E)].
  - destruct (Hc _ _ _ Hok Hyes) as [|[c Hs]]; [done|congruence].
  - rewrite E in Hyes. destruct Hyes as [c Hs]. apply (write_pass_origin FAIL c g1 r1 g2) in Hs; [|done|done].
    destruct (Hc _ _ _ He Hs) as [|[c' Hs']]; [done|congruence].
Qed.

(** ** The challenge ends *)

Definition total {A} (m : mfa A) : Prop := ∀ g, is_Some (m g).

Lemma total_bind {A B} (m : mfa A) (f : A → mfa B) : total m → (∀ a, total (f a)) → total (bind m f).
Proof. intros Hm Hf g. unfold bind. destruct (Hm g) as [[[a|e] g'] ->]; [apply Hf | by eexists]. Qed.

Lemma total_lift {A} (m : exc A) : total (lift m).
Proof. by eexists. Qed.

Lemma total_write s : total (chan_write s).
Proof. intros g. unfold chan_write. by destruct (chan_error _ _); eexists. Qed.

Lemma total_exit z : total (chan_exit z).
Proof. intros g. unfold chan_exit. by destruct (chan_error _ _); eexists. Qed.

Lemma total_decision d : total (_write_decision d).
Proof.
  intros g. unfold _write_decision. destruct (mkdir_error _), (stale_files (decisions g)); try by eexists.
  by destruct (write_error _) as [[[] ?]|]; eexists.
Qed.

Lemma total_conclude msg d z : total (conclude msg d z).
Proof.
  apply total_bind; [apply total_write|]. intros _.
  apply total_bind; [apply total_decision|]. intros _. apply total_exit.
Qed.

Lemma total_tier : total totp_tier.
Proof.
  unfold totp_tier. destruct the_secret as [s|]; [|apply total_conclude].
  apply total_bind; [destruct (DEMO_LOG_CODE cfg); by try (apply total_bind; [apply total_lift|]); eexists|]. intros _.
  apply total_bind; [apply total_write|]. intros _. destruct submission; [|apply total_conclude].
  apply total_bind; [apply total_lift|]. intros []; apply total_conclude.
Qed.

Lemma total_push : is_Some push_verdict → total _maybe_run_push.
Proof.
  unfold push_verdict, _maybe_run_push. destruct (MFA_PUSH_URL cfg) as [|c url]; [by eexists|]. intros Hv.
  unfold bind at 1, lift. intros g. destruct (push_request _ _) as [[[|d token]|]|e]; try by eexists.
  revert g. apply total_bind; [apply total_write|]. intros _ g. unfold wait_decision.
  destruct Hv as [o ->]. by eexists.
Qed.

Lemma total_run : is_Some push_verdict → total _run_challenge.
Proof.
  intros Hv. assert (Hc : total challenge).
  { apply total_bind; [apply total_write|]. intros _. apply total_bind; [by apply total_push|].
    intros []; try apply total_conclude; apply total_bind; try apply total_write; intros _; apply total_tier. }
  intros g. unfold _run_challenge. destruct (Hc g) as [[[a|e] g1] ->]; [by eexists|].
  unfold finally. destruct (total_decision FAIL g1) as [[r g2] ->].
  destruct (total_exit 1 g2) as [[[] g3] ->]; by eexists.
Qed.

(** Polls at least an interval apart, the first not before [t]. *)
Fixpoint spaced (interval t : time) (ps : list poll) : Prop :=
  match ps with [] => True | p :: ps' => (t <= at_ p)%Z ∧ spaced interval (at_ p + interval)%Z ps' end.

Lemma spaced_later interval t t' ps : (t' <= t)%Z → spaced interval t ps → spaced interval t' ps.
Proof. destruct ps; cbn; [done|]. intros ? [? ?]. split; [lia | done]. Qed.

Lemma polls_decide interval deadline t ps : (0 <= interval)%Z → spaced interval t ps →
  ps ≠ [] → (deadline <= t + interval * (Z.of_nat (length ps) - 1))%Z →
  is_Some (push_poll_until_decision deadline ps).
Proof.
  intros Hi. revert t. induction ps as [|p ps IH]; intros t Hs Hne Hl; [done|].
  cbn [push_poll_until_decision spaced length] in *. destruct Hs as [Ht Hs].
  destruct (Z.leb_spec deadline (at_ p)); [by eexists|].
  destruct (got p) as [[status st]|e]; [|by eexists]. destruct ((_ =? 0)%Z || _); [by eexists|].
  destruct (final_status st); [by eexists|].
  destruct ps as [|q ps]; [cbn in *; lia|].
  apply (IH (at_ p + interval)%Z); [done | done | cbn [length] in *; lia].
Qed.

(** the push tier cannot hold a session for ever.  With polls an interval apart, a
    challenge that has polled up to its deadline has returned, whatever the push service
    answers or fails to answer, and whatever the channel and the disk do. *)
Theorem challenge_concludes interval g :
  (0 < interval)%Z → spaced interval (asked_at w) (polls w) →
  (MFA_PUSH_TIMEOUT_S cfg <= interval * (Z.of_nat (length (polls w)) - 1))%Z → polls w ≠ [] →
  is_Some (_run_challenge g).
Proof.
  intros Hi Hs Hl Hne. apply total_run. unfold push_verdict.
  destruct (MFA_PUSH_URL cfg) as [|c url]; [by eexists|].
  destruct (push_request _ _) as [[[|d token]|]|e]; try by eexists.
  apply (polls_decide interval _ (asked_at w)); [lia | done | done | lia].
Qed.

(** ** Addresses without wildcards, on a disk that works *)

Context (Hip : Forall literal (source_ip w)).

Lemma literal_no_stars pre : Forall literal pre → contains (pre ++ [42%N]) "**"%py = false.
Proof.
  induction 1 as [|c pre Hc Hpre IH]; [done|].
  cbn [app contains]. rewrite IH, orb_false_r. destruct Hc as [Hc _]. cbn [startswith].
  by apply N.eqb_neq in Hc as ->.
Qed.

Lemma literal_dot : Forall literal (source_ip w ++ "."%py).
Proof. apply Forall_app. split; [done|]. by repeat constructor. Qed.

Lemma stale_pattern : source_ip w ++ ".*"%py = (source_ip w ++ "."%py) ++ [42%N].
Proof. by rewrite <- app_assoc. Qed.

Lemma stale_literal files : stale_files files = Ok (filter (λ kv, startswith kv.1 (source_ip w ++ "."%py) = true) files).
Proof.
  unfold stale_files. rewrite stale_pattern, literal_no_stars by apply literal_dot. f_equal.
  apply map_filter_ext. intros k v _. cbn [fst]. by rewrite fnmatch_prefix by apply literal_dot.
Qed.

Lemma write_healthy d g : disk w (disk_calls g) = healthy →
  _write_decision d g =
    Some (Ok tt, mk_state (<[decision_file d := decision_text d (write_time w (disk_calls g))]> (others (decisions g)))
                   (chan_calls g) (S (disk_calls g)) (shown g) (exits g)).
Proof.
  intros Hd. unfold _write_decision. rewrite Hd, stale_literal. cbn [mkdir_error write_error stuck healthy].
  do 4 f_equal. unfold others. apply map_filter_ext. intros k v Hk. cbn [fst]. rewrite map_lookup_filter_None.
  rewrite <- not_true_iff_false. cbn [fst]. split; [|eauto].
  intros [[|Hn]|]; [congruence | by apply (Hn v) | done].
Qed.

Lemma others_insert d t files : others (<[decision_file d := t]> files) = others files.
Proof.
  unfold others. rewrite map_filter_insert_False; [|cbn; unfold decision_file; rewrite app_assoc, startswith_app; done].
  apply map_eq. intros k. rewrite !map_lookup_filter. rewrite lookup_delete.
  case_decide as Hk; [|done]. subst. destruct (files !! _); [|done]. cbn.
  rewrite option_guard_False; [done|]. unfold decision_file. by rewrite app_assoc, startswith_app.
Qed.

Lemma others_idemp files : others (others files) = others files.
Proof. unfold others. rewrite map_filter_filter. apply map_filter_ext. naive_solver. Qed.

Context (Hdisk : ∀ n, disk w n = healthy).

Lemma decided_write d g g1 : others (decisions g1) = others (decisions g) →
  ∃ g2, _write_decision d g1 = Some (Ok tt, g2) ∧ decided d (decisions g) (decisions g2).
Proof. intros E. rewrite write_healthy by done. eexists. split; [done|]. eexists. cbn [decisions]. by rewrite E. Qed.

Lemma decided_others d f f' : decided d f f' → others f' = others f.
Proof. intros [now ->]. by rewrite others_insert, others_idemp. Qed.

(** a challenge that ends leaves exactly one decision.  On a disk that works, for an
    address without wildcards and however the channel or the services fail, the
    directory afterwards holds one file of the address, a pass only under a passing
    verdict, and the files of the other addresses untouched. *)
Theorem one_decision g r g' : _run_challenge g = Some (r, g') →
  ∃ d, (d = FAIL ∨ d = PASS ∧ verdict = Some true) ∧ decided d (decisions g) (decisions g').
Proof.
  set (ends := λ d, d = FAIL ∨ d = PASS ∧ verdict = Some true).
  pose (ended (m : mfa unit) := ∀ g1 r1 g2, m g1 = Some (r1, g2) →
          others (decisions g2) = others (decisions g1) ∧
          (r1 = Ok tt → ∃ d, ends d ∧ decided d (decisions g1) (decisions g2))).
  assert (Hend : ∀ msg d z, ends d → ended (conclude msg d z)).
  { intros msg d z Hd g1 r1 g2 [[-> Hr]|(g3&r3&g4&E&Hw&->&_)]%conclude_inv; [done|].
    destruct (decided_write d g1 g3) as (g5&Hw'&Hdec); [by rewrite E|].
    rewrite Hw' in Hw. injection Hw as <- <-. split; [by eapply decided_others|]. by exists d. }
  assert (Hc : ended challenge).
  { apply challenge_ind.
    - intros A m f Hq Hf g1 r1 g2 [(a&g3&Hm&H)|(e&Hm&->)]%bind_inv; apply Hq in Hm as E; rewrite <- E; [|done].
      by apply (Hf a g1 g3 Hm).
    - intros Hv msg z. apply Hend. by right.
    - intros msg z. apply Hend. by left. }
  intros [Hok|(e&g1&r1&g2&He&Hw&->)]%run_inv.
  - by apply Hc in Hok as [_ Hok]; apply Hok.
  - exists FAIL. split; [by left|]. apply Hc in He as [He _].
    destruct (decided_write FAIL g g1 He) as (g5&Hw'&Hdec). rewrite Hw' in Hw. by injection Hw as _ <-.
Qed.

(** ** With a channel that stays open *)

Section open_channel.
Context (Hchan : ∀ n, chan_error w n = None).

Definition same (g g' : state) : Prop := decisions g' = decisions g ∧ exits g' = exits g.

(** How a run from [g] that should decide [b] stops: with the decision and the exit status
    made, or, for a failure, on an exception before either. *)
Definition stops (b : bool) (g : state) (o : option (exc unit * state)) : Prop :=
  (∃ g', o = Some (Ok tt, g') ∧ decided (if b then PASS else FAIL) (decisions g) (decisions g') ∧
         exits g' = exits g ++ [if b then 0 else 1]%Z) ∨
  (b = false ∧ ∃ e g', o = Some (Raise e, g') ∧ same g g').

Lemma stops_same b g g' o : same g g' → stops b g' o → stops b g o.
Proof.
  intros [E1 E2] [(g2&->&H)|(Hb&e&g2&->&H1&H2)].
  - left. exists g2. by rewrite E1, E2 in H.
  - right. split; [done|]. exists e, g2. unfold same. by rewrite H1, H2.
Qed.

Definition said (s : str) (g : state) : state :=
  mk_state (decisions g) (S (chan_calls g)) (disk_calls g) (shown g ++ [s]) (exits g).

Lemma bind_say {A} s (f : unit → mfa A) g : bind (chan_write s) f g = f tt (said s g).
Proof. unfold bind, chan_write. by rewrite Hchan. Qed.

Lemma say_stops b s (f : unit → mfa unit) g :
  (∀ g', same g g' → stops b g' (f tt g')) → stops b g (bind (chan_write s) f g).
Proof. intros Hf. rewrite bind_say. eapply stops_same; [|by apply Hf]. done. Qed.

Lemma conclude_stops b msg g :
  stops b g (conclude msg (if b then PASS else FAIL) (if b then 0 else 1)%Z g).
Proof.
  apply say_stops. intros g1 E1. unfold bind. rewrite write_healthy by done.
  unfold chan_exit. rewrite Hchan. left. eexists. split; [done|]. cbn. split; [by eexists | done].
Qed.

Lemma raise_stops e g : stops false g (Some (Raise e, g)).
Proof. right. split; [done|]. by exists e, g. Qed.

Lemma tier_stops g : stops code_verdict g (totp_tier g).
Proof.
  unfold totp_tier, code_verdict. destruct the_secret as [s|]; [|apply (conclude_stops false)].
  set (body := λ _ : unit, (chan_write _TOTP_PROMPT ;;; _)%mfa).
  assert (Hbody : ∀ g1, stops match submission with
                          | Some line => match check_code s line with Ok b => b | Raise _ => false end
                          | None => false end g1 (body tt g1)).
  { intros g1. apply say_stops. intros g2 _. destruct submission as [line|]; [|apply (conclude_stops false)].
    unfold bind, lift. destruct (check_code s line) as [[]|e];
      [apply (conclude_stops true) | apply (conclude_stops false) | apply raise_stops]. }
  destruct (DEMO_LOG_CODE cfg); cbn [negb orb andb].
  - unfold bind at 1 2, lift, ret. destruct (current_code s _) as [c|e]; cbn [is_ok andb].
    + by destruct submission.
    + destruct submission; apply raise_stops.
  - unfold bind at 1, ret. by destruct submission.
Qed.

Lemma push_runs g :
  match push_verdict with
  | Some o => ∃ g', _maybe_run_push g = Some (o, g') ∧ same g g'
  | None => _maybe_run_push g = None
  end.
Proof.
  unfold _maybe_run_push, push_verdict. destruct (MFA_PUSH_URL cfg) as [|c url]; [by exists g|].
  unfold bind at 1, lift. destruct (push_request _ _) as [[[|d token]|]|e]; [by exists g | | by exists g | by exists g].
  unfold bind, chan_write. rewrite Hchan. unfold wait_decision.
  destruct (push_poll_until_decision _ _); [|done]. eexists. split; [done|]. done.
Qed.

(** C6: the challenge does what its verdict says.  On a disk that works, for an address
    without wildcards and over a channel that stays open, the challenge waits exactly
    when the push has no decision yet; otherwise it returns, records the verdict with
    the other addresses untouched, and ends the session with the matching exit status. *)
Theorem challenge_refines_verdict g :
  match verdict with
  | None => _run_challenge g = None
  | Some b => ∃ g', _run_challenge g = Some (Ok tt, g') ∧
                decided (if b then PASS else FAIL) (decisions g) (decisions g') ∧
                exits g' = exits g ++ [if b then 0 else 1]%Z
  end.
Proof.
  assert (Hc : match verdict with None => challenge g = None | Some b => stops b g (challenge g) end).
  { unfold challenge, verdict. rewrite bind_say.
    set (g1 := said _ _). assert (Hg1 : same g g1) by done.
    pose proof (push_runs g1) as Hp. destruct push_verdict as [o|]; unfold bind at 1; [|by rewrite Hp].
    destruct Hp as (g2&->&H2). assert (Hs : same g g2) by (unfold same in *; naive_solver).
    destruct o as [[]|e]; try (by eapply stops_same; [exact Hs | apply (conclude_stops true)]);
      try (by eapply stops_same; [exact Hs | apply (conclude_stops false)]).
    5: by eapply stops_same; [exact Hs | apply raise_stops].
    all: eapply stops_same; [exact Hs|]; apply say_stops; intros; apply tier_stops. }
  unfold _run_challenge. destruct verdict as [b|]; [|by rewrite Hc].
  destruct Hc as [(g'&->&H)|(->&e&g'&->&E1&E2)]; [by exists g'|].
  unfold finally. rewrite write_healthy by done. unfold chan_exit. rewrite Hchan. eexists. split; [done|].
  cbn [decisions exits]. rewrite E1, E2. split; [by eexists | done].
Qed.
End open_channel.
End challenge.

(** ** What the user types *)

Lemma receive_chunks chunks e : foldl receive e (map Data chunks) = data_received (concat chunks) e.
Proof.
  revert e. induction chunks as [|s chunks IH]; intros e; [done|]. cbn [map foldl concat receive].
  rewrite IH. unfold data_received. by rewrite foldl_app.
Qed.

Lemma submitted_stays s e x : _submitted e = Some x → _done e = true →
  _submitted (data_received s e) = Some x ∧ _done (data_received s e) = true.
Proof.
  revert e. induction s as [|c s IH]; intros e Hx Hd; [done|]. unfold data_received. cbn [foldl].
  apply IH; unfold type_char; rewrite Hx; by destruct (is_enter c).
Qed.

Lemma first_enter s buf :
  let e := data_received s (mk_editor buf None false) in
  match list_find (λ c, is_enter c = true) s with
  | Some (i, _) => _submitted e = Some (strip (buf ++ take i s)) ∧ _done e = true
  | None => e = mk_editor (buf ++ s) None false
  end.
Proof.
  revert buf. induction s as [|c s IH]; intros buf; cbn zeta; [by rewrite app_nil_r|].
  unfold data_received. cbn [foldl list_find]. unfold type_char at 2 4 6. cbn [_submitted _buf _done].
  destruct (decide (is_enter c = true)) as [Hc|Hc].
  - rewrite Hc. cbn [take]. rewrite app_nil_r. by apply submitted_stays.
  - apply not_true_iff_false in Hc. rewrite Hc. specialize (IH (buf ++ [c])). cbn zeta in IH.
    destruct (list_find _ s) as [[i x]|]; cbn; rewrite <- app_assoc in IH; done.
Qed.

(** the code is the first line typed, however the terminal delivers it: cut the typing
    anywhere into chunks, and the submission is the text before the first return or
    newline, stripped, whatever follows; without one there is no submission yet. *)
Theorem first_line_submitted chunks :
  let e := foldl receive new_editor (map Data chunks) in
  match list_find (λ c, is_enter c = true) (concat chunks) with
  | Some (i, _) => _submitted e = Some (strip (take i (concat chunks))) ∧ _done e = true
  | None => e = mk_editor (concat chunks) None false
  end.
Proof. cbn zeta. rewrite receive_chunks. apply (first_enter (concat chunks) []). Qed.

(** ** The proxy in front *)

(** The other bridges of the listener, as they open and close. *)
Inductive bridge_event := Opened (port : Z) (ip : str) | Closed (port : Z).

Definition bridge (t : gmap Z str) (e : bridge_event) : gmap Z str :=
  match e with Opened p ip => <[p := ip]> t | Closed p => close_bridge p t end.
Definition event_port (e : bridge_event) : Z := match e with Opened p _ | Closed p => p end.

Lemma bridges_keep port es t : Forall (λ e, event_port e ≠ port) es → foldl bridge t es !! port = t !! port.
Proof.
  intros H. revert t. induction H as [|e es He _ IH]; intros t; [done|]. cbn [foldl]. rewrite IH.
  destruct e; cbn in *; [by rewrite lookup_insert_ne | unfold close_bridge; by rewrite lookup_delete_ne].
Qed.

(** a client behind the proxy is judged under its own address.  When the balancer's
    header arrives and the inner connection opens, the bytes after the header go to the
    inner server, and until the bridge closes its sessions resolve to the header's
    source address, whatever the other bridges do meanwhile; afterwards the port stands
    for the loopback again. *)
Theorem client_address_resolves `{Unicode} peer proto src dst sp dp rest a port t es :
  address_ok proto src → address_ok proto dst → port_ok sp → port_ok dp →
  length (header_line proto src dst sp dp) ≤ MAX_HEADER_BYTES →
  Forall (λ e, event_port e ≠ port) es →
  let '(bridged, t') := _proxy_strip_and_forward peer (header_line proto src dst sp dp ++ rest) a (Some port) t in
  bridged = Some (port, rest) ∧
  _resolve_real_ip (foldl bridge t' es) "127.0.0.1"%py port = src ∧
  _resolve_real_ip (close_bridge port (foldl bridge t' es)) "127.0.0.1"%py port = "127.0.0.1"%py.
Proof.
  intros Hs Hd Hp Hq Hl He. unfold _proxy_strip_and_forward. rewrite read_header_line by done.
  assert (Hk : is_known (known_header proto src dst sp dp) = true).
  { unfold is_known, known_header. cbn [protocol src_ip]. apply andb_true_iff. split; apply bool_decide_eq_true; [|by eexists].
    destruct Hs as [_ [[-> _]|[-> _]]]; [by left | by right]. }
  rewrite Hk. cbn [known_header src_ip default]. unfold _resolve_real_ip.
  rewrite bool_decide_eq_true_2 by by left. rewrite bridges_keep, lookup_insert_eq by done.
  unfold close_bridge. rewrite lookup_delete_eq. split_and!; [done | | done].
  destruct src; [|done]. destruct Hs as [_ [[_ Hc]|[_ Hc]]]; discriminate Hc.
Qed.

(** ** The push service behind the client *)

(** What the service's response is to the gateway's client: the code, and the body's status. *)
Definition http_answer (r : response) : answer :=
  match r with
  | Created _ _ s => Ok (201, Some s)
  | NoContent => Ok (204, None)
  | BadRequest => Ok (400, None)
  | NotFound | NoRoute => Ok (404, None)
  | Poll v => Ok (200, Some (v_status v))
  | Listing _ | Healthy => Ok (200, None)
  end%Z.

(** The polls of a token over a run of the service: each answers for the table it meets,
    unless the answer is lost on the way. *)
Inductive polled (push : config) (token : str) : time → pushes → list call → time → pushes → list poll → Prop :=
| polled_nil now t cs now' t' : served push now t cs now' t' → polled push token now t cs now' t' []
| polled_answer now t cs now1 t1 cs' now' t' clock ps :
    served push now t cs now1 t1 → polled push token now1 t1 cs' now' t' ps →
    polled push token now t (cs ++ cs') now' t'
      (mk_poll clock (http_answer (do_GET ("/push/poll/"%py ++ token) now1 t1)) :: ps)
| polled_lost now t cs now' t' clock a ps :
    (∀ status s, a ≠ Ok (status, Some s)) → polled push token now t cs now' t' ps →
    polled push token now t cs now' t' (mk_poll clock a :: ps).

Lemma served_app push now t cs now1 t1 cs' now' t' :
  served push now t cs now1 t1 → served push now1 t1 cs' now' t' → served push now t (cs ++ cs') now' t'.
Proof. induction 1; [done|]. intros. cbn. apply served_cons; auto. Qed.

Lemma polled_served push token now t cs now' t' ps :
  polled push token now t cs now' t' ps → served push now t cs now' t'.
Proof. induction 1; [done | by eapply served_app | done]. Qed.

(** The request behind the polls of a token. *)
Definition request_of (token k : str) : Prop :=
  rstrip_char SLASH ("/push/poll/"%py ++ token) = ("/push/poll/"%py ++ k).

Lemma final_approved s : final_status s = Some PushApproved → s = Some "approved"%py.
Proof. destruct s as [s|]; [|done]. cbn. by repeat case_bool_decide; subst. Qed.

Lemma get_answer path now t :
  (∃ v, do_GET path now t = Poll v) ∨ ∃ status, http_answer (do_GET path now t) = Ok (status, None).
Proof.
  unfold do_GET. destruct (after_prefix _ _) as [k|].
  - destruct (get_push k t); [left | right]; by eexists.
  - right. repeat case_bool_decide; by eexists.
Qed.

Lemma poll_approved path now t v : do_GET path now t = Poll v → v_status v = "approved"%py →
  ∃ k r, rstrip_char SLASH path = ("/push/poll/"%py ++ k) ∧ assoc_get k t = Some r ∧ p_status r = Approved.
Proof.
  unfold do_GET, get_push. destruct (after_prefix "/push/poll/"%py _) as [k|] eqn:P; [|by repeat case_bool_decide].
  apply after_prefix_app in P. destruct (assoc_get k t) as [r|] eqn:E; [|done]. intros [= <-] Hv.
  exists k, r. split_and!; [done|done|]. unfold to_view in Hv. cbn in Hv.
  destruct (is_expired now r); [done|]. by destruct (p_status r).
Qed.

Lemma polled_approved push token now t cs now' t' ps deadline :
  polled push token now t cs now' t' ps →
  push_poll_until_decision deadline ps = Some (Ok PushApproved) →
  ∃ k r, request_of token k ∧ assoc_get k t' = Some r ∧ p_status r = Approved.
Proof.
  induction 1 as [|now t cs now1 t1 cs' now' t' clock ps Hs Hp IH|now t cs now' t' clock a ps Ha Hp IH];
    cbn [push_poll_until_decision at_ got]; [done| |].
  - destruct (deadline <=? clock)%Z; [done|].
    destruct (get_answer ("/push/poll/"%py ++ token) now1 t1) as [[v E]|[status ->]].
    2: { destruct ((status =? 0)%Z || _); [done | exact IH]. }
    rewrite E. cbn [http_answer Z.eqb orb]. destruct (final_status _) as [o|] eqn:F; [|exact IH].
    intros [= ->]. apply final_approved in F as [= Hv].
    destruct (poll_approved _ _ _ _ E Hv) as (k&r&Hk&Hr&Ha).
    destruct (served_evolves _ _ _ _ _ _ k r (polled_served _ _ _ _ _ _ _ _ Hp) Hr) as (r'&Hr'&[->|[Hb _]]); [|congruence].
    by exists k, r.
  - destruct (deadline <=? clock)%Z; [done|]. destruct a as [[status [s|]]|e]; [by destruct (Ha status s) | | done].
    destruct ((status =? 0)%Z || _); [done|]. exact IH.
Qed.

(** a pass has a human cause end to end.  When the gateway polls the push service of
    this repository, a passing verdict means that the line submitted is a current code, or
    that the request it polled stands approved in the service's table, by the
    auto-approve list or by an approval of its token served before it expired. *)
Theorem verdict_has_cause unicode_digit cfg w push token now cs now' t' :
  requested w = Ok (201%Z, Some token) →
  polled push token now [] cs now' t' (polls w) →
  verdict unicode_digit cfg w = Some true →
  code_verdict unicode_digit cfg w = true ∨
  ∃ k r, request_of token k ∧ assoc_get k t' = Some r ∧ p_status r = Approved ∧ approved_by push cs k r.
Proof.
  intros Hreq Hp. pose proof (polled_served _ _ _ _ _ _ _ _ Hp) as Hs.
  assert (Hacc : accounted push cs t') by (by apply (accounted_served _ _ _ _ _ _ [] Hs)).
  unfold verdict, push_verdict. destruct (MFA_PUSH_URL cfg) as [|c url]; [intros [= H]; by left|].
  unfold push_request. rewrite Hreq. cbn [exc_bind Z.eqb Pos.eqb].
  destruct token as [|d token]; [intros [= H]; by left|].
  destruct (push_poll_until_decision _ _) as [[[]|e]|] eqn:E; try done; try (intros [= H]; by left).
  intros _. right. destruct (polled_approved _ _ _ _ _ _ _ _ _ Hp E) as (k&r&Hk&Hr&Ha).
  exists k, r. split_and!; [done|done|done|]. by apply (Hacc k r).
Qed.

(** ** A session on concrete inputs *)

Definition no_digits : N → bool := λ _, false.
Definition demo_settings : settings :=
  mk_settings "Vertex Labs" "dev-fabric" false 1 "http://push:8080/" (seconds 20) false.
Definition demo_code : str :=
  match totp_now (demo_bytes (secret_for "alice"%py (Some "dev-fabric"%py) None)) 30 6 (seconds 59) with
  | Ok c => c | Raise _ => []
  end.

(** The push stays pending, the answer to one poll is lost, and the user types a code; the
    channel breaks as the result is shown when [breaks] says so. *)
Definition demo_world (breaks : nat → option exn) : world :=
  mk_world "10.0.0.5" "alice" breaks (λ _, healthy) (λ _, seconds 61)
    (Ok (201%Z, Some "tok"%py)) (seconds 10)
    (mk_poll (seconds 10) (Ok (200%Z, Some "pending"%py)) :: mk_poll (seconds 20) (Ok (500%Z, None))
       :: [mk_poll (seconds 30) (Raise JSONDecodeError)])
    None (seconds 58) [Data (take 3 demo_code); Data (drop 3 demo_code ++ "\r\n"%py)] (seconds 59).

Definition quiet_channel : nat → option exn := λ _, None.
Definition demo_state : state :=
  mk_state {["10.0.0.5.fail"%py := [] ; "10.0.0.50.pass"%py := []]} 0 0 [] [].
Definition demo_after (breaks : nat → option exn) : state :=
  match _run_challenge no_digits demo_settings (demo_world breaks) demo_state with
  | Some (_, g) => g
  | None => demo_state
  end.

Example demo_verdict : verdict no_digits demo_settings (demo_world quiet_channel) = Some true.
Proof. vm_compute. reflexivity. Qed.

Lemma pass_needs_verdict_witness :
  verdict no_digits demo_settings (demo_world quiet_channel) = Some true ∧
  is_Some (decisions (demo_after quiet_channel) !! "10.0.0.5.pass"%py).
Proof.
  assert (Hp : is_Some (decisions (demo_after quiet_channel) !! "10.0.0.5.pass"%py)) by (vm_compute; by eexists).
  split; [|exact Hp].
  apply (pass_needs_verdict no_digits demo_settings (demo_world quiet_channel) demo_state (Ok tt) (demo_after quiet_channel));
    [vm_compute; reflexivity | vm_compute; reflexivity | exact Hp].
Defined.

(** The channel breaks when the success message is written: a failure is recorded. *)
Definition broken_channel : nat → option exn := λ n, if n =? 4 then Some (OSError []) else None.

Lemma demo_literal : Forall literal (source_ip (demo_world broken_channel)).
Proof. by repeat constructor. Qed.

Lemma one_decision_witness :
  ∃ d, decided (demo_world broken_channel) d (decisions demo_state) (decisions (demo_after broken_channel)) ∧
       decisions (demo_after broken_channel) !! "10.0.0.5.fail"%py ≠ None ∧
       decisions (demo_after broken_channel) !! "10.0.0.50.pass"%py = Some [].
Proof.
  destruct (one_decision no_digits demo_settings (demo_world broken_channel) demo_literal (λ _, eq_refl)
              demo_state (Ok tt) (demo_after broken_channel)) as (d&_&Hd); [vm_compute; reflexivity|].
  exists d. split; [exact Hd|]. split; [vm_compute; discriminate | vm_compute; reflexivity].
Defined.

Lemma challenge_refines_verdict_witness :
  ∃ g', _run_challenge no_digits demo_settings (demo_world quiet_channel) demo_state = Some (Ok tt, g') ∧
        exits g' = [0%Z].
Proof.
  pose proof (challenge_refines_verdict no_digits demo_settings (demo_world quiet_channel) demo_literal
                (λ _, eq_refl) (λ _, eq_refl) demo_state) as H.
  rewrite demo_verdict in H. destruct H as (g'&Hg&_&He). exists g'. split; [exact Hg | exact He].
Defined.

Lemma challenge_concludes_witness :
  is_Some (_run_challenge no_digits demo_settings (demo_world broken_channel) demo_state).
Proof.
  apply (challenge_concludes no_digits demo_settings (demo_world broken_channel) (seconds 10) demo_state).
  - vm_compute. reflexivity.
  - vm_compute. repeat split; discriminate.
  - vm_compute. discriminate.
  - discriminate.
Defined.

#[local] Instance ascii_only : Unicode := λ _, false.

Lemma client_address_resolves_witness :
  let t := <[40001%Z := "192.0.2.99"%py]> ∅ in
  _proxy_strip_and_forward "172.16.0.1"%py (header_line "TCP4" "192.0.2.99" "10.0.0.50" 49234 22 ++ "SSH-2.0-x")%py
    Gone (Some 40001%Z) ∅ = (Some (40001%Z, "SSH-2.0-x"%py), t) ∧
  _resolve_real_ip (foldl bridge t [Opened 40002 "198.51.100.7"%py; Closed 40002]) "127.0.0.1"%py 40001 = "192.0.2.99"%py.
Proof.
  pose proof (client_address_resolves "172.16.0.1"%py "TCP4"%py "192.0.2.99"%py "10.0.0.50"%py 49234 22 "SSH-2.0-x"%py
    Gone 40001 ∅ [Opened 40002 "198.51.100.7"%py; Closed 40002]) as H.
  assert (E : _proxy_strip_and_forward "172.16.0.1"%py (header_line "TCP4" "192.0.2.99" "10.0.0.50" 49234 22 ++ "SSH-2.0-x")%py
    Gone (Some 40001%Z) ∅ = (Some (40001%Z, "SSH-2.0-x"%py), <[40001%Z := "192.0.2.99"%py]> ∅)) by (vm_compute; reflexivity).
  cbn zeta. rewrite E in H. split; [exact E|]. apply H.
  - split; [apply (bool_decide_unpack _); vm_compute; exact I | by left].
  - split; [apply (bool_decide_unpack _); vm_compute; exact I | by left].
  - unfold port_ok. lia.
  - unfold port_ok. lia.
  - vm_compute. lia.
  - by repeat constructor.
Defined.

(** The demonstration run of the push service, polled before and after its approval. *)
Definition approved_world : world :=
  mk_world "10.0.0.5" "alice" quiet_channel (λ _, healthy) (λ _, seconds 61)
    (Ok (201%Z, Some "tok"%py)) (seconds 10)
    [mk_poll (seconds 10) (http_answer (do_GET ("/push/poll/" ++ "tok")%py (seconds 10) (demo_table 1)));
     mk_poll (seconds 12) (http_answer (do_GET ("/push/poll/" ++ "tok")%py (seconds 13) (demo_table 3)))]
    None (seconds 58) [] (seconds 59).

Lemma demo_polled :
  polled demo_config "tok"%py (seconds 10) [] demo_calls (seconds 13) (demo_table 3) (polls approved_world).
Proof.
  apply (polled_answer demo_config "tok"%py (seconds 10) [] (take 1 demo_calls) (seconds 10) (demo_table 1) (drop 1 demo_calls)).
  - apply served_cons; [vm_compute; discriminate | reflexivity | apply served_nil].
  - apply (polled_answer demo_config "tok"%py (seconds 10) (demo_table 1) (drop 1 demo_calls) (seconds 13) (demo_table 3) []).
    + repeat (apply served_cons; [vm_compute; discriminate | reflexivity |]). apply served_nil.
    + apply polled_nil, served_nil.
Qed.

Lemma verdict_has_cause_witness :
  ∃ k r, request_of "tok"%py k ∧ approved_by demo_config demo_calls k r.
Proof.
  destruct (verdict_has_cause no_digits demo_settings approved_world demo_config "tok"%py _ _ _ _ eq_refl demo_polled)
    as [H|(k&r&Hk&_&_&Ha)]; [vm_compute; reflexivity | vm_compute in H; discriminate | by exists k, r].
Defined.

(** An address with wildcards, which the header parser accepts, wipes every decision. *)
Example wildcard_wipes :
  (λ r, match r with Some (_, g) => Some (map fst (map_to_list (decisions g))) | None => None end)
    (_write_decision (mk_world "*.*.*.*" "alice" quiet_channel (λ _, healthy) (λ _, 0%Z) (Ok (0%Z, None)) 0%Z [] None 0%Z [] 0%Z)
       FAIL demo_state)
  = Some ["*.*.*.*.fail"%py].
Proof. vm_compute. reflexivity. Qed.
