(* ===== verification/KillQueue.v ===== *)
(** plenith/kill_queue.py: the file of kill requests that operators write and the SSH
    server consumes.

    The file is its typed content, a map from engagement ids to entries; every operation
    reads it, and those that change it write it back whole. *)

From S2P Require Import Prelude PyStr.

Inductive kill_status := KillPending | Killed | KillExpired.
#[export] Instance kill_status_eq_dec : EqDecision kill_status.
Proof. solve_decision. Defined.

Record kill_entry := mk_entry {
  requested_at : time; requested_by : str; reason : str; k_status : kill_status; killed_at : option time
}.


Definition _GC_TTL_SECONDS : Z := 86400.

Definition is_pending (e : kill_entry) : bool := bool_decide (k_status e = KillPending).

(** Whether [_gc] keeps an entry. *)
Definition gc_keeps (now : time) (e : kill_entry) : bool :=
  is_pending e || (now - seconds _GC_TTL_SECONDS <=? default (requested_at e) (killed_at e))%Z.

Definition _gc (now : time) (data : gmap str kill_entry) : gmap str kill_entry :=
  filter (λ kv, gc_keeps now kv.2 = true) data.

Definition or_anonymous (s : str) : str := match s with [] => "anonymous"%py | _ => s end.

Definition request_kill (engagement_id requested_by reason : str) (now : time) (file : gmap str kill_entry)
    : kill_entry * gmap str kill_entry :=
  let data := _gc now file in
  let at_ := match data !! engagement_id with
             | Some existing => if is_pending existing then requested_at existing else now
             | None => now
             end in
  let entry := mk_entry at_ (or_anonymous requested_by) reason KillPending None in
  (entry, <[engagement_id := entry]> data).

Definition cancel (engagement_id : str) (now : time) (file : gmap str kill_entry) : bool * gmap str kill_entry :=
  let data := _gc now file in
  match data !! engagement_id with
  | Some existing => if is_pending existing then (true, delete engagement_id data) else (false, file)
  | None => (false, file)
  end.

Definition mark_killed (engagement_id : str) (now : time) (file : gmap str kill_entry) : bool * gmap str kill_entry :=
  match file !! engagement_id with
  | Some e => (true, <[engagement_id := mk_entry (requested_at e) (requested_by e) (reason e) Killed (Some now)]> file)
  | None => (false, file)
  end.

(** The keys are written sorted. *)
Definition pending (file : gmap str kill_entry) : list str := sorted_keys (filter (λ kv, is_pending kv.2 = true) file).

Definition get (engagement_id : str) (file : gmap str kill_entry) : option kill_entry := file !! engagement_id.

Definition all (now : time) (file : gmap str kill_entry) : gmap str kill_entry := _gc now file.

(** ** Laws *)

Lemma gc_lookup now file k e : _gc now file !! k = Some e ↔ file !! k = Some e ∧ gc_keeps now e = true.
Proof. unfold _gc. by rewrite map_lookup_filter_Some. Qed.

(** Collection never touches a pending request. *)
Lemma gc_pending now file k e : is_pending e = true → _gc now file !! k = Some e ↔ file !! k = Some e.
Proof. intros He. rewrite gc_lookup. unfold gc_keeps. rewrite He. naive_solver. Qed.

Lemma request_pending eid by_ why now file : is_pending (request_kill eid by_ why now file).1 = true.
Proof. unfold request_kill, is_pending. cbn. by apply bool_decide_eq_true. Qed.

(** The entry a request leaves: its time is its own or that of a pending one before it. *)
Lemma request_time eid by_ why now file :
  let e := (request_kill eid by_ why now file).1 in
  requested_at e = now ∨ ∃ e0, file !! eid = Some e0 ∧ is_pending e0 = true ∧ requested_at e = requested_at e0.
Proof.
  cbn. destruct (_gc now file !! eid) as [e0|] eqn:E; [|by left].
  destruct (is_pending e0) eqn:P; [|by left]. right. apply gc_pending in E; eauto.
Qed.

Lemma cancel_lookup eid now file k :
  (cancel eid now file).2 !! k = file !! k ∨
  (cancel eid now file).2 !! k = None.
Proof.
  unfold cancel. destruct (_gc now file !! eid) as [e|] eqn:E; [|by left].
  destruct (is_pending e); [|by left]. cbn [snd]. destruct (decide (k = eid)) as [->|Hne].
  - right. by rewrite lookup_delete_eq.
  - rewrite lookup_delete_ne by done. destruct (_gc now file !! k) as [e'|] eqn:E'; [|by right].
    left. apply gc_lookup in E' as [-> _]. done.
Qed.

Lemma cancel_pending eid now file e : (cancel eid now file).2 !! eid = Some e → is_pending e = false.
Proof.
  unfold cancel. destruct (_gc now file !! eid) as [e0|] eqn:E.
  - destruct (is_pending e0) eqn:P; cbn [snd]; [by rewrite lookup_delete_eq|].
    apply gc_lookup in E as [-> _]. by intros [= <-].
  - cbn [snd]. intros He. destruct (is_pending e) eqn:P; [|done].
    apply (gc_pending now file eid e P) in He. congruence.
Qed.

Lemma mark_lookup eid now file k :
  (mark_killed eid now file).2 !! k = file !! k ∨
  ∃ e, k = eid ∧ (mark_killed eid now file).2 !! k = Some e ∧ is_pending e = false.
Proof.
  unfold mark_killed. destruct (file !! eid) as [e|] eqn:E; [|by left]. cbn [snd].
  destruct (decide (k = eid)) as [->|Hne]; [|left; by rewrite lookup_insert_ne].
  right. eexists. split; [done|]. rewrite lookup_insert_eq. by split.
Qed.
