(* ===== verification/Json.v ===== *)
(** Python values as the modelled code stores and serialises them, and
    [json.dumps(x, sort_keys=True, separators=(",", ":"), default=...)].

    [dumps] goes through [jval], the document that is printed: dictionaries with
    sorted keys, sets as sorted lists, numbers as their literals.  The printed
    text determines the document ([print_inj]). *)

From S2P Require Import Prelude PyStr Float.

(** A Python value: what [json.load] produces, plus sets of strings. *)
Inductive pyval :=
| VNone
| VBool (b : bool)
| VInt (z : Z)
| VFloat (f : flt)
| VStr (s : str)
| VList (l : list pyval)
| VSet (s : gset str)
| VDict (d : list (str * pyval)).

(** [bool(v)]. *)
Definition truthy (v : pyval) : bool :=
  match v with
  | VNone => false
  | VBool b => b
  | VInt z => negb (z =? 0)%Z
  | VFloat f => ftruth f
  | VStr s => negb (bool_decide (s = []))
  | VList l => match l with [] => false | _ => true end
  | VSet s => negb (bool_decide (s = ∅))
  | VDict d => match d with [] => false | _ => true end
  end.

(** ** Documents *)

Inductive jval :=
| JLit (t : str)
| JStr (s : str)
| JArr (l : list jval)
| JObj (l : list (str * jval)).

(** The escape of one character ([ensure_ascii]). *)
Definition hex4 (n : N) : str :=
  let d x := (if x <? 10 then 48 + x else 87 + x)%N in
  [d (n / 4096); d ((n / 256) mod 16); d ((n / 16) mod 16); d (n mod 16)]%N.

Definition u_escape (n : N) : str := 92%N :: 117%N :: hex4 n.

Definition json_char (c : N) : str :=
  (if c =? 34 then [92; 34]
   else if c =? 92 then [92; 92]
   else if c =? 10 then [92; 110]
   else if c =? 13 then [92; 114]
   else if c =? 9 then [92; 116]
   else if c =? 12 then [92; 102]
   else if c =? 8 then [92; 98]
   else if (32 <=? c) && (c <=? 126) then [c]
   else if c <? 65536 then u_escape c
   else u_escape (55296 + (c - 65536) / 1024) ++ u_escape (56320 + (c - 65536) mod 1024))%N.

Definition jstr (s : str) : str := 34%N :: flat_map json_char s ++ [34%N].

Fixpoint print (v : jval) : str :=
  match v with
  | JLit t => t
  | JStr s => jstr s
  | JArr [] => "[]"%py
  | JArr (x :: l) =>
      91%N :: print x ++
        (fix rest (l : list jval) : str :=
           match l with [] => [93%N] | y :: l' => 44%N :: print y ++ rest l' end) l
  | JObj [] => "{}"%py
  | JObj ((k, x) :: l) =>
      123%N :: jstr k ++ 58%N :: print x ++
        (fix rest (l : list (str * jval)) : str :=
           match l with
           | [] => [125%N]
           | (k, y) :: l' => 44%N :: jstr k ++ 58%N :: print y ++ rest l'
           end) l
  end.

(** Insertion of a key in sorted order (keys of a dict are distinct). *)
Fixpoint insert_item {V} (x : str * V) (l : list (str * V)) : list (str * V) :=
  match l with
  | [] => [x]
  | y :: l' => if str_leb x.1 y.1 then x :: l else y :: insert_item x l'
  end.
Definition sort_items {V} (l : list (str * V)) : list (str * V) := foldr insert_item [] l.

(** The document of a value. *)
Fixpoint to_json (v : pyval) : jval :=
  match v with
  | VNone => JLit "null"%py
  | VBool true => JLit "true"%py
  | VBool false => JLit "false"%py
  | VInt z => JLit (str_of_Z z)
  | VFloat f => JLit (float_repr f)
  | VStr s => JStr s
  | VList l => JArr (map to_json l)
  | VSet s => JArr (map JStr (sorted_set s))
  | VDict d => JObj (sort_items (map (λ kv, (kv.1, to_json kv.2)) d))
  end.

(** The document of a dict given as a map. *)
Definition obj_json (d : gmap str pyval) : jval :=
  JObj (map (λ k, (k, default (JLit "null"%py) (to_json <$> d !! k))) (sorted_keys d)).

Definition dumps_obj (d : gmap str pyval) : str := print (obj_json d).

Example dumps_example :
  dumps_obj {[ "b"%py := VList [VInt (-3); VNone; VFloat (lit 1 2)];
               "a"%py := VStr "x\x22\n–"%py;
               "c"%py := VDict [("z"%py, VBool true); ("k"%py, VSet {["q"%py; "p"%py]})] ]}
  = "{\x22a\x22:\x22x\\\x22\\n\\u2013\x22,\x22b\x22:[-3,null,0.5],\x22c\x22:{\x22k\x22:[\x22p\x22,\x22q\x22],\x22z\x22:true}}"%py.
Proof. vm_compute. reflexivity. Qed.

(** ** Unique readability *)

(** In this section [lia] also knows division and remainder. *)
#[local] Ltac Zify.zify_post_hook ::= Z.to_euclidean_division_equations.

(** A Unicode scalar value: what a decoded string holds.  (Lone surrogates, which
    Python strings can hold, are the one case where two strings print alike.) *)
Definition scalar (c : N) : Prop := (c < 55296 ∨ 57344 <= c < 1114112)%N.
Definition wf_str (s : str) : Prop := Forall scalar s.

#[export] Instance wf_str_dec s : Decision (wf_str s).
Proof. unfold wf_str, scalar. apply _. Defined.

Inductive wf_json : jval → Prop :=
| wf_lit t : tok t → wf_json (JLit t)
| wf_jstr s : wf_str s → wf_json (JStr s)
| wf_arr l : Forall wf_json l → wf_json (JArr l)
| wf_obj l : Forall (λ kv, wf_str kv.1 ∧ wf_json kv.2) l → wf_json (JObj l).

Section jval_ind.
Context (P : jval → Prop).
Context (Hlit : ∀ t, P (JLit t)) (Hstr : ∀ s, P (JStr s)).
Context (Harr : ∀ l, Forall P l → P (JArr l)).
Context (Hobj : ∀ l, Forall (λ kv, P kv.2) l → P (JObj l)).

Fixpoint jval_nested_ind (v : jval) : P v :=
  match v with
  | JLit t => Hlit t
  | JStr s => Hstr s
  | JArr l => Harr l ((fix go l : Forall P l :=
      match l with [] => Forall_nil_2 _ | x :: l' => Forall_cons_2 _ _ _ (jval_nested_ind x) (go l') end) l)
  | JObj l => Hobj l ((fix go l : Forall (λ kv, P kv.2) l :=
      match l with [] => Forall_nil_2 _ | x :: l' => Forall_cons_2 _ _ _ (jval_nested_ind x.2) (go l') end) l)
  end.
End jval_ind.

(** The text after a value: the end, or a separator. *)
Definition delim (r : str) : Prop :=
  match r with [] => True | c :: _ => (c = 44 ∨ c = 93 ∨ c = 125)%N end.

Lemma delim_not_tok c r : delim (c :: r) → tok_char c = false.
Proof. intros [-> | [-> | ->]]; reflexivity. Qed.

Lemma tok_unique t t' r r' :
  tok t → tok t' → delim r → delim r' → t ++ r = t' ++ r' → t = t' ∧ r = r'.
Proof.
  intros [_ Ht] [_ Ht'] Hr Hr'. revert t' Ht'.
  induction Ht as [|c t Hc Ht IH]; intros [|d t'] Ht' E; cbn in *; try done.
  - inversion Ht'; subst. by apply delim_not_tok in Hr; congruence.
  - subst. apply delim_not_tok in Hr'. congruence.
  - injection E as -> E. inversion Ht'; subst. destruct (IH t') as [-> ->]; done.
Qed.

(** Reading one escaped character back. *)
Definition unhex (c : N) : N := (if c <? 58 then c - 48 else c - 87)%N.
Definition unhex4 (s : str) : N := foldl (λ a c, a * 16 + unhex c)%N 0%N (take 4 s).

Definition unshort (e : N) : N :=
  (if e =? 110 then 10 else if e =? 114 then 13 else if e =? 116 then 9
   else if e =? 102 then 12 else if e =? 98 then 8 else e)%N.

Definition dec1 (s : str) : option (N * str) :=
  match s with
  | [] => None
  | c :: s1 =>
      if (c =? 34)%N then None
      else if (c =? 92)%N then
        match s1 with
        | [] => None
        | e :: s2 =>
            if (e =? 117)%N then
              let n := unhex4 s2 in
              if (55296 <=? n)%N && (n <? 56320)%N
              then Some (65536 + (n - 55296) * 1024 + (unhex4 (drop 6 s2) - 56320), drop 10 s2)%N
              else Some (n, drop 4 s2)
            else Some (unshort e, s2)
        end
      else Some (c, s1)
  end.

Lemma unhex_digit x : (x < 16)%N → unhex (if x <? 10 then 48 + x else 87 + x)%N = x.
Proof.
  intros H. unfold unhex. destruct (N.ltb_spec x 10).
  - destruct (N.ltb_spec (48 + x) 58); lia.
  - destruct (N.ltb_spec (87 + x) 58); lia.
Qed.

Lemma unhex4_hex4 n r : (n < 65536)%N → unhex4 (hex4 n ++ r) = n.
Proof.
  intros H. unfold unhex4, hex4. cbn [app take foldl].
  rewrite take_0. cbn [foldl]. rewrite !unhex_digit by lia. lia.
Qed.

Lemma dec1_json_char c r : scalar c → dec1 (json_char c ++ r) = Some (c, r).
Proof.
  intros Hs. unfold json_char.
  destruct (N.eqb_spec c 34) as [->|H34]; [done|]. destruct (N.eqb_spec c 92) as [->|H92]; [done|].
  do 5 (match goal with |- context [(c =? ?n)%N] => destruct (N.eqb_spec c n) as [->|?]; [done|] end).
  destruct ((32 <=? c)%N && (c <=? 126)%N).
  { cbn [app dec1]. destruct (N.eqb_spec c 34); [done|]. by destruct (N.eqb_spec c 92). }
  destruct (N.ltb_spec c 65536) as [Hb|Hb].
  - cbn [u_escape app dec1]. cbn [N.eqb Pos.eqb]. rewrite unhex4_hex4 by done.
    assert ((55296 <=? c)%N && (c <? 56320)%N = false) as -> by (destruct Hs; lia). done.
  - assert (c < 1114112)%N as Hc by (destruct Hs; lia).
    rewrite <- app_assoc. cbn [u_escape app dec1]. cbn [N.eqb Pos.eqb].
    set (hi := (55296 + (c - 65536) / 1024)%N). set (lo := (56320 + (c - 65536) mod 1024)%N).
    assert (hi < 56320)%N by (unfold hi; lia). assert (lo < 65536)%N by (unfold lo; lia).
    rewrite unhex4_hex4 by lia.
    assert ((55296 <=? hi)%N && (hi <? 56320)%N = true) as -> by (unfold hi in *; lia).
    replace (drop 6 (hex4 hi ++ 92%N :: 117%N :: hex4 lo ++ r)) with (hex4 lo ++ r) by done.
    replace (drop 10 (hex4 hi ++ 92%N :: 117%N :: hex4 lo ++ r)) with r by done.
    rewrite unhex4_hex4 by lia. do 2 f_equal. unfold hi, lo. lia.
Qed.

Lemma jstr_body_unique s t r r' :
  wf_str s → wf_str t →
  flat_map json_char s ++ 34%N :: r = flat_map json_char t ++ 34%N :: r' → s = t ∧ r = r'.
Proof.
  intros Hs. revert t. induction Hs as [|c s Hc Hs IH]; intros t Ht E; destruct Ht as [|d t Hd Ht];
    cbn [flat_map app] in E; rewrite <- ?app_assoc in E.
  - by injection E.
  - apply (f_equal dec1) in E. by rewrite dec1_json_char in E.
  - apply (f_equal dec1) in E. by rewrite dec1_json_char in E.
  - apply (f_equal dec1) in E. rewrite !dec1_json_char in E by done.
    injection E as -> E. destruct (IH t Ht E) as [-> ->]. done.
Qed.

Lemma jstr_unique s t r r' : wf_str s → wf_str t → jstr s ++ r = jstr t ++ r' → s = t ∧ r = r'.
Proof.
  unfold jstr. cbn [app]. rewrite <- !app_assoc. intros Hs Ht [= E]. by apply jstr_body_unique.
Qed.

(** The tail of a printed array or object, from the second item on. *)
Fixpoint arr_rest (l : list jval) : str :=
  match l with [] => [93%N] | y :: l' => 44%N :: print y ++ arr_rest l' end.
Fixpoint obj_rest (l : list (str * jval)) : str :=
  match l with [] => [125%N] | (k, y) :: l' => 44%N :: jstr k ++ 58%N :: print y ++ obj_rest l' end.

Lemma print_arr x l : print (JArr (x :: l)) = 91%N :: print x ++ arr_rest l.
Proof. done. Qed.
Lemma print_obj k x l : print (JObj ((k, x) :: l)) = 123%N :: jstr k ++ 58%N :: print x ++ obj_rest l.
Proof. done. Qed.

Definition readable (v : jval) : Prop :=
  ∀ w r r', wf_json v → wf_json w → delim r → delim r' → print v ++ r = print w ++ r' → v = w ∧ r = r'.

Lemma delim_arr_rest l r : delim (arr_rest l ++ r).
Proof. destruct l; cbn; auto. Qed.
Lemma delim_obj_rest l r : delim (obj_rest l ++ r).
Proof. destruct l as [|[]]; cbn; auto. Qed.

Lemma arr_rest_unique l l' r r' :
  Forall readable l → Forall wf_json l → Forall wf_json l' →
  arr_rest l ++ r = arr_rest l' ++ r' → l = l' ∧ r = r'.
Proof.
  intros Hl. revert l'. induction Hl as [|x l Hx Hl IH]; intros [|y l'] Hw Hw' E; cbn in E;
    try discriminate; [by injection E|].
  rewrite <- !app_assoc in E. inversion Hw; inversion Hw'; subst. injection E as E.
  destruct (Hx y _ _ ltac:(done) ltac:(done) (delim_arr_rest l r) (delim_arr_rest l' r') E) as [-> E'].
  by destruct (IH l' ltac:(done) ltac:(done) E') as [-> ->].
Qed.

Definition wf_item (kv : str * jval) : Prop := wf_str kv.1 ∧ wf_json kv.2.

Lemma obj_rest_unique l l' r r' :
  Forall (λ kv, readable kv.2) l → Forall wf_item l → Forall wf_item l' →
  obj_rest l ++ r = obj_rest l' ++ r' → l = l' ∧ r = r'.
Proof.
  intros Hl. revert l'. induction Hl as [|[k x] l Hx Hl IH]; intros [|[k' y] l'] Hw Hw' E; cbn in E;
    try discriminate; [by injection E|].
  inversion Hw as [|?? [Hk Hv] ?]; inversion Hw' as [|?? [Hk' Hv'] ?]; subst. cbn in *.
  rewrite <- !app_assoc in E. cbn [app] in E. rewrite <- !app_assoc in E. injection E as E.
  apply jstr_body_unique in E as [-> [= E]]; [|done..].
  destruct (Hx y _ _ Hv Hv' (delim_obj_rest l r) (delim_obj_rest l' r') E) as [-> E'].
  by destruct (IH l' ltac:(done) ltac:(done) E') as [-> ->].
Qed.

(** The first character tells the kind of a document. *)
Lemma print_head v r : wf_json v → ∃ c s, print v ++ r = c :: s ∧
  match v with
  | JLit _ => tok_char c = true
  | JStr _ => c = 34%N
  | JArr _ => c = 91%N
  | JObj _ => c = 123%N
  end.
Proof.
  intros H. destruct H as [t [Ht Hc]|s Hs|[|x l] Hl|[|[k x] l] Hl]; try by repeat eexists.
  destruct Hc as [|c t Hc _]; [done|]. by repeat eexists.
Qed.

Lemma print_kind_ne v w r r' :
  wf_json v → wf_json w → print v ++ r = print w ++ r' →
  match v, w with
  | JLit _, JLit _ | JStr _, JStr _ | JArr _, JArr _ | JObj _, JObj _ => True
  | _, _ => False
  end.
Proof.
  intros Hv Hw E. destruct (print_head v r Hv) as (c & s & Ev & Hc).
  destruct (print_head w r' Hw) as (d & t & Ew & Hd). rewrite Ev, Ew in E. injection E as -> ->.
  destruct v, w; subst; done.
Qed.

Lemma print_readable v : readable v.
Proof.
  induction v as [t|s|l IH|l IH] using jval_nested_ind; intros w r r' Hv Hw Hr Hr' E;
    pose proof (print_kind_ne _ _ _ _ Hv Hw E) as Hk; destruct w as [t'|s'|l'|l']; try done; clear Hk;
    inversion Hv as [?? | ?? | ? Hl | ? Hl]; inversion Hw as [?? | ?? | ? Hl' | ? Hl']; subst.
  - destruct (tok_unique t t' r r') as [-> ->]; done.
  - apply jstr_unique in E as [-> ->]; done.
  - destruct l as [|x l], l' as [|y l']; rewrite ?print_arr in E.
    + by injection E.
    + exfalso. inversion Hl'; subst. destruct (print_head y (arr_rest l' ++ r')) as (c & s & Es & Hc); [done|].
      cbn [print app] in E. rewrite <- app_assoc, Es in E. injection E as <- _. by destruct y.
    + exfalso. inversion Hl; subst. destruct (print_head x (arr_rest l ++ r)) as (c & s & Es & Hc); [done|].
      cbn [print app] in E. rewrite <- app_assoc, Es in E. injection E as -> _. by destruct x.
    + inversion IH; inversion Hl; inversion Hl'; subst. cbn [app] in E. rewrite <- !app_assoc in E.
      injection E as E.
      destruct (H1 y _ _ ltac:(done) ltac:(done) (delim_arr_rest l r) (delim_arr_rest l' r') E) as [-> E'].
      destruct (arr_rest_unique l l' r r') as [-> ->]; done.
  - destruct l as [|[k x] l], l' as [|[k' y] l']; rewrite ?print_obj in E.
    + by injection E.
    + exfalso. cbn in E. discriminate.
    + exfalso. cbn in E. discriminate.
    + inversion IH; inversion Hl as [|?? [Hk Hx] ?]; inversion Hl' as [|?? [Hk' Hy] ?]; subst.
      cbn [fst snd] in *. cbn [app] in E. rewrite <- !app_assoc in E. cbn [app] in E.
      rewrite <- !app_assoc in E. injection E as E. rewrite <- !app_assoc in E.
      apply jstr_body_unique in E as [-> [= E]]; [|done..].
      destruct (H1 y _ _ Hx Hy (delim_obj_rest l r) (delim_obj_rest l' r') E) as [-> E'].
      destruct (obj_rest_unique l l' r r') as [-> ->]; done.
Qed.

(** Two well-formed documents that print alike are the same document. *)
Lemma print_inj v w : wf_json v → wf_json w → print v = print w → v = w.
Proof.
  intros Hv Hw E. destruct (print_readable v w [] [] Hv Hw I I) as [H _]; [|done].
  by rewrite !app_nil_r.
Qed.

(** ** Values whose strings are Unicode text *)

Fixpoint wf_val (v : pyval) : bool :=
  match v with
  | VStr s => bool_decide (wf_str s)
  | VList l => forallb wf_val l
  | VSet s => forallb (λ x, bool_decide (wf_str x)) (elements s)
  | VDict d => forallb (λ kv, bool_decide (wf_str kv.1) && wf_val kv.2) d
  | _ => true
  end.

Definition wf_obj_val (d : gmap str pyval) : bool :=
  forallb (λ kv, bool_decide (wf_str kv.1) && wf_val kv.2) (map_to_list d).

Section pyval_ind.
Context (P : pyval → Prop).
Context (Hnone : P VNone) (Hbool : ∀ b, P (VBool b)) (Hint : ∀ z, P (VInt z)).
Context (Hfloat : ∀ f, P (VFloat f)) (Hstr : ∀ s, P (VStr s)) (Hset : ∀ s, P (VSet s)).
Context (Hlist : ∀ l, Forall P l → P (VList l)).
Context (Hdict : ∀ d, Forall (λ kv, P kv.2) d → P (VDict d)).

Fixpoint pyval_nested_ind (v : pyval) : P v :=
  match v with
  | VNone => Hnone | VBool b => Hbool b | VInt z => Hint z | VFloat f => Hfloat f
  | VStr s => Hstr s | VSet s => Hset s
  | VList l => Hlist l ((fix go l : Forall P l :=
      match l with [] => Forall_nil_2 _ | x :: l' => Forall_cons_2 _ _ _ (pyval_nested_ind x) (go l') end) l)
  | VDict d => Hdict d ((fix go d : Forall (λ kv, P kv.2) d :=
      match d with [] => Forall_nil_2 _ | x :: d' => Forall_cons_2 _ _ _ (pyval_nested_ind x.2) (go d') end) d)
  end.
End pyval_ind.

Lemma insert_item_Forall {V} (P : str * V → Prop) x l : P x → Forall P l → Forall P (insert_item x l).
Proof. intros Hx Hl. induction Hl; cbn [insert_item]; [by repeat constructor|]. case_match; auto. Qed.

Lemma sort_items_Forall {V} (P : str * V → Prop) l : Forall P l → Forall P (sort_items l).
Proof. intros H. induction H; [constructor|]. by apply insert_item_Forall. Qed.

Lemma wf_to_json v : wf_val v = true → wf_json (to_json v).
Proof.
  induction v as [| | | | |s|l IH|d IH] using pyval_nested_ind; cbn; intros H.
  - constructor. split; [done|]. by repeat constructor.
  - destruct b; constructor; (split; [done|]; by repeat constructor).
  - constructor. apply str_of_Z_tok.
  - constructor. apply float_repr_tok.
  - constructor. by apply bool_decide_eq_true in H.
  - constructor. apply Forall_map, Forall_forall. intros x Hx%sorted_set_elem.
    constructor. rewrite forallb_forall in H. apply (bool_decide_eq_true (wf_str x)).
    apply H, list_elem_of_In, elem_of_elements, Hx.
  - constructor. apply Forall_map. induction IH as [|x l Hx _ IHl]; cbn in H; [constructor|].
    apply andb_true_iff in H as [H1 H2]. constructor; auto.
  - constructor. apply sort_items_Forall, Forall_map.
    induction IH as [|x l Hx _ IHl]; cbn in H; [constructor|].
    apply andb_true_iff in H as [[H1 H2]%andb_true_iff H3]. constructor; [|auto].
    split; [by apply bool_decide_eq_true in H1 | auto].
Qed.

Lemma wf_obj_json d : wf_obj_val d = true → wf_json (obj_json d).
Proof.
  intros H. unfold wf_obj_val in H. rewrite forallb_forall in H.
  constructor. apply Forall_map, Forall_forall. intros k Hk%sorted_keys_elem. cbn.
  destruct Hk as [v Hv]. rewrite Hv. cbn.
  specialize (H (k, v)). rewrite <- list_elem_of_In, elem_of_map_to_list in H.
  apply H in Hv as [Hk Hw]%andb_true_iff. split; [by apply bool_decide_eq_true in Hk | by apply wf_to_json].
Qed.

Lemma wf_obj_delete k d : wf_obj_val d = true → wf_obj_val (delete k d) = true.
Proof.
  unfold wf_obj_val. rewrite !forallb_forall. intros H [j v]. rewrite <- list_elem_of_In.
  rewrite elem_of_map_to_list. intros [_ Hv]%lookup_delete_Some. apply H.
  by rewrite <- list_elem_of_In, elem_of_map_to_list.
Qed.

(** The document of a dict determines the document of each of its values. *)
Lemma obj_json_inj a b k : obj_json a = obj_json b → to_json <$> a !! k = to_json <$> b !! k.
Proof.
  unfold obj_json. intros [= H].
  assert (sorted_keys a = sorted_keys b) as Hk.
  { apply (f_equal (map fst)) in H. rewrite !map_map in H. cbn in H. by rewrite !map_id in H. }
  rewrite <- Hk in H.
  assert (∀ j, j ∈ sorted_keys a → default (JLit "null"%py) (to_json <$> a !! j) =
    default (JLit "null"%py) (to_json <$> b !! j)) as Hv.
  { intros j Hj. revert H. generalize (sorted_keys a) as l, Hj.
    induction l as [|x l IH]; intros Hj' E; [by apply not_elem_of_nil in Hj'|].
    cbn in E. injection E as E1 E2. apply elem_of_cons in Hj' as [-> | Hj']; auto. }
  destruct (a !! k) as [v|] eqn:Ea.
  - assert (k ∈ sorted_keys a) as Hka by (apply sorted_keys_elem; eauto).
    pose proof (Hv k Hka) as E. rewrite Ea in E. rewrite Hk in Hka.
    apply sorted_keys_elem in Hka as [w Ew]. rewrite Ew in E |- *. cbn in *. congruence.
  - assert (k ∉ sorted_keys b) as Hkb.
    { rewrite <- Hk, sorted_keys_elem, Ea. by intros []. }
    destruct (b !! k) eqn:Eb; [|done]. destruct Hkb. apply sorted_keys_elem. eauto.
Qed.

(** Unicode dicts that serialise alike have the same documents field by field. *)
Lemma dumps_obj_inj a b k :
  wf_obj_val a = true → wf_obj_val b = true → dumps_obj a = dumps_obj b →
  to_json <$> a !! k = to_json <$> b !! k.
Proof. intros Ha Hb E. apply obj_json_inj, print_inj; [by apply wf_obj_json..|done]. Qed.
