(* ===== verification/OtDecoys.v ===== *)
(** linux-fork/tools/ot_decoys.py: the Modbus/TCP, Siemens S7 and DNP3 speakers.

    A connection handler reads what the peer sends ([input], the rest of the stream),
    writes response frames and logs one event per request.  What it does is an
    [outcome]: the events in order, the frames in order, and how the connection ended. *)

From S2P Require Import Prelude PyStr Hash Struct Float Json.

(** A record of the indicator log, before its timestamp. *)
Definition event := gmap str pyval.

Inductive ending :=
| Eof                     (* IncompleteReadError: the peer stopped sending *)
| Closed                  (* the handler left its loop *)
| Failed (e : exn)        (* an exception, logged as a warning *)
| Running.                (* the model's fuel is used up; never reached *)

Record outcome := mk_outcome { logged : list event; sent : list bytes; ended : ending }.

(** What a request adds in front of what follows. *)
Definition before (evs : list event) (frames : list bytes) (o : outcome) : outcome :=
  mk_outcome (evs ++ logged o) (frames ++ sent o) (ended o).
Definition stop (evs : list event) (e : ending) : outcome := mk_outcome evs [] e.

Definition vint (n : N) : pyval := VInt (Z.of_N n).

Definition note (proto peer what : str) : event :=
  list_to_map [("proto", VStr proto); ("peer", VStr peer); ("event", VStr what)]%py.

(** [finally] of each handler. *)
Definition closing (proto peer : str) (o : outcome) : outcome :=
  mk_outcome (note proto peer "connect"%py :: logged o ++ [note proto peer "disconnect"%py]) (sent o) (ended o).

(** ** Modbus/TCP *)

Definition _MODBUS_HOLDING : list N := [1900; 230; 175; 50; 12345; 0; 1; 0; 0; 0]%N ++ repeat 0%N 246.
Definition _MODBUS_INPUTS : list N := repeat 0%N 256.

(** The frame around a PDU. *)
Definition modbus_frame (tid unit : N) (pdu : bytes) : exc bytes :=
  exc_bind (packs [(2, tid); (2, 0%N); (2, (lenN pdu + 1)%N); (1, unit)]) (λ h, Ok (h ++ pdu)).

Definition _modbus_exception (tid unit function code : N) : exc bytes :=
  exc_bind (packs [(1, N.lor function 128); (1, code)]) (modbus_frame tid unit).

(** The registers of a read, padded with zeros. *)
Definition register_chunk (fn addr count : N) : list N :=
  let regs := if (fn =? 3)%N then _MODBUS_HOLDING else _MODBUS_INPUTS in
  let chunk := slice (N.to_nat addr) (N.to_nat (addr + count)) regs in
  chunk ++ repeat 0%N (N.to_nat count - length chunk).

Definition modbus_event (pdu : bytes) (unit : N) (peer : str) (extra : list (str * pyval)) : event :=
  let fn := byte_at 0 pdu in
  list_to_map (extra ++
    [("proto", VStr "modbus"); ("peer", VStr peer); ("unit_id", vint unit); ("function", vint fn);
     ("function_hex", VStr (hex_byte fn)); ("raw_pdu_len", vint (lenN pdu))])%py.

(** The fields an event gets from the address and count (or value) of a request. *)
Definition modbus_fields (name key : str) (a c : N) : list (str * pyval) :=
  [("function_name", VStr name); ("address", vint a); (key, vint c)]%py.

Definition _modbus_handle_pdu (pdu : bytes) (tid unit : N) (peer : str) : list event * exc bytes :=
  match pdu with
  | [] => ([], _modbus_exception tid unit 0 1)
  | fn :: _ =>
      let addr := u16_at 1 pdu in
      let arg := u16_at 3 pdu in
      let log name key := [modbus_event pdu unit peer (modbus_fields name key addr arg)] in
      if ((fn =? 1) || (fn =? 2))%N && (5 <=? length pdu) then
        (log (if (fn =? 1)%N then "read_coils" else "read_discrete_inputs")%py "count"%py,
         let n_bytes := ((arg + 7) / 8)%N in
         exc_bind (packs [(1, fn); (1, n_bytes)]) (λ h,
           modbus_frame tid unit (h ++ repeat 0%N (N.to_nat n_bytes))))
      else if ((fn =? 3) || (fn =? 4))%N && (5 <=? length pdu) then
        (log (if (fn =? 3)%N then "read_holding" else "read_input")%py "count"%py,
         exc_bind (packs (map (pair 2) (register_chunk fn addr arg))) (λ body,
         exc_bind (packs [(1, fn); (1, lenN body)]) (λ h, modbus_frame tid unit (h ++ body))))
      else if (fn =? 5)%N && (5 <=? length pdu) then
        (log "write_single_coil"%py "value"%py, modbus_frame tid unit pdu)
      else if (fn =? 6)%N && (5 <=? length pdu) then
        (log "write_single_register"%py "value"%py, modbus_frame tid unit pdu)
      else if (fn =? 16)%N && (6 <=? length pdu) then
        (log "write_multiple_registers"%py "count"%py,
         exc_bind (packs [(1, fn); (2, addr); (2, arg)]) (modbus_frame tid unit))
      else
        ([modbus_event pdu unit peer [("function_name", VStr "unknown")]%py],
         _modbus_exception tid unit fn 1)
  end.

(** A request off the stream: transaction, unit and PDU, and what follows. *)
Definition read_modbus (input : bytes) : option (N * N * bytes * bytes) :=
  match readexactly 7 input with
  | None => None
  | Some (header, rest) =>
      match readexactly (N.to_nat (u16_at 4 header) - 1) rest with
      | None => None
      | Some (pdu, rest) => Some (u16_at 0 header, byte_at 6 header, pdu, rest)
      end
  end.

Fixpoint modbus_loop (fuel : nat) (peer : str) (input : bytes) : outcome :=
  match fuel with
  | 0 => stop [] Running
  | S fuel' =>
      match read_modbus input with
      | None => stop [] Eof
      | Some (tid, unit, pdu, rest) =>
          match _modbus_handle_pdu pdu tid unit peer with
          | (evs, Ok resp) => before evs [resp] (modbus_loop fuel' peer rest)
          | (evs, Raise e) => stop evs (Failed e)
          end
      end
  end.

Definition _modbus_handle (peer : str) (input : bytes) : outcome :=
  closing "modbus"%py peer (modbus_loop (S (length input)) peer input).

(** ** Siemens S7 *)

Definition _S7_FUNCTION_NAMES : list (N * str) :=
  [(0, "cpu_services"); (4, "read_var"); (5, "write_var"); (26, "request_download");
   (27, "download_block"); (28, "download_ended"); (29, "start_upload"); (30, "upload");
   (31, "end_upload"); (40, "plc_start"); (41, "plc_stop"); (240, "setup_communication")]%N%py.

Definition _S7_AREA_NAMES : list (N * str) :=
  [(3, "SystemInfo"); (5, "SystemFlags"); (6, "AnalogInputs"); (7, "AnalogOutputs"); (28, "Counter");
   (29, "Timer"); (129, "Inputs"); (130, "Outputs"); (131, "Flags"); (132, "DataBlock");
   (133, "InstanceDB"); (134, "LocalData")]%N%py.

Record s7_item := mk_s7_item { it_area : N; it_count : N }.

Definition s7_item_value (it : s7_item) : pyval :=
  VDict [("area", vint (it_area it));
         ("area_name", VStr (default ("unknown_"%py ++ hex_byte (it_area it))
                               (table_get (it_area it) _S7_AREA_NAMES)));
         ("count", vint (it_count it))]%py.

(** The item descriptors from [offset], at most [n] of them. *)
Fixpoint s7_items (n offset : nat) (s7 : bytes) : list s7_item :=
  match n with
  | 0 => []
  | S n' =>
      if length s7 <? offset + 12 then []
      else let item := slice offset (offset + 12) s7 in
           mk_s7_item (byte_at 8 item) (u16_at 4 item) :: s7_items n' (offset + 12) s7
  end.

Definition COTP_DT : bytes := [2; 240; 128]%N.

(** The COTP and S7 headers of an Ack-Data response up to the error field. *)
Definition s7_header (pdu_ref param_len data_len error_code : N) : exc bytes :=
  exc_bind (packs [(1, 50%N); (1, 3%N); (2, 0%N); (2, pdu_ref); (2, param_len); (2, data_len); (2, error_code)])
    (λ h, Ok (COTP_DT ++ h)).

Definition _s7_build_simple_ack (pdu_ref fn error_code : N) : exc bytes :=
  exc_bind (s7_header pdu_ref 2 0 error_code) (λ h,
  exc_bind (packs [(1, fn); (1, 0%N)]) (λ f, Ok (h ++ f))).

(** The data block of one item: return code, transport size, the byte count in two bytes
    (masked), the zero data, and padding to an even length. *)
Definition s7_item_block (it : s7_item) : bytes :=
  let byte_count := (it_count it * 2)%N in
  [255; 4; N.land (N.shiftr byte_count 8) 255; N.land byte_count 255]%N
  ++ repeat 0%N (N.to_nat byte_count)
  ++ (if (byte_count mod 2 =? 0)%N then [] else [0%N]).

Definition _s7_build_read_var_response (pdu_ref : N) (items : list s7_item) : exc bytes :=
  let data_section := flat_map s7_item_block items in
  let param := [4%N; lenN items] in
  exc_bind (s7_header pdu_ref (lenN param) (lenN data_section) 0) (λ h,
    Ok (h ++ param ++ data_section)).

Definition s7_event (s7 : bytes) (peer : str) (extra : list (str * pyval)) : event :=
  let fn := byte_at 10 s7 in
  list_to_map (extra ++
    [("proto", VStr "s7"); ("peer", VStr peer); ("event", VStr "function"); ("rosctr", vint (byte_at 1 s7));
     ("pdu_ref", vint (u16_at 4 s7)); ("function", vint fn); ("function_hex", VStr (hex_byte fn));
     ("function_name", VStr (default "unknown" (table_get fn _S7_FUNCTION_NAMES)))])%py.

Definition PLC_CONTROL : str :=
  "remote PLC start/stop attempted — would halt or restart the physical process in a real ICS"%py.
Definition BLOCK_TRANSFER : str :=
  "block download/upload attempted — would replace PLC firmware or read sensitive program logic"%py.

(** [None]: malformed. *)
Definition _s7_dispatch_function (body : bytes) (peer : str) : list event * exc (option bytes) :=
  let s7 := drop 3 body in
  if (length body <? 13) || negb (bool_decide (take 3 body = COTP_DT)) then ([], Ok None)
  else if negb (byte_at 0 s7 =? 50)%N then ([], Ok None)
  else if length s7 <? 11 then ([], Ok None)
  else
    let pdu_ref := u16_at 4 s7 in
    let fn := byte_at 10 s7 in
    let ack := exc_bind (_s7_build_simple_ack pdu_ref fn 0) (λ p, Ok (Some p)) in
    if (fn =? 4)%N && (19 <=? length s7) then
      let items := s7_items (N.to_nat (N.min (byte_at 11 s7) 8)) 12 s7 in
      ([s7_event s7 peer [("read_items"%py, VList (map s7_item_value items))]],
       exc_bind (_s7_build_read_var_response pdu_ref items) (λ p, Ok (Some p)))
    else if bool_decide (fn ∈ [40; 41]%N) then
      ([s7_event s7 peer [("security_concern"%py, VStr PLC_CONTROL)]], ack)
    else if bool_decide (fn ∈ [26; 27; 28; 29; 30; 31]%N) then
      ([s7_event s7 peer [("security_concern"%py, VStr BLOCK_TRANSFER)]], ack)
    else ([s7_event s7 peer []], ack).

Definition _S7_TPKT_HEADER : bytes := [3; 0]%N.

Definition tpkt (payload : bytes) : exc bytes :=
  exc_bind (pack 2 (4 + lenN payload)) (λ l, Ok (_S7_TPKT_HEADER ++ l ++ payload)).

(** The next TPKT frame: [inl] when the connection ends there. *)
Definition read_tpkt (input : bytes) : ending + (bytes * bytes) :=
  match readexactly 4 input with
  | None => inl Eof
  | Some (h, rest) =>
      if negb (byte_at 0 h =? 3)%N then inl Closed
      else
        let total_len := N.lor (N.shiftl (byte_at 2 h) 8) (byte_at 3 h) in
        match readexactly (N.to_nat total_len - 4) rest with
        | None => inl Eof
        | Some br => inr br
        end
  end.

Fixpoint s7_loop (fuel : nat) (peer : str) (input : bytes) : outcome :=
  match fuel with
  | 0 => stop [] Running
  | S fuel' =>
      match read_tpkt input with
      | inl e => stop [] e
      | inr (body, rest) =>
          match _s7_dispatch_function body peer with
          | (evs, Raise e) => stop evs (Failed e)
          | (evs, Ok None) => stop evs Closed
          | (evs, Ok (Some payload)) =>
              match tpkt payload with
              | Raise e => stop evs (Failed e)
              | Ok frame => before evs [frame] (s7_loop fuel' peer rest)
              end
          end
      end
  end.

(** The reply to a COTP connection request. *)
Definition cotp_cc (body : bytes) : bytes :=
  [17; 208; 0; 1; 0; 2; 0]%N ++ (if 18 <=? length body then slice 7 18 body else repeat 0%N 11).

Definition is_conn_request (body : bytes) : bool := (2 <=? length body) && (byte_at 1 body =? 224)%N.

Definition _s7_handle (peer : str) (input : bytes) : outcome :=
  closing "s7"%py peer
    match read_tpkt input with
    | inl e => stop [] e
    | inr (body, rest) =>
        let follow := s7_loop (S (length rest)) peer rest in
        if is_conn_request body then
          let ev := <["body_len"%py := vint (lenN body)]> (note "s7" peer "cotp_conn_request")%py in
          match tpkt (cotp_cc body) with
          | Ok frame => before [ev] [frame] follow
          | Raise e => stop [ev] (Failed e)
          end
        else follow
    end.

(** ** DNP3 *)

Definition _DNP3_FUNCTION_NAMES : list (N * str) :=
  [(0, "confirm"); (1, "read"); (2, "write"); (3, "select"); (4, "operate"); (5, "direct_operate");
   (6, "direct_operate_nr"); (7, "immediate_freeze"); (9, "freeze_clear"); (13, "cold_restart");
   (14, "warm_restart"); (15, "initialize_data"); (16, "initialize_application");
   (17, "start_application"); (18, "stop_application"); (19, "save_configuration");
   (20, "enable_unsolicited"); (21, "disable_unsolicited"); (23, "start_appl"); (24, "stop_appl");
   (129, "response"); (130, "unsolicited_response")]%N%py.

Definition _DNP3_OBJECT_GROUPS : list (N * str) :=
  [(1, "Binary Input"); (2, "Binary Input Event"); (10, "Binary Output"); (11, "Binary Output Event");
   (12, "Binary Output Command"); (20, "Counter"); (21, "Frozen Counter"); (30, "Analog Input");
   (32, "Analog Input Event"); (40, "Analog Output Status"); (41, "Analog Output");
   (50, "Time and Date"); (60, "Class Data"); (80, "Internal Indications");
   (110, "Octet String Object")]%N%py.

Definition _DNP3_DANGEROUS_FUNCS : list (N * str) :=
  [(4, "OPERATE — actual relay flip on a real RTU"); (5, "DIRECT_OPERATE — no SELECT pre-step");
   (6, "DIRECT_OPERATE_NR — no response requested"); (13, "COLD_RESTART — full device reboot");
   (14, "WARM_RESTART"); (18, "STOP_APPL — halt the device application");
   (24, "STOP_APPL — alias variant")]%N%py.

Record dnp3_object := mk_dnp3_object { ob_group : N; ob_variation : N; ob_qualifier : N }.

(** The walk over the object headers: at [i], with [n] objects found; [fuel] bounds the
    rounds. *)
Fixpoint dnp3_walk (fuel n i : nat) (payload : bytes) : list dnp3_object :=
  match fuel with
  | 0 => []
  | S fuel' =>
      if (i + 3 <=? length payload) && (n <? 10)
      then mk_dnp3_object (byte_at i payload) (byte_at (i + 1) payload) (byte_at (i + 2) payload)
             :: dnp3_walk fuel' (S n) (i + 3 + 8) payload
      else []
  end.

Definition _dnp3_parse_objects (payload : bytes) : list dnp3_object := dnp3_walk 11 0 0 payload.

Definition dnp3_object_value (o : dnp3_object) : pyval :=
  VDict [("group", vint (ob_group o)); ("variation", vint (ob_variation o));
         ("qualifier", vint (ob_qualifier o));
         ("group_name", VStr (default ("unknown_g" ++ str_of_Z (Z.of_N (ob_group o)))
                                (table_get (ob_group o) _DNP3_OBJECT_GROUPS)))]%py.

(** A request: the data-link header's fields and the payload without its checksum. *)
Record dnp3_request := mk_dnp3_request {
  dq_length : N; dq_ctrl : N; dq_dst : N; dq_src : N; dq_app : bytes
}.

(** [lo | (hi << 8)]. *)
Definition u16_le (lo hi : N) : N := N.lor lo (N.shiftl hi 8).

Definition dnp3_event (peer : str) (q : dnp3_request) : event :=
  let app := dq_app q in
  let func := byte_at 2 app in
  let base := [("proto", VStr "dnp3"); ("peer", VStr peer); ("event", VStr "request");
               ("length", vint (dq_length q)); ("ctrl", vint (dq_ctrl q)); ("dst", vint (dq_dst q));
               ("src", vint (dq_src q))]%py in
  let parsed :=
    if 3 <=? length app then
      [("app_ctrl", vint (byte_at 1 app)); ("function", vint func); ("function_hex", VStr (hex_byte func));
       ("function_name", VStr (default "unknown" (table_get func _DNP3_FUNCTION_NAMES)))]%py
      ++ match table_get func _DNP3_DANGEROUS_FUNCS with
         | Some why => [("security_concern"%py, VStr why)]
         | None => []
         end
      ++ (if bool_decide (func ∈ [1; 2; 4; 5; 6]%N)
          then [("objects"%py, VList (map dnp3_object_value (_dnp3_parse_objects (drop 3 app))))]
          else [])
    else [] in
  list_to_map (base ++ parsed).

(** The response: addresses swapped, function RESPONSE, no objects. *)
Definition dnp3_response (q : dnp3_request) : bytes :=
  let app := dq_app q in
  let resp_app := [(if 2 <=? length app then byte_at 1 app else 192%N); 129%N; 0%N; 0%N] in
  let resp_payload := (match app with [] => 192%N | th :: _ => th end) :: resp_app in
  [5; 100; lenN resp_payload + 5; 196;
   N.land (dq_src q) 255; N.land (N.shiftr (dq_src q) 8) 255;
   N.land (dq_dst q) 255; N.land (N.shiftr (dq_dst q) 8) 255; 0; 0]%N
  ++ resp_payload ++ [0; 0]%N.

(** The next frame: [inl] when the connection ends there. *)
Definition read_dnp3 (input : bytes) : ending + (dnp3_request * bytes) :=
  match readexactly 2 input with
  | None => inl Eof
  | Some (sync, rest) =>
      if negb (bool_decide (sync = [5; 100]%N)) then inl Closed
      else
        match readexactly 8 rest with
        | None => inl Eof
        | Some (header, rest) =>
            let length_ := byte_at 0 header in
            match readexactly (N.to_nat length_ - 5 + 2) rest with
            | None => inl Eof
            | Some (payload, rest) =>
                inr (mk_dnp3_request length_ (byte_at 1 header)
                       (u16_le (byte_at 2 header) (byte_at 3 header))
                       (u16_le (byte_at 4 header) (byte_at 5 header))
                       (take (length payload - 2) payload), rest)
            end
        end
  end.

Fixpoint dnp3_loop (fuel : nat) (peer : str) (input : bytes) : outcome :=
  match fuel with
  | 0 => stop [] Running
  | S fuel' =>
      match read_dnp3 input with
      | inl e => stop [] e
      | inr (q, rest) => before [dnp3_event peer q] [dnp3_response q] (dnp3_loop fuel' peer rest)
      end
  end.

Definition _dnp3_handle (peer : str) (input : bytes) : outcome :=
  closing "dnp3"%py peer (dnp3_loop (S (length input)) peer input).
