(* ===== verification/OtProps.v ===== *)
(** Properties of the industrial decoys: every frame they send parses back, requests and
    responses stay in step over a whole connection, the loops end, and which requests
    make a handler fail. *)

From S2P Require Import Prelude PyStr Hash Struct Float Json OtDecoys.

(** ** Modbus frames *)

Definition mbap (tid len unit : N) : bytes := be_bytes 2 tid ++ [0; 0]%N ++ be_bytes 2 len ++ [unit].

Lemma modbus_frame_ok tid unit pdu :
  (tid < 65536)%N → (unit < 256)%N → (lenN pdu + 1 < 65536)%N →
  modbus_frame tid unit pdu = Ok (mbap tid (lenN pdu + 1) unit ++ pdu).
Proof.
  intros Ht Hu Hl. unfold modbus_frame. rewrite packs_ok by solve_fits.
  cbn [flat_map fst snd exc_bind]. do 2 f_equal.
  rewrite be_bytes_1, app_nil_r by done. reflexivity.
Qed.

Lemma read_mbap tid len unit rest : (tid < 65536)%N → (len < 65536)%N →
  read_modbus (mbap tid len unit ++ rest) =
    match readexactly (N.to_nat len - 1) rest with
    | Some (pdu, rest) => Some (tid, unit, pdu, rest)
    | None => None
    end.
Proof.
  intros Ht Hl. unfold read_modbus.
  rewrite readexactly_app' by (unfold mbap; by rewrite !length_app, !be_bytes_length).
  assert (u16_at 4 (mbap tid len unit) = len) as ->.
  { unfold mbap. rewrite app_assoc, u16_at_app by done. by apply u16_be. }
  assert (u16_at 0 (mbap tid len unit) = tid) as -> by by apply u16_be.
  assert (byte_at 6 (mbap tid len unit) = unit) as ->; [|done].
  unfold mbap. rewrite app_assoc, app_assoc. by apply byte_at_app.
Qed.

(** Any frame a PDU is put in is read back as that PDU. *)
Lemma read_modbus_frame tid unit pdu rest :
  (tid < 65536)%N → (lenN pdu + 1 < 65536)%N →
  read_modbus ((mbap tid (lenN pdu + 1) unit ++ pdu) ++ rest) = Some (tid, unit, pdu, rest).
Proof.
  intros Ht Hl. rewrite <- app_assoc, read_mbap by done.
  rewrite readexactly_app' by (unfold lenN; lia). done.
Qed.

Lemma register_chunk_length fn addr count : length (register_chunk fn addr count) = N.to_nat count.
Proof.
  unfold register_chunk. set (regs := if (fn =? 3)%N then _ else _).
  rewrite length_app, repeat_length. unfold slice. rewrite length_take. lia.
Qed.

Lemma register_chunk_fits fn addr count : Forall fits (map (pair 2) (register_chunk fn addr count)).
Proof.
  assert (Forall (λ v, v < 65536)%N _MODBUS_HOLDING) as H1
    by (apply (bool_decide_unpack _); vm_compute; exact I).
  assert (Forall (λ v, v < 65536)%N _MODBUS_INPUTS) as H2
    by (apply (bool_decide_unpack _); vm_compute; exact I).
  apply Forall_map. unfold register_chunk. apply Forall_app. split.
  - apply Forall_take, Forall_drop. destruct (fn =? 3)%N; [exact H1 | exact H2].
  - apply Forall_forall. intros x Hx%list_elem_of_In%repeat_spec. subst x. reflexivity.
Qed.

Lemma flat_map_length_const {A} (f : A → bytes) n l :
  (∀ x, length (f x) = n) → length (flat_map f l) = n * length l.
Proof. intros H. induction l as [|x l IH]; cbn; [lia|]. rewrite length_app, IH, H. lia. Qed.

(** A read that asks for more data than the one-byte count of the response can say. *)
Definition oversized (pdu : bytes) : Prop :=
  let fn := byte_at 0 pdu in
  let count := u16_at 3 pdu in
  5 ≤ length pdu ∧
  (((fn = 1 ∨ fn = 2) ∧ 2040 < count) ∨ ((fn = 3 ∨ fn = 4) ∧ 127 < count))%N.

(** What the protocol asks for in answer to a PDU. *)
Definition modbus_answer (pdu : bytes) : bytes :=
  match pdu with
  | [] => [128; 1]%N
  | fn :: _ =>
      let count := u16_at 3 pdu in
      let full := 5 <=? length pdu in
      if ((fn =? 1) || (fn =? 2))%N && full then
        [fn; (count + 7) / 8]%N ++ repeat 0%N (N.to_nat ((count + 7) / 8))
      else if ((fn =? 3) || (fn =? 4))%N && full then
        [fn; 2 * count]%N ++ flat_map (be_bytes 2) (register_chunk fn (u16_at 1 pdu) count)
      else if ((fn =? 5) || (fn =? 6))%N && full then pdu
      else if (fn =? 16)%N && (6 <=? length pdu) then fn :: slice 1 5 pdu
      else [N.lor fn 128; 1]%N
  end.

Lemma modbus_exception_ok tid unit fn : (tid < 65536)%N → (unit < 256)%N → (fn < 256)%N →
  _modbus_exception tid unit fn 1 = Ok (mbap tid 3 unit ++ [N.lor fn 128; 1]%N).
Proof.
  intros Ht Hu Hf. assert (N.lor fn 128 < 256)%N as Hl.
  { destruct (N.eq_dec (N.lor fn 128) 0) as [->|Hn]; [done|]. change 256%N with (2 ^ 8)%N.
    apply N.log2_lt_pow2; [lia|]. rewrite N.log2_lor. change (N.log2 128) with 7%N.
    destruct (N.eq_dec fn 0) as [->|]; [done|].
    assert (N.log2 fn < 8)%N by (apply N.log2_lt_pow2; [lia | exact Hf]). lia. }
  unfold _modbus_exception. rewrite packs_ok by solve_fits. cbn [exc_bind flat_map fst snd].
  rewrite !be_bytes_1 by done. by apply modbus_frame_ok.
Qed.

Lemma flat_map_pair2 l : flat_map (λ f, be_bytes f.1 f.2) (map (pair 2) l) = flat_map (be_bytes 2) l.
Proof. induction l as [|x l IH]; [done|]. cbn [map flat_map fst snd]. by rewrite IH. Qed.

Lemma registers_length l : lenN (flat_map (be_bytes 2) l) = (2 * lenN l)%N.
Proof. unfold lenN. rewrite (flat_map_length_const _ 2) by (intros; apply be_bytes_length). lia. Qed.

(** The second case of a read: [n] is the number of data bytes. *)
Lemma sized_reply tid unit fn n body : (tid < 65536)%N → (unit < 256)%N → (fn < 256)%N → lenN body = n →
  exc_bind (packs [(1, fn); (1, n)]) (λ h, modbus_frame tid unit (h ++ body))
  = if (n <? 256)%N then Ok (mbap tid (n + 3) unit ++ [fn; n] ++ body) else Raise StructError.
Proof.
  intros Ht Hu Hf Hn. destruct (N.ltb_spec n 256).
  - rewrite packs_ok by solve_fits. cbn [exc_bind flat_map fst snd]. rewrite !be_bytes_1 by done.
    cbn [app]. rewrite modbus_frame_ok by (unfold lenN in *; cbn [length]; lia).
    do 3 f_equal. unfold lenN in *. cbn [length]. lia.
  - destruct (packs_inv [(1, fn); (1, n)]) as [[_ HF]|[-> _]]; [|done].
    apply Forall_cons in HF as [_ [HF _]%Forall_cons]. unfold fits in HF. cbn in HF. lia.
Qed.

Lemma echo_fields pdu fn : is_bytes pdu → 6 ≤ length pdu → (fn < 256)%N →
  packs [(1, fn); (2, u16_at 1 pdu); (2, u16_at 3 pdu)] = Ok (fn :: slice 1 5 pdu).
Proof.
  intros Hb Hl Hf. pose proof (u16_range 1 pdu Hb). pose proof (u16_range 3 pdu Hb).
  rewrite packs_ok by solve_fits. cbn [flat_map fst snd]. rewrite be_bytes_1 by done.
  unfold u16_at. rewrite !be_bytes_num; [|by apply slice_bytes | | by apply slice_bytes |];
    [|unfold slice; rewrite length_take, length_drop; lia..].
  rewrite app_nil_r. cbn [app Nat.add]. by rewrite slice_app by lia.
Qed.

Lemma coil_bytes c : ((c + 7) / 8 < 256 ↔ c <= 2040)%N.
Proof. pose proof (N.div_mod (c + 7) 8). pose proof (N.mod_lt (c + 7) 8). lia. Qed.

(** The whole dispatcher against the reference. *)
Lemma modbus_pdu_spec pdu tid unit peer :
  is_bytes pdu → (tid < 65536)%N → (unit < 256)%N → (lenN pdu + 1 < 65536)%N →
  let r := (_modbus_handle_pdu pdu tid unit peer).2 in
  let ans := modbus_answer pdu in
  (oversized pdu ∧ r = Raise StructError) ∨
  (¬ oversized pdu ∧ r = Ok (mbap tid (lenN ans + 1) unit ++ ans) ∧ (lenN ans + 1 < 65536)%N ∧
   (byte_at 0 ans = byte_at 0 pdu ∨ byte_at 0 ans = N.lor (byte_at 0 pdu) 128)).
Proof.
  intros Hb Ht Hu Hl. cbv zeta. unfold oversized, modbus_answer, _modbus_handle_pdu.
  destruct pdu as [|fn pdu'] eqn:E.
  { right. split; [cbn; lia|]. rewrite modbus_exception_ok by done. split_and!; [done|done|by right]. }
  rewrite <- E in *. assert (fn < 256)%N as Hf by (subst; by inversion Hb).
  assert (byte_at 0 pdu = fn) as E0 by by subst. rewrite E0.
  pose proof (u16_range 1 pdu Hb) as Ha. pose proof (u16_range 3 pdu Hb) as Hc.
  destruct (((fn =? 1) || (fn =? 2))%N && (5 <=? length pdu)) eqn:C1.
  { cbn [snd]. rewrite sized_reply by (try done; unfold lenN; rewrite repeat_length; lia).
    destruct (N.ltb_spec ((u16_at 3 pdu + 7) / 8) 256).
    - right. split; [|split_and!].
      + rewrite coil_bytes in *. intros (_ & [[_ ?]|[? _]]); lia.
      + do 3 f_equal. unfold lenN. cbn [app length]. rewrite repeat_length. lia.
      + unfold lenN. cbn [app length]. rewrite repeat_length. lia.
      + by left.
    - left. split; [|done]. split; [lia|]. left. split; [lia|].
      pose proof (coil_bytes (u16_at 3 pdu)). lia. }
  destruct (((fn =? 3) || (fn =? 4))%N && (5 <=? length pdu)) eqn:C2.
  { cbn [snd]. rewrite packs_ok by apply register_chunk_fits. cbn [exc_bind]. rewrite flat_map_pair2.
    assert (lenN (flat_map (be_bytes 2) (register_chunk fn (u16_at 1 pdu) (u16_at 3 pdu))) = 2 * u16_at 3 pdu)%N
      as Er by (rewrite registers_length; unfold lenN; rewrite register_chunk_length; lia).
    rewrite sized_reply by done. rewrite Er. destruct (N.ltb_spec (2 * u16_at 3 pdu) 256).
    - right. split; [|split_and!].
      + intros (_ & [[? _]|[_ ?]]); lia.
      + do 3 f_equal. unfold lenN in *. cbn [app length]. lia.
      + unfold lenN in *. cbn [app length]. lia.
      + by left.
    - left. split; [|done]. split; [lia|]. right. lia. }
  right. split; [intros (? & [[? ?]|[? ?]]); lia|].
  destruct (((fn =? 5) || (fn =? 6))%N && (5 <=? length pdu)) eqn:C3.
  { split_and!; [|done|by left]. revert C3. destruct (fn =? 5)%N eqn:?, (fn =? 6)%N eqn:?, (5 <=? length pdu) eqn:?;
      try done; intros _; cbn [snd andb]; by apply modbus_frame_ok. }
  assert ((fn =? 5)%N && (5 <=? length pdu) = false) as -> by lia.
  assert ((fn =? 6)%N && (5 <=? length pdu) = false) as -> by lia.
  destruct ((fn =? 16)%N && (6 <=? length pdu)) eqn:C4; cbn [snd].
  - rewrite echo_fields by lia || done. cbn [exc_bind].
    assert (lenN (fn :: slice 1 5 pdu) + 1 < 65536)%N as Hs.
    { unfold lenN, slice. cbn [length]. rewrite length_take. lia. }
    split_and!; [by apply modbus_frame_ok | done | by left].
  - split_and!; [by apply modbus_exception_ok | done | by right].
Qed.

(** ** A Modbus connection *)

Record request := mk_request { rq_tid : N; rq_unit : N; rq_pdu : bytes }.

Definition frame_of (tid unit : N) (pdu : bytes) : bytes := mbap tid (lenN pdu + 1) unit ++ pdu.
Definition request_frame (q : request) : bytes := frame_of (rq_tid q) (rq_unit q) (rq_pdu q).
Definition answer_frame (q : request) : bytes := frame_of (rq_tid q) (rq_unit q) (modbus_answer (rq_pdu q)).

Definition valid_request (q : request) : Prop :=
  (rq_tid q < 65536)%N ∧ (rq_unit q < 256)%N ∧ is_bytes (rq_pdu q) ∧ (lenN (rq_pdu q) + 1 < 65536)%N.

(** One valid request in front of the stream. *)
Lemma modbus_step n peer q rest : valid_request q →
  let r := modbus_loop (S n) peer (request_frame q ++ rest) in
  let evs := (_modbus_handle_pdu (rq_pdu q) (rq_tid q) (rq_unit q) peer).1 in
  (oversized (rq_pdu q) ∧ r = stop evs (Failed StructError)) ∨
  (¬ oversized (rq_pdu q) ∧ r = before evs [answer_frame q] (modbus_loop n peer rest)).
Proof.
  intros (Ht & Hu & Hb & Hl). cbv zeta. cbn [modbus_loop]. unfold request_frame, frame_of.
  rewrite read_modbus_frame by done.
  destruct (modbus_pdu_spec (rq_pdu q) (rq_tid q) (rq_unit q) peer) as [[Ho E]|(Ho & E & _ & _)]; [done..| |];
    [left|right]; (split; [done|]); destruct (_modbus_handle_pdu _ _ _ _) as [evs r]; cbn [snd fst] in *; by subst r.
Qed.

Lemma before_fields evs fs o :
  sent (before evs fs o) = fs ++ sent o ∧ ended (before evs fs o) = ended o ∧
  logged (before evs fs o) = evs ++ logged o.
Proof. done. Qed.

Lemma request_frame_length q : 7 ≤ length (request_frame q).
Proof. unfold request_frame, frame_of, mbap. rewrite !length_app, !be_bytes_length. cbn. lia. Qed.

Lemma modbus_loop_requests reqs peer rest n : Forall valid_request reqs →
  Forall (λ q, ¬ oversized (rq_pdu q)) reqs →
  length (flat_map request_frame reqs ++ rest) < n →
  ∃ m evs, length rest < m ∧
    modbus_loop n peer (flat_map request_frame reqs ++ rest)
    = before evs (map answer_frame reqs) (modbus_loop m peer rest).
Proof.
  intros Hv. revert n. induction Hv as [|q reqs Hq _ IH]; intros n Ho Hn.
  { exists n, []. split; [done|]. cbn. by destruct (modbus_loop _ _ _). }
  apply Forall_cons in Ho as [Hq' Ho]. destruct n as [|n]; [lia|].
  cbn [flat_map] in *. rewrite <- app_assoc in *. rewrite length_app in Hn.
  pose proof (request_frame_length q).
  destruct (modbus_step n peer q (flat_map request_frame reqs ++ rest) Hq) as [[? _]|[_ ->]]; [done|].
  destruct (IH n Ho) as (m & evs & Hm & ->); [lia|]. eexists m, _. split; [done|].
  unfold before. cbn [logged sent ended map app]. by rewrite app_assoc.
Qed.

(** C31: a Modbus client stays in step with the decoy.  For any sequence of well-formed
    requests that ask for no more than fits, cut off anywhere after them, the decoy
    sends exactly one frame per request, in order, each with the request's transaction
    and unit and the answer the protocol asks for, and stops when the client does. *)
Theorem modbus_session peer reqs tail :
  Forall valid_request reqs → Forall (λ q, ¬ oversized (rq_pdu q)) reqs → read_modbus tail = None →
  let o := _modbus_handle peer (flat_map request_frame reqs ++ tail) in
  ended o = Eof ∧ sent o = map answer_frame reqs ∧
  Forall2 (λ q f, read_modbus f = Some (rq_tid q, rq_unit q, modbus_answer (rq_pdu q), [])) reqs (sent o).
Proof.
  intros Hv Ho Ht. cbv zeta. unfold _modbus_handle, closing. cbn [sent ended].
  destruct (modbus_loop_requests reqs peer tail _ Hv Ho (Nat.lt_succ_diag_r _)) as (m & evs & Hm & ->).
  destruct m as [|m]; [lia|]. cbn [modbus_loop]. rewrite Ht. cbn [before sent ended stop].
  rewrite app_nil_r. split_and!; [done..|]. apply Forall2_fmap_r, Forall_Forall2_diag.
  clear -Hv Ho. induction Hv as [|q reqs (Hq1 & Hq2 & Hq3 & Hq4) _ IH]; [constructor|].
  apply Forall_cons in Ho as [Hoq Ho]. constructor; [|by apply IH].
  destruct (modbus_pdu_spec (rq_pdu q) (rq_tid q) (rq_unit q) []) as [[? _]|(_ & _ & Hl & _)]; [done..|].
  pose proof (read_modbus_frame (rq_tid q) (rq_unit q) (modbus_answer (rq_pdu q)) [] Hq1 Hl) as E.
  rewrite app_nil_r in E. exact E.
Qed.

(** which requests make the decoy drop the connection.  A well-formed request
    ends the connection with [struct.error], unanswered but logged, exactly when it
    reads more than 2040 bits or 127 registers: the byte count of the response does
    not fit its one-byte field, and nothing checks the count before packing it. *)
Theorem modbus_oversized_drops peer reqs q rest :
  Forall valid_request reqs → Forall (λ q, ¬ oversized (rq_pdu q)) reqs → valid_request q →
  let o := _modbus_handle peer (flat_map request_frame reqs ++ request_frame q ++ rest) in
  oversized (rq_pdu q) ↔ ended o = Failed StructError ∧ sent o = map answer_frame reqs.
Proof.
  intros Hv Ho Hq. cbv zeta. unfold _modbus_handle, closing. cbn [sent ended].
  destruct (modbus_loop_requests reqs peer (request_frame q ++ rest) _ Hv Ho (Nat.lt_succ_diag_r _))
    as (m & evs & Hm & ->).
  destruct m as [|m]; [lia|].
  destruct (modbus_step m peer q rest Hq) as [[Hov ->]|[Hov ->]]; cbn [before sent ended stop].
  - rewrite app_nil_r. by split.
  - split; [done|]. intros [_ E]. apply (f_equal length) in E.
    rewrite length_app in E. cbn [length app] in E. lia.
Qed.

(** ** Termination *)

Lemma read_modbus_shorter i t u p r : read_modbus i = Some (t, u, p, r) → length r < length i.
Proof.
  unfold read_modbus. destruct (readexactly 7 i) as [[h i1]|] eqn:E1; [|done].
  destruct (readexactly _ i1) as [[p' i2]|] eqn:E2; [|done]. intros [= <- <- <- <-].
  apply readexactly_spec in E1 as [-> H1], E2 as [-> H2]. rewrite !length_app. lia.
Qed.

Lemma read_tpkt_shorter i b r : read_tpkt i = inr (b, r) → length r < length i.
Proof.
  unfold read_tpkt. destruct (readexactly 4 i) as [[h i1]|] eqn:E1; [|done].
  destruct (negb _); [done|]. destruct (readexactly _ i1) as [[p' i2]|] eqn:E2; [|done].
  intros [= <- <-]. apply readexactly_spec in E1 as [-> H1], E2 as [-> H2]. rewrite !length_app. lia.
Qed.

Lemma read_dnp3_shorter i q r : read_dnp3 i = inr (q, r) → length r < length i.
Proof.
  unfold read_dnp3. destruct (readexactly 2 i) as [[h i1]|] eqn:E1; [|done].
  destruct (negb _); [done|]. destruct (readexactly 8 i1) as [[h' i2]|] eqn:E2; [|done].
  destruct (readexactly _ i2) as [[p' i3]|] eqn:E3; [|done].
  intros [= <- <-]. apply readexactly_spec in E1 as [-> H1], E2 as [-> H2], E3 as [-> H3].
  rewrite !length_app. lia.
Qed.

Lemma read_tpkt_ends i e : read_tpkt i = inl e → e ≠ Running.
Proof.
  unfold read_tpkt. destruct (readexactly 4 i) as [[h i1]|]; [|congruence].
  destruct (negb _); [congruence|]. destruct (readexactly _ i1) as [[]|]; congruence.
Qed.

Lemma read_dnp3_ends i e : read_dnp3 i = inl e → e ≠ Running.
Proof.
  unfold read_dnp3. destruct (readexactly 2 i) as [[h i1]|]; [|congruence].
  destruct (negb _); [congruence|]. destruct (readexactly 8 i1) as [[h' i2]|]; [|congruence].
  destruct (readexactly _ i2) as [[]|]; congruence.
Qed.

Lemma modbus_loop_ends n peer i : length i < n → ended (modbus_loop n peer i) ≠ Running.
Proof.
  revert i. induction n as [|n IH]; intros i Hn; [lia|]. cbn [modbus_loop].
  destruct (read_modbus i) as [[[[t u] p] r]|] eqn:E; [|done]. apply read_modbus_shorter in E.
  destruct (_modbus_handle_pdu p t u peer) as [evs [f|e]]; [|done]. apply IH. lia.
Qed.

Lemma s7_loop_ends n peer i : length i < n → ended (s7_loop n peer i) ≠ Running.
Proof.
  revert i. induction n as [|n IH]; intros i Hn; [lia|]. cbn [s7_loop].
  destruct (read_tpkt i) as [e|[b r]] eqn:E; [by eapply read_tpkt_ends|]. apply read_tpkt_shorter in E.
  destruct (_s7_dispatch_function b peer) as [evs [[p|]|e]]; [|done..].
  destruct (tpkt p); [|done]. apply IH. lia.
Qed.

Lemma dnp3_loop_ends n peer i : length i < n → ended (dnp3_loop n peer i) ≠ Running.
Proof.
  revert i. induction n as [|n IH]; intros i Hn; [lia|]. cbn [dnp3_loop].
  destruct (read_dnp3 i) as [e|[q r]] eqn:E; [by eapply read_dnp3_ends|]. apply read_dnp3_shorter in E.
  apply IH. lia.
Qed.

(** More fuel finds no more objects: the walk stops by itself within eleven rounds. *)
Lemma dnp3_walk_fuel k n i payload : k ≤ 10 →
  dnp3_walk (S k + n) (10 - k) i payload = dnp3_walk (S k) (10 - k) i payload.
Proof.
  revert i. induction k as [|k IH]; intros i Hk; cbn [dnp3_walk Nat.add].
  - by rewrite andb_false_r.
  - destruct (_ && _); [|done]. f_equal. replace (S (10 - S k)) with (10 - k) by lia.
    apply (IH (i + 3 + 8)). lia.
Qed.

(** every connection to a decoy ends.  Whatever bytes the peer sends, each of the
    three handlers gets to the end of the stream, closes, or fails: no input keeps it
    in its loop once the peer stops sending; nor does a payload keep the walk over
    DNP3 object headers going. *)
Theorem decoys_terminate peer input :
  ended (_modbus_handle peer input) ≠ Running ∧ ended (_s7_handle peer input) ≠ Running ∧
  ended (_dnp3_handle peer input) ≠ Running ∧
  ∀ n payload, dnp3_walk (11 + n) 0 0 payload = _dnp3_parse_objects payload.
Proof.
  split_and!; [..|intros n payload; exact (dnp3_walk_fuel 10 n 0 payload (le_n _))]; unfold _modbus_handle, _s7_handle, _dnp3_handle, closing; cbn [ended].
  - by apply modbus_loop_ends, Nat.lt_succ_diag_r.
  - destruct (read_tpkt input) as [e|[b r]] eqn:E; [by eapply read_tpkt_ends|].
    pose proof (s7_loop_ends (S (length r)) peer r (Nat.lt_succ_diag_r _)) as Hl.
    destruct (is_conn_request b); [|exact Hl]. by destruct (tpkt _).
  - by apply dnp3_loop_ends, Nat.lt_succ_diag_r.
Qed.

(** ** S7 responses *)

(** A reader of Ack-Data responses: PDU reference, function, the data section. *)
Definition s7_decode (p : bytes) : option (N * N * bytes) :=
  let plen := N.to_nat (u16_at 9 p) in
  let dlen := N.to_nat (u16_at 11 p) in
  if bool_decide (take 5 p = COTP_DT ++ [50; 3]%N) && (length p =? 15 + plen + dlen)
  then Some (u16_at 7 p, byte_at 15 p, drop (15 + plen) p)
  else None.

(** A reader of [n] data blocks: the number of data bytes of each. *)
Fixpoint decode_blocks (n : nat) (data : bytes) : option (list N) :=
  match n with
  | 0 => match data with [] => Some [] | _ => None end
  | S n' =>
      match data with
      | 255%N :: 4%N :: hi :: lo :: rest =>
          let size := (hi * 256 + lo)%N in
          match readexactly (N.to_nat size) rest with
          | Some (_, rest) => cons size <$> decode_blocks n' rest
          | None => None
          end
      | _ => None
      end
  end.

Definition s7_hdr (pdu_ref plen dlen : N) : bytes :=
  [2; 240; 128; 50; 3; 0; 0]%N ++ be_bytes 2 pdu_ref ++ be_bytes 2 plen ++ be_bytes 2 dlen ++ [0; 0]%N.

Lemma s7_header_inv pdu_ref plen dlen h : s7_header pdu_ref plen dlen 0 = Ok h →
  h = s7_hdr pdu_ref plen dlen ∧ (plen < 65536)%N ∧ (dlen < 65536)%N.
Proof.
  unfold s7_header. intros (r & Hr & E)%exc_bind_ok. apply packs_ok_inv in Hr as [-> HF].
  injection E as <-. split; [reflexivity|].
  do 4 apply Forall_cons in HF as [_ HF].
  apply Forall_cons in HF as [Hp [Hd _]%Forall_cons]. by split.
Qed.

Lemma s7_hdr_decode pdu_ref plen dlen param data :
  (pdu_ref < 65536)%N → (plen < 65536)%N → (dlen < 65536)%N → lenN param = plen → lenN data = dlen → param ≠ [] →
  s7_decode (s7_hdr pdu_ref plen dlen ++ param ++ data) = Some (pdu_ref, byte_at 0 param, data).
Proof.
  intros Hr Hp Hd Ep Ed Hne. unfold s7_decode. set (p := _ ++ param ++ data).
  assert (length (s7_hdr pdu_ref plen dlen) = 15) as Hl15 by done.
  assert (u16_at 7 p = pdu_ref) as ->.
  { unfold p, s7_hdr. rewrite <- app_assoc, u16_at_app by done. by rewrite <- app_assoc, u16_be. }
  assert (u16_at 9 p = plen) as ->.
  { unfold p, s7_hdr. rewrite (app_assoc _ (be_bytes 2 pdu_ref)), <- app_assoc, u16_at_app by done.
    by rewrite <- app_assoc, u16_be. }
  assert (u16_at 11 p = dlen) as ->.
  { unfold p, s7_hdr. rewrite (app_assoc _ (be_bytes 2 pdu_ref)), (app_assoc _ (be_bytes 2 plen)).
    rewrite <- app_assoc, u16_at_app by done. by rewrite <- app_assoc, u16_be. }
  assert (length p = 15 + N.to_nat plen + N.to_nat dlen) as ->.
  { unfold p. rewrite !length_app, Hl15. unfold lenN in *. lia. }
  rewrite (bool_decide_eq_true_2 (take 5 p = _)) by done. rewrite Nat.eqb_refl. cbn [andb].
  assert (byte_at 15 p = byte_at 0 param) as ->.
  { unfold p, byte_at. rewrite app_nth2 by (rewrite Hl15; lia). rewrite Hl15, Nat.sub_diag.
    by destruct param. }
  do 2 f_equal. unfold p. rewrite app_assoc. apply drop_app_length'.
  rewrite length_app, Hl15. unfold lenN in *. lia.
Qed.

Lemma decode_blocks_items items :
  (lenN (flat_map s7_item_block items) < 65536)%N →
  decode_blocks (length items) (flat_map s7_item_block items) = Some (map (λ it, 2 * it_count it)%N items).
Proof.
  induction items as [|it items IH]; [done|]. cbn [flat_map length]. intros Hl.
  unfold lenN in Hl. rewrite length_app in Hl.
  unfold s7_item_block at 1 in Hl. rewrite !length_app, repeat_length in Hl.
  cbn [length] in Hl. unfold s7_item_block at 1.
  set (size := (it_count it * 2)%N) in *.
  assert ((size mod 2 =? 0)%N = true) as ->.
  { unfold size. apply N.eqb_eq. apply N.Div0.mod_mul. }
  rewrite app_nil_r. cbn [app decode_blocks].
  assert (N.land (N.shiftr size 8) 255 * 256 + N.land size 255 = size)%N as ->.
  { rewrite !land255, N.shiftr_div_pow2. change (2 ^ 8)%N with 256%N.
    rewrite (N.mod_small (size / 256)) by (apply N.Div0.div_lt_upper_bound; lia).
    pose proof (N.div_mod size 256). lia. }
  rewrite readexactly_app' by by rewrite repeat_length.
  rewrite IH by (unfold lenN; lia). cbn [fmap option_fmap option_map map].
  do 2 f_equal. unfold size. lia.
Qed.

Lemma read_tpkt_frame p frame rest : tpkt p = Ok frame → read_tpkt (frame ++ rest) = inr (p, rest).
Proof.
  unfold tpkt. intros (l & Hl & E)%exc_bind_ok. injection E as <-.
  destruct (pack_inv 2 (4 + lenN p) _ eq_refl) as [[E Hf]|[E _]]; rewrite E in Hl; [|done].
  injection Hl as <-. unfold fits in Hf. cbn in Hf. unfold read_tpkt.
  set (n := (4 + lenN p)%N) in *.
  cbn [app]. change (3%N :: 0%N :: ?a :: ?b :: p ++ rest) with ([3%N; 0%N; a; b] ++ (p ++ rest)).
  rewrite readexactly_app' by done. cbn [byte_at nth N.eqb Pos.eqb negb].
  rewrite lor_shiftl by by apply N.mod_lt.
  assert ((n / 256) mod 256 * 256 + n mod 256 = n)%N as ->.
  { rewrite (N.mod_small (n / 256)) by (apply N.Div0.div_lt_upper_bound; lia).
    pose proof (N.div_mod n 256). lia. }
  by rewrite readexactly_app' by (unfold n, lenN; lia).
Qed.

Lemma s7_items_bound n off s7 : length (s7_items n off s7) ≤ n.
Proof.
  revert off. induction n as [|n IH]; intros off; cbn [s7_items]; [done|].
  destruct (_ <? _); cbn [length]; [lia|]. specialize (IH (off + 12)). lia.
Qed.

(** The items a request asks to read, as the handler parses them. *)
Definition requested_items (body : bytes) : list s7_item :=
  let s7 := drop 3 body in
  if (byte_at 10 s7 =? 4)%N && (19 <=? length s7)
  then s7_items (N.to_nat (N.min (byte_at 11 s7) 8)) 12 s7 else [].

Lemma simple_ack_decode pdu_ref fn p : (pdu_ref < 65536)%N → (fn < 256)%N →
  _s7_build_simple_ack pdu_ref fn 0 = Ok p → s7_decode p = Some (pdu_ref, fn, []).
Proof.
  intros Hr Hf (h & (-> & _ & _)%s7_header_inv & E)%exc_bind_ok.
  rewrite packs_ok in E by solve_fits. cbn [exc_bind flat_map fst snd] in E.
  rewrite !be_bytes_1 in E by done. injection E as <-.
  exact (s7_hdr_decode pdu_ref 2 0 [fn; 0%N] [] Hr eq_refl eq_refl eq_refl eq_refl ltac:(done)).
Qed.

(** every S7 response is well formed.  For every request answered, the frame
    written carries its exact length; the response decodes to the request's reference
    and function; a read gets one block per requested item (at most eight), each
    with twice the requested word count of data bytes; everything else gets none. *)
Theorem s7_reply_decodes body peer p frame rest :
  is_bytes body → (_s7_dispatch_function body peer).2 = Ok (Some p) → tpkt p = Ok frame →
  let s7 := drop 3 body in
  read_tpkt (frame ++ rest) = inr (p, rest) ∧
  length (requested_items body) ≤ 8 ∧
  ∃ data, s7_decode p = Some (u16_at 4 s7, byte_at 10 s7, data) ∧
    decode_blocks (length (requested_items body)) data
    = Some (map (λ it, 2 * it_count it)%N (requested_items body)).
Proof.
  intros Hb Hd Ht. cbv zeta. split; [by apply read_tpkt_frame|].
  assert (length (requested_items body) ≤ 8) as H8.
  { unfold requested_items. destruct (_ && _); [|cbn; lia]. etransitivity; [apply s7_items_bound|]. lia. }
  split; [done|]. revert Hd. unfold _s7_dispatch_function.
  destruct (_ || _); [done|]. destruct (negb _); [done|]. destruct (_ <? 11); [done|].
  assert (is_bytes (drop 3 body)) as Hs by by apply Forall_drop.
  pose proof (u16_range 4 _ Hs) as Hr. pose proof (byte_at_range 10 _ Hs) as Hf. unfold requested_items in *.
  destruct ((byte_at 10 (drop 3 body) =? 4)%N && (19 <=? length (drop 3 body))) eqn:C.
  - cbn [snd]. intros (q & (h & (-> & Hp & Hl)%s7_header_inv & E)%exc_bind_ok & E')%exc_bind_ok.
    set (items := s7_items _ _ _) in *. apply andb_true_iff in C as [->%N.eqb_eq _].
    assert (q = p) as -> by congruence. injection E as <-.
    eexists. split.
    + apply (s7_hdr_decode _ _ _ [4%N; lenN items] _ Hr Hp Hl eq_refl eq_refl). done.
    + by apply decode_blocks_items.
  - assert (∀ evs : list event, (evs, exc_bind (_s7_build_simple_ack (u16_at 4 (drop 3 body))
      (byte_at 10 (drop 3 body)) 0) (λ q, Ok (Some q))).2 = Ok (Some p) →
      ∃ data, s7_decode p = Some (u16_at 4 (drop 3 body), byte_at 10 (drop 3 body), data) ∧
        decode_blocks 0 data = Some []) as HA.
    { intros evs (q & Hq & E)%exc_bind_ok. assert (q = p) as -> by congruence.
      exists []. split; [by apply simple_ack_decode | done]. }
    destruct (bool_decide _); [apply HA|]. destruct (bool_decide _); apply HA.
Qed.

(** ** DNP3 responses *)

Lemma u16_le_split x : (x < 65536)%N → u16_le (N.land x 255) (N.land (N.shiftr x 8) 255) = x.
Proof. apply u16_split. Qed.

(** The payload of a response: transport octet, control octet, RESPONSE, no indications. *)
Definition dnp3_reply_app (q : dnp3_request) : bytes :=
  [match dq_app q with [] => 192 | th :: _ => th end;
   if (2 <=? length (dq_app q))%nat then byte_at 1 (dq_app q) else 192; 129; 0; 0]%N.

Lemma read_dnp3_response q rest : (dq_src q < 65536)%N → (dq_dst q < 65536)%N →
  read_dnp3 (dnp3_response q ++ rest)
  = inr (mk_dnp3_request 10 196 (dq_src q) (dq_dst q) (dnp3_reply_app q), rest).
Proof.
  intros Hs Hd. unfold dnp3_response, dnp3_reply_app. cbn [app].
  set (th := match dq_app q with [] => 192%N | th :: _ => th end).
  set (c := if 2 <=? length (dq_app q) then _ else _).
  unfold read_dnp3, readexactly. cbn [length Nat.leb take drop].
  rewrite bool_decide_eq_true_2 by done. cbn [negb byte_at nth].
  cbn [lenN length N.of_nat Pos.of_succ_nat Pos.succ N.add Pos.add N.to_nat Pos.to_nat].
  rewrite !u16_le_split by done. reflexivity.
Qed.

Lemma read_dnp3_fields i q rest : is_bytes i → read_dnp3 i = inr (q, rest) →
  (dq_src q < 65536)%N ∧ (dq_dst q < 65536)%N ∧ is_bytes rest.
Proof.
  assert (∀ lo hi, (lo < 256)%N → (hi < 256)%N → (u16_le lo hi < 65536)%N) as Hu.
  { intros lo hi Hl Hh. unfold u16_le. rewrite N.lor_comm, lor_shiftl by done. lia. }
  intros Hi. unfold read_dnp3. destruct (readexactly 2 i) as [[s i1]|] eqn:E1; [|done].
  destruct (negb _); [done|]. destruct (readexactly 8 i1) as [[h i2]|] eqn:E2; [|done].
  destruct (readexactly _ i2) as [[p i3]|] eqn:E3; [|done]. intros [= <- <-].
  apply readexactly_spec in E1 as [-> _], E2 as [-> _], E3 as [-> _].
  apply Forall_app in Hi as [_ Hi]. apply Forall_app in Hi as [Hh Hi]. apply Forall_app in Hi as [_ Hi].
  cbn [dq_src dq_dst]. split_and!; [apply Hu; by apply byte_at_range.. | done].
Qed.

(** The requests of a stream, in order. *)
Inductive dnp3_stream : bytes → list dnp3_request → ending → Prop :=
| stream_end i e : read_dnp3 i = inl e → dnp3_stream i [] e
| stream_next i q r qs e : read_dnp3 i = inr (q, r) → dnp3_stream r qs e → dnp3_stream i (q :: qs) e.

Lemma dnp3_loop_stream n peer i : length i < n →
  ∃ qs, dnp3_stream i qs (ended (dnp3_loop n peer i)) ∧
    sent (dnp3_loop n peer i) = map dnp3_response qs ∧
    logged (dnp3_loop n peer i) = map (dnp3_event peer) qs.
Proof.
  revert i. induction n as [|n IH]; intros i Hn; [lia|]. cbn [dnp3_loop].
  destruct (read_dnp3 i) as [e|[q r]] eqn:E.
  - exists []. split_and!; [by constructor | done..].
  - pose proof (read_dnp3_shorter _ _ _ E). destruct (IH r) as (qs & Hs & H1 & H2); [lia|].
    exists (q :: qs). cbn [before sent ended logged map app]. rewrite H1, H2.
    split_and!; [by econstructor | done..].
Qed.

(** a DNP3 scan gets one reply per request.  On any stream of bytes the decoy sends
    one frame for each request it parses, in order, and logs each; read back, the
    frame is a complete RESPONSE from the request's destination to its source. *)
Theorem dnp3_session peer input :
  is_bytes input →
  let o := _dnp3_handle peer input in
  ∃ qs, dnp3_stream input qs (ended o) ∧
    logged o = note "dnp3" peer "connect"%py :: map (dnp3_event peer) qs ++ [note "dnp3" peer "disconnect"]%py ∧
    Forall2 (λ q f, ∀ rest, read_dnp3 (f ++ rest)
      = inr (mk_dnp3_request 10 196 (dq_src q) (dq_dst q) (dnp3_reply_app q), rest)) qs (sent o).
Proof.
  intros Hi. cbv zeta. unfold _dnp3_handle, closing. cbn [ended logged sent].
  destruct (dnp3_loop_stream (S (length input)) peer input (Nat.lt_succ_diag_r _)) as (qs & Hs & Hf & Hl).
  exists qs. split_and!; [exact Hs | by rewrite Hl|]. rewrite Hf. apply Forall2_fmap_r, Forall_Forall2_diag.
  clear Hf Hl. induction Hs as [|i q r qs e E _ IH]; [constructor|].
  destruct (read_dnp3_fields _ _ _ Hi E) as (H1 & H2 & H3).
  constructor; [intros rest; by apply read_dnp3_response | by apply IH].
Qed.

(** ** Witnesses *)

Ltac ranges := repeat split; first [reflexivity | by apply (bool_decide_unpack _); vm_compute | cbn; lia].

Definition scan : list request :=
  [mk_request 1 255 [3; 0; 0; 0; 3]; mk_request 2 255 [5; 0; 16; 255; 0]; mk_request 3 255 [43; 14; 1; 0]]%N.

Lemma scan_valid : Forall valid_request scan ∧ Forall (λ q, ¬ oversized (rq_pdu q)) scan.
Proof.
  split.
  - unfold scan. repeat (apply List.Forall_cons; [ranges|]). apply List.Forall_nil.
  - unfold scan. repeat (apply List.Forall_cons; [intros [_ H]; vm_compute in H; naive_solver|]). apply List.Forall_nil.
Qed.

Lemma modbus_session_witness :
  sent (_modbus_handle "10.0.0.9:4000"%py (flat_map request_frame scan ++ [0; 9]%N))
  = [[0; 1; 0; 0; 0; 9; 255; 3; 6; 7; 108; 0; 230; 0; 175]; [0; 2; 0; 0; 0; 6; 255; 5; 0; 16; 255; 0];
     [0; 3; 0; 0; 0; 3; 255; 171; 1]]%N.
Proof.
  destruct (modbus_session "10.0.0.9:4000"%py scan [0; 9]%N (proj1 scan_valid) (proj2 scan_valid) eq_refl)
    as (_ & E & _).
  etransitivity; [exact E|]. vm_compute. reflexivity.
Defined.

Definition greedy : request := mk_request 7 1 [3; 0; 0; 0; 200]%N.

Lemma modbus_oversized_drops_witness :
  ended (_modbus_handle []%N (flat_map request_frame scan ++ request_frame greedy ++ [])) = Failed StructError ∧
  oversized (rq_pdu greedy).
Proof.
  assert (oversized (rq_pdu greedy)) as Ho by (split; [cbn; lia | right; split; [by left | reflexivity]]).
  split; [|exact Ho].
  refine (proj1 (proj1 (modbus_oversized_drops [] scan greedy [] (proj1 scan_valid) (proj2 scan_valid) _) Ho)).
  ranges.
Defined.

Definition read_two : bytes :=
  [2; 240; 128; 50; 1; 0; 0; 18; 52; 0; 26; 0; 0; 4; 2;
   18; 10; 16; 2; 0; 2; 0; 1; 132; 0; 0; 0; 18; 10; 16; 2; 0; 1; 0; 0; 131; 0; 0; 8]%N.

Lemma s7_reply_decodes_witness :
  match (_s7_dispatch_function read_two []).2 with
  | Ok (Some p) => s7_decode p = Some (4660, 4, [255; 4; 0; 4; 0; 0; 0; 0; 255; 4; 0; 2; 0; 0])%N
  | _ => False
  end.
Proof.
  destruct (_s7_dispatch_function read_two []).2 as [[p|]|e] eqn:E; [|vm_compute in E; discriminate..].
  destruct (tpkt p) as [frame|e] eqn:Et.
  - destruct (s7_reply_decodes read_two [] p frame [] ltac:(by apply (bool_decide_unpack _); vm_compute) E Et)
      as (_ & _ & data & H & _).
    rewrite H. vm_compute in E. injection E as <-. vm_compute in H. injection H as <-. vm_compute. reflexivity.
  - vm_compute in E. injection E as <-. vm_compute in Et. discriminate.
Defined.

Definition cold_restart : bytes := [5; 100; 8; 196; 1; 0; 3; 0; 0; 0; 192; 193; 13; 0; 0]%N.

Lemma dnp3_session_witness :
  sent (_dnp3_handle [] cold_restart) = [[5; 100; 10; 196; 3; 0; 1; 0; 0; 0; 192; 193; 129; 0; 0; 0; 0]]%N ∧
  length (logged (_dnp3_handle [] cold_restart)) = 3.
Proof.
  split; [vm_compute; reflexivity|].
  destruct (dnp3_session [] cold_restart ltac:(by apply (bool_decide_unpack _); vm_compute)) as (qs & Hs & -> & HF).
  cbn [length]. rewrite length_app, length_map. apply Forall2_length in HF. rewrite HF. vm_compute. reflexivity.
Defined.
