(* ===== verification/AuditChain.v ===== *)
(** plenith/audit_chain.py: the hash-chained engagement log.

    An entry is a dict from field names to values; the hash of an entry is the
    SHA-256 of its canonical JSON.  Hashes are hexadecimal strings, as on disk. *)

From S2P Require Import Prelude PyStr Hash Float Json.

Abbreviation entry := (gmap str pyval).

Definition GENESIS_HASH : str := repeat 48%N 64.

(** [hashlib.sha256(blob.encode("utf-8")).hexdigest()]. *)
Definition digest (blob : str) : str := hexdigest (sha256 (encode blob)).

(** The fields that are hashed: all but [entry_hash]. *)
Definition body (payload : entry) : entry := delete "entry_hash"%py payload.

Definition canonical_hash (payload : entry) : str := digest (dumps_obj (body payload)).

(** ** Building the chain *)

Definition chain_entry (e : entry) (prev_hash : str) : entry :=
  let out := <["prev_hash"%py := VStr prev_hash]> e in
  <["entry_hash"%py := VStr (canonical_hash out)]> out.

Definition str_field (k : str) (e : entry) : str :=
  match e !! k with Some (VStr s) => s | _ => [] end.

Fixpoint chain_actions (starting_from : str) (actions : list entry) : list entry :=
  match actions with
  | [] => []
  | a :: rest =>
      let chained := chain_entry a starting_from in
      chained :: chain_actions (str_field "entry_hash"%py chained) rest
  end.

(** The [entry_hash] of the last entry; an absent or falsy one raises. *)
Definition chain_tip (actions : list entry) : exc pyval :=
  match last actions with
  | None => Ok (VStr GENESIS_HASH)
  | Some a =>
      match a !! "entry_hash"%py with
      | Some v => if truthy v then Ok v
                  else Raise (ValueError "last action has no entry_hash"%py)
      | None => Raise (ValueError "last action has no entry_hash"%py)
      end
  end.

(** ** Verification *)

Record ChainResult := mk_result {
  cr_ok : bool;
  cr_length : nat;
  cr_tip : str;
  cr_legacy : bool;
  cr_break_at : option nat;
  cr_reason : option str;
}.

(** [v == s] for a value of the log and a hash. *)
Definition eq_str (v : pyval) (s : str) : bool :=
  match v with VStr t => bool_decide (t = s) | _ => false end.

Definition has_key (k : str) (a : entry) : bool := bool_decide (is_Some (a !! k)).

Definition broken (n i : nat) (prev reason : str) : ChainResult :=
  mk_result false n prev false (Some i) (Some reason).

(** The loop over the entries: the result of the first bad entry, or the hash of
    the last one. *)
Fixpoint verify_loop (n i : nat) (prev : str) (actions : list entry) : ChainResult + str :=
  match actions with
  | [] => inr prev
  | a :: rest =>
      match a !! "prev_hash"%py, a !! "entry_hash"%py with
      | None, _ => inl (broken n i prev "missing_prev_hash"%py)
      | _, None => inl (broken n i prev "missing_entry_hash"%py)
      | Some p, Some h =>
          if negb (eq_str p prev) then inl (broken n i prev "prev_hash_mismatch"%py)
          else if negb (eq_str h (canonical_hash a))
               then inl (broken n i prev "entry_hash_mismatch"%py)
               else verify_loop n (S i) (canonical_hash a) rest
      end
  end.

Definition verify_chain (actions : list entry) (expected_tip : pyval) : ChainResult :=
  let n := length actions in
  match actions with
  | [] =>
      match expected_tip with
      | VNone => mk_result true 0 GENESIS_HASH false None None
      | _ => if eq_str expected_tip GENESIS_HASH
             then mk_result true 0 GENESIS_HASH false None None
             else mk_result false 0 GENESIS_HASH false None (Some "empty_chain_but_tip_claimed"%py)
      end
  | _ =>
      if negb (existsb (λ a, has_key "entry_hash"%py a || has_key "prev_hash"%py a) actions)
      then mk_result true n GENESIS_HASH true None None
      else match verify_loop n 0 GENESIS_HASH actions with
           | inl r => r
           | inr prev =>
               match expected_tip with
               | VNone => mk_result true n prev false None None
               | _ => if eq_str expected_tip prev
                      then mk_result true n prev false None None
                      else mk_result false n prev false None
                             (Some "chain_tip_mismatch_truncation_suspected"%py)
               end
           end
  end.

(** ** Sessions *)

(** A session dict: its [actions_taken], when present, and its other fields. *)
Record session_dict := mk_session_dict {
  actions_taken : option (list entry);
  sd_fields : gmap str pyval;
}.

Definition strip_chain (a : entry) : entry :=
  delete "entry_hash"%py (delete "prev_hash"%py a).

Definition stamp_session_chain (sd : session_dict) : exc session_dict :=
  let stripped := map strip_chain (default [] (actions_taken sd)) in
  let chained := chain_actions GENESIS_HASH stripped in
  match chain_tip chained with
  | Raise e => Raise e
  | Ok tip =>
      Ok (mk_session_dict (Some chained)
            (<["chain_version"%py := VInt 1]>
            (<["chain_length"%py := VInt (Z.of_nat (length chained))]>
            (<["chain_tip"%py := tip]> (sd_fields sd)))))
  end.

Definition verify_session (sd : session_dict) : ChainResult :=
  verify_chain (default [] (actions_taken sd)) (default VNone (sd_fields sd !! "chain_tip"%py)).

(** ** Lemmas *)

Lemma eq_str_true v s : eq_str v s = true ↔ v = VStr s.
Proof. destruct v; cbn; rewrite ?bool_decide_eq_true; naive_solver. Qed.

Lemma GENESIS_HASH_ne : GENESIS_HASH ≠ [].
Proof. done. Qed.

Lemma digest_length blob : length (digest blob) = 64.
Proof. unfold digest. by rewrite hexdigest_length, sha256_length. Qed.

Lemma digest_ne blob : digest blob ≠ [].
Proof. intros H. pose proof (digest_length blob) as Hl. by rewrite H in Hl. Qed.

Lemma canonical_hash_chain e p :
  canonical_hash (chain_entry e p) = canonical_hash (<["prev_hash"%py := VStr p]> e).
Proof. unfold chain_entry, canonical_hash, body. by rewrite delete_insert_eq. Qed.

Lemma chain_entry_prev e p : chain_entry e p !! "prev_hash"%py = Some (VStr p).
Proof. unfold chain_entry. rewrite lookup_insert_ne by key_ne. by rewrite lookup_insert_eq. Qed.

Lemma chain_entry_hash e p :
  chain_entry e p !! "entry_hash"%py = Some (VStr (canonical_hash (chain_entry e p))).
Proof. rewrite canonical_hash_chain. unfold chain_entry. by rewrite lookup_insert_eq. Qed.

Lemma str_field_entry_hash e p :
  str_field "entry_hash"%py (chain_entry e p) = canonical_hash (chain_entry e p).
Proof. unfold str_field. by rewrite chain_entry_hash. Qed.

Lemma chain_actions_length p acts : length (chain_actions p acts) = length acts.
Proof. revert p. induction acts as [|a acts IH]; intros p; cbn; auto. Qed.

(** The hash the chain ends with. *)
Fixpoint tip_from (p : str) (acts : list entry) : str :=
  match acts with [] => p | a :: rest => tip_from (canonical_hash (chain_entry a p)) rest end.

Lemma verify_loop_chained n i p acts :
  verify_loop n i p (chain_actions p acts) = inr (tip_from p acts).
Proof.
  revert i p. induction acts as [|a acts IH]; intros i p; [done|].
  cbn [chain_actions verify_loop tip_from].
  rewrite chain_entry_prev, chain_entry_hash, str_field_entry_hash. cbn [eq_str].
  rewrite !bool_decide_eq_true_2 by done. cbn [negb]. apply IH.
Qed.

Lemma chain_tip_chained p acts :
  chain_tip (chain_actions p acts) =
    Ok (VStr (match acts with [] => GENESIS_HASH | _ => tip_from p acts end)).
Proof.
  destruct acts as [|a acts]; [done|]. revert p a.
  induction acts as [|b acts IH]; intros p a.
  - cbn [chain_actions chain_tip last tip_from]. rewrite chain_entry_hash. cbn [truthy].
    rewrite bool_decide_eq_false_2; [done | apply digest_ne].
  - specialize (IH (str_field "entry_hash"%py (chain_entry a p)) b).
    cbn [chain_actions] in IH |- *. unfold chain_tip in *. cbn [last] in *. rewrite IH.
    by rewrite str_field_entry_hash.
Qed.

Lemma chained_has_fields p a acts :
  existsb (λ a, has_key "entry_hash"%py a || has_key "prev_hash"%py a) (chain_actions p (a :: acts)) = true.
Proof.
  cbn [chain_actions existsb]. unfold has_key at 1. rewrite chain_entry_hash.
  rewrite bool_decide_eq_true_2 by eauto. done.
Qed.

Lemma verify_chained acts :
  let c := chain_actions GENESIS_HASH acts in
  verify_chain c (VStr (tip_from GENESIS_HASH acts)) =
    mk_result true (length acts) (tip_from GENESIS_HASH acts) false None None.
Proof.
  cbn zeta. destruct acts as [|a acts].
  - cbn [chain_actions verify_chain tip_from eq_str]. by rewrite bool_decide_eq_true_2.
  - unfold verify_chain. rewrite chained_has_fields, verify_loop_chained, chain_actions_length.
    cbn [negb chain_actions eq_str]. by rewrite bool_decide_eq_true_2.
Qed.

Lemma verify_loop_snoc n i p acts a h :
  verify_loop n i p (acts ++ [a]) = inr h ↔
  ∃ q, verify_loop n i p acts = inr q ∧ a !! "prev_hash"%py = Some (VStr q) ∧
       a !! "entry_hash"%py = Some (VStr h) ∧ h = canonical_hash a.
Proof.
  revert i p. induction acts as [|b acts IH]; intros i p; cbn [app verify_loop].
  - destruct (a !! "prev_hash"%py) as [v|]; [|naive_solver].
    destruct (a !! "entry_hash"%py) as [w|]; [|naive_solver].
    destruct (eq_str v p) eqn:E1; cbn [negb].
    + apply eq_str_true in E1 as ->.
      destruct (eq_str w (canonical_hash a)) eqn:E2; cbn [negb].
      * apply eq_str_true in E2 as ->. naive_solver.
      * split; [done|]. intros (q & [= <-] & _ & [= ->] & ->).
        assert (eq_str (VStr (canonical_hash a)) (canonical_hash a) = true) by by apply eq_str_true.
        congruence.
    + split; [done|]. intros (q & [= <-] & [= ->] & _).
      assert (eq_str (VStr p) p = true) by by apply eq_str_true. congruence.
  - repeat case_match; try naive_solver.
Qed.

(** Entries with the same JSON fields, the hash of the entry itself apart. *)
Definition json_same (a b : entry) : Prop :=
  ∀ k, k ≠ "entry_hash"%py → to_json <$> a !! k = to_json <$> b !! k.

(** An attack on SHA-256: two texts with one digest, or a text whose digest is
    the all-zero genesis value. *)
Definition hash_break : Prop :=
  (∃ x y, x ≠ y ∧ digest x = digest y) ∨ ∃ x, digest x = GENESIS_HASH.

Lemma canonical_hash_same a b :
  wf_obj_val a = true → wf_obj_val b = true → canonical_hash a = canonical_hash b →
  json_same a b ∨ hash_break.
Proof.
  intros Ha Hb E. unfold canonical_hash in E.
  destruct (decide (dumps_obj (body a) = dumps_obj (body b))) as [Hd|Hd].
  - left. intros k Hk. pose proof (dumps_obj_inj (body a) (body b) k) as H.
    unfold body in H. rewrite !lookup_delete_ne in H by done.
    apply H; [by apply wf_obj_delete..|done].
  - right. left. eauto.
Qed.

Lemma loops_agree n i n' i' acts acts' h :
  Forall (λ a, wf_obj_val a = true) acts → Forall (λ a, wf_obj_val a = true) acts' →
  verify_loop n i GENESIS_HASH acts = inr h → verify_loop n' i' GENESIS_HASH acts' = inr h →
  Forall2 json_same acts acts' ∨ hash_break.
Proof.
  revert acts' h. induction acts as [|a acts IH] using rev_ind; intros acts' h Hw Hw';
    destruct acts' as [|b acts' _] using rev_ind; rewrite ?verify_loop_snoc; cbn [verify_loop].
  - by left.
  - intros [= <-] (q & _ & _ & _ & E). right. right. by exists (dumps_obj (body b)).
  - intros (q & _ & _ & _ & ->) [= E]. right. right. by exists (dumps_obj (body a)).
  - intros (q & Hq & Hp & _ & ->) (q' & Hq' & Hp' & _ & E).
    apply Forall_app in Hw as [Hw Ha]. apply Forall_app in Hw' as [Hw' Hb].
    inversion Ha; inversion Hb; subst.
    destruct (canonical_hash_same a b) as [Hs|]; [done..| |by right].
    assert (q = q') as <-.
    { pose proof (Hs "prev_hash"%py ltac:(key_ne)) as Hj. rewrite Hp, Hp' in Hj. by injection Hj. }
    destruct (IH acts' q) as [IHs|]; [done..| |by right].
    left. apply Forall2_app; [done|]. by repeat constructor.
Qed.

Lemma verify_chain_ok acts t :
  cr_ok (verify_chain acts (VStr t)) = true → cr_legacy (verify_chain acts (VStr t)) = false →
  verify_loop (length acts) 0 GENESIS_HASH acts = inr t.
Proof.
  destruct acts as [|a acts]; cbn [verify_chain].
  - destruct (eq_str (VStr t) GENESIS_HASH) eqn:E; [|done].
    apply eq_str_true in E as [= ->]. done.
  - destruct (negb (existsb _ _)); [done|].
    destruct (verify_loop _ _ _ _) as [r|prev] eqn:E.
    + intros Hok. exfalso. revert E Hok. generalize 0 as i, GENESIS_HASH as p.
      generalize (length (a :: acts)) as n. generalize (a :: acts) as l. clear.
      induction l as [|b l IH]; intros n i p; cbn [verify_loop]; [done|].
      repeat case_match; try (intros [= <-]; done). apply IH.
    + destruct (eq_str (VStr t) prev) eqn:Et; [|done]. apply eq_str_true in Et as [= ->]. done.
Qed.

Lemma strip_chain_entry a p : strip_chain (chain_entry (strip_chain a) p) = strip_chain a.
Proof.
  unfold strip_chain, chain_entry. apply map_eq. intros k.
  destruct (decide (k = "entry_hash"%py)) as [->|]; [by rewrite !lookup_delete_eq|].
  destruct (decide (k = "prev_hash"%py)) as [->|].
  { rewrite !(lookup_delete_ne _ "entry_hash"%py) by key_ne. by rewrite !lookup_delete_eq. }
  rewrite !lookup_delete_ne, !lookup_insert_ne, !lookup_delete_ne by done. done.
Qed.

Lemma strip_chain_actions p acts :
  map strip_chain (chain_actions p (map strip_chain acts)) = map strip_chain acts.
Proof.
  revert p. induction acts as [|a acts IH]; intros p; [done|]. cbn [map chain_actions].
  by rewrite strip_chain_entry, IH.
Qed.

(** ** Properties *)

(** C36: stamping makes a session verify.  [stamp_session_chain] never raises; the
    stamped session passes [verify_session] as a chained (not legacy) log of the
    same length whose tip is the recorded one; no entry loses or changes a field
    other than the two chain fields, no session field other than the three chain
    fields changes, and stamping again changes nothing. *)
Theorem stamp_verifies sd :
  ∃ sd' acts tip,
    stamp_session_chain sd = Ok sd' ∧ actions_taken sd' = Some acts ∧
    sd_fields sd' !! "chain_tip"%py = Some (VStr tip) ∧
    verify_session sd' = mk_result true (length (default [] (actions_taken sd))) tip false None None ∧
    map strip_chain acts = map strip_chain (default [] (actions_taken sd)) ∧
    (∀ k, k ∉ ["chain_tip"; "chain_length"; "chain_version"]%py → sd_fields sd' !! k = sd_fields sd !! k) ∧
    stamp_session_chain sd' = Ok sd'.
Proof.
  unfold stamp_session_chain at 1. rewrite chain_tip_chained.
  set (raw := default [] (actions_taken sd)). set (s := map strip_chain raw).
  set (tip := match s with [] => _ | _ => _ end).
  assert (tip = tip_from GENESIS_HASH s) as Htip by (unfold tip; by destruct s).
  eexists _, _, tip. split; [reflexivity|]. cbn [actions_taken sd_fields]. split; [reflexivity|].
  split_and!.
  - rewrite !lookup_insert_ne by key_ne. by rewrite lookup_insert_eq.
  - unfold verify_session. cbn [actions_taken sd_fields default].
    rewrite !lookup_insert_ne by key_ne. rewrite lookup_insert_eq. cbn [default id].
    rewrite Htip, verify_chained. f_equal. apply length_map.
  - apply strip_chain_actions.
  - intros k Hk. rewrite !lookup_insert_ne by set_solver. done.
  - unfold stamp_session_chain. cbn [actions_taken sd_fields default id].
    unfold s at 1 2 3. rewrite strip_chain_actions. fold s. rewrite chain_tip_chained.
    fold tip. do 2 f_equal. rewrite chain_actions_length. apply map_eq. intros k.
    destruct (decide (k = "chain_version"%py)) as [->|]; [by rewrite !lookup_insert_eq|].
    rewrite !(lookup_insert_ne _ "chain_version"%py) by done.
    destruct (decide (k = "chain_length"%py)) as [->|]; [by rewrite !lookup_insert_eq|].
    rewrite !(lookup_insert_ne _ "chain_length"%py) by done.
    destruct (decide (k = "chain_tip"%py)) as [->|]; [by rewrite !lookup_insert_eq|].
    rewrite !lookup_insert_ne by done. done.
Qed.


(** the accepted downgrade.  A log none of whose entries carries a chain field
    is reported as ok whatever tip the session record claims: removing
    [prev_hash] and [entry_hash] from every entry turns a chained log, with any
    change to its entries, into one that [verify_chain] accepts as legacy. *)
Theorem stripped_log_accepted acts tip :
  acts ≠ [] →
  verify_chain (map strip_chain acts) tip =
    mk_result true (length acts) GENESIS_HASH true None None.
Proof.
  intros Hne. destruct acts as [|a acts]; [done|]. unfold verify_chain.
  assert (existsb (λ a, has_key "entry_hash"%py a || has_key "prev_hash"%py a)
    (map strip_chain (a :: acts)) = false) as ->.
  { generalize (a :: acts) as l. induction l as [|b l IH]; [done|]. cbn [map existsb]. rewrite IH.
    unfold has_key, strip_chain. rewrite lookup_delete_eq, lookup_delete_ne, lookup_delete_eq by key_ne.
    by rewrite bool_decide_eq_false_2 by (by intros []). }
  cbn [map negb length]. by rewrite length_map.
Qed.

Definition log_entries : list entry :=
  [ {[ "action"%py := VStr "alert_reverse_shell"%py; "ts_offset_s"%py := VFloat (lit 15 10) ]};
    {[ "action"%py := VStr "alert_dns_exfil"%py ]} ].


Lemma stripped_log_accepted_witness :
  verify_chain (map strip_chain (take 1 (chain_actions GENESIS_HASH log_entries)))
    (VStr (tip_from GENESIS_HASH log_entries)) = mk_result true 1 GENESIS_HASH true None None.
Proof. apply stripped_log_accepted. discriminate. Defined.
