(* ===== verification/Heuristics.v ===== *)
(** plenith/heuristics.py: the ladder of alert and deception rules.

    The if-ladder of [decide_action] is the list [rules], in the source's order: a rule
    fires when its condition holds and its flag is not set, sets its flags, and yields
    its action. *)

From S2P Require Import Prelude PyStr Float Json Session.

(** The dict [decide_action] returns. *)
Record action := mk_action { a_name : str; a_severity : str; a_rationale : str }.

(** [r_flag] is the rule's own flag; [r_also] are the further flags it sets. *)
Record rule := mk_rule {
  r_when : flt → gmap str pyval → bool;
  r_flag : str;
  r_also : list str;
  r_action : str;
  r_severity : str;
  r_rationale : gmap str pyval → str;
}.

Section ladder.
Context `{Unicode}.

Definition set_repr (k : str) (o : gmap str pyval) : str := repr_list (sorted_set (obs_set k o)).
Definition set_repr3 (k : str) (o : gmap str pyval) : str :=
  repr_list (take 3 (sorted_set (obs_set k o))).

(** [sigs.get(k, 0)] as a float, for the signals dict. *)
Definition signal (k : str) (o : gmap str pyval) : flt :=
  match o !! "attacker_llm_signals"%py with
  | Some (VDict d) => match assoc_get k d with Some (VFloat f) => f | _ => f0 end
  | _ => f0
  end.

(** The first nine rules, up to the severity "high". *)
Definition alert_rules : list rule :=
  [ mk_rule (λ _ o, obs_true "reverse_shell_attempted"%py o) "alerted_reverse_shell"%py []
      "alert_reverse_shell"%py "critical"%py
      (λ o, "Attacker invoked a reverse shell idiom: "%py
            ++ py_repr (take 160 (obs_str "reverse_shell_command"%py o))
            ++ ". Active C2 establishment. Recommend: kill session immediately, "%py
            ++ "capture netflow, snapshot the decoy container for forensics."%py);
    mk_rule (λ _ o, obs_true "ssh_persistence_attempt"%py o) "alerted_ssh_persistence"%py []
      "alert_ssh_persistence"%py "critical"%py
      (λ _, "Attacker wrote to a persistence path (e.g. ~/.ssh/authorized_keys). "%py
            ++ "Classic backdoor. Recommend: isolate session + force credential rotation."%py);
    mk_rule (λ _ o, obs_true "honeytoken_modifications"%py o) "alerted_honeytoken_tamper"%py []
      "alert_honeytoken_tamper"%py "high"%py
      (λ o, "Attacker modified or deleted planted honeytoken(s): "%py
            ++ set_repr "honeytoken_modifications"%py o
            ++ ". Likely covering tracks or staging malicious content."%py);
    mk_rule (λ _ o, obs_true "dns_exfil_attempted"%py o) "alerted_dns_exfil"%py []
      "alert_dns_exfil"%py "high"%py
      (λ o, "Attacker is exfiltrating via curl/wget to a suspicious destination: "%py
            ++ set_repr3 "dns_exfil_commands"%py o
            ++ ". Recommend: block destination domains at the egress, capture "%py
            ++ "DNS queries for IOC export."%py);
    mk_rule (λ _ o, obs_true "attacker_llm_proven_via_trap"%py o)
      "alerted_attacker_llm_proven"%py ["alerted_attacker_llm_detected"%py]
      "alert_attacker_llm_detected"%py "critical"%py
      (λ _, "PROVEN counter-AI hit: the attacker's LLM echoed our "%py
            ++ "planted trap marker back into a subsequent command — "%py
            ++ "their agent is consuming our outputs as context. "%py
            ++ "Recommend: capture full command stream for the attacker's "%py
            ++ "prompt-engineering reverse-engineering."%py);
    mk_rule (λ _ o, obs_true "attacker_likely_llm"%py o) "alerted_attacker_llm_detected"%py []
      "alert_attacker_llm_detected"%py "high"%py
      (λ o, "Attacker is likely LLM-driven (confidence="%py ++ fmt2 (signal "confidence"%py o)
            ++ ": timing="%py ++ fmt2 (signal "timing"%py o)
            ++ ", lexical="%py ++ fmt2 (signal "lexical_avg"%py o)
            ++ ", injections="%py ++ str_of_Z (default 0%Z (trunc (signal "injections"%py o)))
            ++ "). Trap-mode armed — prompt-injection bait will be embedded "%py
            ++ "in subsequent decoy reads."%py);
    mk_rule (λ _ o, obs_true "lateral_to_decoy"%py o) "alerted_lateral_decoy"%py []
      "alert_lateral_decoy"%py "high"%py
      (λ o, "Attacker attempted lateral movement to decoy host(s): "%py
            ++ set_repr "decoy_targets"%py o
            ++ ". The hostnames only exist "%py
            ++ "in the persona's local config — strong attacker signal."%py);
    mk_rule (λ _ o, obs_true "log_tampering"%py o) "alerted_log_tampering"%py []
      "alert_log_tampering"%py "high"%py
      (λ o, "Attacker attempted to clear logs or history: "%py
            ++ set_repr3 "tampering_commands"%py o
            ++ ". Likely covering tracks after exfil. Preserve session "%py
            ++ "snapshot before any cleanup runs."%py);
    mk_rule (λ _ o, obs_true "credential_files_read"%py o) "alerted_credential_exfil"%py []
      "alert_credential_exfil"%py "high"%py
      (λ o, "Attacker read planted credentials: "%py ++ set_repr "credential_files_read"%py o
            ++ ". Recommend: force password reset / key rotation for the real account."%py) ].

(** The other seven. *)
Definition deception_rules : list rule :=
  [ mk_rule (λ _ o, obs_true "decoys_swallowed"%py o) "alerted_decoy_swallowed"%py []
      "alert_decoy_swallowed"%py "medium"%py
      (λ o, "Attacker engaged with planted decoy(s): "%py ++ set_repr "decoys_swallowed"%py o
            ++ ". The deception's working — they're following the planted trail."%py);
    mk_rule (λ _ o, obs_true "credential_search_attempted"%py o) "alerted_credential_search"%py []
      "alert_credential_search"%py "medium"%py
      (λ o, "Attacker is hunting for credentials with pattern(s): "%py
            ++ set_repr "credential_search_terms"%py o
            ++ ". Recon stage — alert before they find anything real."%py);
    mk_rule (λ _ o, 3 <=? size (obs_set "payload_drops"%py o)) "alerted_payload_staging"%py []
      "alert_payload_staging"%py "medium"%py
      (λ o, "Attacker dropped "%py ++ str_of_Z (Z.of_nat (size (obs_set "payload_drops"%py o)))
            ++ " files into payload directories ("%py ++ set_repr "payload_drops"%py o ++ ")."%py);
    mk_rule (λ _ o, obs_true "ran_sudo"%py o) "planted_sudo_cve"%py []
      "plant_sudo_vulnerability"%py "info"%py
      (λ _, "Attacker invoked sudo; plant a fake CVE-2021-3156-style misconfig."%py);
    mk_rule (λ _ o, bool_decide ("mysql"%py ∈ obs_set "services_probed"%py o)) "spawned_mysql"%py []
      "spawn_fake_mysql"%py "info"%py
      (λ _, "Attacker probed for MySQL; spawn a decoy mysqld on 3306."%py);
    mk_rule (λ _ o, obs_true "attempted_lateral"%py o) "isolated"%py []
      "isolate_session"%py "medium"%py
      (λ _, "Lateral movement attempt detected; constrain the session subnet."%py);
    mk_rule (λ elapsed _, fgt_b elapsed (of_int 600)) "found_crown_jewel"%py []
      "plant_aws_credentials"%py "info"%py
      (λ _, "10 minutes elapsed without crown-jewel discovery; seed honeytokens."%py) ].

(** All sixteen, in the order in which the code tries them. *)
Definition rules : list rule :=
  Eval cbv [app alert_rules deception_rules] in alert_rules ++ deception_rules.

Definition eligible (elapsed : flt) (o : gmap str pyval) (r : rule) : bool :=
  r_when r elapsed o && negb (obs_true (r_flag r) o).

Definition fire_flags (r : rule) (o : gmap str pyval) : gmap str pyval :=
  foldl (λ o k, mark k o) o (r_flag r :: r_also r).

(** [decide_action(session)] on the observations and the elapsed time: the action, if
    any, and the observations with its flags set. *)
Definition decide_action (elapsed : flt) (o : gmap str pyval) : option (action * gmap str pyval) :=
  match find (eligible elapsed o) rules with
  | Some r => Some (mk_action (r_action r) (r_severity r) (r_rationale r (fire_flags r o)), fire_flags r o)
  | None => None
  end.

(** ** Lemmas *)

(** The rules that have not fired. *)
Definition pending (o : gmap str pyval) : list rule := filter (λ r, obs_true (r_flag r) o = false) rules.

Lemma obs_true_mark k k' o : obs_true k (mark k' o) = bool_decide (k = k') || obs_true k o.
Proof.
  unfold obs_true, mark. destruct (decide (k = k')) as [->|Hne].
  - by rewrite lookup_insert_eq, bool_decide_eq_true_2.
  - by rewrite lookup_insert_ne, bool_decide_eq_false_2 by congruence.
Qed.

Lemma obs_true_fire k r o :
  obs_true k (fire_flags r o) = bool_decide (k ∈ r_flag r :: r_also r) || obs_true k o.
Proof.
  unfold fire_flags. generalize (r_flag r :: r_also r). intros l. revert o.
  induction l as [|x l IH]; intros o; cbn; [done|]. rewrite IH, obs_true_mark.
  destruct (decide (k = x)) as [->|Hne].
  - rewrite (bool_decide_eq_true_2 (x = x)), (bool_decide_eq_true_2 (x ∈ x :: l)) by set_solver.
    cbn. apply orb_true_r.
  - rewrite (bool_decide_eq_false_2 (k = x)) by done. cbn. f_equal.
    apply bool_decide_ext. set_solver.
Qed.

(** [filter] counts fewer elements of a list under a stronger predicate, and strictly
    fewer when an element is lost. *)
Lemma filter_length_le {A} (P Q : A → Prop) `{∀ x, Decision (P x), ∀ x, Decision (Q x)} (l : list A) :
  (∀ x, Q x → P x) → length (filter Q l) ≤ length (filter P l).
Proof.
  intros HPQ. induction l as [|x l IH]; [done|]. rewrite !filter_cons.
  repeat case_decide; cbn; try lia. exfalso; auto.
Qed.

Lemma filter_length_lt {A} (P Q : A → Prop) `{∀ x, Decision (P x), ∀ x, Decision (Q x)} (l : list A) y :
  (∀ x, Q x → P x) → y ∈ l → P y → ¬ Q y → length (filter Q l) < length (filter P l).
Proof.
  intros HPQ Hy HP HQ. induction l as [|x l IH]; [by apply not_elem_of_nil in Hy|].
  rewrite !filter_cons. apply elem_of_cons in Hy as [->|Hy].
  - rewrite decide_False, decide_True by done. cbn. pose proof (filter_length_le P Q l HPQ). lia.
  - specialize (IH Hy). repeat case_decide; cbn; try lia. naive_solver.
Qed.

Lemma pending_le o o' :
  (∀ r, r ∈ rules → obs_true (r_flag r) o = true → obs_true (r_flag r) o' = true) →
  length (pending o') ≤ length (pending o).
Proof.
  intros Hm. unfold pending.
  assert (∀ l, (∀ r, r ∈ l → r ∈ rules) →
    length (filter (λ r, obs_true (r_flag r) o' = false) l)
    ≤ length (filter (λ r, obs_true (r_flag r) o = false) l)) as HL; [|by apply HL].
  induction l as [|r l IH]; intros Hl; [done|]. rewrite !filter_cons.
  specialize (IH (λ x Hx, Hl x (list_elem_of_further _ _ _ Hx))). specialize (Hm r (Hl r (list_elem_of_here _ _))).
  repeat case_decide; cbn; lia.
Qed.

Lemma find_first {A} (f : A → bool) l x :
  find f l = Some x → ∃ l1 l2, l = l1 ++ x :: l2 ∧ f x = true ∧ Forall (λ y, f y = false) l1.
Proof.
  induction l as [|y l IH]; cbn; [done|]. destruct (f y) eqn:E.
  - intros [= <-]. by exists [], l.
  - intros Hf. destruct (IH Hf) as (l1 & l2 & -> & Hx & Hl1). exists (y :: l1), l2. auto.
Qed.

(** A firing uses up a rule. *)
Lemma decide_pending elapsed o a o' :
  decide_action elapsed o = Some (a, o') → length (pending o') < length (pending o).
Proof.
  unfold decide_action. destruct (find _ _) as [r|] eqn:E; [|done]. intros [= <- <-].
  apply find_first in E as (l1 & l2 & Hl & He & _).
  unfold eligible in He. apply andb_true_iff in He as [_ Hf%negb_true_iff].
  apply (filter_length_lt _ _ _ r).
  - intros x. rewrite obs_true_fire. by intros [_ ?]%orb_false_iff.
  - rewrite Hl. set_solver.
  - done.
  - rewrite obs_true_fire, bool_decide_eq_true_2 by set_solver. done.
Qed.

Lemma pending_bound o : length (pending o) ≤ 16.
Proof. unfold pending. rewrite length_filter. done. Qed.
End ladder.

(** ** Properties *)

Section properties.
Context `{Unicode}.

(** the ladder.  [decide_action] takes the first rule, in the ladder's order, whose
    condition holds and whose flag is not set; it returns that rule's action and
    severity, and marks exactly that rule's flags.  It returns nothing exactly when no
    rule is eligible. *)
Theorem decide_first_eligible elapsed o :
  match decide_action elapsed o with
  | Some (a, o') =>
      ∃ before r after, rules = before ++ r :: after ∧
        eligible elapsed o r = true ∧ Forall (λ r', eligible elapsed o r' = false) before ∧
        a_name a = r_action r ∧ a_severity a = r_severity r ∧
        ∀ k, obs_true k o' = bool_decide (k ∈ r_flag r :: r_also r) || obs_true k o
  | None => Forall (λ r, eligible elapsed o r = false) rules
  end.
Proof.
  unfold decide_action. destruct (find _ _) as [r|] eqn:E.
  - apply find_first in E as (l1 & l2 & Hl & He & Hb). exists l1, r, l2.
    split_and!; try done. intros k. apply obs_true_fire.
  - apply Forall_forall. intros r Hr. by apply (find_none _ _ E), list_elem_of_In.
Qed.

(** The severities in the ladder's order, and where the critical ones stand. *)
Lemma rule_severities :
  map r_severity rules
  = ["critical"; "critical"; "high"; "high"; "critical"; "high"; "high"; "high"; "high";
     "medium"; "medium"; "medium"; "info"; "info"; "medium"; "info"]%py.
Proof. reflexivity. Qed.
End properties.
