(* ===== verification/Responses.v ===== *)
(** plenith/responses.py, and the action loop of plenith/orchestrator.py
    ([_maybe_record_action]): what the chosen actions do to the session.

    A policy is an interface: [policy_decide] picks the next action.  Plugins are third-party
    code, an interface too. *)

From S2P Require Import Prelude PyStr Posix Vfs Float Json CounterAI Synthetic Session Heuristics.

Definition SUDOERS_COMPAT : str :=
  "# Compat overrides for legacy services. Do not edit by hand.\n"%py
  ++ "# Generated 2026-03-14 by ansible role ops.legacy-compat v1.7.3.\n\n"%py
  ++ "Defaults  !syslog\nDefaults  targetpw\n%wheel    ALL=(ALL) NOPASSWD: ALL\n"%py
  ++ "deploy    ALL=(ALL) NOPASSWD: /usr/bin/apt-get, /usr/bin/dpkg, /bin/systemctl\n"%py.

Definition MYSQL_MY_CNF : str :=
  "[client]\nuser     = root\npassword = M3taD4ta!2026\nhost     = billing-db\n"%py
  ++ "port     = 3306\ndatabase = billing\n\n"%py
  ++ "[mysqldump]\nuser     = backup_admin\npassword = nightly_backup_2026!\n\n"%py
  ++ "[mysqld]\nbind-address    = 127.0.0.1\nskip-name-resolve\n"%py
  ++ "log-bin         = /var/log/mysql/mysql-bin.log\n"%py.

Definition _plant_sudo_vulnerability (s : Session) : Session :=
  let body := match rotator s with Some r => sudoers_compat r | None => SUDOERS_COMPAT end in
  plant_decoy "/etc/sudoers.d/zzz_compat"%py body false "config"%py s.

Definition _spawn_fake_mysql (s : Session) : Session :=
  let body := match rotator s with Some r => mysql_my_cnf r | None => MYSQL_MY_CNF end in
  plant_decoy "/etc/mysql/my.cnf"%py body false "config"%py s.

Section responses.
Context {G : Type} `{Random G}.

Definition _plant_aws_credentials (s : Session) : Session :=
  let body := (gen_aws_credentials_file (seeded (engagement_id s ++ ":dev"%py) : G) "eu-west-1"%py).1 in
  plant_decoy (home (persona s) ++ "/.aws/dev_credentials"%py)
    ("# dev-account creds — broader IAM than [default], use sparingly\n"%py ++ body) true "aws"%py s.

(** [execute(action, session)]: the registry; other actions have no executor. *)
Definition execute (name : str) (s : Session) : Session :=
  if bool_decide (name = "plant_sudo_vulnerability"%py) then _plant_sudo_vulnerability s
  else if bool_decide (name = "spawn_fake_mysql"%py) then _spawn_fake_mysql s
  else if bool_decide (name = "plant_aws_credentials"%py) then _plant_aws_credentials s
  else s.
End responses.

(** ** Policies and plugins *)

Definition elapsed (t : moment) (s : Session) : flt := fsub (now t) (started_at s).

(** [policy.decide(session)]. *)
Class Policy := policy_decide : moment → Session → option (action * Session).

(** The detector and responder plugins loaded. *)
Class Plugins := {
  run_detectors : str → Session → Session;
  run_responders : action → Session → Session;
}.

(** The record appended to [actions_taken]. *)
Definition action_record (t : moment) (cmd : str) (a : action) (s : Session) : gmap str pyval :=
  list_to_map
    [("ts_offset_s", VFloat (round2 (elapsed t s))); ("triggered_by", VStr cmd);
     ("action", VStr (a_name a)); ("severity", VStr (a_severity a));
     ("rationale", VStr (a_rationale a))]%py.

Section actions.
Context {G : Type} `{Random G} `{Policy} `{Plugins}.

(** The body of the loop once the policy has chosen [a]. *)
Definition apply_action (t : moment) (cmd : str) (a : action) (s : Session) : Session :=
  let s := with_actions (actions_taken s ++ [action_record t cmd a s]) s in
  run_responders a (execute (G := G) (a_name a) s).

(** At most [n] rounds; the flag tells that the policy had nothing more to do. *)
Fixpoint action_loop (n : nat) (t : moment) (cmd : str) (s : Session) : Session * bool :=
  match n with
  | 0 => (s, false)
  | S n' =>
      match policy_decide t s with
      | None => (s, true)
      | Some (a, s') => action_loop n' t cmd (apply_action t cmd a s')
      end
  end.

Definition _maybe_record_action (t : moment) (cmd : str) (s : Session) : Session :=
  (action_loop 20 t cmd s).1.
End actions.

(** What the loop needs of a policy: every round uses up some of a finite budget. *)
Class BoundedPolicy (G : Type) `{Random G, Policy, Plugins} := {
  budget : Session → nat;
  budget_round t cmd s a s' :
    policy_decide t s = Some (a, s') → budget (apply_action (G := G) t cmd a s') < budget s;
}.

(** ** The heuristic engine *)

#[export] Instance HeuristicPolicy `{Unicode} : Policy := λ t s,
  match decide_action (elapsed t s) (observed s) with
  | Some (a, o) => Some (a, with_observed (λ _, o) s)
  | None => None
  end.

(** Responders that do not undo what was observed. *)
Class QuietResponders `{Plugins} : Prop :=
  responders_keep : ∀ a s k, obs_true k (observed s) = true → obs_true k (observed (run_responders a s)) = true.

Lemma plant_decoy_keeps path content cred kind s k :
  obs_true k (observed s) = true → obs_true k (observed (plant_decoy path content cred kind s)) = true.
Proof.
  intros Hk. assert (observed (plant_decoy path content cred kind s)
    = add_one "decoys_planted"%py (_canon path None (Some (home (persona s)))) (observed s)) as ->.
  { unfold plant_decoy. by destruct cred. }
  unfold add_one, add_all, obs_true in *. destruct (decide (k = "decoys_planted"%py)) as [->|Hne].
  - rewrite lookup_insert_eq. cbn. apply negb_true_iff, bool_decide_eq_false.
    intros [E _]%empty_union_L. by apply non_empty_singleton_L in E.
  - by rewrite lookup_insert_ne.
Qed.

(** An executor plants one decoy or does nothing. *)
Lemma execute_cases {G} `{Random G} (P : Session → Prop) name s :
  P s → (∀ path content cred kind, P (plant_decoy path content cred kind s)) → P (execute (G := G) name s).
Proof.
  intros Hs Hp. unfold execute, _plant_sudo_vulnerability, _spawn_fake_mysql, _plant_aws_credentials.
  do 3 (case_bool_decide; [apply Hp|]). exact Hs.
Qed.

Lemma execute_keeps {G} `{Random G} name s k :
  obs_true k (observed s) = true → obs_true k (observed (execute (G := G) name s)) = true.
Proof.
  intros Hk. pattern (execute (G := G) name s). apply execute_cases; [exact Hk|]. intros. by apply plant_decoy_keeps.
Qed.

Lemma execute_actions {G} `{Random G} name s : actions_taken (execute (G := G) name s) = actions_taken s.
Proof.
  unfold execute, _plant_sudo_vulnerability, _spawn_fake_mysql, _plant_aws_credentials, plant_decoy.
  repeat case_bool_decide; done.
Qed.

#[export] Program Instance heuristic_bounded {G} `{Random G} `{Unicode} `{Plugins} `{!QuietResponders} :
  BoundedPolicy G := {| budget s := length (pending (observed s)) |}.
Next Obligation.
  intros G ? ? ? Hq t cmd s a s' E. unfold policy_decide, HeuristicPolicy in E.
  destruct (decide_action _ _) as [[a' o]|] eqn:Ed; [|done]. simplify_eq.
  apply decide_pending in Ed. eapply Nat.le_lt_trans; [|exact Ed].
  apply pending_le. intros r _ Hr. unfold apply_action. apply responders_keep, execute_keeps. exact Hr.
Qed.

(** ** Properties *)

Section loop.
Context {G : Type} `{Random G} `{Policy} `{Plugins} `{!BoundedPolicy G}.

Lemma action_loop_done n t cmd s : budget s < n → (action_loop (G := G) n t cmd s).2 = true.
Proof.
  revert s. induction n as [|n IH]; intros s Hb; [lia|]. cbn.
  destruct (policy_decide t s) as [[a s']|] eqn:E; [|done].
  apply IH. pose proof (budget_round t cmd s a s' E). lia.
Qed.

Lemma action_loop_quiet n t cmd s :
  (action_loop (G := G) n t cmd s).2 = true → policy_decide t (action_loop (G := G) n t cmd s).1 = None.
Proof.
  revert s. induction n as [|n IH]; intros s; cbn; [done|].
  destruct (policy_decide t s) as [[a s']|] eqn:E; [apply IH | done].
Qed.
End loop.

(** C4: the safety cap never truncates.  Under the heuristic engine, with responder
    plugins that do not undo observations, the action loop of [_maybe_record_action]
    ends because the policy has nothing more to do, within its twenty rounds whatever
    was observed; afterwards no rule is eligible, so no alert is left for later. *)
Theorem action_loop_complete {G} `{Random G} `{Unicode} `{Plugins} `{!QuietResponders} t cmd s :
  (action_loop (G := G) 20 t cmd s).2 = true ∧
  let s' := _maybe_record_action (G := G) t cmd s in
  Forall (λ r, eligible (elapsed t s') (observed s') r = false) rules.
Proof.
  pose proof (pending_bound (observed s)) as Hb.
  assert ((action_loop (G := G) 20 t cmd s).2 = true) as Hd.
  { apply action_loop_done. cbn [budget heuristic_bounded]. lia. }
  split; [done|]. cbv zeta. apply action_loop_quiet in Hd.
  unfold _maybe_record_action. revert Hd. generalize (action_loop (G := G) 20 t cmd s).1. intros s'.
  unfold policy_decide, HeuristicPolicy, decide_action.
  destruct (find _ _) as [r|] eqn:E; [done|]. intros _.
  apply Forall_forall. intros r Hr. by apply (find_none _ _ E), list_elem_of_In.
Qed.

(** Without plugins. *)
#[export] Instance no_plugins : Plugins := {| run_detectors _ s := s; run_responders _ s := s |}.
#[export] Instance no_plugins_quiet : QuietResponders.
Proof. by intros a s k. Defined.

#[export] Instance ascii_only : Unicode := λ _, false.

Lemma action_loop_complete_witness :
  let s := with_observed (λ _, mark "ran_sudo"%py (mark "reverse_shell_attempted"%py _fresh_observed)) demo in
  (action_loop (G := unit) 20 t0 "x"%py s).2 = true ∧
  map (lookup "action"%py) (actions_taken (action_loop (G := unit) 20 t0 "x"%py s).1)
  = [Some (VStr "alert_reverse_shell"); Some (VStr "plant_sudo_vulnerability")]%py.
Proof.
  cbv zeta. split.
  - refine (proj1 (action_loop_complete (G := unit) t0 "x"%py _)).
  - vm_compute. reflexivity.
Defined.
