(* ===== verification/Policy.v ===== *)
(** plenith/policy.py: the observation and action spaces, the trained engine's
    selection step and the construction of a policy from the configuration.

    The network ([PolicyNet.forward]) and NumPy's [sum] and [argmax] are arguments. *)

From Stdlib Require Import Floats.SpecFloat.
From S2P Require Import Prelude PyStr Vfs Float Json CounterAI Synthetic Session Heuristics Responses.

(** ** Observation space *)

Inductive feature :=
| FBool (name : str)
| FCount (name : str) (max : Z)
| FScalar (name : str).

Definition OBSERVATION_FEATURES : list feature :=
  [FBool "ran_sudo"%py; FBool "attempted_lateral"%py; FBool "found_crown_jewel"%py;
   FBool "isolated"%py; FBool "ssh_persistence_attempt"%py; FBool "bash_history_inspected"%py;
   FBool "credential_search_attempted"%py; FBool "reverse_shell_attempted"%py;
   FBool "dns_exfil_attempted"%py; FBool "lateral_to_decoy"%py; FBool "log_tampering"%py;
   FBool "attempted_sudo_elevation"%py;
   FCount "n_credential_files_read"%py 50; FCount "n_honeytoken_modifications"%py 50;
   FCount "n_payload_drops"%py 50; FCount "n_decoy_targets"%py 50;
   FCount "n_decoys_planted"%py 50; FCount "n_decoys_swallowed"%py 50;
   FCount "n_services_probed"%py 50;
   FScalar "time_elapsed_sec"%py; FCount "connection_count"%py 100].

Definition ACTION_SPACE : list str :=
  ["noop"; "plant_sudo_vulnerability"; "spawn_fake_mysql"; "plant_aws_credentials";
   "isolate_session"; "alert_credential_search"; "alert_credential_exfil";
   "alert_honeytoken_tamper"; "alert_payload_staging"; "alert_decoy_swallowed";
   "alert_dns_exfil"; "alert_lateral_decoy"; "alert_log_tampering"; "alert_ssh_persistence";
   "alert_reverse_shell"; "alert_attacker_llm_detected"]%py.

(** [len(val)] of a set or list, an [int] itself ([bool] included), else 0. *)
Definition count_of (v : option pyval) : Z :=
  match v with
  | Some (VSet s) => Z.of_nat (size s)
  | Some (VList l) => Z.of_nat (length l)
  | Some (VInt n) => n
  | Some (VBool b) => if b then 1 else 0
  | _ => 0
  end.

Definition feature_value (t : moment) (s : Session) (f : feature) : flt :=
  match f with
  | FBool name => if obs_true name (observed s) then f1 else f0
  | FCount name max =>
      let key := if startswith name "n_"%py then drop 2 name else name in
      fmin (of_int (count_of (observed s !! key))) (of_int max)
  | FScalar name =>
      if bool_decide (name = "time_elapsed_sec"%py) then elapsed t s
      else if bool_decide (name = "connection_count"%py) then of_int (connection_count s)
      else f0
  end.

Definition vectorize (t : moment) (s : Session) : list flt :=
  map (feature_value t s) OBSERVATION_FEATURES.

(** ** Action dicts of the trained engine *)

Definition _SEVERITY_BY_ACTION (a : str) : option str :=
  assoc_get a
    [("alert_reverse_shell", "critical"); ("alert_ssh_persistence", "critical");
     ("alert_attacker_llm_detected", "high"); ("alert_credential_exfil", "high");
     ("alert_dns_exfil", "high"); ("alert_lateral_decoy", "high");
     ("alert_log_tampering", "high"); ("alert_honeytoken_tamper", "high");
     ("alert_credential_search", "medium"); ("alert_payload_staging", "medium");
     ("alert_decoy_swallowed", "medium"); ("isolate_session", "medium");
     ("plant_sudo_vulnerability", "info"); ("spawn_fake_mysql", "info");
     ("plant_aws_credentials", "info")]%py.

Section rationale.
Context `{Unicode}.

(** [sorted(obs.get(k, []))[:3] or ["?"]], as printed. *)
Definition top3 (k : str) (o : gmap str pyval) : str :=
  repr_list (match take 3 (sorted_set (obs_set k o)) with [] => ["?"%py] | l => l end).

Definition _rl_rationale (a : str) (o : gmap str pyval) : str :=
  let named x := bool_decide (a = x) in
  if named "alert_reverse_shell"%py then
    "RL policy: reverse-shell idiom detected: "%py
    ++ py_repr (take 160 (match o !! "reverse_shell_command"%py with Some (VStr c) => c | _ => "?"%py end))
    ++ ". Active C2 establishment. Recommend immediate session isolation."%py
  else if named "alert_ssh_persistence"%py then
    "RL policy: persistence-path write detected (e.g. ~/.ssh/authorized_keys). Recommend isolate session + credential rotation."%py
  else if named "alert_dns_exfil"%py then
    "RL policy: suspicious egress via curl/wget to "%py ++ top3 "dns_exfil_commands"%py o ++ "."%py
  else if named "alert_log_tampering"%py then
    "RL policy: log/history tampering detected: "%py ++ top3 "log_tampering_commands"%py o ++ "."%py
  else if named "alert_honeytoken_tamper"%py then
    "RL policy: planted honeytoken(s) tampered with: "%py ++ top3 "honeytoken_modifications"%py o ++ "."%py
  else if named "alert_lateral_decoy"%py then
    "RL policy: lateral probe to decoy host(s) "%py ++ top3 "decoy_targets"%py o ++ "."%py
  else if named "alert_credential_exfil"%py then
    "RL policy: credential file(s) read: "%py ++ top3 "credential_files_read"%py o ++ "."%py
  else if named "alert_credential_search"%py then
    "RL policy: credential-search heuristic fired (find / grep over secrets)."%py
  else if named "alert_decoy_swallowed"%py then
    "RL policy: attacker swallowed a planted decoy: "%py ++ top3 "decoys_swallowed"%py o ++ "."%py
  else if named "alert_payload_staging"%py then
    "RL policy: payload staging detected at "%py ++ top3 "payload_drops"%py o ++ "."%py
  else if named "isolate_session"%py then
    "RL policy: session-isolation recommended given current threat profile."%py
  else if named "plant_sudo_vulnerability"%py then
    "RL policy: planting fake sudoers misconfig to bait privilege-escalation attempt."%py
  else if named "spawn_fake_mysql"%py then
    "RL policy: spawning fake MySQL banner to deepen engagement."%py
  else if named "plant_aws_credentials"%py then
    "RL policy: planting fake AWS credentials at a likely-search path."%py
  else "RL policy chose "%py ++ a ++ "."%py.
End rationale.

(** ** The trained engine *)

Section trained.
Context `{Unicode}.
Context (forward : list flt → list flt) (np_sum : list flt → flt) (np_argmax : list flt → nat).

(** [{a.get("action") for a in session.actions_taken}]. *)
Definition fired (s : Session) : list pyval :=
  map (λ a, default VNone (a !! "action"%py)) (actions_taken s).

Definition has_fired (s : Session) (name : str) : bool :=
  existsb (λ v, match v with VStr x => bool_decide (x = name) | _ => false end) (fired s).

Definition mask (s : Session) (probs : list flt) : list flt :=
  imap (λ i p, if (i =? 0) then p
               else match ACTION_SPACE !! i with
                    | Some name => if has_fired s name then f0 else p
                    | None => p
                    end) probs.

Definition normalised (t : moment) (s : Session) : list flt :=
  let masked := mask s (forward (vectorize t s)) in map (λ p, fdiv p (np_sum masked)) masked.

(** [TrainedRLPolicy.decide], greedy. *)
Definition trained_decide (t : moment) (s : Session) : option action :=
  let masked := mask s (forward (vectorize t s)) in
  if fle_b (np_sum masked) (lit 1 1000000000000) then None else
  match np_argmax (normalised t s) with
  | 0 => None
  | i => match ACTION_SPACE !! i with
         | Some name => Some (mk_action name (default "info"%py (_SEVERITY_BY_ACTION name))
                                (_rl_rationale name (observed s)))
         | None => None
         end
  end.
End trained.

(** ** Construction *)

Inductive engine {P : Type} :=
| EHeuristic
| ERLStub (model_path : pyval)
| ETrained (model_path : pyval) (sampling : bool) (seed : Z)
| EPlugin (p : P).
Arguments engine : clear implicits.

(** [build_policy(config)]; [plugin] is the plugin registry. *)
Definition build_policy {P} (plugin : pyval → option P) (cfg : gmap str pyval) : exc (engine P) :=
  let get k d := default d (cfg !! k) in
  let name := get "engine"%py (VStr "heuristic"%py) in
  match plugin name with
  | Some p => Ok (EPlugin p)
  | None =>
      match name with
      | VStr n =>
          if bool_decide (n = "trained_rl"%py) then
            if truthy (get "model_path"%py VNone)
            then exc_bind (as_int (get "seed"%py (VInt 0))) (λ seed,
                   Ok (ETrained (get "model_path"%py VNone)
                         (truthy (get "sampling"%py (VBool false))) seed))
            else Ok EHeuristic
          else if bool_decide (n = "rl"%py) then Ok (ERLStub (get "model_path"%py VNone))
          else Ok EHeuristic
      | _ => Ok EHeuristic
      end
  end.

(** ** Lemmas *)

Lemma has_fired_spec s name :
  has_fired s name = true ↔ ∃ a, a ∈ actions_taken s ∧ a !! "action"%py = Some (VStr name).
Proof.
  unfold has_fired, fired. rewrite existsb_exists. setoid_rewrite <- list_elem_of_In. split.
  - intros (v & Hv & E). apply list_elem_of_fmap in Hv as (a & -> & Ha). exists a. split; [done|].
    destruct (a !! "action"%py) as [[]|]; cbn in *; try done. by apply bool_decide_eq_true in E as ->.
  - intros (a & Ha & E). exists (VStr name). split; [|by apply bool_decide_eq_true].
    apply list_elem_of_fmap. exists a. by rewrite E.
Qed.

Lemma count_feature_le t s name max : flt_b (of_int max) (feature_value t s (FCount name max)) = false.
Proof.
  cbn. unfold fmin. set (n := of_int (count_of _)). destruct (flt_b (of_int max) n) eqn:E; [|done].
  unfold flt_b, SFltb, SFcompare. destruct (of_int max) as [b|b| |b m e]; try done; try by destruct b.
  rewrite Z.compare_refl, Pos.compare_cont_refl. by destruct b.
Qed.

(** A zero entry stays zero when it is divided by the mass that divides a positive
    entry. *)
Lemma zero_not_max m p :
  fle_b m (lit 1 1000000000000) = false → flt_b f0 (fdiv p m) = true → flt_b (fdiv f0 m) (fdiv p m) = true.
Proof.
  intros Hm Hp. destruct m as [b|b| |b mm e].
  - by destruct b.
  - assert (fdiv f0 (S754_infinity b) = S754_zero b) as -> by by destruct b.
    revert Hp. by destruct (fdiv p _) as [|[]| |[]].
  - by destruct p as [[]|[]| |[]].
  - assert (fdiv f0 (S754_finite b mm e) = S754_zero b) as -> by by destruct b.
    revert Hp. by destruct (fdiv p _) as [|[]| |[]].
Qed.

Section selection.
Context `{Unicode}.
Context (forward : list flt → list flt) (np_sum : list flt → flt) (np_argmax : list flt → nat).

(** [np.argmax]: the index of an entry that no entry exceeds. *)
Definition argmax_law : Prop :=
  ∀ t s, let v := normalised forward np_sum t s in
    v ≠ [] → ∃ x, v !! np_argmax v = Some x ∧ ∀ y, y ∈ v → flt_b x y = false.

(** The normalised masses are not all zero (or not numbers). *)
Definition some_mass (t : moment) (s : Session) : Prop :=
  ∃ y, y ∈ normalised forward np_sum t s ∧ flt_b f0 y = true.

Lemma trained_decide_fresh t s a :
  argmax_law → some_mass t s → trained_decide forward np_sum np_argmax t s = Some a →
  a_name a ∈ tail ACTION_SPACE ∧ has_fired s (a_name a) = false.
Proof.
  intros Hlaw (y & Hy & Hpos). unfold trained_decide.
  destruct (fle_b _ _) eqn:Hs; [done|].
  destruct (Hlaw t s) as (x & Hx & Hmax); [by intros E; rewrite E in Hy; apply not_elem_of_nil in Hy|].
  destruct (np_argmax _) as [|i]; [done|].
  destruct (ACTION_SPACE !! S i) as [name|] eqn:En; [|done]. intros [= <-]. cbn [a_name].
  split; [exact (list_elem_of_lookup_2 (tail ACTION_SPACE) i name En)|].
  destruct (has_fired s name) eqn:Hf; [|done]. exfalso.
  unfold normalised in *. rewrite list_lookup_fmap in Hx. unfold mask in Hx at 2.
  rewrite list_lookup_imap, En, Hf in Hx. cbn [Nat.eqb] in Hx.
  destruct (forward (vectorize t s) !! S i) as [p0|]; [|done]. apply (inj Some) in Hx as <-.
  apply list_elem_of_fmap in Hy as Hy'. destruct Hy' as (p & -> & _).
  specialize (Hmax _ Hy). rewrite zero_not_max in Hmax; done.
Qed.
End selection.

(** ** The trained engine in the action loop *)

Section trained_policy.
Context {G : Type} `{Random G} `{Unicode} `{Plugins}.
Context (forward : list flt → list flt) (np_sum : list flt → flt) (np_argmax : list flt → nat).
Context (Hargmax : argmax_law forward np_sum np_argmax).
Context (Hmass : ∀ t s, some_mass forward np_sum t s).
Context (Hkeep : ∀ a s, actions_taken (run_responders a s) = actions_taken s).

Definition TrainedRLPolicy : Policy := λ t s,
  match trained_decide forward np_sum np_argmax t s with Some a => Some (a, s) | None => None end.

Lemma apply_action_fired t cmd a s name :
  has_fired s name = true ∨ name = a_name a →
  has_fired (apply_action (G := G) t cmd a s) name = true.
Proof.
  intros Hn. apply has_fired_spec. unfold apply_action. rewrite Hkeep, execute_actions.
  cbn [actions_taken with_actions update_mutable].
  destruct Hn as [(b & Hb & E)%has_fired_spec | ->].
  - exists b. split; [set_solver | done].
  - exists (action_record t cmd a s). split; [set_solver|]. reflexivity.
Qed.

#[local] Program Instance trained_bounded : @BoundedPolicy G _ TrainedRLPolicy _ :=
  {| budget s := length (filter (λ name, has_fired s name = false) (tail ACTION_SPACE)) |}.
Next Obligation.
  intros t cmd s a s' E. unfold policy_decide, TrainedRLPolicy in E.
  destruct (trained_decide _ _ _ t s) as [a'|] eqn:Ed; [|done]. simplify_eq.
  destruct (trained_decide_fresh _ _ _ _ _ _ Hargmax (Hmass t s') Ed) as [Hin Hf].
  apply (filter_length_lt _ _ _ (a_name a)).
  - intros name Hn. destruct (has_fired s' name) eqn:E'; [|done].
    by rewrite (apply_action_fired t cmd a s' name (or_introl E')) in Hn.
  - done.
  - done.
  - rewrite apply_action_fired by auto. done.
Qed.

Lemma trained_loop_done t cmd s :
  (@action_loop G _ TrainedRLPolicy _ 20 t cmd s).2 = true.
Proof.
  apply (@action_loop_done G _ TrainedRLPolicy _ trained_bounded). cbn [budget trained_bounded].
  eapply Nat.le_lt_trans; [apply length_filter | cbn; lia].
Qed.
End trained_policy.

(** ** Properties *)

(** the shape of the observation vector.  It has twenty-one entries in the order
    of the feature list; a boolean feature is 0.0 or 1.0 and a count never exceeds its
    maximum. *)
Theorem vectorize_shape t s :
  length (vectorize t s) = 21 ∧
  Forall2 (λ f v, match f with
                  | FBool _ => v = f0 ∨ v = f1
                  | FCount _ max => flt_b (of_int max) v = false
                  | FScalar _ => True
                  end) OBSERVATION_FEATURES (vectorize t s).
Proof.
  split; [done|]. unfold vectorize. apply Forall2_fmap_r, Forall_Forall2_diag.
  apply Forall_forall. intros [name|name max|name] _; [|apply count_feature_le | done].
  cbn. case_match; auto.
Qed.

(** the connection count never reaches the trained policy.  The last feature is
    declared as a count and looked up in the observations, which have no such key:
    it is 0.0 however often the attacker has connected. *)
Theorem connection_count_blind t s :
  observed s !! "connection_count"%py = None → last (vectorize t s) = Some f0.
Proof. intros E. cbn. by rewrite E. Qed.

(** the trained engine does not spin.  With an [argmax] that returns an index of a
    maximal entry and a network whose normalised masked output has a positive entry,
    the engine never chooses an action that is already in [actions_taken], and the
    action loop stops by itself within its twenty rounds. *)
Theorem trained_no_double_fire {G} `{Random G} `{Unicode} `{Plugins} forward np_sum np_argmax :
  argmax_law forward np_sum np_argmax → (∀ t s, some_mass forward np_sum t s) →
  (∀ a s, actions_taken (run_responders a s) = actions_taken s) →
  ∀ t cmd s,
  (∀ a, trained_decide forward np_sum np_argmax t s = Some a → has_fired s (a_name a) = false) ∧
  (@action_loop G _ (TrainedRLPolicy forward np_sum np_argmax) _ 20 t cmd s).2 = true.
Proof.
  intros Ha Hm Hk t cmd s. split; [|by apply trained_loop_done].
  intros a E. by apply (trained_decide_fresh _ _ _ _ _ _ Ha (Hm t s) E).
Qed.

Lemma connection_count_blind_witness :
  last (vectorize t0 demo) = Some f0.
Proof. apply connection_count_blind. vm_compute. reflexivity. Defined.

(** A network that prefers to plant the sudoers decoy. *)
Definition sudo_net (_ : list flt) : list flt := [lit 1 4; lit 3 4].
Definition sudo_argmax (v : list flt) : nat :=
  match v !! 1 with Some x => if flt_b f0 x then 1 else 0 | None => 0 end.

Lemma sudo_net_normalised t s :
  normalised sudo_net (λ _, f1) t s
  = [lit 1 4; if has_fired s "plant_sudo_vulnerability"%py then f0 else lit 3 4].
Proof.
  transitivity [fdiv (lit 1 4) f1;
                fdiv (if has_fired s "plant_sudo_vulnerability"%py then f0 else lit 3 4) f1]; [done|].
  destruct (has_fired _ _); vm_compute; reflexivity.
Qed.

Lemma trained_no_double_fire_witness :
  let loop := @action_loop unit _ (TrainedRLPolicy sudo_net (λ _, f1) sudo_argmax) _ 20 t0 "ls"%py demo in
  loop.2 = true ∧
  map (lookup "action"%py) (actions_taken loop.1) = [Some (VStr "plant_sudo_vulnerability"%py)].
Proof.
  cbv zeta. split; [|vm_compute; reflexivity].
  refine (proj2 (trained_no_double_fire (G := unit) sudo_net (λ _, f1) sudo_argmax _ _ _ t0 "ls"%py demo)).
  - intros t s. cbv zeta. rewrite sudo_net_normalised. intros _. unfold sudo_argmax.
    destruct (has_fired _ _); eexists; (split; [reflexivity|]); intros y Hy;
      repeat (apply elem_of_cons in Hy as [->|Hy]); try reflexivity; by apply not_elem_of_nil in Hy.
  - intros t s. unfold some_mass. rewrite sudo_net_normalised. exists (lit 1 4).
    split; [left | reflexivity].
  - done.
Defined.
