(* ===== verification/Engagement.v ===== *)
(** An engagement as a sequence of steps across commands and connections: what is
    observed is never forgotten, and every rule fires at most once.

    The steps are the operations of plenith/session.py, plenith/heuristics.py and
    plenith/responses.py that touch the observations, in any order; firing a rule also records its action. *)

From S2P Require Import Prelude PyStr Vfs Float Json CounterAI Synthetic Session Heuristics Responses.

Section engagement.
Context {G : Type} `{Random G} `{Unicode}.

(** One step, labelled with the flag of the rule it fires. *)
Inductive step : Session → option str → Session → Prop :=
| step_command t cmd s : step s None (update_observations t cmd s)
| step_vfs op path s : step s None (observe_vfs_event op path s)
| step_search n r s : step s None (observe_search_event n r s)
| step_execute name s : step s None (execute (G := G) name s)
| step_fire e r rec s : find (eligible e (observed s)) rules = Some r →
    step s (Some (r_flag r)) (with_actions (actions_taken s ++ [rec]) (with_observed (fire_flags r) s))
| step_other s s' : observed s' = observed s → step s None s'
| step_plugin s s' : evolves (observed s) (observed s') → step s None s'  (* a plugin that unsets nothing *)
| step_reconnect i u user ip p start bot rot s s' :
    connect (G := G) i u user ip p start bot rot (Some (to_persistent_state s)) = Ok s' →
    step s None s'.

(** A run with the flags it fires, in order. *)
Inductive run : Session → list str → Session → Prop :=
| run_nil s : run s [] s
| run_cons s l s1 fs s2 : step s l s1 → run s1 fs s2 →
    run s (match l with Some f => f :: fs | None => fs end) s2.

(** ** Lemmas *)

Lemma run_app s fs s1 gs s2 : run s fs s1 → run s1 gs s2 → run s (fs ++ gs) s2.
Proof.
  induction 1 as [|s l s1 fs s3 Hs _ IH]; intros H2; [done|].
  destruct l; apply (run_cons _ _ _ _ _ Hs (IH H2)).
Qed.

Lemma run_one s l s' : step s l s' → run s (match l with Some f => [f] | None => [] end) s'.
Proof. intros Hs. exact (run_cons _ _ _ _ _ Hs (run_nil s')). Qed.

Lemma reconnect_observed i u user ip p start bot rot s s' :
  connect (G := G) i u user ip p start bot rot (Some (to_persistent_state s)) = Ok s' →
  observed s' = _deserialize_observed (_serialize_observed (observed s)).
Proof.
  unfold connect, to_persistent_state. cbn [sv_counter_ai sv_observed].
  destruct (from_dict _) as [ca|]; [|done]. intros E. injection E as <-.
  unfold _register_dynamic_renderers. by destruct (fleet _).
Qed.

(** A change that keeps every key of the template evolves the observations. *)
Lemma evolves_same template transient a b :
  (∀ k t, template !! k = Some t → b !! k = a !! k) → evolves_for template transient a b.
Proof.
  intros HL Ha. split.
  - intros k t E. destruct (Ha k t E) as (v & Ev & Hv). exists v. by rewrite (HL k t E).
  - intros k [t E]%latches_in. unfold obs_true, obs_set. by rewrite (HL k t E).
Qed.

Lemma reconnect_evolves o : evolves o (_deserialize_observed (_serialize_observed o)).
Proof.
  intros Ho. apply evolves_same; [|exact Ho]. intros k t E.
  etransitivity; [exact (observed_lookup o k Ho)|].
  rewrite (bool_decide_eq_true_2 _ (mk_is_Some _ _ E)). reflexivity.
Qed.

(** The flags of the ladder are boolean keys that latch. *)
Record latching (f : str) : Prop := Latching {
  flag_latches : latches_for _fresh_observed recomputed f = true;
  flag_bool : kind_for _fresh_observed f (VBool true) = true;
}.

Lemma rule_flags_latch : Forall latching (map r_flag rules ++ concat (map r_also rules)).
Proof.
  assert (Forall (λ f, latches_for _fresh_observed recomputed f = true ∧
                       kind_for _fresh_observed f (VBool true) = true)
    (map r_flag rules ++ concat (map r_also rules))) as HF
    by (apply (bool_decide_unpack _); vm_compute; exact I).
  refine (Forall_impl _ _ _ HF _). intros f Hf. exact (Latching f (proj1 Hf) (proj2 Hf)).
Qed.

Lemma rule_latching r f : r ∈ rules → f ∈ r_flag r :: r_also r → latching f.
Proof.
  intros Hr Hf. pose proof rule_flags_latch as HF. rewrite Forall_forall in HF. apply HF.
  apply elem_of_app. apply elem_of_cons in Hf as [->|Hf].
  - left. apply list_elem_of_fmap. exact (ex_intro _ r (conj eq_refl Hr)).
  - right. apply list_elem_of_In, in_concat. exists (r_also r).
    split; apply list_elem_of_In; [|exact Hf].
    apply list_elem_of_fmap. exact (ex_intro _ r (conj eq_refl Hr)).
Qed.

Lemma evolves_marks template transient l o0 o :
  Forall (λ f, kind_for template f (VBool true) = true) l → evolves_for template transient o0 o →
  evolves_for template transient o0 (foldl (λ o k, mark k o) o l).
Proof.
  intros HF. revert o. induction HF as [|f l Hf _ IH]; intros o Ho; [exact Ho|].
  apply IH. by apply evolves_mark.
Qed.

Lemma fire_evolves r o : r ∈ rules → evolves o (fire_flags r o).
Proof.
  intros Hr. apply evolves_marks; [|reflexivity]. apply Forall_forall. intros f Hf.
  exact (flag_bool f (rule_latching r f Hr Hf)).
Qed.

Lemma eligible_rule e o r : find (eligible e o) rules = Some r → r ∈ rules ∧ obs_true (r_flag r) o = false.
Proof.
  intros E. apply find_some in E as [Hr He]. split; [by apply list_elem_of_In|].
  unfold eligible in He. by apply andb_true_iff in He as [_ ?%negb_true_iff].
Qed.

Lemma execute_evolves name s : evolves (observed s) (observed (execute (G := G) name s)).
Proof.
  pattern (execute (G := G) name s). apply execute_cases; [reflexivity|]. intros. apply plant_decoy_evolves.
Qed.

Lemma step_evolves s l s' : step s l s' → evolves (observed s) (observed s').
Proof.
  intros [t cmd s0|op path s0|n r s0|name s0|e r rec s0 E|s0 s1 E|s0 s1 E|i u user ip p start bot rot s0 s1 E].
  - apply update_observations_evolves.
  - apply observe_vfs_event_evolves.
  - apply observe_search_event_evolves.
  - apply execute_evolves.
  - apply eligible_rule in E as [Hr _]. by apply fire_evolves.
  - by rewrite E.
  - exact E.
  - rewrite (reconnect_observed _ _ _ _ _ _ _ _ _ _ E). apply reconnect_evolves.
Qed.

Lemma run_evolves s fs s' : run s fs s' → evolves (observed s) (observed s').
Proof. induction 1 as [|s l s1 fs s2 Hs _ IH]; [done|]. etransitivity; [by eapply step_evolves | done]. Qed.

(** What is set stays set. *)
Lemma latching_back a b f : obs_le a b → latching f → obs_true f b = false → obs_true f a = false.
Proof.
  intros Hle [Hl _] Hb. apply not_true_is_false. intros Ha.
  rewrite (proj1 (Hle f Hl) Ha) in Hb. discriminate Hb.
Qed.

Lemma fired_flag r o : obs_true (r_flag r) (fire_flags r o) = true.
Proof. rewrite obs_true_fire, bool_decide_eq_true_2 by set_solver. reflexivity. Qed.

(** The flags a run fires were not set when it started, and are different. *)
Lemma run_fresh s fs s' : run s fs s' → obs_wf (observed s) →
  NoDup fs ∧ Forall (λ f, obs_true f (observed s) = false ∧ latching f) fs.
Proof.
  induction 1 as [|s l s1 fs s2 Hs _ IH]; intros Hwf; [split; constructor|].
  destruct (step_evolves _ _ _ Hs Hwf) as [Hwf1 Hle]. destruct (IH Hwf1) as [Hnd Hall].
  assert (Forall (λ f, obs_true f (observed s) = false ∧ latching f) fs) as Hs0.
  { refine (Forall_impl _ _ _ Hall _). intros f [H1 H2].
    exact (conj (latching_back _ _ f Hle H2 H1) H2). }
  destruct l as [f|]; [|exact (conj Hnd Hs0)].
  inversion Hs as [| | | |e r rec s0 E| | |]; subst. apply eligible_rule in E as [Hr Hf].
  assert (latching (r_flag r)) as Hl by (apply (rule_latching r); [exact Hr | left]).
  split; [|constructor; [exact (conj Hf Hl) | exact Hs0]].
  constructor; [|exact Hnd]. intros Hin.
  rewrite Forall_forall in Hall. destruct (Hall _ Hin) as [Ht _].
  cbn [observed with_observed with_actions update_mutable] in Ht. rewrite fired_flag in Ht. discriminate Ht.
Qed.
End engagement.

(** ** Properties *)

(** nothing observed is forgotten.  Along any engagement (commands, file events,
    searches, executed actions, fired rules, reconnects, and plugins that unset nothing, in any order) the
    observations keep the template's keys and types; every flag that was set stays
    set and every set only grows, the detector's three recomputed values apart. *)
Theorem observations_latch {G} `{Random G} `{Unicode} s fs s' :
  run (G := G) s fs s' → obs_wf (observed s) →
  obs_wf (observed s') ∧ obs_le (observed s) (observed s').
Proof. apply run_evolves. Qed.

(** every alert fires at most once per engagement.  Along any engagement, across
    reconnects, the sequence of fired rules has no repetition, and no rule fires whose
    flag was already set at the start. *)
Theorem fires_once {G} `{Random G} `{Unicode} s fs s' :
  run (G := G) s fs s' → obs_wf (observed s) →
  NoDup fs ∧ ∀ f, f ∈ fs → obs_true f (observed s) = false.
Proof.
  intros Hr Hwf. destruct (run_fresh s fs s' Hr Hwf) as [Hnd Hall]. split; [done|].
  intros f Hf. rewrite Forall_forall in Hall. exact (proj1 (Hall f Hf)).
Qed.

Definition after_sudo : Session := update_observations t0 "sudo -i"%py demo.
Definition sudo_rule `{Unicode} : option rule := find (eligible f0 (observed after_sudo)) rules.

Lemma sudo_rule_flag : r_flag <$> sudo_rule = Some "planted_sudo_cve"%py.
Proof. vm_compute. reflexivity. Qed.

Lemma demo_run : ∃ s', run (G := unit) demo ["planted_sudo_cve"%py] s'.
Proof.
  pose proof sudo_rule_flag as E. unfold sudo_rule in E.
  destruct (find _ rules) as [r|] eqn:Ef; [|done]. apply (inj Some) in E. rewrite <- E.
  eexists. eapply (run_cons _ None); [apply (step_command t0 "sudo -i"%py)|].
  eapply (run_cons _ (Some _)); [|apply run_nil]. eapply (step_fire _ _ ∅). exact Ef.
Qed.

Lemma observations_latch_witness : ∃ s', run (G := unit) demo ["planted_sudo_cve"%py] s' ∧ obs_wf (observed s').
Proof.
  destruct demo_run as [s' Hr]. exists s'. split; [exact Hr|].
  exact (proj1 (observations_latch demo _ s' Hr demo_wf)).
Defined.

Lemma fires_once_witness : NoDup ["planted_sudo_cve"%py].
Proof. destruct demo_run as [s' Hr]. exact (proj1 (fires_once demo _ s' Hr demo_wf)). Defined.
