(* ===== verification/Shell.v ===== *)
(** plenith/orchestrator.py, first part: the builtins that change the virtual
    filesystem ([_apply_write_ops]), [cd], [ls] and file reads.

    A handler runs on the session and returns a reply, nothing (the next handler is
    tried), or an exception; the session's changes survive an exception. *)

From S2P Require Import Prelude PyStr Vfs Regex Float Json CounterAI Synthetic Session.

(** ** Handlers *)

Definition act (A : Type) : Type := Session → exc A * Session.

Definition ret {A} (a : A) : act A := λ s, (Ok a, s).
Definition bind {A B} (m : act A) (f : A → act B) : act B := λ s,
  match m s with
  | (Ok a, s') => f a s'
  | (Raise e, s') => (Raise e, s')
  end.
Definition raise {A} (e : exn) : act A := λ s, (Raise e, s).
Definition modify (f : Session → Session) : act unit := λ s, (Ok tt, f s).
Definition asks {A} (f : Session → A) : act A := λ s, (Ok (f s), s).

Declare Scope act_scope.
Delimit Scope act_scope with act.
Notation "x <-- m ;; k" := (bind m (fun x => k))
  (at level 100, m at next level, right associativity) : act_scope.
Notation "m ;;; k" := (bind m (fun _ => k)) (at level 100, right associativity) : act_scope.

(** A reply: the body and the tag of its source. *)
Definition reply : Type := str * str.
Definition silent (source : str) : option reply := Some ([], source).
Definition err (body : str) : option reply := Some (body, "error"%py).

(** [a] if it replies, else [b]. *)
Definition orelse (a b : act (option reply)) : act (option reply) :=
  (r <-- a ;; match r with Some _ => ret r | None => b end)%act.

(** Run [f] on the match of [re] with [cmd], if there is one. *)
Definition on_match (re : regex) (cmd : str) (f : match_ → act (option reply)) : act (option reply) :=
  match re_match re cmd with Some m => f m | None => ret None end.

Definition grp (m : match_) (name : str) : str := default [] (group m name).

(** ** Patterns *)

Definition _D : str := "[-~‐–—−]"%py.

Definition _FILE_READ_RE : regex :=
  rx ("^\s*(?:cat|less|more|head|tail|bat|nl)"%py ++ "(?:\s+-n?\s*\d+)?"%py
      ++ "(?:\s+-[a-zA-Z]+)*"%py ++ "\s+(?P<path>[~/]?[\w./_-]+)\s*$"%py).

Definition _ECHO_REDIRECT_RE : regex :=
  rx ("^\s*echo\s+"%py ++ "(?P<nflag>-n\s+)?"%py
      ++ "(?:\x22(?P<dquoted>[^\x22]*)\x22|'(?P<squoted>[^']*)'|(?P<bare>[^>]*?))"%py
      ++ "\s*(?P<op>>>|>)\s*(?P<path>\S+)\s*$"%py).

Definition _TRUNCATE_RE : regex := rx "^\s*>\s*(?P<path>\S+)\s*$"%py.
Definition _TOUCH_RE : regex := rx "^\s*touch\s+(?:[-~‐–—−][a-zA-Z]+\s+)*(?P<path>\S+)\s*$"%py.
Definition _RM_RE : regex := rx "^\s*rm\s+(?:[-~‐–—−][a-zA-Z]+\s+)*(?P<path>\S+)\s*$"%py.

Definition _CP_RE : regex :=
  rx ("^\s*cp\s+(?P<flags>(?:"%py ++ _D ++ "[a-zA-Z]+\s+)*)(?P<src>\S+)\s+(?P<dst>\S+)\s*$"%py).
Definition _MV_RE : regex :=
  rx ("^\s*mv\s+(?P<flags>(?:"%py ++ _D ++ "[a-zA-Z]+\s+)*)(?P<src>\S+)\s+(?P<dst>\S+)\s*$"%py).
Definition _MKDIR_RE : regex :=
  rx ("^\s*mkdir\s+(?:(?P<pflag>"%py ++ _D ++ "p)\s+)?(?P<path>\S+)\s*$"%py).
Definition _RMDIR_RE : regex := rx "^\s*rmdir\s+(?P<path>\S+)\s*$"%py.

Definition _LS_RE : regex :=
  rx ("^\s*(?P<bin>ls|ll)"%py ++ "(?P<flags>(?:\s+[-~‐–—−][a-zA-Z]+)*)"%py
      ++ "(?:\s+(?P<path>~/?\S*|[^-~‐–—−\s][\S]*))?"%py ++ "\s*$"%py).

(** ** Access to the filesystem *)

Section handlers.
Context (t : moment).

Definition with_paths {A} (f : option str → option str → Session → A) : Session → A :=
  λ s, f (Some (cwd s)) (Some (home (persona s))) s.

(** [session.vfs.read(path, cwd=cwd, home=home)] and its sisters. *)
Definition do_read (path : str) : act (option str) := λ s,
  let '(b, s') := with_paths (vfs_read t path) s in (Ok b, s').
Definition do_write (path content : str) (append : bool) : act unit :=
  modify (with_paths (λ c h s, with_vfs (write path content c h append true (session_vfs s)) s)).
Definition do_touch (path : str) : act unit :=
  modify (with_paths (λ c h s, with_vfs (touch path c h (session_vfs s)) s)).
Definition do_unlink (path : str) : act unit :=
  modify (with_paths (λ c h s, with_vfs (unlink path c h (session_vfs s)) s)).
Definition do_event (op : vfs_event) (path : str) : act unit := modify (observe_vfs_event op path).

(** ** [_apply_write_ops] *)

(** The content an [echo] redirect writes. *)
Definition echo_content (m : match_) : str :=
  let payload := match group m "dquoted"%py, group m "squoted"%py with
                 | Some d, _ => d
                 | None, Some q => q
                 | None, None => strip (grp m "bare"%py)
                 end in
  match group m "nflag"%py with Some _ => payload | None => payload ++ "\n"%py end.

Definition op_echo (m : match_) : act (option reply) :=
  (let path := grp m "path"%py in
   do_write path (echo_content m) (bool_decide (grp m "op"%py = ">>"%py)) ;;;
   do_event EvWrite path ;;;
   ret (silent "vfs-write"%py))%act.

Definition op_truncate (m : match_) : act (option reply) :=
  (let path := grp m "path"%py in
   do_write path [] false ;;; do_event EvWrite path ;;; ret (silent "vfs-truncate"%py))%act.

Definition op_touch (m : match_) : act (option reply) :=
  (let path := grp m "path"%py in
   do_touch path ;;; do_event EvTouch path ;;; ret (silent "vfs-touch"%py))%act.

Definition op_rm (m : match_) : act (option reply) :=
  (let path := grp m "path"%py in
   do_unlink path ;;; do_event EvUnlink path ;;; ret (silent "vfs-rm"%py))%act.

Definition op_cp (m : match_) : act (option reply) :=
  (let src := grp m "src"%py in let dst := grp m "dst"%py in
   b <-- do_read src ;;
   match b with
   | None => ret (err ("cp: cannot stat '"%py ++ src ++ "': No such file or directory\n"%py))
   | Some body =>
       do_write dst body false ;;;
       do_event EvRead src ;;; do_event EvWrite dst ;;; ret (silent "vfs-cp"%py)
   end)%act.

Definition op_mv (m : match_) : act (option reply) :=
  (let src := grp m "src"%py in let dst := grp m "dst"%py in
   b <-- do_read src ;;
   match b with
   | None => ret (err ("mv: cannot stat '"%py ++ src ++ "': No such file or directory\n"%py))
   | Some body =>
       do_write dst body false ;;; do_unlink src ;;;
       do_event EvRead src ;;; do_event EvWrite dst ;;; do_event EvUnlink src ;;;
       ret (silent "vfs-mv"%py)
   end)%act.

Definition op_mkdir (m : match_) : act (option reply) :=
  (let path := grp m "path"%py in
   let with_p := bool_decide (is_Some (group m "pflag"%py)) in
   let keep_path := rstrip_char SLASH path ++ "/.keep"%py in
   present <-- asks (with_paths (λ c h s, exists_ path c h (session_vfs s))) ;;
   if present && negb with_p
   then ret (err ("mkdir: cannot create directory '"%py ++ path ++ "': File exists\n"%py))
   else do_write keep_path [] false ;;; do_event EvWrite keep_path ;;; ret (silent "vfs-mkdir"%py))%act.

Definition op_rmdir (m : match_) : act (option reply) :=
  (let path := grp m "path"%py in
   canon <-- asks (with_paths (λ c h _, _canon path c h)) ;;
   listing <-- asks (with_paths (λ c h s, list_directory_typed path c h (session_vfs s))) ;;
   let '(files, dirs) := listing in
   if negb (bool_decide (filter (λ f, f ≠ ".keep"%py) files = [] ∧ dirs = []))
   then ret (err ("rmdir: failed to remove '"%py ++ path ++ "': Directory not empty\n"%py))
   else
     (if bool_decide (".keep"%py ∈ files)
      then modify (λ s, with_vfs (unlink (canon ++ "/.keep"%py) None None (session_vfs s)) s)
      else ret tt) ;;;
     ret (silent "vfs-rmdir"%py))%act.

Definition _apply_write_ops (cmd : str) : act (option reply) :=
  orelse (on_match _ECHO_REDIRECT_RE cmd op_echo)
  (orelse (on_match _TRUNCATE_RE cmd op_truncate)
  (orelse (on_match _TOUCH_RE cmd op_touch)
  (orelse (on_match _RM_RE cmd op_rm)
  (orelse (on_match _CP_RE cmd op_cp)
  (orelse (on_match _MV_RE cmd op_mv)
  (orelse (on_match _MKDIR_RE cmd op_mkdir)
          (on_match _RMDIR_RE cmd op_rmdir))))))).

(** ** [cd] *)

Definition _resolve_cd (target cwd : str) (p : Persona) : str :=
  if bool_decide (target = [] ∨ target = "~"%py) then home p
  else if bool_decide (target = "-"%py) then cwd
  else if startswith target "~/"%py then home p ++ drop 1 target
  else if startswith target "/"%py then
    match rstrip_char SLASH target with [] => "/"%py | r => r end
  else if bool_decide (target = ".."%py) then
    match join [SLASH] (removelast (split_on SLASH (rstrip_char SLASH cwd))) with
    | [] => "/"%py
    | r => r
    end
  else rstrip_char SLASH cwd ++ "/"%py ++ target.

Definition do_cd (stripped : str) : act (option reply) :=
  (if startswith stripped "cd "%py then
     modify (λ s, with_cwd (_resolve_cd (strip (drop 3 stripped)) (cwd s) (persona s)) s) ;;;
     ret (silent "builtin"%py)
   else if bool_decide (stripped = "cd"%py) then
     modify (λ s, with_cwd (home (persona s)) s) ;;; ret (silent "builtin"%py)
   else ret None)%act.

(** ** [ls] *)

(** The letters of a flags group. *)
Definition _flag_chars_from (flag_section : str) : list N := filter (λ c, is_alpha c = true) flag_section.

Definition has_flag (c : N) (flags : list N) : bool := bool_decide (c ∈ flags).

(** [f"{n:>w}"]. *)
Definition pad_left (w : nat) (s : str) : str := repeat 32%N (w - length s) ++ s.
Definition pad_right (w : nat) (s : str) : str := s ++ repeat 32%N (w - length s).

Definition _ls_long_row (mode : str) (links : Z) (user name : str) (is_dir : bool) : str :=
  mode ++ " "%py ++ str_of_Z links ++ " "%py ++ user ++ " "%py ++ user ++ " "%py
    ++ pad_left 6 (str_of_Z (if is_dir then 4096 else 1024)) ++ " May 11 09:14 "%py ++ name.

Definition _render_ls_long (files dirs : list str) (user : str) (show_all : bool) : str :=
  let total := (Z.of_nat (length files + length dirs) + (if show_all then 2 else 0))%Z in
  join "\n"%py
    ([("total "%py ++ str_of_Z (total * 4))]
     ++ (if show_all then [_ls_long_row "drwxr-xr-x"%py 5 user "."%py true;
                           _ls_long_row "drwxr-xr-x"%py 3 user ".."%py true] else [])
     ++ map (λ d, _ls_long_row (if bool_decide (d ∈ [".ssh"; ".aws"; ".gnupg"]%py)
                                then "drwx------"%py else "drwxr-xr-x"%py) 1 user d true)
          (py_sorted dirs)
     ++ map (λ f, _ls_long_row "-rw-r--r--"%py 1 user f false) (py_sorted files)) ++ "\n"%py.

Definition is_hidden (name : str) : bool := startswith name "."%py.

(** The body of [ls] for a listing; [None] defers to the next handler. *)
Definition ls_body (flags : list N) (user : str) (files dirs : list str) : option str :=
  let show_all := has_flag 97 flags in
  match files, dirs with
  | [], [] => None
  | _, _ =>
      let files := filter (λ f, f ≠ ".keep"%py) files in
      let visible := filter (λ n, is_hidden n = false) in
      let files := if show_all then files else visible files in
      let dirs := if show_all then dirs else visible dirs in
      if has_flag 108 flags then Some (_render_ls_long files dirs user show_all)
      else Some (join "  "%py (py_sorted ((if show_all then ["."; ".."]%py else []) ++ dirs ++ files))
                   ++ "\n"%py)
  end.

Definition _ls_handler (cmd : str) : act (option reply) :=
  on_match _LS_RE cmd (λ m,
    (let flags := _flag_chars_from (grp m "flags"%py)
                  ++ (if bool_decide (grp m "bin"%py = "ll"%py) then [108; 97]%N else []) in
     r <-- asks (with_paths (λ c h s,
             let target := match grp m "path"%py with [] => cwd s | p => p end in
             let target := match rstrip_char SLASH target with [] => "/"%py | p => p end in
             let '(files, dirs) := list_directory_typed target c h (session_vfs s) in
             ls_body flags (username (persona s)) files dirs)) ;;
     ret (option_map (λ b, (b, "ls"%py)) r))%act).

(** ** File reads *)

Definition _read_vfs (cmd : str) : act (option reply) :=
  on_match _FILE_READ_RE cmd (λ m,
    (let path := grp m "path"%py in
     b <-- do_read path ;;
     match b with
     | None => ret None
     | Some body => do_event EvRead path ;;; ret (Some (body, "vfs-read"%py))
     end)%act).
End handlers.

(** ** Tests of the patterns *)

Definition groups_of (re : regex) (cmd : str) (names : list str) : option (list (option str)) :=
  m ← re_match re cmd; Some (map (group m) names).

Example echo_forms :
  map (λ c, m ← re_match _ECHO_REDIRECT_RE c; Some (echo_content m, grp m "op"%py, grp m "path"%py))
    ["echo \x22a b\x22 > /tmp/x"; "echo 'q' >>~/y"; "echo -n z>f"; "echo > f"; "echo hi"]%py
  = [Some ("a b\n", ">", "/tmp/x"); Some ("q\n", ">>", "~/y"); Some ("z", ">", "f");
     Some ("\n", ">", "f"); None]%py.
Proof. vm_compute. reflexivity. Qed.

Example write_forms :
  groups_of _CP_RE "cp –r /a ./b"%py ["flags"; "src"; "dst"]%py = Some [Some "–r "; Some "/a"; Some "./b"]%py ∧
  groups_of _MKDIR_RE "mkdir -p /x/y/"%py ["pflag"; "path"]%py = Some [Some "-p"; Some "/x/y/"]%py ∧
  groups_of _LS_RE "ls ~la ~/x"%py ["flags"; "path"]%py = Some [Some " ~la"; Some "~/x"]%py ∧
  groups_of _LS_RE "ll"%py ["bin"; "path"]%py = Some [Some "ll"%py; None] ∧
  groups_of _FILE_READ_RE "head -n 5 /etc/passwd"%py ["path"%py] = Some [Some "/etc/passwd"%py] ∧
  groups_of _RM_RE "rm -rf /var/log/auth.log"%py ["path"%py] = Some [Some "/var/log/auth.log"%py] ∧
  re_match _TOUCH_RE "touch"%py = None.
Proof. split_and!; vm_compute; reflexivity. Qed.

Example long_row :
  _ls_long_row "-rw-r--r--"%py 1 "jdoe"%py "a.txt"%py false
  = "-rw-r--r-- 1 jdoe jdoe   1024 May 11 09:14 a.txt"%py.
Proof. vm_compute. reflexivity. Qed.
