(* ===== verification/Search.v ===== *)
(** plenith/orchestrator.py, second part: [find], [grep], [awk] and [sed] over the
    virtual filesystem. *)

From S2P Require Import Prelude PyStr Glob Vfs Regex Float Json CounterAI Synthetic Session Shell.

(** ** Helpers *)

Definition is_quote (c : N) : bool := (c =? 34)%N || (c =? 39)%N.

Definition _strip_quotes (s : str) : str :=
  match s with
  | [] => []
  | c :: r => if (c =? List.last s 0)%N && is_quote c then removelast r else s
  end.

(** ** Patterns *)

Definition _FIND_NAME_RE : regex := rx (_D ++ "name\s+(?P<name>\x22[^\x22]+\x22|'[^']+'|\S+)"%py).
Definition _FIND_TYPE_RE : regex := rx (_D ++ "type\s+(?P<t>[fd])"%py).
Definition _FIND_RE : regex := rx "^\s*find\s+(?P<root>\S+)(?P<rest>(?:\s+\S+)*)\s*$"%py.

Definition _GREP_RE : regex :=
  rx ("^\s*grep\s+(?P<flags>(?:"%py ++ _D ++ "[a-zA-Z]+\s+)*)"%py
      ++ "(?P<pattern>\x22[^\x22]+\x22|'[^']+'|\S+)"%py ++ "\s+(?P<target>\S+)\s*$"%py).

Definition _AWK_RE : regex :=
  rx ("^\s*awk\s+"%py ++ "(?:"%py ++ _D ++ "F\s*(?P<sep>\S+)\s+)?"%py
      ++ "(?P<prog>'[^']*'|\x22[^\x22]*\x22)\s+"%py ++ "(?P<target>\S+)\s*$"%py).
Definition _AWK_PRINT_RE : regex := rx "^\s*\{\s*print\s+(?P<fields>[^}]+?)\s*\}\s*$"%py.

Definition _SED_RE : regex :=
  rx ("^\s*sed\s+"%py ++ "(?P<flags>(?:"%py ++ _D ++ "[a-zA-Z]+\s+)*)"%py
      ++ "(?P<prog>'[^']*'|\x22[^\x22]*\x22)\s+"%py ++ "(?P<target>\S+)\s*$"%py).
Definition _SED_PRINT_RE : regex := rx "^\s*(\d+)(?:,(\d+))?\s*p\s*$"%py.
Definition _SED_SUBST_RE : regex :=
  rx "^\s*s([/|@#])(?P<pat>(?:\\\\.|[^\\\\])+?)\\1(?P<repl>(?:\\\\.|[^\\\\])*?)\\1(?P<flags>[gIip0-9]*)\s*$"%py.

(** ** [_traverse] *)

(** The ancestors of a file that the loop records: from [parent] up to [canon]. *)
Fixpoint ancestors (fuel : nat) (canon parent : str) : list str :=
  match fuel with
  | 0 => []
  | S f =>
      if negb (bool_decide (parent = [])) && startswith parent (rstrip_char SLASH canon)
         && negb (bool_decide (parent = canon))
      then parent :: ancestors f canon (dirname_of parent)
      else []
  end.

Definition traverse_prefix (canon : str) : str :=
  if bool_decide (canon = "/"%py) then canon else rstrip_char SLASH canon ++ "/"%py.

Definition under (canon path : str) : bool :=
  bool_decide (path = canon) || startswith path (traverse_prefix canon).

(** The files under [root] (in the order of the snapshot) and the directories. *)
Definition _traverse (root : str) (s : Session) : list str * list str :=
  let canon := _canon root (Some (cwd s)) (Some (home (persona s))) in
  let files := filter (λ p, under canon p = true) (live_paths (session_vfs s)) in
  (files,
   sorted_set (list_to_set
     (flat_map (λ p, ancestors (S (length p)) canon (dirname_of p)) files))).

Section search.
Context (t : moment).

(** ** [find] *)

Definition find_results (canon : str) (name_pat : option str) (type_filter : option N)
    (files dirs : list str) : list str :=
  let named p := match name_pat with
                 | Some ((_ :: _) as pat) => _fnmatch (basename_of p) pat
                 | _ => true
                 end in
  let only c := bool_decide (type_filter = Some c) in
  (if only 102%N then [] else [canon])
  ++ filter (λ p, negb (bool_decide (basename_of p = ".keep"%py)) && named p && negb (only 100%N) = true)
       (py_sorted files)
  ++ filter (λ p, named p && negb (only 102%N) = true) (py_sorted dirs).

Definition _handle_find (m : match_) : act (option reply) :=
  (let root := grp m "root"%py in
   let rest := grp m "rest"%py in
   let name_pat := x ← re_search _FIND_NAME_RE rest; Some (_strip_quotes (grp x "name"%py)) in
   let type_filter := x ← re_search _FIND_TYPE_RE rest; hd_error (grp x "t"%py) in
   modify (observe_search_event name_pat None) ;;;
   results <-- asks (λ s,
     let '(files, dirs) := _traverse root s in
     let canon := _canon root (Some (cwd s)) (Some (home (persona s))) in
     find_results canon name_pat type_filter files dirs) ;;
   ret (Some (match results with [] => [] | _ => join "\n"%py results ++ "\n"%py end, "find"%py)))%act.

(** ** [grep] *)

(** [session.vfs.read(path, cwd=None, home=None)]. *)
Definition do_read_abs (path : str) : act (option str) := λ s,
  let '(b, s') := vfs_read t path None None s in (Ok b, s').

Record grep_opts := mk_grep_opts { g_recursive : bool; g_list : bool; g_numbers : bool }.

(** The lines of one file that match, as printed. *)
Fixpoint grep_lines (re : regex) (o : grep_opts) (path : str) (ln : Z) (lines : list str) : list str :=
  match lines with
  | [] => []
  | l :: rest =>
      if searches re l
      then ((if g_recursive o then path ++ ":"%py else [])
            ++ (if g_numbers o then str_of_Z ln ++ ":"%py else []) ++ l)
           :: grep_lines re o path (ln + 1) rest
      else grep_lines re o path (ln + 1) rest
  end.

(** The loop over the files: [matched] are the files with a match so far. *)
Fixpoint grep_loop (re : regex) (o : grep_opts) (matched : gset str) (out : list str)
    (files : list str) : act (gset str * list str) :=
  match files with
  | [] => ret (matched, out)
  | path :: rest =>
      (b <-- do_read_abs path ;;
       match b with
       | None => grep_loop re o matched out rest
       | Some body =>
           let lines := splitlines body in
           let matched := if existsb (searches re) lines then {[path]} ∪ matched else matched in
           let out := if g_list o then out else out ++ grep_lines re o path 1 lines in
           (if bool_decide (matched = ∅) then ret tt else modify (observe_vfs_event EvRead path)) ;;;
           grep_loop re o matched out rest
       end)%act
  end.

Definition grep_reply (o : grep_opts) (r : gset str * list str) : reply :=
  let lines := if g_list o then sorted_set r.1 else r.2 in
  (match lines with [] => [] | _ => join "\n"%py lines ++ "\n"%py end, "grep"%py).

Definition _handle_grep (m : match_) : act (option reply) :=
  (let flags := _flag_chars_from (grp m "flags"%py) in
   let recursive := has_flag 114 flags || has_flag 82 flags in
   let o := mk_grep_opts recursive (has_flag 108 flags) (has_flag 110 flags) in
   let pattern := _strip_quotes (grp m "pattern"%py) in
   let target := grp m "target"%py in
   modify (observe_search_event None (Some pattern)) ;;;
   match compile (if has_flag 105 flags then IGNORECASE else no_flags) pattern with
   | None => ret (err ("grep: invalid pattern: "%py ++ pattern ++ "\n"%py))
   | Some re =>
       files <-- asks (λ s,
         if recursive then Some (filter (λ p, endswith p "/.keep"%py = false) (_traverse target s).1)
         else
           let canon := _canon target (Some (cwd s)) (Some (home (persona s))) in
           if exists_ canon None None (session_vfs s) then Some [canon] else None) ;;
       match files with
       | None => ret (err ("grep: "%py ++ target ++ ": No such file or directory\n"%py))
       | Some files =>
           r <-- grep_loop re o ∅ [] (py_sorted files) ;; ret (Some (grep_reply o r))
       end
   end)%act.

Definition _search_handler (cmd : str) : act (option reply) :=
  orelse (on_match _FIND_RE cmd _handle_find) (on_match _GREP_RE cmd _handle_grep).

(** ** [awk] *)

(** What one token of a print list yields on a line with the columns [cols]. *)
Definition awk_token (line : str) (cols : list str) (tok : str) : str :=
  if bool_decide (tok = "$0"%py) then line
  else match tok with
       | 36%N :: r =>
           match py_int r with
           | Some idx =>
               if (idx =? 0)%Z then line
               else if (1 <=? idx)%Z && (idx <=? Z.of_nat (length cols))%Z
                    then nth (Z.to_nat (idx - 1)) cols []
                    else []
           | None => []
           end
       | _ => if bool_decide (tok = "NF"%py) then str_of_Z (Z.of_nat (length cols))
              else _strip_quotes tok
       end.

Definition awk_line (sep : option str) (toks : list str) (line : str) : str :=
  let cols := match sep with
              | Some ((_ :: _) as s) => split_sep s line
              | _ => split_ws line
              end in
  join " "%py (map (awk_token line cols) toks).

(** [("\n".join(lines) + "\n") if lines else ""]. *)
Definition lines_body (lines : list str) : str :=
  match lines with [] => [] | _ => join "\n"%py lines ++ "\n"%py end.

Definition _render_awk (m : match_) : act (option reply) :=
  (let prog := _strip_quotes (grp m "prog"%py) in
   let target := grp m "target"%py in
   b <-- do_read t target ;;
   match b with
   | None => ret None
   | Some body =>
       do_event EvRead target ;;;
       match re_match _AWK_PRINT_RE prog with
       | None => ret None
       | Some m2 =>
           let toks := map strip (split_on 44 (grp m2 "fields"%py)) in
           ret (Some (lines_body (map (awk_line (group m "sep"%py) toks) (splitlines body)), "awk"%py))
       end
   end)%act.

(** ** [sed] *)

Definition sed_slice (m : match_) (lines : list str) : list str :=
  let num n := d ← group_n m n; py_int d in
  let start := default 0%Z (num 1) in
  let last := default start (num 2) in
  take (Z.to_nat last - Z.to_nat (start - 1)) (drop (Z.to_nat (start - 1)) lines).

Fixpoint sub_lines (re : regex) (repl : str) (count : nat) (lines : list str) : exc (list str) :=
  match lines with
  | [] => Ok []
  | l :: rest =>
      exc_bind (re_sub re repl count l) (λ x,
        exc_bind (sub_lines re repl count rest) (λ xs, Ok (x :: xs)))
  end.

Definition _render_sed (m : match_) : act (option reply) :=
  (let prog := _strip_quotes (grp m "prog"%py) in
   let target := grp m "target"%py in
   b <-- do_read t target ;;
   match b with
   | None => ret None
   | Some body =>
       do_event EvRead target ;;;
       match re_match _SED_PRINT_RE prog with
       | Some m2 => ret (Some (lines_body (sed_slice m2 (splitlines body)), "sed"%py))
       | None =>
           match re_match _SED_SUBST_RE prog with
           | None => ret None
           | Some m3 =>
               let pat := grp m3 "pat"%py in
               let repl := replace_str "\\&"%py "&"%py (grp m3 "repl"%py) in
               let fl := grp m3 "flags"%py in
               let ic := bool_decide (73%N ∈ fl) || bool_decide (105%N ∈ fl) in
               let count := if bool_decide (103%N ∈ fl) then 0 else 1 in
               match compile (if ic then IGNORECASE else no_flags) pat with
               | None => ret (err ("sed: invalid pattern: "%py ++ pat ++ "\n"%py))
               | Some re =>
                   match sub_lines re repl count (splitlines body) with
                   | Ok lines => ret (Some (lines_body lines, "sed"%py))
                   | Raise e => raise e
                   end
               end
           end
       end
   end)%act.

Definition _textproc_handler (cmd : str) : act (option reply) :=
  orelse (on_match _AWK_RE cmd _render_awk) (on_match _SED_RE cmd _render_sed).
End search.

(** ** Tests on a session *)

Definition run_act {A} (a : act A) (s : Session) : exc A := (a s).1.

Example find_keys :
  run_act (_search_handler t0 "find ~ -name 'id_*' -type f"%py) demo
  = Ok (Some ("/home/jdoe/.ssh/id_rsa\n/home/jdoe/.ssh/id_rsa.pub\n", "find"))%py.
Proof. vm_compute. reflexivity. Qed.

Example grep_root :
  run_act (_search_handler t0 "grep -n root: /etc/passwd"%py) demo
  = Ok (Some ("1:root:x:0:0:root:/root:/bin/bash\n", "grep"))%py.
Proof. vm_compute. reflexivity. Qed.

Example sed_forms :
  run_act (_textproc_handler t0 "sed -n '1,2p' /etc/group"%py) demo
    = Ok (Some ("root:x:0:\ndaemon:x:1:\n", "sed"))%py ∧
  run_act (_textproc_handler t0 "sed 's/corp-(app)01/\\1-x/' /etc/hostname"%py) demo
    = Ok (Some ("app-x\n", "sed"))%py ∧
  run_act (_textproc_handler t0 "sed 's/corp/\\q/' /etc/hostname"%py) demo = Raise ReError.
Proof. split_and!; vm_compute; reflexivity. Qed.

Example awk_forms :
  run_act (_textproc_handler t0 "awk -F: '{print $1, NF}' /etc/hostname"%py) demo
    = Ok (Some ("corp-app01 1\n", "awk"))%py.
Proof. vm_compute. reflexivity. Qed.
