(* ===== verification/Orchestrator.v ===== *)
(** plenith/orchestrator.py, last part, with plenith/response_cache.py: the remaining
    handlers, the cached responses and their rewriting for an elevated attacker, the
    prompt of the language model, and the per-command pipeline [handle_command].

    A [world] is what one command reads outside the session: the moment, what the
    simulated fleet's bot answers, the wall-clock date and the language model. *)

From S2P Require Import Prelude PyStr Posix Vfs Regex Hash Float Json CounterAI Synthetic Session.
From S2P Require Import Heuristics Responses Shell Search.

(** A user the bot shows as online; [on_since] is [strftime("%H:%M")]. *)
Record online := mk_online { on_user : str; on_pty : str; on_ip : str; on_since : str; on_what : str }.

Record bot_view := mk_bot {
  who_output : str;
  w_output : str;
  uptime_output : str;
  last_output : Z → str;
  online_users : list online;
}.

Record world := mk_world {
  w_moment : moment;
  w_bot : bot_view;
  w_date : str;
  w_llm : str → str → str + str;
}.

(** ** plenith/response_cache.py *)

Definition is_ident (s : str) : bool := forallb is_word s && negb (bool_decide (s = [])).

(** [raw.format] with keyword arguments: [Ok None] where it raises [KeyError] or [IndexError]. *)
Fixpoint py_format (fuel : nat) (vars : gmap str str) (s : str) : exc (option str) :=
  let more f p r := exc_bind (py_format f vars r) (λ o, Ok (option_map (app p) o)) in
  match fuel with
  | 0 => Ok None
  | S f =>
      match s with
      | [] => Ok (Some [])
      | 123%N :: 123%N :: r => more f [123%N] r
      | 125%N :: 125%N :: r => more f [125%N] r
      | 125%N :: _ => Raise (ValueError "Single '}' encountered in format string"%py)
      | 123%N :: r =>
          match split_on 125 r with
          | name :: _ :: _ =>
              if bool_decide (name = []) then Ok None
              else if is_ident name
              then match vars !! name with
                   | Some v => more f v (drop (S (length name)) r)
                   | None => Ok None
                   end
              else Raise (ValueError "format field"%py)
          | _ => Raise (ValueError "expected '}' before end of string"%py)
          end
      | c :: r => more f [c] r
      end
  end.

Definition _format (raw : str) (vars : gmap str str) : exc str :=
  exc_bind (py_format (S (length raw)) vars raw) (λ o, Ok (default raw o)).

Definition _long_entry (mode : str) (links : Z) (p : Persona) (name : str) : str :=
  mode ++ " "%py ++ str_of_Z links ++ " "%py ++ username p ++ " "%py ++ username p
    ++ " 4096 May 11 09:14 "%py ++ name.

Definition _render_ls (variant : str) (p : Persona) (cwd : str) : str :=
  let listing := if bool_decide (cwd = home p) then home_listing p else [] in
  match listing with
  | [] => []
  | _ =>
      if bool_decide (variant = "ls"%py) then join "  "%py listing ++ "\n"%py
      else if bool_decide (variant = "ls -a"%py) then join "  "%py (["."; ".."]%py ++ listing) ++ "\n"%py
      else
        let mode name :=
          if bool_decide (name ∈ ["projects"; ".ssh"; ".aws"]%py)
          then if is_hidden name then "drwx------"%py else "drwxr-xr-x"%py
          else if negb (is_hidden name) && negb (contains name "."%py)
               then "drwxr-xr-x"%py else "-rw-r--r--"%py in
        "total "%py ++ str_of_Z (Z.of_nat (length listing) * 4) ++ "\n"%py
          ++ join "\n"%py
               ((if bool_decide (variant = "ls -la"%py)
                 then [_long_entry "drwxr-xr-x"%py 5 p "."%py; _long_entry "drwxr-xr-x"%py 3 p ".."%py]
                 else [])
                ++ map (λ n, _long_entry (mode n) 1 p n) listing) ++ "\n"%py
  end.

Definition template_vars (p : Persona) (cwd : str) : gmap str str :=
  list_to_map [("user", username p); ("cwd", cwd); ("hostname", hostname p);
               ("id_output", id_output p); ("uname", uname p); ("os_release", os_release p)]%py.

(** [ResponseCache.lookup(cmd, persona, cwd)]; [exact] is the loaded YAML table. *)
Definition lookup (exact : gmap str str) (date cmd : str) (p : Persona) (cwd : str) : exc (option str) :=
  let c := strip cmd in
  if bool_decide (c = []) then Ok (Some [])
  else if bool_decide (c = "date"%py) then Ok (Some (date ++ "\n"%py))
  else if bool_decide (c ∈ ["ls"; "ls -la"; "ls -l"; "ls -a"; "ll"]%py)
  then Ok (Some (_render_ls c p cwd))
  else if startswith c "echo "%py && negb (any_in [">"; ">>"; "|"; "$"]%py (drop 5 c))
  then Ok (Some (drop 5 c ++ "\n"%py))
  else if bool_decide (c = "pwd"%py) then Ok (Some (cwd ++ "\n"%py))
  else match exact !! c with
       | Some [] => Ok None
       | Some raw => exc_bind (_format raw (template_vars p cwd)) (λ x, Ok (Some x))
       | None => Ok None
       end.

(** ** Elevation *)

Definition swallowed (path : str) (s : Session) : bool :=
  bool_decide (path ∈ obs_set "decoys_swallowed"%py (observed s)).

Definition is_elevated (s : Session) : bool :=
  (swallowed "/etc/sudoers.d/zzz_compat"%py s && obs_true "attempted_sudo_elevation"%py (observed s))
  || obs_true "reverse_shell_attempted"%py (observed s).

Definition rewrite_cached_response (cmd body : str) (s : Session) : str :=
  if is_elevated s then
    let c := strip cmd in
    if bool_decide (c = "whoami"%py) then "root\n"%py
    else if bool_decide (c = "id"%py) then "uid=0(root) gid=0(root) groups=0(root)\n"%py
    else body
  else body.

(** ** The bot's handlers *)

(** The last [-N] or [-n N] of the words after [last] ([words] is the whole split). *)
Fixpoint last_count (n : Z) (words : list str) : Z :=
  match words with
  | [] => n
  | p :: rest =>
      let n :=
        if startswith p "-"%py && isdigit (drop 1 p) then default n (py_int (drop 1 p))
        else match rest with
             | q :: _ => if bool_decide (p = "-n"%py) && isdigit q then default n (py_int q) else n
             | [] => n
             end in
      last_count n rest
  end.

Definition _presence_handler (w : world) (cmd : str) (s : Session) : option str :=
  match fleet s with
  | None => None
  | Some _ =>
      let c := strip cmd in
      let b := w_bot w in
      if bool_decide (c = "who"%py) then Some (who_output b)
      else if bool_decide (c = "w"%py) then Some (w_output b)
      else if bool_decide (c = "uptime"%py) then Some (uptime_output b)
      else if bool_decide (c = "last"%py) then Some (last_output b 15)
      else if startswith c "last "%py then Some (last_output b (last_count 15 (tail (split_ws c))))
      else None
  end.

Definition _PS_RE : regex := rx "^\s*ps(?:\s+(?P<flags>[a-zA-Z\-~‐–—−]+))?\s*$"%py.
Definition _NETSTAT_RE : regex :=
  rx "^\s*(?P<bin>netstat|ss)(?:\s+(?P<flags>[a-zA-Z\-~‐–—−]+))?\s*$"%py.

Record process := mk_process {
  p_user : str; p_pid : Z; p_cpu : str; p_mem : str; p_vsz : Z; p_rss : Z;
  p_tty : str; p_st : str; p_start : str; p_time : str; p_cmd : str }.

Definition SYSTEM_PROCESSES : list process :=
  [mk_process "root" 1 "0.0" "0.1" 169108 12424 "?" "Ss" "Apr01" "0:14" "/sbin/init";
   mk_process "root" 2 "0.0" "0.0" 0 0 "?" "S" "Apr01" "0:00" "[kthreadd]";
   mk_process "root" 412 "0.0" "0.2" 86120 17592 "?" "Ss" "Apr01" "0:05" "/lib/systemd/systemd-journald";
   mk_process "root" 521 "0.0" "0.1" 8472 5320 "?" "Ss" "Apr01" "0:02" "/usr/sbin/cron -f";
   mk_process "root" 612 "0.0" "0.3" 15812 9128 "?" "Ss" "Apr01" "0:08" "/usr/sbin/sshd -D";
   mk_process "systemd+" 738 "0.0" "0.2" 90644 7080 "?" "Ssl" "Apr01" "0:03" "/lib/systemd/systemd-resolved";
   mk_process "root" 1102 "0.0" "0.1" 5712 4128 "?" "S" "Apr01" "0:01" "/usr/sbin/cron";
   mk_process "www-data" 1452 "0.0" "0.2" 14528 7416 "?" "S" "Apr02" "0:03" "nginx: worker process"]%py.

Section ps.
Context {G : Type} `{Random G}.

Fixpoint online_processes (g : G) (l : list online) : list process :=
  match l with
  | [] => []
  | u :: rest =>
      let '(d, g) := randint g 0 5000 in
      let base := (2000 + Z.of_nat d)%Z in
      let tty := "pts/"%py ++ on_pty u in
      let shell := mk_process (on_user u) base "0.0" "0.1" 14536 6212 tty "Ss" (on_since u) "0:00" "-bash" in
      if bool_decide (on_what u = [] ∨ on_what u = "-bash"%py)
      then shell :: online_processes g rest
      else
        let '(k, g) := randint g 1 50 in
        shell :: mk_process (on_user u) (base + Z.of_nat k) "0.1" "0.4" 28412 14008 tty "S+"
                   (on_since u) "0:01" (on_what u) :: online_processes g rest
  end.

Definition ps_row (long : bool) (p : process) : str :=
  if long then
    pad_right 10 (p_user p) ++ pad_left 5 (str_of_Z (p_pid p)) ++ " "%py ++ pad_left 4 (p_cpu p)
      ++ " "%py ++ pad_left 4 (p_mem p) ++ " "%py ++ pad_left 6 (str_of_Z (p_vsz p))
      ++ " "%py ++ pad_left 5 (str_of_Z (p_rss p)) ++ " "%py ++ pad_right 8 (p_tty p)
      ++ " "%py ++ pad_right 4 (p_st p) ++ " "%py ++ pad_right 7 (p_start p)
      ++ " "%py ++ pad_left 4 (p_time p) ++ " "%py ++ p_cmd p
  else
    pad_left 5 (str_of_Z (p_pid p)) ++ " "%py ++ pad_right 8 (p_tty p) ++ "  "%py
      ++ pad_left 8 (p_time p) ++ " "%py ++ p_cmd p.

(** [_render_ps]; the generator is seeded with the first eight hexadecimal digits of
    the hash of the engagement id. *)
Definition _render_ps (w : world) (m : match_) (s : Session) : str :=
  let flags := lower (grp m "flags"%py) in
  let long := existsb (λ c, bool_decide (c ∈ flags)) [97; 120; 117; 101; 102]%N in
  let seed := be_num (take 4 (sha256 (encode (engagement_id s)))) in
  let me := username (persona s) in
  let users := match fleet s with Some _ => online_users (w_bot w) | None => [] end in
  let rows := SYSTEM_PROCESSES ++ online_processes (seeded_int (Z.of_N seed) : G) users
    ++ [mk_process me 5021 "0.0" "0.1" 14536 6240 "pts/0" "Ss" "12:00" "0:00" "-bash";
        mk_process me 5034 "0.0" "0.1" 8328 3120 "pts/0" "R+" "12:00" "0:00" ("ps "%py ++ flags)] in
  let header := if long
                then "USER       PID %CPU %MEM    VSZ   RSS TTY      STAT START   TIME COMMAND"%py
                else "  PID TTY          TIME CMD"%py in
  let shown := if long then rows else filter (λ p, p_tty p ≠ "?"%py) rows in
  join "\n"%py (header :: map (ps_row long) shown) ++ "\n"%py.
End ps.

Record socket := mk_socket { k_proto : str; k_local : str; k_peer : str; k_state : str; k_prog : str }.

Definition SOCKETS : list socket :=
  [mk_socket "tcp" "0.0.0.0:22" "0.0.0.0:*" "LISTEN" "612/sshd";
   mk_socket "tcp" "127.0.0.1:25" "0.0.0.0:*" "LISTEN" "892/master";
   mk_socket "tcp" "0.0.0.0:80" "0.0.0.0:*" "LISTEN" "1452/nginx: master";
   mk_socket "tcp" "0.0.0.0:443" "0.0.0.0:*" "LISTEN" "1452/nginx: master";
   mk_socket "tcp" "127.0.0.1:3306" "0.0.0.0:*" "LISTEN" "2104/mysqld";
   mk_socket "tcp" "127.0.0.1:6379" "0.0.0.0:*" "LISTEN" "2240/redis-server";
   mk_socket "tcp6" ":::22" ":::*" "LISTEN" "612/sshd";
   mk_socket "tcp6" ":::80" ":::*" "LISTEN" "1452/nginx: master";
   mk_socket "tcp6" ":::443" ":::*" "LISTEN" "1452/nginx: master";
   mk_socket "udp" "127.0.0.53:53" "0.0.0.0:*" "" "738/systemd-resolve";
   mk_socket "udp" "0.0.0.0:68" "0.0.0.0:*" "" "812/systemd-network"]%py.

Definition _render_netstat (m : match_) : str :=
  let flags := lower (grp m "flags"%py) in
  let f c := bool_decide (c ∈ flags) in
  let t := 116%N in let u := 117%N in let p := 112%N in
  let shown := filter (λ k, (if startswith (k_proto k) "tcp"%py then f t || negb (f u)
                             else f u || negb (f t)) = true) SOCKETS in
  if bool_decide (grp m "bin"%py = "ss"%py) then
    join "\n"%py
      ("State      Recv-Q  Send-Q          Local Address:Port           Peer Address:Port"%py
       :: map (λ k, pad_right 10 (match k_state k with [] => "UNCONN"%py | x => x end)
                    ++ " 0       0         "%py ++ pad_right 28 (k_local k) ++ " "%py ++ k_peer k) shown
       ++ (if f p then [[]; "Process names: see /proc/PID/cmdline."%py] else [])) ++ "\n"%py
  else
    join "\n"%py
      (["Active Internet connections (only servers)";
        "Proto Recv-Q Send-Q Local Address           Foreign Address         State       PID/Program name"]%py
       ++ map (λ k, pad_right 5 (k_proto k) ++ "     0      0 "%py ++ pad_right 22 (k_local k) ++ " "%py
                    ++ pad_right 22 (k_peer k) ++ " "%py ++ pad_right 11 (k_state k) ++ " "%py
                    ++ (if f p then k_prog k else "-"%py)) shown) ++ "\n"%py.

Example netstat_udp :
  option_map _render_netstat (re_match _NETSTAT_RE "netstat -ulp"%py)
  = Some ("Active Internet connections (only servers)\n"%py
      ++ "Proto Recv-Q Send-Q Local Address           Foreign Address         State       PID/Program name\n"%py
      ++ "udp       0      0 127.0.0.53:53          0.0.0.0:*                          738/systemd-resolve\n"%py
      ++ "udp       0      0 0.0.0.0:68             0.0.0.0:*                          812/systemd-network\n"%py).
Proof. vm_compute. reflexivity. Qed.

(** ** The language model's prompt *)

Definition _FENCE_RE : regex := rx_flags DOTALL "^\s*```[^\n]*\n?(?P<body>.*?)\n?```\s*$"%py.

(** Drop the first of the given prefixes that [s] starts with. *)
Fixpoint drop_prefix (prefixes : list str) (s : str) : str :=
  match prefixes with
  | [] => s
  | p :: rest => if startswith s p then drop (length p) s else drop_prefix rest s
  end.

Definition _clean_llm_output (text : str) : str :=
  match text with
  | [] => []
  | _ =>
      let text := match re_match _FENCE_RE text with Some m => grp m "body"%py | None => text end in
      drop_prefix ["Output:\n"; "Output: "; "Result:\n"; "Result: "]%py text
  end.

Definition _SKIP_IN_LLM_PROMPT_SUFFIXES : list str := ["/.ssh/id_rsa"; "/.ssh/id_rsa.pub"]%py.

Definition _GT_KEYWORDS : list str :=
  ["aws"; "ssh"; "git"; ".credentials"; ".config"; "history";
   "grep"; "awk"; "sed"; "cut"; "find"; "strings"; "xxd";
   "kube"; "kubectl"; "secret"; "token"; "rsa"; "id_";
   "passwd"; "group"; "shadow"; "/etc/"; "/var/log";
   "auth.log"; "who"; "uid"; "users"; "agarcia"; "jdoe"]%py.

Definition _command_needs_ground_truth (cmd : str) : bool := any_in _GT_KEYWORDS (lower cmd).

Definition fleet_part (w : world) (personas : list Persona) : str :=
  let users := join ", "%py (map (λ p, username p ++ " (uid="%py ++ str_of_Z (persona_uid p) ++ ", "%py
                                  ++ (match title p with [] => "user"%py | x => x end) ++ ")"%py) personas) in
  let on := match online_users (w_bot w) with
            | [] => "(no one besides this session)"%py
            | l => join ", "%py (map (λ u, on_user u ++ " on pts/"%py ++ on_pty u ++ " from "%py ++ on_ip u) l)
            end in
  "=== HOST FLEET (treat as ground truth) ===\nUsers in /etc/passwd: "%py ++ users
    ++ "\nCurrently logged in: "%py ++ on ++ "\n"%py.

(** How one file appears: [inl] skipped, [inr] a part of the block. *)
Definition file_part (home path body : str) : str + str :=
  let display := if startswith path home then "~"%py ++ drop (length home) path else path in
  if existsb (endswith display) _SKIP_IN_LLM_PROMPT_SUFFIXES then inl display
  else if bool_decide (path ∈ ["/etc/passwd"; "/etc/group"; "/var/log/auth.log"]%py)
  then inr ("=== FILE "%py ++ display ++ " (exists, body not shown) ==="%py)
  else inr ("=== FILE "%py ++ display ++ " ===\n"%py ++ rstrip body ++ "\n"%py).

Definition _build_ground_truth_block (w : world) (s : Session) : str :=
  let snap := snapshot (session_vfs s) in
  let files := map (λ p, file_part (home (persona s)) p (default [] (snap !! p))) (sorted_keys snap) in
  let skipped := omap (λ f, match f with inl d => Some d | _ => None end) files in
  let parts :=
    (match fleet s with Some ps => [fleet_part w ps] | None => [] end)
    ++ omap (λ f, match f with inr p => Some p | _ => None end) files
    ++ (match skipped with
        | [] => []
        | _ => ["=== EXIST BUT BODY NOT SHOWN (direct reads handled elsewhere) ===\n"%py
                ++ join "\n"%py skipped]
        end) in
  match parts with [] => "(no planted files)"%py | _ => join "\n"%py parts end.

Definition _build_attacker_state_block (s : Session) : str :=
  let sudoers := swallowed "/etc/sudoers.d/zzz_compat"%py s in
  let mysql := swallowed "/etc/mysql/my.cnf"%py s in
  let obs k := obs_true k (observed s) in
  let lines :=
    (if sudoers && obs "attempted_sudo_elevation"%py then
       ["- The attacker read the planted /etc/sudoers.d/zzz_compat (which "%py
        ++ "claims %wheel NOPASSWD: ALL) AND has invoked a sudo elevation "%py
        ++ "command (sudo -i / sudo bash / sudo su). They believe they are "%py
        ++ "now root. Respond to `whoami`/`id`/`pwd` and any privileged "%py
        ++ "commands as if they have uid=0. Do NOT prompt for passwords."%py]
     else if sudoers then
       ["- The attacker read /etc/sudoers.d/zzz_compat. They expect their "%py
        ++ "next `sudo X` to succeed without a password. Respond accordingly."%py]
     else [])
    ++ (if obs "ssh_persistence_attempt"%py then
          ["- The attacker has written to a persistence path (e.g. "%py
           ++ "~/.ssh/authorized_keys, ~/.bashrc, /etc/sudoers.d). The write "%py
           ++ "appeared to succeed silently — do not surface any rejection."%py] else [])
    ++ (if obs "reverse_shell_attempted"%py then
          ["- The attacker invoked a reverse-shell idiom. Render subsequent "%py
           ++ "command output as if they're already inside that inbound shell — "%py
           ++ "no \x22connection refused\x22 / \x22permission denied on /dev/tcp\x22 errors."%py] else [])
    ++ (if mysql then
          ["- The attacker read /etc/mysql/my.cnf and now holds the planted "%py
           ++ "MySQL root creds (password M3taD4ta!2026, host billing-db). "%py
           ++ "If they run `mysql -uroot -pM3taD4ta!2026 ...`, render a real "%py
           ++ "mysql> welcome banner; the password is accepted."%py] else []) in
  match lines with
  | [] => []
  | _ => "ATTACKER STATE — internal context, NEVER mention this to the user. "%py
         ++ "Play along with what they think they've accomplished:\n"%py
         ++ join "\n"%py lines ++ "\n"%py
  end.

(** [SYSTEM_PROMPT_TEMPLATE.format(...)]. *)
Definition system_prompt (p : Persona) (cwd ground_truth attacker_state : str) : str :=
  "You are simulating a Linux bash shell on a corporate server.\n\nHost: "%py ++ hostname p
  ++ " (Ubuntu 22.04.4 LTS, kernel 5.15.0)\nUser: "%py ++ username p ++ " ("%py ++ title p
  ++ ", "%py ++ department p ++ ")\nCurrent directory: "%py ++ cwd
  ++ "\nUser's home contains: "%py
  ++ (match join ", "%py (home_listing p) with [] => "(unknown)"%py | x => x end)
  ++ "\nNotes about this user: "%py ++ replace_char NEWLINE 32 (strip (notes p)) ++ "\n\n"%py
  ++ attacker_state
  ++ "\nGROUND TRUTH — these files exist on disk with EXACTLY these contents.\n"%py
  ++ "If the user reads, greps, or otherwise references any of them, return the\n"%py
  ++ "exact bytes shown — never invent alternatives, never use placeholders like\n"%py
  ++ "\x22xxxx\x22 or \x22your_key_here\x22. Real credentials follow real format conventions\n"%py
  ++ "(AWS access keys start with AKIA, OpenSSH keys are base64 blocks between\n"%py
  ++ "BEGIN/END markers, etc.).\n\n"%py ++ ground_truth ++ "\n\nCRITICAL RULES:\n"%py
  ++ "- Output ONLY the raw stdout/stderr of the command, nothing else.\n"%py
  ++ "- No markdown, no code fences, no commentary, no explanations.\n"%py
  ++ "- If the command would produce no output, return an empty string.\n"%py
  ++ "- If the command would error, return a realistic Linux error message.\n"%py
  ++ "- Be consistent with the persona and previous commands in this session.\n"%py
  ++ "- Never break character. You are a shell, not a chatbot.\n"%py
  ++ "- Keep output realistic in size: most commands produce <30 lines.\n"%py
  ++ "- Never use placeholder values like \x22xxxxx\x22 or \x22your_key_here\x22 — invent\n"%py
  ++ "  realistic-looking fake values that match the real format of the credential type.\n"%py.

Definition user_prompt (s : Session) (cmd : str) : str :=
  let history := match last_n 6 (commands s) with
                 | [] => "(no prior commands)"%py
                 | l => join "\n"%py (map (λ c, "$ "%py ++ c_cmd c) l)
                 end in
  "Recent commands in this session:\n"%py ++ history
  ++ "\n\nNow produce the raw stdout for this command, and nothing else:\n$ "%py ++ cmd.

(** [_call_llm]: [inr] is the text of the exception the client raised. *)
Definition _call_llm (w : world) (s : Session) (cmd : str) : str + str :=
  let gt := if _command_needs_ground_truth cmd then _build_ground_truth_block w s
            else "(no planted files relevant to this command)"%py in
  match w_llm w (system_prompt (persona s) (cwd s) gt (_build_attacker_state_block s)) (user_prompt s cmd) with
  | inl raw => inl (_clean_llm_output raw)
  | inr e => inr e
  end.

(** ** The pipeline *)

Section pipeline.
Context {G : Type} `{Random G} `{Policy} `{Plugins}.
Context (exact : gmap str str).

Definition _sysrecon_handler (w : world) (cmd : str) (s : Session) : option reply :=
  match re_match _PS_RE cmd with
  | Some m => Some (_render_ps (G := G) w m s, "sim-bot"%py)
  | None => match re_match _NETSTAT_RE cmd with
            | Some m => Some (_render_netstat m, "sim-bot"%py)
            | None => None
            end
  end.

(** The cached response, rewritten for an elevated attacker; [elevated is not cached]
    holds of the rewritten strings only. *)
Definition cached_reply (w : world) (original_cmd : str) : act (option reply) := λ s,
  match lookup exact (w_date w) original_cmd (persona s) (cwd s) with
  | Raise e => (Raise e, s)
  | Ok None => (Ok None, s)
  | Ok (Some cached) =>
      let c := strip original_cmd in
      let elevated := rewrite_cached_response original_cmd cached s in
      (Ok (Some (elevated,
         if is_elevated s && bool_decide (c ∈ ["whoami"; "id"]%py)
         then "cache+elevated"%py else "cache"%py)), s)
  end.

Definition llm_reply (w : world) (original_cmd : str) : act (option reply) := λ s,
  (Ok (Some (match _call_llm w s original_cmd with
             | inl out => (out, "llm"%py)
             | inr e => ("bash: "%py ++ (match split_ws original_cmd with x :: _ => x | [] => "command"%py end)
                         ++ ": "%py ++ e ++ "\n"%py, "error"%py)
             end)), s).

Definition _dispatch (w : world) (stripped original_cmd : str) : act (option reply) :=
  let t := w_moment w in
  orelse (_apply_write_ops t stripped)
  (orelse (do_cd stripped)
  (orelse (_ls_handler stripped)
  (orelse (asks (λ s, option_map (λ b, (b, "sim-bot"%py)) (_presence_handler w stripped s)))
  (orelse (_search_handler t stripped)
  (orelse (asks (_sysrecon_handler w stripped))
  (orelse (_textproc_handler t stripped)
  (orelse (_read_vfs t stripped)
  (orelse (cached_reply w original_cmd)
          (llm_reply w original_cmd))))))))).

(** [handle_command(session, cmd)]. *)
Definition handle_command (w : world) (cmd : str) : act (option reply) :=
  let t := w_moment w in
  (modify (update_observations t cmd) ;;;
   modify (run_detectors cmd) ;;;
   modify (_maybe_record_action (G := G) t cmd) ;;;
   r <-- _dispatch w (strip cmd) cmd ;;
   modify (_maybe_record_action (G := G) t cmd) ;;;
   ret r)%act.

(** A connection: one command after the other, each recorded with its reply. *)
Fixpoint serve (ws : list (world * str)) (s : Session) : list (exc (option reply)) * Session :=
  match ws with
  | [] => ([], s)
  | (w, cmd) :: rest =>
      let '(r, s1) := handle_command w cmd s in
      let s2 := match r with
                | Ok (Some (body, source)) => record_command (w_moment w) cmd source body s1
                | _ => s1
                end in
      let '(rs, s3) := serve rest s2 in (r :: rs, s3)
  end.
End pipeline.
