(* ===== verification/Pipeline.v ===== *)
(** What one command does to the session, as theorems about the handlers and the
    pipeline of plenith/orchestrator.py.

    A relation between sessions that the primitive operations respect is respected by
    every handler ([keeps]); the pipeline is then an engagement in the sense of
    [Engagement.run], and every alert is recorded at most once per connection. *)

From S2P Require Import Prelude PyStr Posix Vfs Regex Float Json CounterAI Synthetic Session.
From S2P Require Import Heuristics Responses Engagement Shell Search Orchestrator.

(** ** Relations kept by handlers *)

Definition keeps {A} (R : Session → Session → Prop) (a : act A) : Prop := ∀ s, R s (a s).2.

(** A filesystem call made at the session's working directory, or at none. *)
Definition op_cwd (o : vfs_op (R := renderer)) : option str :=
  match o with
  | ORead _ c _ | OWrite _ _ c _ _ _ | OTouch _ c _ | OUnlink _ c _ | ORegister _ _ c _ => c
  end.
Definition call_vfs (t : moment) (o : vfs_op (R := renderer)) (s : Session) : Session :=
  with_vfs (exec_op (run_renderer t s) (session_vfs s) o) s.

(** What the handlers do to a session, one primitive at a time. *)
Class Primitives (R : Session → Session → Prop) : Prop := {
  prim_preorder :: PreOrder R;
  prim_vfs t o s : op_cwd o = None ∨ op_cwd o = Some (cwd s) → R s (call_vfs t o s);
  prim_event op path s : R s (observe_vfs_event op path s);
  prim_search n r s : R s (observe_search_event n r s);
}.

Create HintDb keeps discriminated.

Section keeps.
Context {R : Session → Session → Prop} `{!Primitives R}.

Lemma keeps_ret {A} (a : A) : keeps R (ret a).
Proof. intros s. reflexivity. Qed.
Lemma keeps_raise {A} e : keeps R (raise e : act A).
Proof. intros s. reflexivity. Qed.
Lemma keeps_asks {A} (f : Session → A) : keeps R (asks f).
Proof. intros s. reflexivity. Qed.
Lemma keeps_bind {A B} (m : act A) (f : A → act B) :
  keeps R m → (∀ a, keeps R (f a)) → keeps R (bind m f).
Proof.
  intros Hm Hf s. unfold bind. specialize (Hm s). destruct (m s) as [[a|e] s']; [|exact Hm].
  etransitivity; [exact Hm | apply Hf].
Qed.
Lemma keeps_orelse a b : keeps R a → keeps R b → keeps R (orelse a b).
Proof. intros Ha Hb. apply keeps_bind; [done|]. intros [r|]; [apply keeps_ret | done]. Qed.
Lemma keeps_on_match re cmd f : (∀ m, keeps R (f m)) → keeps R (on_match re cmd f).
Proof. intros Hf. unfold on_match. destruct (re_match re cmd); [apply Hf | apply keeps_ret]. Qed.
Lemma keeps_modify f : (∀ s, R s (f s)) → keeps R (modify f).
Proof. done. Qed.
Lemma keeps_if {A} (b : bool) (a1 a2 : act A) :
  keeps R a1 → keeps R a2 → keeps R (if b then a1 else a2).
Proof. by destruct b. Qed.

Lemma vfs_read_keeps t path c h s : c = None ∨ c = Some (cwd s) → R s (vfs_read t path c h s).2.
Proof.
  intros Hc. pose proof (prim_vfs (R := R) t (ORead path c h) s Hc) as H. revert H.
  unfold call_vfs, vfs_read. cbn [exec_op]. by destruct (read _ _ _ _ _) as [b v].
Qed.

Lemma keeps_read t path : keeps R (do_read t path).
Proof.
  intros s. unfold do_read, with_paths. pose proof (vfs_read_keeps t path (Some (cwd s)) (Some (home (persona s))) s (or_intror eq_refl)) as H.
  by destruct (vfs_read _ _ _ _ _).
Qed.
Lemma keeps_read_abs t path : keeps R (do_read_abs t path).
Proof.
  intros s. unfold do_read_abs. pose proof (vfs_read_keeps t path None None s (or_introl eq_refl)) as H.
  by destruct (vfs_read _ _ _ _ _).
Qed.
Lemma keeps_write (t : moment) path content app : keeps R (do_write path content app).
Proof. intros s. exact (prim_vfs t (OWrite path content (Some (cwd s)) (Some (home (persona s))) app true) s (or_intror eq_refl)). Qed.
Lemma keeps_touch (t : moment) path : keeps R (do_touch path).
Proof. intros s. exact (prim_vfs t (OTouch path (Some (cwd s)) (Some (home (persona s)))) s (or_intror eq_refl)). Qed.
Lemma keeps_unlink (t : moment) path : keeps R (do_unlink path).
Proof. intros s. exact (prim_vfs t (OUnlink path (Some (cwd s)) (Some (home (persona s)))) s (or_intror eq_refl)). Qed.
Lemma keeps_unlink_abs (t : moment) path :
  keeps R (modify (λ s, with_vfs (unlink path None None (session_vfs s)) s)).
Proof. intros s. exact (prim_vfs t (OUnlink path None None) s (or_introl eq_refl)). Qed.
Lemma keeps_event op path : keeps R (do_event op path).
Proof. intros s. apply prim_event. Qed.
End keeps.

#[export] Hint Resolve keeps_ret keeps_raise keeps_asks keeps_bind keeps_orelse keeps_on_match
  keeps_if keeps_read keeps_read_abs keeps_event : keeps.
#[export] Hint Extern 1 => first [apply prim_event | apply prim_search] : keeps.
#[export] Hint Extern 2 (keeps _ (modify _)) => apply keeps_modify; intros : keeps.
#[export] Hint Extern 1 (keeps _ (match ?x with _ => _ end)) => destruct x : keeps.
#[export] Hint Extern 1 (keeps _ (let _ := _ in _)) => cbv zeta : keeps.
#[export] Hint Extern 1 (∀ _, keeps _ _) => intros ? : keeps.

Section handlers.
Context {R : Session → Session → Prop} `{!Primitives R}.

Lemma apply_write_ops_keeps t cmd : keeps R (_apply_write_ops t cmd).
Proof.
  pose proof (keeps_write t). pose proof (keeps_touch t). pose proof (keeps_unlink t).
  pose proof (keeps_unlink_abs t).
  unfold _apply_write_ops, op_echo, op_truncate, op_touch, op_rm, op_cp, op_mv, op_mkdir, op_rmdir.
  auto 40 with keeps.
Qed.

Lemma ls_handler_keeps cmd : keeps R (_ls_handler cmd).
Proof. unfold _ls_handler. auto 20 with keeps. Qed.

Lemma grep_loop_keeps t re o files matched out : keeps R (grep_loop t re o matched out files).
Proof.
  revert matched out. induction files as [|p files IH]; intros matched out; cbn [grep_loop];
    auto 20 with keeps.
Qed.
#[local] Hint Resolve grep_loop_keeps : keeps.

Lemma search_handler_keeps t cmd : keeps R (_search_handler t cmd).
Proof. unfold _search_handler, _handle_find, _handle_grep. auto 30 with keeps. Qed.

Lemma textproc_handler_keeps t cmd : keeps R (_textproc_handler t cmd).
Proof. unfold _textproc_handler, _render_awk, _render_sed. auto 40 with keeps. Qed.

Lemma read_vfs_keeps t cmd : keeps R (_read_vfs t cmd).
Proof. unfold _read_vfs. auto 20 with keeps. Qed.

Lemma cached_reply_keeps exact w cmd : keeps R (cached_reply exact w cmd).
Proof. intros s. unfold cached_reply. destruct (lookup _ _ _ _ _) as [[]|]; reflexivity. Qed.

Lemma dispatch_keeps {G} `{Random G} exact w stripped cmd :
  (∀ target s, R s (with_cwd (_resolve_cd target (cwd s) (persona s)) s)) →
  keeps R (_dispatch (G := G) exact w stripped cmd).
Proof.
  intros Hc. unfold _dispatch. cbv zeta. apply keeps_orelse; [apply apply_write_ops_keeps|].
  apply keeps_orelse; [unfold do_cd; pose proof (Hc []); auto 20 with keeps|].
  apply keeps_orelse; [apply ls_handler_keeps|]. apply keeps_orelse; [apply keeps_asks|].
  apply keeps_orelse; [apply search_handler_keeps|]. apply keeps_orelse; [apply keeps_asks|].
  apply keeps_orelse; [apply textproc_handler_keeps|]. apply keeps_orelse; [apply read_vfs_keeps|].
  apply keeps_orelse; [apply cached_reply_keeps|]. intros s. reflexivity.
Qed.
End handlers.

(** ** The pipeline as an engagement *)

(** What an alert record says: its action and severity. *)
Definition entry_label (a : gmap str pyval) : str * str := (obs_str "action"%py a, obs_str "severity"%py a).
Definition alert_log (s : Session) : list (str * str) := map entry_label (actions_taken s).

Section traced.
Context {G : Type} `{Random G} `{Unicode} `{Plugins}.

Definition flag_label (f : str) : str * str :=
  match find (λ r, bool_decide (r_flag r = f)) rules with
  | Some r => (r_action r, r_severity r)
  | None => ([], [])
  end.

(** From [s] to [s'] by the steps of an engagement within one connection: the alerts
    recorded are those of the rules fired, in order. *)
Definition traced (s s' : Session) : Prop :=
  ∃ fs, run (G := G) s fs s' ∧ fs ⊆ map r_flag rules ∧
        alert_log s' = alert_log s ++ map flag_label fs.

#[export] Instance traced_preorder : PreOrder traced.
Proof.
  split.
  - intros s. exists []. rewrite app_nil_r. split_and!; [constructor | apply list_subseteq_nil | done].
  - intros a b c (fs & Hr & Hs & Hl) (gs & Hr' & Hs' & Hl'). exists (fs ++ gs).
    split_and!; [by eapply run_app | by apply list_subseteq_app_iff_l|].
    by rewrite Hl', Hl, map_app, <- app_assoc.
Qed.

Lemma traced_step s s' : step (G := G) s None s' → actions_taken s' = actions_taken s → traced s s'.
Proof.
  intros Hs Ha. exists []. split_and!; [exact (run_one _ _ _ Hs) | apply list_subseteq_nil|].
  unfold alert_log. by rewrite Ha, app_nil_r.
Qed.

Lemma on_observed_actions b f s : actions_taken (on_observed b f s) = actions_taken s.
Proof. by destruct b. Qed.

Lemma observe_vfs_event_actions op path s : actions_taken (observe_vfs_event op path s) = actions_taken s.
Proof. unfold observe_vfs_event. cbv zeta. by destruct op; rewrite !on_observed_actions. Qed.

#[export] Instance traced_primitives : Primitives traced.
Proof.
  split.
  - apply traced_preorder.
  - intros t o s _. apply traced_step; [by apply step_other | done].
  - intros op path s. apply traced_step; [apply step_vfs | apply observe_vfs_event_actions].
  - intros n r s. apply traced_step; [apply step_search | apply on_observed_actions].
Qed.

Lemma traced_command t cmd s : traced s (update_observations t cmd s).
Proof.
  apply traced_step; [apply step_command|].
  by destruct (update_observations_frame t cmd s) as [o ->].
Qed.

Lemma flag_label_rule r : r ∈ rules → flag_label (r_flag r) = (r_action r, r_severity r).
Proof.
  assert (Forall (λ r, flag_label (r_flag r) = (r_action r, r_severity r)) rules) as HF.
  { unfold rules at 1. repeat (apply List.Forall_cons; [vm_compute; reflexivity|]). apply List.Forall_nil. }
  intros Hr. rewrite Forall_forall in HF. exact (HF r Hr).
Qed.

(** Plugins that act on the session by the operations of an engagement. *)
Class TracedPlugins : Prop := {
  detectors_traced cmd s : traced s (run_detectors cmd s);
  responders_traced a s : traced s (run_responders a s);
}.
Context `{!TracedPlugins}.

Lemma traced_round t cmd s a s' :
  policy_decide t s = Some (a, s') → traced s (apply_action (G := G) t cmd a s').
Proof.
  unfold policy_decide, HeuristicPolicy, decide_action.
  destruct (find _ _) as [r|] eqn:E; [|done]. intros [= <- <-].
  unfold apply_action. etransitivity; [|apply responders_traced].
  set (s1 := with_observed (λ _, fire_flags r (observed s)) s).
  set (a := mk_action _ _ _). set (rec := action_record t cmd a s1).
  transitivity (with_actions (actions_taken s1 ++ [rec]) s1).
  - exists [r_flag r]. split_and!.
    + exact (run_one _ _ _ (step_fire _ _ rec _ E)).
    + apply eligible_rule in E as [Hr _]. intros f ->%list_elem_of_singleton.
      apply list_elem_of_fmap. exact (ex_intro _ r (conj eq_refl Hr)).
    + apply eligible_rule in E as [Hr _]. cbn [map]. rewrite flag_label_rule by exact Hr.
      unfold alert_log. cbn [actions_taken with_actions with_observed update_mutable s1].
      by rewrite map_app.
  - apply traced_step; [apply step_execute | apply execute_actions].
Qed.

Lemma action_loop_traced n t cmd s : traced s (action_loop (G := G) n t cmd s).1.
Proof.
  revert s. induction n as [|n IH]; intros s; cbn [action_loop]; [reflexivity|].
  destruct (policy_decide t s) as [[a s']|] eqn:E; [|reflexivity].
  etransitivity; [by eapply traced_round | apply IH].
Qed.

Lemma handle_command_traced exact w cmd : keeps traced (handle_command (G := G) exact w cmd).
Proof.
  unfold handle_command. cbv zeta.
  apply keeps_bind; [apply keeps_modify, traced_command | intros _].
  apply keeps_bind; [apply keeps_modify, detectors_traced | intros _].
  apply keeps_bind; [apply keeps_modify; intros s; apply action_loop_traced | intros _].
  apply keeps_bind.
  - apply dispatch_keeps. intros c s. apply traced_step; [by apply step_other | done].
  - intros r. apply keeps_bind; [apply keeps_modify; intros s; apply action_loop_traced | intros _].
    apply keeps_ret.
Qed.

Lemma serve_traced exact ws s : traced s (serve (G := G) exact ws s).2.
Proof.
  revert s. induction ws as [|[w cmd] ws IH]; intros s; cbn [serve]; [reflexivity|].
  pose proof (handle_command_traced exact w cmd s) as Hh.
  destruct (handle_command exact w cmd s) as [r s1]. cbn [snd] in Hh.
  set (s2 := match r with Ok (Some (body, source)) => _ | _ => s1 end).
  specialize (IH s2). destruct (serve exact ws s2) as [rs s3]. cbn [snd] in *.
  etransitivity; [exact Hh|]. etransitivity; [|exact IH].
  unfold s2. destruct r as [[[body source]|]|e]; [|reflexivity..].
  apply traced_step; [by apply step_other | done].
Qed.

Lemma NoDup_map_inj {A B} (g : A → B) l x y :
  NoDup (map g l) → x ∈ l → y ∈ l → g x = g y → x = y.
Proof.
  induction l as [|z l IH]; intros Hnd Hx Hy E; [by apply not_elem_of_nil in Hx|].
  inversion Hnd as [|? ? Hz Hl]; subst.
  apply elem_of_cons in Hx as [->|Hx]; apply elem_of_cons in Hy as [->|Hy]; auto.
  - destruct Hz. rewrite E. apply list_elem_of_fmap. eauto.
  - destruct Hz. rewrite <- E. apply list_elem_of_fmap. eauto.
Qed.

Lemma NoDup_map_sub {A B} (g : A → B) l fs :
  NoDup (map g l) → fs ⊆ l → NoDup fs → NoDup (map g fs).
Proof.
  intros Hl Hs Hn. induction Hn as [|f fs Hf _ IH]; cbn; constructor.
  - intros (f' & E & Hf')%list_elem_of_fmap. apply Hf.
    rewrite (NoDup_map_inj g l f f' Hl); [done | set_solver..].
  - apply IH. set_solver.
Qed.

Lemma flag_labels_differ : NoDup (map flag_label (map r_flag rules)).
Proof. apply (bool_decide_unpack _). vm_compute. exact I. Qed.

(** The alerts that a connection adds to the log. *)
Definition adds_distinct (s s' : Session) : Prop := ∃ new, alert_log s' = alert_log s ++ new ∧ NoDup new.

Lemma traced_distinct s s' : obs_wf (observed s) → traced s s' → adds_distinct s s'.
Proof.
  intros Hwf (fs & Hr & Hsub & Hlog). exists (map flag_label fs). split; [exact Hlog|].
  eapply NoDup_map_sub; [apply flag_labels_differ | exact Hsub|].
  exact (proj1 (run_fresh _ _ _ Hr Hwf)).
Qed.
End traced.

(** C1: no alert is recorded twice.  Over all the commands of a connection, with the
    heuristic engine, the actions recorded in [actions_taken] are pairwise different
    as pairs of an action and its severity (the language-model alert may appear once
    as high and once as critical, every other action once). *)
Theorem alerts_recorded_once {G} `{Random G} `{Unicode} `{Plugins} `{!TracedPlugins (G := G)} exact ws s :
  obs_wf (observed s) →
  ∃ new, alert_log (serve (G := G) exact ws s).2 = alert_log s ++ new ∧ NoDup new.
Proof.
  intros Hwf. exact (traced_distinct s _ Hwf (serve_traced exact ws s)).
Qed.

#[export] Instance no_plugins_traced {G} `{Random G} `{Unicode} : TracedPlugins (G := G).
Proof. split; intros; cbn; reflexivity. Defined.

Definition demo_world : world :=
  mk_world t0 (mk_bot "" "" "" (λ _, "") [])%py "Mon"%py (λ _ _, inl "bash: command not found\n"%py).

Lemma alerts_recorded_once_witness :
  let cmds := [(demo_world, "sudo -i"); (demo_world, "cat /etc/sudoers.d/zzz_compat");
               (demo_world, "sudo -i"); (demo_world, "whoami")]%py in
  NoDup (alert_log (serve (G := unit) {[ "whoami"%py := "{user}\n"%py ]} cmds demo).2) ∧
  alert_log (serve (G := unit) {[ "whoami"%py := "{user}\n"%py ]} cmds demo).2
  = [("plant_sudo_vulnerability", "info"); ("alert_decoy_swallowed", "medium")]%py ∧
  last (serve (G := unit) {[ "whoami"%py := "{user}\n"%py ]} cmds demo).1
  = Some (Ok (Some ("root\n", "cache+elevated")))%py.
Proof.
  cbv zeta. split; [|split; vm_compute; reflexivity].
  destruct (alerts_recorded_once (G := unit) {[ "whoami"%py := "{user}\n"%py ]}
    [(demo_world, "sudo -i"); (demo_world, "cat /etc/sudoers.d/zzz_compat");
     (demo_world, "sudo -i"); (demo_world, "whoami")]%py demo demo_wf) as (new & -> & Hn).
  exact Hn.
Defined.
