(* ===== verification/Registry.v ===== *)
(** plenith/plugins.py: the registry of plugins, their discovery, and how the hot paths call
    them.

    A plugin is third-party code: its methods are functions given with it.  A detector or
    a responder works on the session in place and may raise part-way: its function returns
    the session as it left it and whether it returned. *)

From S2P Require Import Prelude PyStr Glob Regex Json CounterAI Synthetic Session Heuristics Responses Engagement Orchestrator Pipeline.

Record DetectorPlugin := mk_detector { d_name : str; observe : str → Session → Session * bool }.
Record PolicyPlugin := mk_policy { p_name : str; decide_ : moment → Session → option (action * Session) }.
Record ResponderPlugin := mk_responder { r_name : str; handles : list str; r_execute : action → Session → Session * bool }.
Record ConnectorPlugin := mk_connector { c_name : str; c_emit : gmap str pyval → bool }.

Inductive PluginBase :=
| Detector (d : DetectorPlugin)
| PolicyEngine (p : PolicyPlugin)
| Responder (r : ResponderPlugin)
| Connector (c : ConnectorPlugin)
| Uncategorized (name : str).

Definition plugin_name (p : PluginBase) : str :=
  match p with
  | Detector d => d_name d | PolicyEngine p => p_name p | Responder r => r_name r | Connector c => c_name c
  | Uncategorized n => n
  end.

Definition _categorize (p : PluginBase) : option str :=
  match p with
  | Detector _ => Some "detector" | PolicyEngine _ => Some "policy" | Responder _ => Some "responder"
  | Connector _ => Some "connector" | Uncategorized _ => None
  end%py.

Record PluginRegistry := mk_registry {
  detectors : list DetectorPlugin;
  policies : list (str * PolicyPlugin);
  responders : list (str * list ResponderPlugin);
  connectors : list ConnectorPlugin;
  _registered_names : gset str
}.

Definition empty_registry : PluginRegistry := mk_registry [] [] [] [] ∅.

Definition with_name (key : str) (r : PluginRegistry) : PluginRegistry :=
  mk_registry (detectors r) (policies r) (responders r) (connectors r) ({[key]} ∪ _registered_names r).

(** [self.responders.setdefault(action_name, []).append(plugin)]. *)
Definition add_handler (p : ResponderPlugin) (l : list (str * list ResponderPlugin)) (action_name : str)
    : list (str * list ResponderPlugin) :=
  assoc_set action_name (default [] (assoc_get action_name l) ++ [p]) l.

Definition key_of (cat name : str) : str := cat ++ ":"%py ++ name.

(** [register]: the category or the exception, and the registry it leaves. *)
Definition register (p : PluginBase) (r : PluginRegistry) : exc str * PluginRegistry :=
  match _categorize p with
  | None => (Raise (ValueError "not a recognized plugin subclass"%py), r)
  | Some cat =>
      let key := key_of cat (plugin_name p) in
      if decide (key ∈ _registered_names r) then (Raise (ValueError "duplicate plugin name"%py), r)
      else
        let r := with_name key r in
        match p with
        | Detector d => (Ok cat, mk_registry (detectors r ++ [d]) (policies r) (responders r) (connectors r) (_registered_names r))
        | PolicyEngine q => (Ok cat, mk_registry (detectors r) (assoc_set (p_name q) q (policies r)) (responders r) (connectors r)
                                   (_registered_names r))
        | Responder h =>
            match handles h with
            | [] => (Raise (ValueError "responder plugin has empty `handles`"%py), r)
            | l => (Ok cat, mk_registry (detectors r) (policies r) (foldl (add_handler h) (responders r) l) (connectors r)
                       (_registered_names r))
            end
        | Connector c => (Ok cat, mk_registry (detectors r) (policies r) (responders r) (connectors r ++ [c]) (_registered_names r))
        | Uncategorized _ => (Raise (ValueError "unknown plugin category"%py), r)
        end
  end.

Definition clear (r : PluginRegistry) : PluginRegistry := empty_registry.

(** The registry's [summary], without the names' order in the set: detectors, policies,
    responders by action, connectors, and the total. *)
Definition summary (r : PluginRegistry) : list str * list str * list (str * list str) * list str * nat :=
  (map d_name (detectors r), map fst (policies r), map (λ kv, (kv.1, map r_name kv.2)) (responders r),
   map c_name (connectors r), size (_registered_names r)).

(** ** Discovery *)

(** What a file or an entry point offers: an instance, a factory -- which raises, or returns
    a plugin or something else -- or an object that is neither. *)
Inductive item := Instance_ (p : PluginBase) | Factory (made : option (option PluginBase)) | NotPlugin.

(** [self.register(obj)] for what an item yields. *)
Definition register_item (i : item) (r : PluginRegistry) : exc str * PluginRegistry :=
  match i with
  | Instance_ p | Factory (Some (Some p)) => register p r
  | Factory (Some None) | NotPlugin => (Raise (ValueError "not a PluginBase instance"%py), r)
  | Factory None => (Raise (ValueError "factory"%py), r)
  end.

(** The items of one file, up to the first that raises. *)
Fixpoint register_all (l : list item) (loaded : nat) (r : PluginRegistry) : nat * PluginRegistry :=
  match l with
  | [] => (loaded, r)
  | i :: l =>
      match register_item i r with
      | (Ok _, r) => register_all l (S loaded) r
      | (Raise _, r) => (loaded, r)
      end
  end.

(** What importing a file gives: an exception, no [PLUGIN], a plugin, a factory, a list, or
    a [PLUGIN] of another type. *)
Inductive exports := LoadFails | NoPlugin | Single (p : PluginBase) | Makes (i : option item) | Many (l : list item) | Unsupported.

Definition items (e : exports) : list item :=
  match e with
  | LoadFails | NoPlugin | Unsupported => []
  | Single p => [Instance_ p]
  | Makes (Some i) => [i]
  | Makes None => []
  | Many l => l
  end.

Definition plugin_files (dir : gmap str exports) : list str :=
  List.filter (λ n, _fnmatch n "*.py"%py && negb (startswith n "_"%py)) (sorted_keys dir).

Definition load_file (dir : gmap str exports) (st : nat * PluginRegistry) (name : str) : nat * PluginRegistry :=
  match dir !! name with Some e => register_all (items e) st.1 st.2 | None => st end.

(** [discover_path]: [None] is a directory that does not exist. *)
Definition discover_path (dir : option (gmap str exports)) (r : PluginRegistry) : nat * PluginRegistry :=
  match dir with
  | None => (0, r)
  | Some d => foldl (load_file d) (0, r) (plugin_files d)
  end.

(** [discover_entry_points]: each entry point loads to an item, or raises; [None] is a
    lookup that failed. *)
Definition load_entry (st : nat * PluginRegistry) (ep : option item) : nat * PluginRegistry :=
  match ep with
  | Some i => match register_item i st.2 with (Ok _, r) => (S st.1, r) | (Raise _, r) => (st.1, r) end
  | None => st
  end.

Definition discover_entry_points (eps : option (list (option item))) (r : PluginRegistry) : nat * PluginRegistry :=
  match eps with None => (0, r) | Some l => foldl load_entry (0, r) l end.

Definition discover_all (eps : option (list (option item))) (dir : option (gmap str exports)) (r : PluginRegistry)
    : (nat * nat) * PluginRegistry :=
  let '(n_ep, r) := discover_entry_points eps r in
  let '(n_path, r) := discover_path dir r in
  ((n_ep, n_path), r).

(** ** The hot paths *)

Definition call_plugin (st : nat * Session) (f : Session → Session * bool) : nat * Session :=
  let '(s, returned) := f st.2 in ((if returned then S st.1 else st.1), s).

Definition run_detectors (r : PluginRegistry) (command : str) (s : Session) : nat * Session :=
  foldl call_plugin (0, s) (map (λ d, observe d command) (detectors r)).

Definition run_responders (r : PluginRegistry) (a : action) (s : Session) : nat * Session :=
  foldl call_plugin (0, s) (map (λ h, r_execute h a) (default [] (assoc_get (a_name a) (responders r)))).

Definition run_connectors (r : PluginRegistry) (alert : gmap str pyval) : nat :=
  length (List.filter (λ c, c_emit c alert) (connectors r)).

Definition policy_class_for (engine : str) (r : PluginRegistry) : option PolicyPlugin := assoc_get engine (policies r).

(** The registry as the interface the pipeline calls. *)
Definition registry_plugins (r : PluginRegistry) : Plugins :=
  {| Responses.run_detectors c s := (run_detectors r c s).2; Responses.run_responders a s := (run_responders r a s).2 |}.

(** ** The registry is well formed *)

Record wf_registry (r : PluginRegistry) : Prop := {
  wf_detectors : NoDup (map d_name (detectors r));
  wf_policies : NoDup (map fst (policies r));
  wf_connectors : NoDup (map c_name (connectors r));
  wf_detector_names d : d ∈ detectors r → key_of "detector"%py (d_name d) ∈ _registered_names r;
  wf_policy_names n p : (n, p) ∈ policies r → p_name p = n ∧ key_of "policy"%py n ∈ _registered_names r;
  wf_connector_names c : c ∈ connectors r → key_of "connector"%py (c_name c) ∈ _registered_names r;
  wf_handlers a hs h : assoc_get a (responders r) = Some hs → h ∈ hs →
    a ∈ handles h ∧ key_of "responder"%py (r_name h) ∈ _registered_names r;
}.

Lemma key_of_inj cat n n' : key_of cat n = key_of cat n' → n = n'.
Proof. unfold key_of. rewrite !app_assoc. apply app_inv_head. Qed.

Lemma add_handler_get h l a x :
  assoc_get x (add_handler h l a) = if decide (x = a) then Some (default [] (assoc_get a l) ++ [h]) else assoc_get x l.
Proof. unfold add_handler. apply assoc_get_set. Qed.

Lemma add_handlers_get h acts l x hs k :
  assoc_get x (foldl (add_handler h) l acts) = Some hs → k ∈ hs →
  (k = h ∧ x ∈ acts) ∨ ∃ hs0, assoc_get x l = Some hs0 ∧ k ∈ hs0.
Proof.
  revert l. induction acts as [|a acts IH]; intros l Hx Hk; cbn in Hx; [right; by exists hs|].
  destruct (IH _ Hx Hk) as [[-> Ha]|(hs0 & H0 & Hk0)]; [left; split; [done|by right]|].
  rewrite add_handler_get in H0. destruct (decide (x = a)) as [->|]; [|right; by exists hs0].
  injection H0 as <-. apply elem_of_app in Hk0 as [Hk0|Hk0];
    [|apply list_elem_of_singleton in Hk0 as ->; left; split; [done|by left]].
  destruct (assoc_get a l) as [hs1|] eqn:E; [right; by exists hs1|by apply elem_of_nil in Hk0].
Qed.

Lemma wf_with_name key r : wf_registry r → wf_registry (with_name key r).
Proof. intros []. split; cbn; try done; try set_solver; naive_solver set_solver. Qed.

Lemma register_wf p r : wf_registry r → wf_registry (register p r).2.
Proof.
  intros Hr. unfold register. destruct (_categorize p) as [cat|] eqn:Ec; [|done].
  destruct (decide _) as [Hk|Hk]; [done|]. pose proof (wf_with_name (key_of cat (plugin_name p)) r Hr) as Hw.
  destruct p as [d|q|h|c|n]; try discriminate Ec; injection Ec as <-; cbn [plugin_name] in *.
  - cbn [snd]. destruct Hr, Hw. split; cbn in *; try done.
    + rewrite map_app. apply NoDup_snoc; [done|]. intros (d' & E & Hd')%list_elem_of_fmap. apply Hk. rewrite E. auto.
    + intros d' [Hd'|Hd'%list_elem_of_singleton]%elem_of_app; [auto|subst; set_solver].
  - cbn [snd]. destruct Hr, Hw. split; cbn in *; try done.
    + by apply assoc_set_NoDup.
    + intros n q' [[-> ->]|Hq]%assoc_set_elem; [split; [done|set_solver]|by apply wf_policy_names1].
  - destruct (handles h) as [|a l] eqn:Eh; [done|]. cbn [snd]. destruct Hr, Hw. split; cbn [detectors policies responders connectors _registered_names with_name] in *; try done.
    intros x hs k Hx Hin. destruct (add_handlers_get _ _ _ _ _ _ Hx Hin) as [[-> Ha]|(hs0 & H0 & H1)].
    + rewrite Eh. split; [done|set_solver].
    + by eapply wf_handlers1.
  - cbn [snd]. destruct Hr, Hw. split; cbn in *; try done.
    + rewrite map_app. apply NoDup_snoc; [done|]. intros (d' & E & Hd')%list_elem_of_fmap. apply Hk. rewrite E. auto.
    + intros d' [Hd'|Hd'%list_elem_of_singleton]%elem_of_app; [auto|subst; set_solver].
Qed.

(** A property of plugins and registries that registration keeps is kept by discovery. *)
Section discovery.
Context (Q : PluginBase → Prop) (I : PluginRegistry → Prop).
Context (Hreg : ∀ p r, Q p → I r → I (register p r).2).

Definition offers (i : item) : Prop :=
  match i with Instance_ p | Factory (Some (Some p)) => Q p | _ => True end.

Lemma register_item_keeps i r : offers i → I r → I (register_item i r).2.
Proof. destruct i as [p|[[p|]|]|]; cbn; auto. Qed.

Lemma register_all_keeps l n r : Forall offers l → I r → I (register_all l n r).2.
Proof.
  intros Hl. revert n r. induction Hl as [|i l Hi _ IH]; intros n r Hr; cbn; [done|].
  pose proof (register_item_keeps i r Hi Hr) as H. destruct (register_item i r) as [[c|e] r']; cbn in *; auto.
Qed.

Definition offered_dir (dir : option (gmap str exports)) : Prop :=
  match dir with Some d => ∀ n e, d !! n = Some e → Forall offers (items e) | None => True end.
Definition offered_entries (eps : option (list (option item))) : Prop :=
  match eps with Some l => ∀ i, Some i ∈ l → offers i | None => True end.

Lemma discover_path_keeps dir r : offered_dir dir → I r → I (discover_path dir r).2.
Proof.
  destruct dir as [d|]; [|done]. intros Hd. unfold discover_path. generalize (plugin_files d), 0.
  intros l. revert r. induction l as [|n l IH]; intros r k Hr; [done|]. cbn [foldl]. unfold load_file at 2.
  destruct (d !! n) as [e|] eqn:E; [|by apply IH].
  pose proof (register_all_keeps (items e) k r (Hd n e E) Hr) as H. cbn [fst snd].
  destruct (register_all (items e) k r) as [k' r']. by apply IH.
Qed.

Lemma discover_entry_points_keeps eps r : offered_entries eps → I r → I (discover_entry_points eps r).2.
Proof.
  destruct eps as [l|]; [|done]. intros Hl. unfold discover_entry_points. generalize 0. revert r.
  cbn in Hl. induction l as [|i l IH]; intros r k Hr; [done|]. cbn [foldl].
  assert (Hnext : I (load_entry (k, r) i).2).
  { destruct i as [i|]; [|done]. cbn. pose proof (register_item_keeps i r (Hl i ltac:(by left)) Hr) as H.
    by destruct (register_item i r) as [[c|e] r']. }
  destruct (load_entry (k, r) i) as [k' r']. apply IH; [|done]. intros j Hj. apply Hl. by right.
Qed.

Lemma discover_all_keeps eps dir r : offered_entries eps → offered_dir dir → I r → I (discover_all eps dir r).2.
Proof.
  intros He Hd Hr. unfold discover_all. pose proof (discover_entry_points_keeps eps r He Hr) as H.
  destruct (discover_entry_points eps r) as [n r1]. pose proof (discover_path_keeps dir r1 Hd H) as H2.
  by destruct (discover_path dir r1).
Qed.
End discovery.

Inductive registry_call :=
| Register (p : PluginBase)
| DiscoverAll (eps : option (list (option item))) (dir : option (gmap str exports))
| Clear.

Definition registry_step (r : PluginRegistry) (k : registry_call) : PluginRegistry :=
  match k with
  | Register p => (register p r).2
  | DiscoverAll eps dir => (discover_all eps dir r).2
  | Clear => clear r
  end.


(** ** One bad file does not poison the others *)

Lemma sorted_keys_delete {V} (k : str) (m : gmap str V) : sorted_keys (delete k m) = List.filter (λ x, negb (bool_decide (x = k))) (sorted_keys m).
Proof.
  assert (Hs : ∀ l, Sorted str_le l → Sorted str_le (List.filter (λ x, negb (bool_decide (x = k))) l)).
  { intros l Hl. apply Sorted_StronglySorted in Hl; [|apply _]. apply StronglySorted_Sorted.
    induction Hl as [|x l Hl IH Hx]; [constructor|]. cbn. destruct (negb _); [|done]. constructor; [done|].
    apply List.Forall_forall. intros y [Hy _]%List.filter_In. rewrite Forall_forall in Hx. by apply Hx, list_elem_of_In. }
  apply (Sorted_unique str_le); [apply py_sorted_sorted|apply Hs, py_sorted_sorted|].
  apply NoDup_Permutation; [apply sorted_keys_NoDup|apply NoDup_ListNoDup, List.NoDup_filter, NoDup_ListNoDup, sorted_keys_NoDup|].
  intros x. rewrite sorted_keys_elem, list_elem_of_In, List.filter_In, <- list_elem_of_In, sorted_keys_elem, lookup_delete_is_Some.
  rewrite negb_true_iff, bool_decide_eq_false. naive_solver.
Qed.

(** failures are isolated.  A plugin file that fails to import, defines no [PLUGIN],
    exports an object of another type or a factory that raises is as if it were not in the
    directory: the other files' plugins are registered, counted and ordered alike. *)
Theorem bad_file_isolated (dir : gmap str exports) (name : str) e r :
  dir !! name = Some e → items e = [] →
  discover_path (Some dir) r = discover_path (Some (delete name dir)) r.
Proof.
  intros Hn He. unfold discover_path, plugin_files. rewrite sorted_keys_delete. generalize (0, r).
  induction (sorted_keys dir) as [|x l IH]; intros st; [done|]. cbn [List.filter].
  destruct (decide (x = name)) as [->|Hx].
  - rewrite bool_decide_true by done. cbn [negb]. destruct (_ && _); [|apply IH]. cbn [foldl]. unfold load_file at 2.
    rewrite Hn, He. cbn. replace (st.1, st.2) with st by (by destruct st). apply IH.
  - rewrite bool_decide_false by done. cbn [negb List.filter]. destruct (_ && _); [|apply IH]. cbn [foldl].
    rewrite IH. unfold load_file at 2 4. by rewrite lookup_delete_ne.
Qed.

(** ** Plugins in the pipeline *)

Section pipeline.
Context {G : Type} `{Random G} `{Unicode}.

(** A plugin acts on the session by the operations of an engagement, also when it raises. *)
Definition well_behaved (p : PluginBase) : Prop :=
  match p with
  | Detector d => ∀ c s, traced (G := G) s (observe d c s).1
  | Responder h => ∀ a s, traced (G := G) s (r_execute h a s).1
  | _ => True
  end.

Definition all_behave (r : PluginRegistry) : Prop :=
  Forall (λ d, well_behaved (Detector d)) (detectors r)
  ∧ ∀ a hs, assoc_get a (responders r) = Some hs → Forall (λ h, well_behaved (Responder h)) hs.

Lemma register_behaves p r : well_behaved p → all_behave r → all_behave (register p r).2.
Proof.
  intros Hp [Hd Hr]. unfold register. destruct (_categorize p); [|done]. destruct (decide _); [done|].
  destruct p as [d|q|h|c|]; try done.
  - split; [|done]. apply Forall_app; split; [exact Hd|]. constructor; [exact Hp|constructor].
  - destruct (handles h) as [|a l] eqn:E; [done|]. split; [done|]. intros x hs Hx. apply Forall_forall. intros k Hk.
    cbn [snd responders with_name] in Hx. destruct (add_handlers_get _ _ _ _ _ _ Hx Hk) as [[-> _]|(hs0 & Hs0 & Hk0)]; [done|].
    specialize (Hr x hs0 Hs0). rewrite Forall_forall in Hr. by apply Hr.
Qed.

Lemma call_plugins_traced fs n s :
  Forall (λ f : Session → Session * bool, ∀ s, traced (G := G) s (f s).1) fs → traced (G := G) s (foldl call_plugin (n, s) fs).2.
Proof.
  intros Hf. revert n s. induction Hf as [|f fs Hf _ IH]; intros n s; [reflexivity|]. cbn [foldl].
  unfold call_plugin at 2. cbn [fst snd]. specialize (Hf s). destruct (f s) as [s' b]. etransitivity; [exact Hf|apply IH].
Qed.

Lemma registry_traced r : all_behave r → @TracedPlugins G _ _ (registry_plugins r).
Proof.
  intros [Hd Hr]. split; intros x s; cbn.
  - unfold run_detectors. apply call_plugins_traced, Forall_map. eapply Forall_impl; [exact Hd|]. intros d Hb s'. apply Hb.
  - unfold run_responders. apply call_plugins_traced, Forall_map.
    destruct (assoc_get (a_name x) (responders r)) as [hs|] eqn:E; [|constructor].
    eapply Forall_impl; [exact (Hr _ _ E)|]. intros h Hb s'. apply Hb.
Qed.
End pipeline.


Definition demo_detector : DetectorPlugin :=
  mk_detector "swift"%py (λ _ s, (with_observed (<["swift_staging_attempt"%py := VBool true]>) s, false)).

Definition demo_dir : gmap str exports :=
  {[ "a.py"%py := Single (Detector demo_detector); "b.py"%py := LoadFails; "_c.py"%py := Single (Detector demo_detector) ]}.

Lemma bad_file_isolated_witness :
  demo_dir !! "b.py"%py = Some LoadFails ∧ items LoadFails = [] ∧
  (discover_path (Some demo_dir) empty_registry).1 = 1 ∧
  discover_path (Some demo_dir) empty_registry = discover_path (Some (delete "b.py"%py demo_dir)) empty_registry.
Proof.
  split; [reflexivity|]. split; [reflexivity|]. split; [vm_compute; reflexivity|].
  exact (bad_file_isolated demo_dir "b.py"%py LoadFails empty_registry eq_refl eq_refl).
Defined.

(** A responder rejected for handling nothing keeps its name: its corrected version is then
    refused as a duplicate, and the total counts it. *)
Example rejected_keeps_name :
  let bad := mk_responder "edge"%py [] (λ _ s, (s, true)) in
  let good := mk_responder "edge"%py ["alert_x"%py] (λ _ s, (s, true)) in
  let '(r1, reg) := register (Responder bad) empty_registry in
  is_ok r1 = false ∧ (register (Responder good) reg).1 = Raise (ValueError "duplicate plugin name"%py)
  ∧ (summary reg).2 = 1.
Proof. by vm_compute. Qed.

Lemma demo_detector_behaves : well_behaved (G := unit) (Detector demo_detector).
Proof.
  intros c s. apply traced_step; [|reflexivity]. apply step_plugin. apply evolves_same. intros k t E.
  apply lookup_insert_ne. intros <-.
  assert (Hn : _fresh_observed !! "swift_staging_attempt"%py = None) by (vm_compute; reflexivity).
  apply (eq_trans (eq_sym Hn)) in E. discriminate E.
Qed.

