(* ===== verification/FsInvariant.v ===== *)
(** The filesystem over the whole pipeline of plenith/orchestrator.py: every path stays
    absolute, tombstones stay consistent, and a forensic baseline once recorded is never
    overwritten, whatever commands the attacker sends. *)

From S2P Require Import Prelude PyStr Posix Vfs Regex Float Json CounterAI Synthetic Session.
From S2P Require Import Heuristics Responses Engagement Shell Search Orchestrator Pipeline.

(** ** Absolute paths *)

Abbreviation slashed p := (startswith p [SLASH] = true).

(** A key of the filesystem: empty (the canonical form of an empty path) or absolute. *)
Definition rooted_path (p : str) : Prop := p = [] ∨ slashed p.

Lemma slashed_cons p : slashed p ↔ ∃ r, p = SLASH :: r.
Proof. rewrite startswith_spec. by split; intros [r ->]; exists r. Qed.

Lemma slashed_app p q : slashed p → slashed (p ++ q).
Proof. rewrite !slashed_cons. intros [r ->]. by eexists. Qed.

Lemma canon_rooted path cwd home : slashed (str_or cwd [SLASH]) → rooted_path (_canon path cwd home).
Proof.
  intros Hc. unfold _canon. destruct path as [|x path]; [by left|]. right.
  set (e := expand_tilde _ _). set (q := if startswith e [SLASH] then e else _).
  assert (slashed q) as Hq.
  { unfold q. destruct (startswith e [SLASH]) eqn:E; [done|]. unfold path_join. rewrite E.
    by destruct (_ || _); repeat apply slashed_app. }
  apply normpath_abs, abs_path_startswith, slashed_cons in Hq as [r ->]. by apply slashed_cons; eexists.
Qed.

Lemma rstrip_char_spec c p : ∃ k, p = rstrip_char c p ++ repeat c k.
Proof.
  unfold rstrip_char, rstrip_by.
  cut (∀ l : str, ∃ k, rev l = rev (lstrip_by (N.eqb c) l) ++ repeat c k).
  { intros H. destruct (H (rev p)) as [k E]. exists k. by rewrite rev_involutive in E. }
  induction l as [|x l [k IH]]; [by exists 0|]. cbn [lstrip_by].
  destruct (N.eqb_spec c x) as [<-|Hne]; [|by exists 0; rewrite app_nil_r].
  exists (S k). cbn [rev]. rewrite IH, <- app_assoc. f_equal. symmetry. apply repeat_cons.
Qed.

Lemma rstrip_rooted p : slashed p → rooted_path (rstrip_char SLASH p).
Proof.
  intros [r Hr]%slashed_cons. destruct (rstrip_char_spec SLASH p) as [k E].
  destruct (rstrip_char SLASH p) as [|x q]; [by left|]. right. apply slashed_cons.
  exists q. rewrite Hr in E. by injection E as <- _.
Qed.

Lemma or_root_slashed q : rooted_path q → slashed (match q with [] => [SLASH] | x :: r => x :: r end).
Proof. by intros [-> | [r ->]%slashed_cons]. Qed.

Lemma parent_rooted q : rooted_path q → rooted_path (join [SLASH] (removelast (split_on SLASH q))).
Proof.
  intros [-> | [r ->]%slashed_cons]; [by left|].
  change (SLASH :: r) with ([] ++ SLASH :: r). rewrite split_on_app by apply not_elem_of_nil.
  destruct (split_on SLASH r) as [|c l] eqn:E; [by apply split_on_nonempty in E|].
  change (removelast ([] :: c :: l)) with (([] : str) :: removelast (c :: l)).
  destruct (removelast (c :: l)) as [|d l']; [by left|]. right. by rewrite join_cons.
Qed.

Lemma resolve_cd_slashed target cw p : slashed cw → slashed (home p) → slashed (_resolve_cd target cw p).
Proof.
  intros Hc Hh. unfold _resolve_cd. case_bool_decide; [done|]. case_bool_decide; [done|].
  destruct (startswith target "~/"%py); [by apply slashed_app|].
  destruct (startswith target "/"%py) eqn:Et; [by apply or_root_slashed, rstrip_rooted|].
  case_bool_decide; [by apply or_root_slashed, parent_rooted, rstrip_rooted|].
  destruct (rstrip_rooted _ Hc) as [-> |]; [done | by apply slashed_app].
Qed.

(** ** The invariant *)

(** The working directory and home are absolute, and so is every key. *)
Record rooted (s : Session) : Prop := mk_rooted {
  rooted_cwd : slashed (cwd s);
  rooted_home : slashed (home (persona s));
  rooted_keys : ∀ p, p ∈ dom (_files (session_vfs s)) → rooted_path p;
}.

(** What holds from [s] to a later [s'] of the same connection. *)
Record grounded (s s' : Session) : Prop := mk_grounded {
  grounded_rooted : rooted s → rooted s';
  grounded_inv : vfs_inv (session_vfs s) → vfs_inv (session_vfs s');
  grounded_baseline p b :
    _baseline (session_vfs s) !! p = Some b → _baseline (session_vfs s') !! p = Some b;
}.

#[export] Instance grounded_preorder : PreOrder grounded.
Proof. split; [by split | intros a b c [] []; split; auto]. Qed.

(** A step that leaves the filesystem, working directory and persona alone. *)
Lemma grounded_same s s' :
  session_vfs s' = session_vfs s → cwd s' = cwd s → persona s' = persona s → grounded s s'.
Proof. intros Ev Ec Ep. split; rewrite ?Ev; [|done..]. intros []. by split; rewrite ?Ev, ?Ec, ?Ep. Qed.

(** An operation adds at most its own canonical path to the keys. *)
Lemma exec_op_keys {R} (run : R → option str) (v : vfs R) o p :
  p ∈ dom (_files (exec_op run v o)) →
  p ∈ dom (_files v) ∨
  match o with
  | ORead q c h | OWrite q _ c h _ _ | OTouch q c h | OUnlink q c h | ORegister q _ c h => p = _canon q c h
  end.
Proof.
  destruct o as [q c h|q x c h a tm|q c h|q c h|q r c h]; cbn.
  - destruct (read_frame run q c h v) as (_ & _ & _ & [-> | (f & _ & _ & ->)]); [by left|].
    rewrite dom_insert_L. intros [Hp%elem_of_singleton|Hp]%elem_of_union; [by right | by left].
  - rewrite dom_insert_L. intros [Hp%elem_of_singleton|Hp]%elem_of_union; [by right | by left].
  - unfold setdefault. destruct (_ !! _); [by left|].
    rewrite dom_insert_L. intros [Hp%elem_of_singleton|Hp]%elem_of_union; [by right | by left].
  - rewrite dom_delete_L. intros [Hp _]%elem_of_difference. by left.
  - by left.
Qed.

Lemma call_vfs_grounded t o s : op_cwd o = None ∨ op_cwd o = Some (cwd s) → grounded s (call_vfs t o s).
Proof.
  intros Ho. split; [|apply exec_inv | apply exec_baseline].
  intros [Hc Hh Hk]. split; [exact Hc | exact Hh|].
  assert (slashed (str_or (op_cwd o) [SLASH])) as Hs.
  { destruct Ho as [-> | ->]; [done|]. apply slashed_cons in Hc as [r E]. by rewrite E. }
  intros p [Hp|Hp]%exec_op_keys; [by apply Hk|].
  destruct o; subst p; by apply canon_rooted.
Qed.

#[export] Instance grounded_primitives : Primitives grounded.
Proof.
  split.
  - apply grounded_preorder.
  - apply call_vfs_grounded.
  - intros op path s. unfold observe_vfs_event. cbv zeta.
    apply grounded_same; destruct op; unfold on_observed; repeat case_match; reflexivity.
  - intros n r s. unfold observe_search_event. cbv zeta.
    apply grounded_same; unfold on_observed; repeat case_match; reflexivity.
Qed.

Lemma plant_decoy_grounded path content cred kind s : grounded s (plant_decoy path content cred kind s).
Proof.
  unfold plant_decoy. cbv zeta. set (c := _canon path _ _).
  pose (t := t0).
  etransitivity; [exact (call_vfs_grounded t (OWrite c content None None false false) s (or_introl eq_refl))|].
  etransitivity; [|exact (call_vfs_grounded t (ORegister c (RTrap content kind) None None) _ (or_introl eq_refl))].
  apply grounded_same; by destruct cred.
Qed.

Lemma execute_grounded {G} `{Random G} name s : grounded s (execute (G := G) name s).
Proof.
  apply execute_cases; [reflexivity|]. intros. apply plant_decoy_grounded.
Qed.

(** ** Through the pipeline *)

Section pipeline.
Context {G : Type} `{Random G} `{Policy} `{Plugins}.

(** A policy and plugins that respect the filesystem. *)
Class GroundedEngine : Prop := {
  policy_grounded t s a s' : policy_decide t s = Some (a, s') → grounded s s';
  engine_detectors_grounded cmd s : grounded s (run_detectors cmd s);
  engine_responders_grounded a s : grounded s (run_responders a s);
}.
Context `{!GroundedEngine}.

Lemma action_loop_grounded n t cmd s : grounded s (action_loop (G := G) n t cmd s).1.
Proof.
  revert s. induction n as [|n IH]; intros s; cbn [action_loop]; [reflexivity|].
  destruct (policy_decide t s) as [[a s']|] eqn:E; [|reflexivity].
  etransitivity; [by eapply policy_grounded|]. etransitivity; [|apply IH].
  unfold apply_action. etransitivity; [|apply engine_responders_grounded].
  etransitivity; [|apply execute_grounded]. by apply grounded_same.
Qed.

Lemma handle_command_grounded exact w cmd : keeps grounded (handle_command (G := G) exact w cmd).
Proof.
  unfold handle_command. cbv zeta.
  apply keeps_bind; [apply keeps_modify; intros s | intros _].
  { destruct (update_observations_frame (w_moment w) cmd s) as [o ->]. by apply grounded_same. }
  apply keeps_bind; [apply keeps_modify, engine_detectors_grounded | intros _].
  apply keeps_bind; [apply keeps_modify; intros s; apply action_loop_grounded | intros _].
  apply keeps_bind.
  - apply dispatch_keeps. intros target s. split; [|done..]. intros [Hc Hh Hk].
    split; [by apply resolve_cd_slashed | exact Hh | exact Hk].
  - intros r. apply keeps_bind; [apply keeps_modify; intros s; apply action_loop_grounded | intros _].
    apply keeps_ret.
Qed.

Lemma serve_grounds exact ws s : grounded s (serve (G := G) exact ws s).2.
Proof.
  revert s. induction ws as [|[w cmd] ws IH]; intros s; cbn [serve]; [reflexivity|].
  pose proof (handle_command_grounded exact w cmd s) as Hh.
  destruct (handle_command exact w cmd s) as [r s1]. cbn [snd] in Hh.
  set (s2 := match r with Ok (Some (body, source)) => _ | _ => s1 end).
  specialize (IH s2). destruct (serve exact ws s2) as [rs s3]. cbn [snd] in *.
  etransitivity; [exact Hh|]. etransitivity; [|exact IH].
  unfold s2. destruct r as [[[body source]|]|e]; [|reflexivity..]. by apply grounded_same.
Qed.
End pipeline.

#[export] Instance heuristic_grounded `{Unicode} : @GroundedEngine HeuristicPolicy no_plugins.
Proof.
  split; [|intros; reflexivity..]. intros t s a s'. unfold policy_decide, HeuristicPolicy.
  destruct (decide_action _ _) as [[a' o]|]; [|done]. intros [= <- <-]. by apply grounded_same.
Defined.

(** ** A new connection *)

Lemma seed_file_grounded h path content s : grounded s (seed_file h path content s).
Proof. exact (call_vfs_grounded t0 (OWrite path content None h false false) s (or_introl eq_refl)). Qed.

Lemma seed_system_files_grounded s : grounded s (_seed_system_files s).
Proof.
  unfold _seed_system_files. destruct (fleet s); [|reflexivity].
  etransitivity; [|apply seed_file_grounded]. etransitivity; [apply seed_file_grounded|].
  etransitivity; [apply seed_file_grounded|]. unfold _register_dynamic_renderers.
  destruct (fleet _); [|reflexivity].
  exact (call_vfs_grounded t0 (ORegister _ RAuthLog None None) _ (or_introl eq_refl)).
Qed.

Lemma seed_persona_listing_grounded s : grounded s (_seed_persona_listing s).
Proof.
  unfold _seed_persona_listing. generalize (home_listing (persona s)) as l.
  intros l. revert s. induction l as [|x l IH]; intros s; cbn [foldl]; [reflexivity|].
  etransitivity; [|apply IH]. unfold seed_listing_entry.
  repeat case_match; first [reflexivity | apply seed_file_grounded].
Qed.

Lemma init_vfs_keys {R} seeds p : p ∈ dom (_files (init_vfs (R := R) seeds)) → rooted_path p.
Proof.
  unfold init_vfs. assert (∀ q, q ∈ dom (_files (@empty_vfs R)) → rooted_path q) as H by set_solver.
  revert H. generalize (@empty_vfs R). induction seeds as [|x seeds IH]; intros v H; cbn [foldl]; [apply H|].
  apply IH. cbn [_files]. intros q. rewrite dom_insert_L.
  intros [->%elem_of_singleton|Hq]%elem_of_union; [by apply canon_rooted | by apply H].
Qed.

Lemma connect_fresh {G} `{Random G} id uuid user ip p start bot rot s :
  connect (G := G) id uuid user ip p start bot rot None = Ok s → slashed (home p) →
  rooted s ∧ vfs_inv (session_vfs s).
Proof.
  intros E Hh. unfold connect in E. apply Ok_inj in E as <-.
  set (s0 := mk_session _ _ _ _ _ _ _ _ _ _ _ _ _ _ _ _ _ _ _).
  assert (grounded s0 (_seed_system_files (_seed_persona_listing s0))) as [Hr Hi _].
  { etransitivity; [apply seed_persona_listing_grounded | apply seed_system_files_grounded]. }
  split; [apply Hr | apply Hi, vfs_init_inv].
  split; [exact Hh | exact Hh | exact (init_vfs_keys _)].
Qed.

(** C2: the filesystem stays sound whatever is typed.  After any sequence of commands
    on a new connection the working directory and every key are absolute, no path is
    both a file and a tombstone, and a baseline recorded at any time is still there,
    unchanged, at the end: attackers cannot rewrite the forensic originals. *)
Theorem serve_filesystem {G} `{Random G} `{Policy} `{Plugins} `{!GroundedEngine} exact
    id uuid user ip p start bot rot s ws1 ws2 :
  connect (G := G) id uuid user ip p start bot rot None = Ok s → slashed (home p) →
  let s1 := (serve (G := G) exact ws1 s).2 in
  let s2 := (serve (G := G) exact ws2 s1).2 in
  rooted s2 ∧ vfs_inv (session_vfs s2) ∧
  ∀ q b, _baseline (session_vfs s1) !! q = Some b → _baseline (session_vfs s2) !! q = Some b.
Proof.
  intros E Hh. cbv zeta. destruct (connect_fresh _ _ _ _ _ _ _ _ _ E Hh) as [Hr Hi].
  destruct (serve_grounds (G := G) exact ws1 s) as [Hr1 Hi1 _].
  destruct (serve_grounds (G := G) exact ws2 (serve (G := G) exact ws1 s).2) as [Hr2 Hi2 Hb2].
  split_and!; [exact (Hr2 (Hr1 Hr)) | exact (Hi2 (Hi1 Hi)) | exact Hb2].
Qed.

Lemma serve_filesystem_witness :
  let s2 := (serve (G := unit) ∅
      [(demo_world, "cd .."); (demo_world, "echo owned > jdoe/./.aws//config")]%py
      (serve (G := unit) ∅ [(demo_world, "cat ~/.aws/config"%py)] demo).2).2 in
  cwd s2 = "/home"%py ∧ _files (session_vfs s2) !! "/home/jdoe/.aws/config"%py = Some "owned\n"%py ∧
  _baseline (session_vfs s2) !! "/home/jdoe/.aws/config"%py
  = Some "[default]\nregion = us-east-1\noutput = json\n\n[profile staging]\nregion = us-east-1\noutput = json\n"%py.
Proof.
  cbv zeta. split; [vm_compute; reflexivity|]. split; [vm_compute; reflexivity|].
  refine (proj2 (proj2 (serve_filesystem (G := unit) ∅ "c1"%py "e1"%py "jdoe"%py "10.0.0.9"%py jdoe f0
    (Some [jdoe]) None demo [(demo_world, "cat ~/.aws/config"%py)]
    [(demo_world, "cd .."); (demo_world, "echo owned > jdoe/./.aws//config")]%py _ _)) _ _ _).
  - exact demo_connect.
  - reflexivity.
  - vm_cast_no_check (eq_refl (Some "[default]\nregion = us-east-1\noutput = json\n\n[profile staging]\nregion = us-east-1\noutput = json\n"%py)).
Defined.

(** a planted decoy has no forensic original.  [write] snapshots the content before
    the write, so a decoy planted on a fresh path has the empty string for its baseline,
    and by the immutability of baselines it keeps it whatever the attacker does. *)
Theorem planted_baseline_empty {G} `{Random G} `{Policy} `{Plugins} `{!GroundedEngine} exact ws
    path content cred kind s :
  let p := _canon path None (Some (home (persona s))) in
  _canon p None None = p →
  _files (session_vfs s) !! p = None → _baseline (session_vfs s) !! p = None →
  _baseline (session_vfs (serve (G := G) exact ws (plant_decoy path content cred kind s)).2) !! p = Some [].
Proof.
  intros p Hp Hf Hb. apply (serve_grounds (G := G) exact ws).
  assert (_baseline (session_vfs (plant_decoy path content cred kind s))
          = setdefault (_canon p None None) (default [] (_files (session_vfs s) !! _canon p None None))
              (_baseline (session_vfs s))) as ->.
  { unfold plant_decoy. by destruct cred. }
  unfold p in *. rewrite Hp, setdefault_lookup, decide_True by done.
  rewrite Hb. cbn [default]. f_equal. exact (f_equal (default []) Hf).
Qed.

Lemma planted_baseline_empty_witness :
  _baseline (session_vfs (serve (G := unit) ∅ [(demo_world, "cat /etc/mysql/my.cnf"%py)]
     (plant_decoy "/etc/mysql/my.cnf"%py MYSQL_MY_CNF false "config"%py demo)).2)
  !! "/etc/mysql/my.cnf"%py = Some [] ∧
  (serve (G := unit) ∅ [(demo_world, "cat /etc/mysql/my.cnf"%py)]
     (plant_decoy "/etc/mysql/my.cnf"%py MYSQL_MY_CNF false "config"%py demo)).1
  = [Ok (Some (MYSQL_MY_CNF, "vfs-read"%py))].
Proof.
  split; [|vm_compute; reflexivity].
  apply (planted_baseline_empty (G := unit) ∅ [(demo_world, "cat /etc/mysql/my.cnf"%py)]
    "/etc/mysql/my.cnf"%py MYSQL_MY_CNF false "config"%py demo); vm_compute; reflexivity.
Defined.
