(* ===== verification/ShellProps.v ===== *)
(** Properties of the shell builtins of plenith/orchestrator.py: what the attacker
    writes is what they read back, [find] is exact, its directory walk terminates, and
    the working directory stays absolute. *)

From S2P Require Import Prelude PyStr Glob Posix Vfs Regex Float Json CounterAI Synthetic Session.
From S2P Require Import Heuristics Responses Engagement Shell Search Orchestrator Pipeline FsInvariant.

(** ** Writing and reading back *)

Lemma observe_vfs_event_frame op path s :
  ∃ o, observe_vfs_event op path s = with_observed (λ _, o) s.
Proof.
  assert (∀ b f o, ∃ o', on_observed b f (with_observed (λ _, o) s) = with_observed (λ _, o') s) as HO.
  { intros b f o. destruct b; by eexists. }
  assert (∀ b f, ∃ o', on_observed b f s = with_observed (λ _, o') s) as HB.
  { intros b f. destruct b; [by eexists|]. exists (observed s). by destruct s. }
  unfold observe_vfs_event. cbv zeta. destruct op; [|..|apply HB].
  all: edestruct HB as [? ->]; edestruct HO as [? ->]; apply HO.
Qed.

(** Reading a path the attacker wrote gives the stored content. *)
Lemma vfs_read_tampered t path s b :
  let p := _canon path (Some (cwd s)) (Some (home (persona s))) in
  p ∈ _tampered (session_vfs s) → p ∉ _deleted (session_vfs s) → _files (session_vfs s) !! p = Some b →
  (do_read t path s).1 = Ok (Some b) ∧
  cwd (do_read t path s).2 = cwd s ∧ persona (do_read t path s).2 = persona s.
Proof.
  intros p Ht Hd Hf. unfold do_read, with_paths, vfs_read.
  pose proof (read_tampered (run_renderer t s) path (Some (cwd s)) (Some (home (persona s))) (session_vfs s) Ht) as E.
  rewrite decide_False in E by done. fold p in E. rewrite Hf in E.
  destruct (read _ _ _ _ _) as [b' v]. cbn [fst snd] in *. by rewrite E.
Qed.

(** The first rule that matches a redirect is the [echo] rule, and it runs to its end. *)
Lemma echo_runs t c m s :
  re_match _ECHO_REDIRECT_RE c = Some m →
  _apply_write_ops t c s
  = (Ok (silent "vfs-write"%py),
     observe_vfs_event EvWrite (grp m "path"%py)
       (with_paths (λ cw h s, with_vfs (write (grp m "path"%py) (echo_content m) cw h
          (bool_decide (grp m "op"%py = ">>"%py)) true (session_vfs s)) s) s)).
Proof. intros Hm. unfold _apply_write_ops, orelse, on_match, bind. by rewrite Hm. Qed.

(** C5: what the attacker echoes into a file is what they read back.  After a redirect
    command (quoted or bare, with -n or not, truncating or appending), a file read of
    any spelling of the same path replies with exactly the redirected content, after
    the old content when it was appended. *)
Theorem echo_then_cat t t' c1 m c2 m2 s :
  re_match _ECHO_REDIRECT_RE c1 = Some m → re_match _FILE_READ_RE c2 = Some m2 →
  let canon p := _canon p (Some (cwd s)) (Some (home (persona s))) in
  canon (grp m2 "path"%py) = canon (grp m "path"%py) →
  let r := _apply_write_ops t c1 s in
  r.1 = Ok (silent "vfs-write"%py) ∧
  (_read_vfs t' c2 r.2).1
  = Ok (Some ((if bool_decide (grp m "op"%py = ">>"%py)
               then default [] (_files (session_vfs s) !! canon (grp m "path"%py)) else [])
              ++ echo_content m, "vfs-read"%py)).
Proof.
  intros Hm Hm2 canon Hc. cbv zeta. rewrite (echo_runs t c1 m s Hm). cbn [fst snd].
  split; [done|]. unfold _read_vfs, on_match. rewrite Hm2. unfold bind.
  set (s1 := with_paths _ s). destruct (observe_vfs_event_frame EvWrite (grp m "path"%py) s1) as [o Eo].
  rewrite Eo. set (s2 := with_observed _ s1).
  destruct (vfs_read_tampered t' (grp m2 "path"%py) s2
    ((if bool_decide (grp m "op"%py = ">>"%py)
      then default [] (_files (session_vfs s) !! canon (grp m "path"%py)) else []) ++ echo_content m))
    as (E & _).
  - change (canon (grp m2 "path"%py) ∈ {[canon (grp m "path"%py)]} ∪ _tampered (session_vfs s)).
    rewrite Hc. by apply elem_of_union_l, elem_of_singleton.
  - change (canon (grp m2 "path"%py) ∉ _deleted (session_vfs s) ∖ {[canon (grp m "path"%py)]}).
    rewrite Hc. intros [_ Hd]%elem_of_difference. by apply Hd, elem_of_singleton.
  - change (_canon _ _ _) with (canon (grp m2 "path"%py)). rewrite Hc.
    etransitivity; [apply lookup_insert_eq|]. f_equal. by destruct (bool_decide (grp m "op"%py = _)).
  - destruct (do_read t' (grp m2 "path"%py) s2) as [b s3]. cbn [fst] in E. by rewrite E.
Qed.

(** moving a file onto itself destroys it.  [mv] reads, writes the destination and
    then unlinks the source; when both spell the same path the file is gone (a shell
    refuses: the files are the same). *)
Theorem mv_self_deletes t m s :
  let canon p := _canon p (Some (cwd s)) (Some (home (persona s))) in
  canon (grp m "src"%py) = canon (grp m "dst"%py) →
  (do_read t (grp m "src"%py) s).1 ≠ Ok None →
  let r := op_mv t m s in
  r.1 = Ok (silent "vfs-mv"%py) ∧
  _files (session_vfs r.2) !! canon (grp m "src"%py) = None ∧
  canon (grp m "src"%py) ∈ _deleted (session_vfs r.2).
Proof.
  intros canon Hc Hr. cbv zeta. unfold op_mv, bind.
  assert (cwd (do_read t (grp m "src"%py) s).2 = cwd s ∧ persona (do_read t (grp m "src"%py) s).2 = persona s)
    as [Ec Ep].
  { unfold do_read, with_paths, vfs_read. by destruct (read _ _ _ _ _). }
  destruct (do_read t (grp m "src"%py) s) as [[[body|]|e] s1] eqn:E; cbn [fst snd] in *.
  - cbn [do_write do_unlink do_event modify ret fst snd]. split; [done|].
    edestruct (observe_vfs_event_frame EvRead) as [o1 ->].
    edestruct (observe_vfs_event_frame EvWrite) as [o2 ->].
    edestruct (observe_vfs_event_frame EvUnlink) as [o3 ->].
    unfold with_paths. cbn [session_vfs with_observed with_vfs update_mutable cwd persona].
    rewrite Ec, Ep. cbn [unlink _files _deleted]. fold (canon (grp m "src"%py)).
    split; [apply lookup_delete_eq | by apply elem_of_union_l, elem_of_singleton].
  - done.
  - unfold do_read in E. destruct (with_paths _ s); done.
Qed.

(** ** [find] *)

Lemma StronglySorted_filter' {A} (R : relation A) (P : A → Prop) `{∀ x, Decision (P x)} l :
  StronglySorted R l → StronglySorted R (filter P l).
Proof.
  induction 1 as [|x l _ IH HF]; [constructor|]. rewrite filter_cons. case_decide; [|done].
  constructor; [done|]. rewrite Forall_forall in HF |- *. intros y [_ Hy]%list_elem_of_filter. by apply HF.
Qed.

(** A live file of the filesystem. *)
Definition live (s : Session) (p : str) : Prop :=
  is_Some (_files (session_vfs s) !! p) ∧ p ∉ _deleted (session_vfs s).

Lemma live_paths_live s p : p ∈ live_paths (session_vfs s) ↔ live s p.
Proof. apply live_paths_elem. Qed.

(** [find ROOT -name PAT -type f] is exact.  The lines it prints are, sorted and
    without repetition, exactly the live files at or under the root whose base name
    matches the glob and is not the placeholder of an empty directory. *)
Theorem find_files_exact root pat s :
  let canon := _canon root (Some (cwd s)) (Some (home (persona s))) in
  let '(files, dirs) := _traverse root s in
  let out := find_results canon (Some pat) (Some 102%N) files dirs in
  Sorted str_le out ∧ NoDup out ∧
  ∀ p, p ∈ out ↔ live s p ∧ under canon p = true ∧ basename_of p ≠ ".keep"%py ∧
                 (pat = [] ∨ _fnmatch (basename_of p) pat = true).
Proof.
  cbv zeta. unfold _traverse, find_results. cbv zeta.
  rewrite (bool_decide_eq_true_2 (Some 102%N = Some 102%N)) by done.
  rewrite (bool_decide_eq_false_2 (Some 102%N = Some 100%N)) by done.
  set (canon := _canon _ _ _). set (out := filter _ (py_sorted (filter _ _))).
  set (f := λ p, _). set (ds := py_sorted _).
  assert (filter f ds = []) as ->.
  { induction ds as [|d ds IH]; [done|]. rewrite filter_cons, decide_False; [done|].
    unfold f. by rewrite andb_false_r. }
  rewrite app_nil_r. cbn [app]. split_and!.
  - apply StronglySorted_Sorted, StronglySorted_filter', Sorted_StronglySorted;
      [apply _ | apply py_sorted_sorted].
  - apply NoDup_filter, py_sorted_NoDup, NoDup_filter. apply NoDup_filter, NoDup_fst_map_to_list.
  - intros p. unfold out. rewrite list_elem_of_filter, py_sorted_elem, list_elem_of_filter, live_paths_live.
    rewrite andb_true_r, andb_true_iff, negb_true_iff, bool_decide_eq_false.
    destruct pat; naive_solver.
Qed.

(** ** The directories that [_traverse] finds *)

Lemma dirname_spec f : SLASH ∈ f → ∃ b, f = dirname_of f ++ SLASH :: b ∧ SLASH ∉ b.
Proof.
  intros Hf. pose proof (join_split_on SLASH f) as EJ. pose proof (split_on_free SLASH f) as HF.
  unfold dirname_of.
  assert (∃ p ps b, split_on SLASH f = p :: ps ++ [b]) as (p & ps & b & E).
  { apply list_elem_of_split in Hf as (l1 & l2 & ->). rewrite split_on_app_sep.
    destruct (exists_last (split_on_nonempty SLASH l2)) as (l & b & ->).
    pose proof (split_on_nonempty SLASH l1) as Hne. destruct (split_on SLASH l1) as [|p ps]; [done|].
    exists p, (ps ++ l), b. by rewrite <- app_assoc. }
  rewrite E in *. rewrite app_comm_cons, join_snoc in EJ by done. exists b. split.
  - assert (join [SLASH] (p :: ps)
            = match p :: ps ++ [b] with
              | [] => f | [_] => f | ps => join [SLASH] (removelast ps)
              end) as <-; [|done].
    destruct ps as [|q ps]; [done|]. exact (f_equal _ (eq_sym (removelast_last (p :: q :: ps) b))).
  - inversion HF as [|? ? _ HF']. apply Forall_app in HF' as [_ HF']. by inversion HF'.
Qed.

(** A proper ancestor [q] of [f]: [q] is [f]'s directory, or an ancestor of it. *)
Lemma ancestor_dirname f q : SLASH ∈ f → slashed f → q ≠ [] →
  startswith f (q ++ [SLASH]) = true ↔
  q = dirname_of f ∨ startswith (dirname_of f) (q ++ [SLASH]) = true.
Proof.
  intros Hf Hs Hq. destruct (dirname_spec f Hf) as (b & E & Hb).
  set (g := dirname_of f) in *. rewrite !startswith_spec, E. split.
  - intros [r Er]. rewrite <- app_assoc in Er. apply app_eq_inv in Er as [(k & Eg & Ek)|(k & Eq & Ek)].
    + destruct k as [|c k]; [left; by rewrite app_nil_r in Eg|]. right.
      injection Ek as <- Ek. exists k. by rewrite <- app_assoc.
    + destruct k as [|c k]; [left; by rewrite app_nil_r in Eq|].
      injection Ek as <- Ek. destruct Hb. rewrite Ek. apply elem_of_app. right. left.
  - intros [-> | [r ->]].
    + exists b. by rewrite <- app_assoc.
    + exists (r ++ SLASH :: b). by rewrite <- !app_assoc.
Qed.

(** A root in the form [_canon] gives (the root itself, or no trailing slash). *)
Definition tidy_root (canon : str) : Prop := canon = "/"%py ∨ rstrip_char SLASH canon = canon.

Lemma ancestors_nonempty n canon g : [] ∉ ancestors n canon g.
Proof.
  revert g. induction n as [|n IH]; intros g; cbn [ancestors]; [apply not_elem_of_nil|].
  case_bool_decide as Hg; cbn [negb andb]; [apply not_elem_of_nil|].
  destruct (_ && _); [|apply not_elem_of_nil].
  intros [E|Hin]%elem_of_cons; [by destruct Hg | by apply IH in Hin].
Qed.

Lemma dirname_shorter f : slashed f → SLASH ∈ f ∧ length (dirname_of f) < length f ∧
  (dirname_of f = [] ∨ slashed (dirname_of f)).
Proof.
  intros Hs. assert (SLASH ∈ f) as Hf by (apply slashed_cons in Hs as [r ->]; left).
  destruct (dirname_spec f Hf) as (b & E & _). split_and!; [done|..].
  - rewrite E at 2. rewrite length_app. cbn. lia.
  - destruct (dirname_of f) as [|x g]; [by left|right]. rewrite E in Hs.
    apply slashed_cons in Hs as [r Hs]. apply slashed_cons. injection Hs as -> _. by eexists.
Qed.

Lemma ancestors_fuel n k canon f : length f < n → slashed f →
  ancestors (n + k) canon (dirname_of f) = ancestors n canon (dirname_of f).
Proof.
  revert f. induction n as [|n IH]; intros f Hn Hs; [lia|]. cbn [ancestors Nat.add].
  destruct (dirname_shorter f Hs) as (_ & Hl & [-> | Hg]); [done|].
  destruct (_ && _); [|done]. f_equal. apply IH; [lia | done].
Qed.

Lemma ancestors_elem n canon f q : length f < n → slashed f → tidy_root canon →
  q ∈ ancestors n canon (dirname_of f) ↔
  q ≠ [] ∧ q ≠ canon ∧ startswith q (rstrip_char SLASH canon) = true ∧
  startswith f (q ++ [SLASH]) = true.
Proof.
  intros Hn Hs Hc. revert f Hn Hs. induction n as [|n IH]; intros f Hn Hs; [lia|].
  destruct (dirname_shorter f Hs) as (Hf & Hl & Hg). cbn [ancestors].
  destruct (decide (q = [])) as [->|Hq].
  { split; [|by intros []]. intros Hin. by destruct (ancestors_nonempty (S n) canon (dirname_of f)). }
  rewrite (ancestor_dirname f q Hf Hs Hq).
  destruct (negb _ && startswith _ _ && negb _) eqn:G.
  - apply andb_true_iff in G as [[G1 G2]%andb_true_iff G3].
    apply negb_true_iff, bool_decide_eq_false in G1, G3.
    rewrite elem_of_cons, IH; [|lia | by destruct Hg].
    split; [intros [->|]; tauto | tauto].
  - split; [by intros ?%not_elem_of_nil|]. intros (_ & Hqc & Hqr & Hqa). exfalso.
    apply andb_false_iff in G as [[G|G]%andb_false_iff|G].
    + apply negb_false_iff, bool_decide_eq_true in G. rewrite G in Hqa.
      destruct Hqa as [|Ha]; [done|]. apply startswith_spec in Ha as [r Er]. by destruct q.
    + assert (startswith (dirname_of f) (rstrip_char SLASH canon) = true); [|congruence].
      apply startswith_spec in Hqr as [r ->]. destruct Hqa as [<- | Ha]; [apply startswith_app|].
      apply startswith_spec in Ha as [k ->]. rewrite <- !app_assoc. apply startswith_app.
    + apply negb_false_iff, bool_decide_eq_true in G. rewrite G in Hqa.
      destruct Hqa as [|Ha]; [done|].
      apply startswith_spec in Ha as [r Er]. apply startswith_spec in Hqr as [k Ek].
      destruct Hc as [-> | Hc].
      * destruct q as [|c [|]]; [done|..]; injection Er as ??; simplify_eq.
      * rewrite Hc in Ek. rewrite <- app_assoc in Er.
        apply (f_equal length) in Er, Ek. rewrite length_app in Er, Ek. cbn in Er. lia.
Qed.

(** the walk that collects directories ends, and collects the right ones.  On a
    session whose keys are absolute, more rounds of the parent loop than the length of
    the path change nothing, and the directories under a root are exactly the proper
    ancestors, strictly below the root, of the live files under it. *)
Theorem traverse_directories root s :
  let canon := _canon root (Some (cwd s)) (Some (home (persona s))) in
  rooted s → tidy_root canon →
  (∀ f n, live s f → f ≠ [] →
     ancestors (S (length f) + n) canon (dirname_of f) = ancestors (S (length f)) canon (dirname_of f)) ∧
  ∀ d, d ∈ (_traverse root s).2 ↔
       d ≠ [] ∧ d ≠ canon ∧ startswith d (rstrip_char SLASH canon) = true ∧
       ∃ f, live s f ∧ under canon f = true ∧ startswith f (d ++ [SLASH]) = true.
Proof.
  intros canon [_ _ Hk] Hc.
  assert (∀ f, live s f → f ≠ [] → slashed f) as Hl.
  { intros f [Hf _] Hne. by destruct (Hk f) as [|]; [apply elem_of_dom|..]. }
  split; [intros f n Hf Hne; apply ancestors_fuel; [lia | by apply Hl]|].
  intros d. unfold _traverse. cbv zeta. cbn [snd]. fold canon.
  rewrite sorted_set_elem, elem_of_list_to_set, list_elem_of_In, in_flat_map. split.
  - intros (f & Hf%list_elem_of_In & Hd%list_elem_of_In).
    apply list_elem_of_filter in Hf as [Hu Hf%live_paths_live].
    destruct (decide (f = [])) as [->|Hne]; [by apply elem_of_nil in Hd|].
    apply ancestors_elem in Hd as (? & ? & ? & ?); [|lia | by apply Hl | done]. eauto 10.
  - intros (Hd & Hdc & Hr & f & Hf & Hu & Ha). exists f. rewrite <- !list_elem_of_In. split.
    + by rewrite list_elem_of_filter, live_paths_live.
    + apply ancestors_elem; [lia | | done..]. apply Hl; [done|].
      intros ->. apply startswith_spec in Ha as [r Er]. by destruct d.
Qed.

(** ** Witnesses *)

Lemma demo_rooted : rooted demo.
Proof.
  apply (connect_fresh (G := unit) "c1"%py "e1"%py "jdoe"%py "10.0.0.9"%py jdoe f0 (Some [jdoe]) None demo); [exact demo_connect | reflexivity].
Qed.

Lemma echo_then_cat_witness :
  match re_match _ECHO_REDIRECT_RE "echo -n 'b c' >> ./notes"%py, re_match _FILE_READ_RE "cat ~//notes"%py with
  | Some m, Some m2 =>
      let s1 := (_apply_write_ops t0 "echo a > notes"%py demo).2 in
      (_read_vfs t0 "cat ~//notes"%py (_apply_write_ops t0 "echo -n 'b c' >> ./notes"%py s1).2).1
      = Ok (Some ("a
b c", "vfs-read"))%py
  | _, _ => False
  end.
Proof.
  pose (s1 := (_apply_write_ops t0 "echo a > notes"%py demo).2).
  destruct (re_match _ECHO_REDIRECT_RE "echo -n 'b c' >> ./notes"%py) as [m|] eqn:E1;
    [|vm_compute in E1; discriminate].
  destruct (re_match _FILE_READ_RE "cat ~//notes"%py) as [m2|] eqn:E2; [|vm_compute in E2; discriminate].
  etransitivity.
  - apply (echo_then_cat t0 t0 _ m _ m2 s1 E1 E2).
    vm_compute in E1, E2. apply Some_inj in E1 as <-. apply Some_inj in E2 as <-. vm_compute. reflexivity.
  - vm_compute in E1. apply Some_inj in E1 as <-. vm_compute. reflexivity.
Defined.

Lemma mv_self_deletes_witness :
  match re_match _MV_RE "mv ~/.bashrc ../jdoe/.bashrc"%py with
  | Some m => _files (session_vfs (op_mv t0 m demo).2) !! "/home/jdoe/.bashrc"%py = None
  | None => False
  end ∧ is_Some (_files (session_vfs demo) !! "/home/jdoe/.bashrc"%py).
Proof.
  split; [|vm_compute; by eexists].
  destruct (re_match _MV_RE "mv ~/.bashrc ../jdoe/.bashrc"%py) as [m|] eqn:E; [|vm_compute in E; discriminate].
  vm_compute in E. apply Some_inj in E as <-.
  match goal with |- _ (session_vfs (op_mv _ ?m _).2) !! _ = None =>
    refine (proj1 (proj2 (mv_self_deletes t0 m demo _ _))) end.
  - vm_compute. reflexivity.
  - intros E. vm_compute in E. discriminate E.
Defined.

Lemma traverse_directories_witness :
  "/home/jdoe/.ssh"%py ∈ (_traverse "~"%py demo).2 ∧
  (_traverse "~"%py demo).2 = ["/home/jdoe/.aws"; "/home/jdoe/.ssh"; "/home/jdoe/projects"]%py.
Proof.
  split; [|vm_compute; reflexivity].
  apply (traverse_directories "~"%py demo demo_rooted); [right; vm_compute; reflexivity|].
  split; [done|]. split; [intros E; vm_compute in E; discriminate E|]. split; [vm_compute; reflexivity|].
  exists "/home/jdoe/.ssh/id_rsa"%py. split; [|split; vm_compute; reflexivity].
  split; [vm_compute; by eexists | by apply (bool_decide_unpack _); vm_compute].
Defined.
