(* ===== verification/Retention.v ===== *)
(** plenith/retention.py: which files are purged, by category and age.

    A path is the list of its components.  The disk is the files with what [stat] and
    [json.load] give for them, and the directories that exist; the order of a directory
    listing, which the system leaves open, is that of the map. *)

From S2P Require Import Prelude PyStr Glob Float Json.

Abbreviation path := (list str).
Record file := mk_file { st_mtime : time; st_size : Z; json : option pyval }.
Record disk := mk_disk { files : gmap path file; dirs : gset path }.

Definition DEFAULT_WINDOWS : list (str * Z) :=
  [("engagements", 90%Z); ("persistence", 120%Z); ("ioc_archive", 365%Z); ("api_audit", 730%Z); ("heartbeats", 7%Z);
   ("cache", 180%Z)]%py.

Record CategorySpec := mk_spec { spec_name : str; roots : list path; pattern : str; recursive : bool }.

Definition _build_default_specs (root : path) : list CategorySpec :=
  [mk_spec "engagements" [root ++ ["state-docker"; "logs"]] "*.json" true;
   mk_spec "persistence" [root ++ ["state-docker"; "persistence"]] "*.json" false;
   mk_spec "ioc_archive" [root ++ ["state"; "ioc-archive"]] "*.jsonl" true;
   mk_spec "api_audit" [root ++ ["state"; "audit"]] "api_*.jsonl" false;
   mk_spec "heartbeats" [root ++ ["state-docker"; "persistence"; "heartbeats"]] "*.json" false;
   mk_spec "cache" [root ++ ["caches"]] "*" false]%py.

(** ** The policy *)

Definition _ALIASES : list (str * str) := [("ioc", "ioc_archive"); ("ioc_days", "ioc_archive")]%py.

(** [lookup_keys]: every canonical name, its [_days] form, and the aliases. *)
Definition lookup_keys : list (str * str) :=
  flat_map (λ nd, [(nd.1, nd.1); (nd.1 ++ "_days"%py, nd.1)]) DEFAULT_WINDOWS ++ _ALIASES.

(** [isinstance(v, int)]: booleans are integers. *)
Definition as_int (v : pyval) : option Z :=
  match v with VInt z => Some z | VBool b => Some (if b then 1 else 0)%Z | _ => None end.

Definition override (w : exc (list (str * Z))) (kv : str * pyval) : exc (list (str * Z)) :=
  match w, assoc_get kv.1 lookup_keys with
  | Ok windows, Some canonical =>
      match as_int kv.2 with
      | Some v => if (v <? 0)%Z then Raise (ValueError ("retention."%py ++ kv.1)) else Ok (assoc_set canonical v windows)
      | None => Raise (ValueError ("retention."%py ++ kv.1))
      end
  | _, _ => w
  end.

Definition from_config (cfg : list (str * pyval)) : exc (list (str * Z)) := foldl override (Ok DEFAULT_WINDOWS) cfg.

Definition days_for (windows : list (str * Z)) (category : str) : exc Z :=
  of_option (KeyError ("unknown retention category: "%py ++ category)) (assoc_get category windows).

Definition day : Z := 86400000000.

(** ** The plan *)

Record FileEntry := mk_entry { e_path : path; age : Z; size_bytes : Z }.
Record CategoryPlan := mk_plan { window_days : Z; to_delete : list FileEntry; kept : nat; missing_root : bool }.

Definition strip_prefix (r p : path) : option path := if decide (take (length r) p = r) then Some (drop (length r) p) else None.

(** Whether the listing of [root] has the file at [p]. *)
Definition listed (s : CategorySpec) (root p : path) : bool :=
  match strip_prefix root p with
  | Some [name] => _fnmatch name (pattern s)
  | Some ((_ :: _ :: _) as rest) => recursive s && _fnmatch (List.last rest []) (pattern s)
  | _ => false
  end.

Definition paths (d : disk) : list path := map fst (map_to_list (files d)).

Definition _iter_files (s : CategorySpec) (d : disk) : list path :=
  flat_map (λ root, List.filter (listed s root) (paths d)) (roots s).

Definition exists_ (d : disk) (p : path) : bool :=
  bool_decide (p ∈ dirs d) || existsb (λ q, bool_decide (strip_prefix p q ≠ None)) (paths d).

(** [path.suffix == ".json"]. *)
Definition is_json (p : path) : bool := let n := List.last p [] in endswith n ".json"%py && negb (bool_decide (n = ".json"%py)).

Definition parsed (p : path) (f : file) : pyval := if is_json p then default (VDict []) (json f) else VDict [].

Section retention.
(** What may go wrong: a [stat] that fails, a removal that fails. *)
Context (stat_fails : path → bool) (remove_fails : path → bool).
Context (filter_predicate : option (path → pyval → bool)).

Definition consider (days : Z) (now : time) (d : disk) (cp : CategoryPlan) (p : path) : CategoryPlan :=
  match files d !! p with
  | Some f =>
      if stat_fails p then cp
      else
        let age := (now - st_mtime f)%Z in
        let keep := mk_plan (window_days cp) (to_delete cp) (S (kept cp)) (missing_root cp) in
        if (age <=? days * day)%Z then keep
        else if match filter_predicate with Some q => negb (q p (parsed p f)) | None => false end then keep
        else mk_plan (window_days cp) (to_delete cp ++ [mk_entry p age (st_size f)]) (kept cp) (missing_root cp)
  | None => cp
  end.

Definition plan_category (now : time) (d : disk) (s : CategorySpec) (days : Z) : CategoryPlan :=
  foldl (consider days now d) (mk_plan days [] 0 (negb (existsb (exists_ d) (roots s)))) (_iter_files s d).

(** Categories in the order of the specs; a later spec of the same name replaces the plan. *)
Fixpoint build_plan (windows : list (str * Z)) (now : time) (d : disk) (specs : list CategorySpec)
    (plan : list (str * CategoryPlan)) : exc (list (str * CategoryPlan)) :=
  match specs with
  | [] => Ok plan
  | s :: specs =>
      exc_bind (days_for windows (spec_name s)) (λ days,
        build_plan windows now d specs (assoc_set (spec_name s) (plan_category now d s days) plan))
  end.

Definition entries (plan : list (str * CategoryPlan)) : list FileEntry := flat_map (λ kv, to_delete kv.2) plan.
Definition total_bytes (plan : list (str * CategoryPlan)) : Z := foldr Z.add 0%Z (map size_bytes (entries plan)).

(** ** Applying it *)

Record ApplyResult := mk_result { deleted : nat; failed : nat; bytes_freed : Z; errors : list path }.

(** [os.remove]: it fails on a file that is gone. *)
Definition remove (p : path) (d : disk) : option disk :=
  match files d !! p with
  | Some _ => if remove_fails p then None else Some (mk_disk (delete p (files d)) (dirs d))
  | None => None
  end.

Definition apply_entry (dry_run : bool) (st : ApplyResult * disk) (e : FileEntry) : ApplyResult * disk :=
  let '(r, d) := st in
  let ok := mk_result (S (deleted r)) (failed r) (bytes_freed r + size_bytes e) (errors r) in
  if dry_run then (ok, d)
  else match remove (e_path e) d with
       | Some d => (ok, d)
       | None => (mk_result (deleted r) (S (failed r)) (bytes_freed r) (errors r ++ [e_path e]), d)
       end.

Definition apply_plan (dry_run : bool) (plan : list (str * CategoryPlan)) (d : disk) : ApplyResult * disk :=
  foldl (apply_entry dry_run) (mk_result 0 0 0 [], d) (entries plan).

Definition purge (root : path) (windows : list (str * Z)) (specs : option (list CategorySpec)) (dry_run : bool)
    (now : time) (d : disk) : exc (list (str * CategoryPlan) * ApplyResult * disk) :=
  let specs := match specs with Some ((_ :: _) as l) => l | _ => _build_default_specs root end in
  exc_bind (build_plan windows now d specs []) (λ plan,
    let '(r, d) := apply_plan dry_run plan d in Ok (plan, r, d)).
End retention.

(** ** Which files a plan names *)

Lemma strip_prefix_spec r p rest : strip_prefix r p = Some rest ↔ p = r ++ rest.
Proof.
  unfold strip_prefix. split.
  - destruct (decide _) as [E|]; [|done]. intros [= <-]. rewrite <- E at 1. symmetry. apply take_drop.
  - intros ->. rewrite take_app_length, drop_app_length. by rewrite decide_True.
Qed.

(** A listed file is below the root, directly unless the category is recursive. *)
Lemma listed_below s r p :
  listed s r p = true → ∃ rest, p = r ++ rest ∧ rest ≠ [] ∧ (recursive s = false → length rest = 1).
Proof.
  unfold listed. destruct (strip_prefix r p) as [rest|] eqn:E; [|done]. apply strip_prefix_spec in E as ->.
  intros Hl. exists rest. split; [done|]. destruct rest as [|a [|b rest]]; [done..|].
  split; [done|]. intros Hr. by rewrite Hr in Hl.
Qed.

Lemma iter_files_spec s d p :
  p ∈ _iter_files s d ↔ is_Some (files d !! p) ∧ ∃ r, r ∈ roots s ∧ listed s r p = true.
Proof.
  unfold _iter_files. rewrite list_elem_of_In, in_flat_map. setoid_rewrite List.filter_In.
  unfold paths.
  assert (Hp : In p (map fst (map_to_list (files d))) ↔ is_Some (files d !! p)).
  { rewrite <- list_elem_of_In, list_elem_of_fmap. split.
    - intros ([q f] & -> & Hq%elem_of_map_to_list). by exists f.
    - intros [f Hf]. exists (p, f). by rewrite elem_of_map_to_list. }
  setoid_rewrite Hp. setoid_rewrite <- list_elem_of_In. naive_solver.
Qed.

Section plans.
Context (stat_fails remove_fails : path → bool) (filter_predicate : option (path → pyval → bool)).

(** A file whose age is past the window and that the caller's predicate selects. *)
Definition doomed (days : Z) (now : time) (d : disk) (p : path) : bool :=
  match files d !! p with
  | Some f => negb (stat_fails p) && (days * day <? now - st_mtime f)%Z
              && match filter_predicate with Some q => q p (parsed p f) | None => true end
  | None => false
  end.

Definition entry_of (now : time) (d : disk) (p : path) : FileEntry :=
  match files d !! p with Some f => mk_entry p (now - st_mtime f) (st_size f) | None => mk_entry p 0 0 end.

Lemma entry_path now d p : e_path (entry_of now d p) = p.
Proof. unfold entry_of. by destruct (files d !! p). Qed.

Lemma consider_to_delete days now d cp p :
  to_delete (consider stat_fails filter_predicate days now d cp p)
  = to_delete cp ++ (if doomed days now d p then [entry_of now d p] else []).
Proof.
  unfold consider, doomed, entry_of. destruct (files d !! p) as [f|]; [|by rewrite app_nil_r].
  destruct (stat_fails p); [by rewrite app_nil_r|]. cbn [negb andb].
  rewrite Z.ltb_antisym. destruct (_ <=? _)%Z; cbn [negb andb to_delete]; [by rewrite app_nil_r|].
  destruct filter_predicate as [q|]; [|done]. destruct (q p (parsed p f)); cbn; by rewrite ?app_nil_r.
Qed.

Lemma plan_entries now d s days :
  to_delete (plan_category stat_fails filter_predicate now d s days)
  = map (entry_of now d) (List.filter (doomed days now d) (_iter_files s d)).
Proof.
  unfold plan_category. generalize (negb (existsb (exists_ d) (roots s))). intros b.
  assert (H : ∀ l cp, to_delete (foldl (consider stat_fails filter_predicate days now d) cp l)
                      = to_delete cp ++ map (entry_of now d) (List.filter (doomed days now d) l)).
  { induction l as [|p l IH]; intros cp; cbn; [by rewrite app_nil_r|]. rewrite IH, consider_to_delete, <- app_assoc.
    by destruct (doomed days now d p). }
  apply H.
Qed.

(** ** What applying it does *)

Definition planned (l : list FileEntry) : list path := map e_path l.

Lemma apply_frame dry l st :
  dirs (foldl (apply_entry remove_fails dry) st l).2 = dirs st.2
  ∧ deleted (foldl (apply_entry remove_fails dry) st l).1 + failed (foldl (apply_entry remove_fails dry) st l).1
    = deleted st.1 + failed st.1 + length l
  ∧ (dry = true → (foldl (apply_entry remove_fails dry) st l).2 = st.2).
Proof.
  revert st. induction l as [|e l IH]; intros [r d]; cbn [foldl length]; [split_auto|].
  destruct (IH (apply_entry remove_fails dry (r, d) e)) as (H1 & H2 & H3). rewrite H1, H2.
  unfold apply_entry, remove in *. destruct dry; [cbn in *; split_auto|].
  split; [|split; [|done]].
  - destruct (files d !! e_path e); [|done]. by destruct (remove_fails (e_path e)).
  - destruct (files d !! e_path e); [|cbn; lia]. destruct (remove_fails (e_path e)); cbn; lia.
Qed.

Lemma apply_files l st p :
  files (foldl (apply_entry remove_fails false) st l).2 !! p
  = if decide (p ∈ planned l ∧ remove_fails p = false) then None else files st.2 !! p.
Proof.
  revert st. induction l as [|e l IH]; intros [r d]; cbn [foldl planned map].
  - rewrite decide_False by (intros [Hp _]; by apply elem_of_nil in Hp). done.
  - rewrite IH. unfold apply_entry, remove. cbn [snd].
    destruct (decide (p = e_path e)) as [->|Hne].
    + destruct (files d !! e_path e) as [f|] eqn:E.
      * destruct (remove_fails (e_path e)) eqn:Er; cbn [snd files].
        -- rewrite !decide_False by naive_solver. done.
        -- rewrite (decide_True (P := e_path e ∈ e_path e :: _ ∧ _)) by (split; [by left|done]).
           rewrite lookup_delete_eq. by destruct (decide _).
      * cbn [snd]. rewrite E. by destruct (decide _), (decide _).
    + assert (Hf : files (match files d !! e_path e with
                          | Some _ => if remove_fails (e_path e) then d else mk_disk (delete (e_path e) (files d)) (dirs d)
                          | None => d end) !! p = files d !! p).
      { destruct (files d !! e_path e); [|done]. destruct (remove_fails (e_path e)); [done|]. cbn [files]. apply lookup_delete_ne. congruence. }
      assert (Hd : (if decide (p ∈ planned l ∧ remove_fails p = false) then None else files d !! p)
                   = if decide (p ∈ e_path e :: map e_path l ∧ remove_fails p = false) then None else files d !! p).
      { unfold planned. apply decide_ext. rewrite elem_of_cons. naive_solver. }
      rewrite <- Hd. destruct (files d !! e_path e); [destruct (remove_fails (e_path e))|]; cbn [snd] in *; by rewrite ?Hf.
Qed.

(** On a disk that has every planned file once and lets it go, a dry run reports what the
    real run does. *)
Lemma dry_run_same l r d :
  NoDup (planned l) → Forall (λ e, is_Some (files d !! e_path e) ∧ remove_fails (e_path e) = false) l →
  (foldl (apply_entry remove_fails true) (r, d) l).1 = (foldl (apply_entry remove_fails false) (r, d) l).1.
Proof.
  intros Hn Hl. assert (H : ∀ d', Forall (λ e, is_Some (files d' !! e_path e) ∧ remove_fails (e_path e) = false) l →
    (foldl (apply_entry remove_fails true) (r, d) l).1 = (foldl (apply_entry remove_fails false) (r, d') l).1).
  { clear Hl. revert r Hn. induction l as [|e l IH]; intros r Hn d' Hl; [done|]. cbn [foldl].
    apply Forall_cons in Hl as [[Hf Hr] Hl]. cbn [planned map] in Hn. apply NoDup_cons in Hn as [He Hn].
    unfold apply_entry at 2 4, remove. destruct Hf as [f Hf]. rewrite Hf, Hr. apply IH; [done|].
    apply Forall_forall. intros e' He'. rewrite Forall_forall in Hl. destruct (Hl e' He') as [Hf' Hr'].
    split; [|done]. cbn [files]. rewrite lookup_delete_ne; [done|]. intros E. apply He. rewrite E. by apply list_elem_of_fmap_2. }
  by apply H.
Qed.
End plans.

(** ** The policy *)

Lemma override_keys cfg w windows :
  foldl override (Ok w) cfg = Ok windows → (∀ c, is_Some (assoc_get c w) → is_Some (assoc_get c windows)).
Proof.
  revert w. induction cfg as [|[k v] cfg IH]; intros w; cbn [foldl]; [by intros [= ->]|].
  assert (Hraise : ∀ e, foldl override (Raise e) cfg = Ok windows → False).
  { clear. intros e. induction cfg as [|kv cfg IH]; [done|]. exact IH. }
  unfold override at 2. cbn [fst snd]. destruct (assoc_get k lookup_keys) as [c'|]; [|by apply IH].
  destruct (as_int v) as [z|]; [|by intros H%Hraise]. destruct (z <? 0)%Z; [by intros H%Hraise|].
  intros H c Hc. eapply IH; [exact H|]. rewrite assoc_get_set. by destruct (decide _).
Qed.

(** Every default category has a window under every accepted configuration. *)
Lemma from_config_days cfg windows s root :
  from_config cfg = Ok windows → s ∈ _build_default_specs root → ∃ days, days_for windows (spec_name s) = Ok days.
Proof.
  intros Hc Hs. pose proof (override_keys cfg DEFAULT_WINDOWS windows Hc (spec_name s)) as H.
  assert (Hd : is_Some (assoc_get (spec_name s) DEFAULT_WINDOWS)).
  { unfold _build_default_specs in Hs. repeat (apply elem_of_cons in Hs as [->|Hs]; [by eexists|]). by apply elem_of_nil in Hs. }
  destruct (H Hd) as [days E]. exists days. unfold days_for. by rewrite E.
Qed.

Section plan_of_specs.
Context (stat_fails : path → bool) (filter_predicate : option (path → pyval → bool)).

Lemma build_plan_ok windows now d specs acc :
  NoDup (map spec_name specs) → (∀ s, s ∈ specs → spec_name s ∉ map fst acc) →
  (∀ s, s ∈ specs → ∃ days, days_for windows (spec_name s) = Ok days) →
  ∃ plan, build_plan stat_fails filter_predicate windows now d specs acc = Ok (acc ++ plan)
    ∧ Forall2 (λ s kv, ∃ days, days_for windows (spec_name s) = Ok days
                 ∧ kv = (spec_name s, plan_category stat_fails filter_predicate now d s days)) specs plan.
Proof.
  revert acc. induction specs as [|s specs IH]; intros acc Hn Ha Hd; [exists []; by rewrite app_nil_r|].
  cbn [map] in Hn. apply NoDup_cons in Hn as [Hs Hn]. destruct (Hd s ltac:(by left)) as [days E]. cbn [build_plan].
  rewrite E. cbn [exc_bind].
  assert (Hset : ∀ v : CategoryPlan, assoc_set (spec_name s) v acc = acc ++ [(spec_name s, v)]).
  { intros v. specialize (Ha s ltac:(by left)). clear -Ha. induction acc as [|[k x] acc IH]; [done|]. cbn in *.
    rewrite decide_False by set_solver. rewrite IH by set_solver. done. }
  rewrite Hset. destruct (IH (acc ++ [(spec_name s, plan_category stat_fails filter_predicate now d s days)])) as (plan & Hp & HF).
  - done.
  - intros s' Hs' Hin. rewrite map_app in Hin. apply elem_of_app in Hin as [Hin|Hin%list_elem_of_singleton].
    + eapply Ha; [|exact Hin]. by right.
    + apply Hs. cbn in Hin. rewrite <- Hin. by apply list_elem_of_fmap_2.
  - intros s' Hs'. apply Hd. by right.
  - eexists (_ :: plan). split; [rewrite Hp, <- app_assoc; reflexivity|]. constructor; [by exists days|done].
Qed.
End plan_of_specs.

Lemma default_specs_names root : NoDup (map spec_name (_build_default_specs root)).
Proof. cbn. by apply (bool_decide_unpack _). Qed.

(** ** The default categories are disjoint *)

Lemma default_specs_disjoint root s s' r r' p :
  s ∈ _build_default_specs root → s' ∈ _build_default_specs root → r ∈ roots s → r' ∈ roots s' →
  listed s r p = true → listed s' r' p = true → s = s'.
Proof.
  intros Hs Hs' Hr Hr' (rest & -> & Hne & Hl)%listed_below (rest' & E & Hne' & Hl')%listed_below.
  unfold _build_default_specs in Hs, Hs'.
  repeat (apply elem_of_cons in Hs as [->|Hs]); try by apply elem_of_nil in Hs.
  all: cbn in Hr; apply list_elem_of_singleton in Hr as ->; cbn in Hl.
  all: repeat (apply elem_of_cons in Hs' as [->|Hs']); try (by apply elem_of_nil in Hs').
  all: cbn in Hr'; apply list_elem_of_singleton in Hr' as ->; cbn in Hl'.
  all: try reflexivity; rewrite <- !app_assoc in E; apply app_inv_head in E; try discriminate E.
  - specialize (Hl eq_refl). injection E as ->. cbn in Hl. destruct rest'; [done|discriminate Hl].
  - specialize (Hl' eq_refl). injection E as E. rewrite <- E in Hl'. cbn in Hl'. destruct rest; [done|discriminate Hl'].
Qed.

(** ** The purge *)

Section purge.
Context (stat_fails remove_fails : path → bool) (filter_predicate : option (path → pyval → bool)).

(** The files whose category's window has passed. *)
Definition expired (windows : list (str * Z)) (now : time) (d : disk) (specs : list CategorySpec) (p : path) : Prop :=
  ∃ s days r, s ∈ specs ∧ days_for windows (spec_name s) = Ok days ∧ r ∈ roots s ∧ listed s r p = true
              ∧ doomed stat_fails filter_predicate days now d p = true.

Definition plan_of (windows : list (str * Z)) (now : time) (d : disk) (specs : list CategorySpec)
    (plan : list (str * CategoryPlan)) : Prop :=
  Forall2 (λ s kv, ∃ days, days_for windows (spec_name s) = Ok days
             ∧ kv = (spec_name s, plan_category stat_fails filter_predicate now d s days)) specs plan.

Lemma planned_expired windows now d specs plan p :
  plan_of windows now d specs plan → p ∈ planned (entries plan) ↔ expired windows now d specs p.
Proof.
  induction 1 as [|s kv specs plan (days & Hd & ->) _ IH].
  - split; [by intros ?%elem_of_nil|]. intros (s & days & r & Hs & _). by apply elem_of_nil in Hs.
  - unfold entries. cbn [flat_map]. unfold planned. rewrite map_app, elem_of_app. fold (entries plan). fold (planned (entries plan)).
    rewrite IH. cbn [snd]. rewrite plan_entries, map_map.
    assert (He : map (λ x, e_path (entry_of now d x)) (List.filter (doomed stat_fails filter_predicate days now d) (_iter_files s d))
                 = List.filter (doomed stat_fails filter_predicate days now d) (_iter_files s d)).
    { rewrite <- map_id. apply map_ext, entry_path. }
    rewrite He, list_elem_of_In, List.filter_In, <- list_elem_of_In, iter_files_spec. split.
    + intros [[[_ (r & Hr & Hl)] Hdm]|(s' & days' & r & Hs & Hrest)].
      * exists s, days, r. split_and!; try done. by left.
      * exists s', days', r. split; [by right|done].
    + intros (s' & days' & r & Hs & Hd' & Hr & Hl & Hdm). apply elem_of_cons in Hs as [->|Hs].
      * left. rewrite Hd in Hd'. injection Hd' as <-. split; [|done]. split; [|by exists r].
        unfold doomed in Hdm. by destruct (files d !! p).
      * right. by exists s', days', r.
Qed.

Lemma planned_NoDup windows now d root specs plan :
  plan_of windows now d specs plan → NoDup (map spec_name specs) → (∀ s, s ∈ specs → s ∈ _build_default_specs root) →
  NoDup (planned (entries plan)).
Proof.
  induction 1 as [|s kv specs plan (days & Hd & ->) Hplan IH]; intros Hn Hs; [constructor|].
  unfold entries, planned. cbn [flat_map snd]. rewrite map_app. apply NoDup_app.
  cbn [map] in Hn. apply NoDup_cons in Hn as [Hsn Hn].
  assert (Hin : s ∈ _build_default_specs root) by (apply Hs; by left).
  assert (Hroot : ∃ r, roots s = [r]).
  { unfold _build_default_specs in Hin. repeat (apply elem_of_cons in Hin as [->|Hin]; [by eexists|]). by apply elem_of_nil in Hin. }
  rewrite plan_entries, map_map. rewrite (map_ext _ id) by apply entry_path. rewrite map_id.
  split; [|split; [|apply IH; [done|intros s' Hs'; apply Hs; by right]]].
  - apply NoDup_ListNoDup, List.NoDup_filter. unfold _iter_files. destruct Hroot as [r ->]. cbn. rewrite app_nil_r.
    apply List.NoDup_filter, NoDup_ListNoDup, NoDup_fst_map_to_list.
  - intros p Hp Hp'. apply list_elem_of_In, List.filter_In in Hp as [Hp _]. rewrite <- list_elem_of_In, iter_files_spec in Hp.
    destruct Hp as (_ & r & Hr & Hl). apply (planned_expired windows now d specs plan p Hplan) in Hp'.
    destruct Hp' as (s' & days' & r' & Hs' & _ & Hr' & Hl' & _). apply Hsn.
    rewrite (default_specs_disjoint root s s' r r' p); try done; [by apply list_elem_of_fmap_2|]. apply Hs. by right.
Qed.

(** The default purge plans its six categories, whatever the configuration says. *)
Lemma purge_plan root cfg windows dry now d :
  from_config cfg = Ok windows →
  ∃ plan, plan_of windows now d (_build_default_specs root) plan ∧
    purge stat_fails remove_fails filter_predicate root windows None dry now d
    = Ok (plan, (apply_plan remove_fails dry plan d).1, (apply_plan remove_fails dry plan d).2).
Proof.
  intros Hc. destruct (build_plan_ok stat_fails filter_predicate windows now d (_build_default_specs root) [])
    as (plan & Hp & HF); [apply default_specs_names|by intros ? _ ?%elem_of_nil|by intros; eapply from_config_days|].
  exists plan. split; [exact HF|]. unfold purge. rewrite Hp. cbn [exc_bind app]. by destruct (apply_plan _ _ _ _).
Qed.
End purge.


(** the dry run tells the truth.  It leaves the disk as it is and plans the same files as
    the real run; when nothing planned fails to be removed, the counts and the bytes it
    reports are the real run's: no file is planned twice, because no file belongs to two
    of the default categories. *)
Theorem dry_run_agrees stat_fails remove_fails filter_predicate root cfg windows now d :
  from_config cfg = Ok windows →
  ∃ plan r r' d', purge stat_fails remove_fails filter_predicate root windows None true now d = Ok (plan, r, d)
    ∧ purge stat_fails remove_fails filter_predicate root windows None false now d = Ok (plan, r', d')
    ∧ NoDup (planned (entries plan))
    ∧ (Forall (λ e, remove_fails (e_path e) = false) (entries plan) → r = r').
Proof.
  intros Hc. destruct (purge_plan stat_fails remove_fails filter_predicate root cfg windows true now d Hc) as (plan & Hp & ->).
  destruct (purge_plan stat_fails remove_fails filter_predicate root cfg windows false now d Hc) as (plan' & Hp' & ->).
  assert (E : plan' = plan).
  { clear -Hp Hp'. unfold plan_of in *. revert plan' Hp'. induction Hp as [|s kv specs plan (days & Hd & ->) _ IH]; intros plan' Hp';
      inversion Hp' as [|? kv' ? pl' (days' & Hd' & ->) H']; [done|]. subst. rewrite Hd in Hd'. injection Hd' as <-. by rewrite (IH pl'). }
  subst plan'. destruct (apply_frame remove_fails true (entries plan) (mk_result 0 0 0 [], d)) as (_ & _ & H3).
  eexists plan, _, _, _. split; [by unfold apply_plan; rewrite (H3 eq_refl)|]. split; [reflexivity|].
  pose proof (planned_NoDup stat_fails filter_predicate windows now d root _ plan Hp (default_specs_names root) ltac:(done)) as Hn.
  split; [exact Hn|]. intros Hf. apply dry_run_same; [done|]. rewrite Forall_forall in *. intros e He. split; [|by apply Hf].
  assert (Hin : e_path e ∈ planned (entries plan)) by (by apply list_elem_of_fmap_2).
  apply (planned_expired stat_fails filter_predicate windows now d _ plan _ Hp) in Hin.
  destruct Hin as (s & days & r & _ & _ & _ & _ & Hdm). unfold doomed in Hdm. by destruct (files d !! e_path e).
Qed.

(** ** Witnesses *)

Definition demo_cfg : list (str * pyval) := [("engagements_days", VInt 1); ("ioc", VInt 5); ("other", VNone)]%py.

Definition demo_disk : disk :=
  mk_disk {[ ["/"; "state-docker"; "logs"; "h"; "1.json"]%py := mk_file 0%Z 10%Z None;
             ["/"; "state-docker"; "logs"; "h"; "2.json"]%py := mk_file (3 * day)%Z 20%Z None;
             ["/"; "state-docker"; "persistence"; "a.json"]%py := mk_file 0%Z 30%Z None ]} ∅.

Definition nothing_fails : path → bool := λ _, false.
Definition demo_windows : list (str * Z) := assoc_set "ioc_archive"%py 5%Z (assoc_set "engagements"%py 1%Z DEFAULT_WINDOWS).


Lemma dry_run_agrees_witness :
  from_config demo_cfg = Ok demo_windows ∧
  ∃ plan r r' d', purge nothing_fails nothing_fails None ["/"%py] demo_windows None true (3 * day)%Z demo_disk = Ok (plan, r, demo_disk)
    ∧ purge nothing_fails nothing_fails None ["/"%py] demo_windows None false (3 * day)%Z demo_disk = Ok (plan, r', d') ∧ r = r'.
Proof.
  assert (Hc : from_config demo_cfg = Ok demo_windows) by (vm_compute; reflexivity). split; [exact Hc|].
  destruct (dry_run_agrees nothing_fails nothing_fails None ["/"%py] demo_cfg demo_windows (3 * day)%Z demo_disk Hc)
    as (plan & r & r' & d' & E & E' & _ & Hr).
  exists plan, r, r', d'. split; [exact E|]. split; [exact E'|]. apply Hr. by apply Forall_true.
Defined.

(** A boolean passes for a number of days: [cache_days: yes] keeps the caches for one day. *)
Example yes_is_one_day :
  exc_bind (from_config [("cache_days"%py, VBool true)]) (λ w, days_for w "cache"%py) = Ok 1%Z.
Proof. by vm_compute. Qed.
