(* ===== verification/Acks.v ===== *)
(** plenith/acks.py: the operators' acknowledgements, kept in a file of their own beside the
    forensic logs and joined with them when they are shown.

    The store is the typed content of its file; each operation reads it and, when it
    changes it, writes it back whole. *)

From S2P Require Import Prelude PyStr Float Json KillQueue.

Record ack_entry := mk_ack { ts : flt; op_id : str; note : option str }.
Abbreviation acks := (gmap str (gmap str ack_entry)).

(** [if note: entry["note"] = note]. *)
Definition opt_note (n : str) : option str := match n with [] => None | _ => Some n end.
Definition new_entry (op_id note : str) (now : flt) : ack_entry := mk_ack now (or_anonymous op_id) (opt_note note).

Definition of_engagement (file : acks) (engagement_id : str) : gmap str ack_entry := default ∅ (file !! engagement_id).

(** [data.setdefault(engagement_id, {})[action_name] = entry]. *)
Definition put (engagement_id action_name : str) (e : ack_entry) (file : acks) : acks :=
  <[engagement_id := <[action_name := e]> (of_engagement file engagement_id)]> file.

Definition ack (engagement_id action_name op_id note : str) (now : flt) (file : acks) : ack_entry * acks :=
  let entry := new_entry op_id note now in (entry, put engagement_id action_name entry file).

Definition unack (engagement_id action_name : str) (file : acks) : bool * acks :=
  match file !! engagement_id with
  | Some eng =>
      match eng !! action_name with
      | Some _ =>
          let eng := delete action_name eng in
          (true, if decide (eng = ∅) then delete engagement_id file else <[engagement_id := eng]> file)
      | None => (false, file)
      end
  | None => (false, file)
  end.

Definition get (engagement_id action_name : str) (file : acks) : option ack_entry :=
  of_engagement file engagement_id !! action_name.

Definition get_for_engagement (engagement_id : str) (file : acks) : gmap str ack_entry := of_engagement file engagement_id.

Record tally := mk_tally { acked : nat; skipped : nat }.

(** One round of the loop; each engagement comes with the clock's reading at its round. *)
Definition batch_round (action_name op_id note : str) (st : tally * acks) (x : str * flt) : tally * acks :=
  let '(t, data) := st in
  let '(eid, now) := x in
  let existing := get eid action_name data in
  let data := put eid action_name (new_entry op_id note now) data in
  (match existing with None => mk_tally (S (acked t)) (skipped t) | Some _ => mk_tally (acked t) (S (skipped t)) end, data).

Definition batch_ack (engagement_ids : list (str * flt)) (action_name : option str) (op_id note : str) (file : acks)
    : exc (tally * acks) :=
  match action_name with
  | None => Raise (ValueError ("batch_ack requires an explicit action_name; the caller is responsible for "%py
                               ++ "resolving per-engagement actions from the session logs."%py))
  | Some name => Ok (foldl (batch_round name op_id note) (mk_tally 0 0, file) engagement_ids)
  end.

(** The join: one action of a log. *)
Definition setdefault (k : str) (v : pyval) (d : gmap str pyval) : gmap str pyval :=
  match d !! k with Some _ => d | None => <[k := v]> d end.

Definition overlay_action (eng_acks : gmap str ack_entry) (action : gmap str pyval) : gmap str pyval :=
  let found := match action !! "action"%py with Some (VStr ((_ :: _) as name)) => eng_acks !! name | _ => None end in
  match found with
  | Some a =>
      <["acknowledge_note"%py := match note a with Some n => VStr n | None => VNone end]>
        (<["acknowledged_by"%py := VStr (op_id a)]> (<["acknowledged_at"%py := VFloat (ts a)]> action))
  | None => setdefault "acknowledge_note"%py VNone (setdefault "acknowledged_by"%py VNone
              (setdefault "acknowledged_at"%py VNone action))
  end.

(** [overlay_engagement]: the actions of each of the engagement's logs. *)
Definition overlay_engagement (engagement_id : str) (logs : list (list (gmap str pyval))) (file : acks)
    : list (list (gmap str pyval)) :=
  match engagement_id with
  | [] => logs
  | _ => map (map (overlay_action (of_engagement file engagement_id))) logs
  end.

(** ** The specification: one flat table of acknowledged alerts *)

Abbreviation table := (gmap (str * str) ack_entry).

Inductive op :=
| Ack (eid action op_id note : str) (now : flt)
| Unack (eid action : str)
| Batch (eids : list (str * flt)) (action op_id note : str).

Inductive reply := Recorded (e : ack_entry) | Removed (b : bool) | Counted (t : tally).

Definition step (o : op) (file : acks) : reply * acks :=
  match o with
  | Ack eid a who n now => let '(e, f) := ack eid a who n now file in (Recorded e, f)
  | Unack eid a => let '(b, f) := unack eid a file in (Removed b, f)
  | Batch eids a who n => match batch_ack eids (Some a) who n file with
                          | Ok (t, f) => (Counted t, f)
                          | Raise _ => (Counted (mk_tally 0 0), file)
                          end
  end.

Definition spec_round (a who n : str) (st : tally * table) (x : str * flt) : tally * table :=
  (match st.2 !! (x.1, a) with
   | None => mk_tally (S (acked st.1)) (skipped st.1)
   | Some _ => mk_tally (acked st.1) (S (skipped st.1))
   end, <[(x.1, a) := new_entry who n x.2]> st.2).

Definition spec_step (o : op) (t : table) : reply * table :=
  match o with
  | Ack eid a who n now => let e := new_entry who n now in (Recorded e, <[(eid, a) := e]> t)
  | Unack eid a => (Removed (bool_decide (is_Some (t !! (eid, a)))), delete (eid, a) t)
  | Batch eids a who n => let '(c, t) := foldl (spec_round a who n) (mk_tally 0 0, t) eids in (Counted c, t)
  end.

(** A history of calls: their replies and the file it leaves. *)
Definition history {S} (f : op → S → reply * S) (ops : list op) (s : S) : list reply * S :=
  foldl (λ st o, let '(r, s) := f o st.2 in (st.1 ++ [r], s)) ([], s) ops.

(** The file and the table say the same of every alert. *)
Definition represents (file : acks) (t : table) : Prop := ∀ e a, get e a file = t !! (e, a).

(** No engagement is listed without an acknowledgement. *)
Definition tidy (file : acks) : Prop := ∀ e m, file !! e = Some m → m ≠ ∅.

Lemma of_engagement_put eid a e file eid' :
  of_engagement (put eid a e file) eid' = if decide (eid' = eid) then <[a := e]> (of_engagement file eid) else of_engagement file eid'.
Proof.
  unfold of_engagement at 1, put. destruct (decide (eid' = eid)) as [->|Hne]; [by rewrite lookup_insert_eq|].
  by rewrite lookup_insert_ne.
Qed.

Lemma get_put eid a e file eid' a' :
  get eid' a' (put eid a e file) = if decide ((eid', a') = (eid, a)) then Some e else get eid' a' file.
Proof.
  unfold get. rewrite of_engagement_put. destruct (decide (eid' = eid)) as [->|Hne].
  - destruct (decide (a' = a)) as [->|Ha].
    + by rewrite decide_True, lookup_insert_eq by done.
    + by rewrite decide_False, lookup_insert_ne by congruence.
  - by rewrite decide_False by congruence.
Qed.

Lemma represents_put eid a e file t : represents file t → represents (put eid a e file) (<[(eid, a) := e]> t).
Proof.
  intros Hr x y. rewrite get_put. destruct (decide _) as [E|Hne].
  - by rewrite E, lookup_insert_eq.
  - rewrite lookup_insert_ne by congruence. apply Hr.
Qed.

Lemma put_tidy eid a e file : tidy file → tidy (put eid a e file).
Proof.
  intros Ht x m. unfold put. rewrite lookup_insert_Some. intros [[<- <-]|[_ Hx]]; [apply insert_non_empty|by eapply Ht].
Qed.

(** An engagement that holds the last acknowledgement goes with it. *)
Lemma of_engagement_unack eid a file eid' :
  of_engagement (unack eid a file).2 eid' = if decide (eid' = eid) then delete a (of_engagement file eid) else of_engagement file eid'.
Proof.
  unfold unack, of_engagement. destruct (file !! eid) as [eng|] eqn:E.
  - destruct (eng !! a) as [e|] eqn:Ea; cbn.
    + destruct (decide (eid' = eid)) as [->|Hne].
      * destruct (decide (delete a eng = ∅)) as [Hd|Hd]; [by rewrite lookup_delete_eq|by rewrite lookup_insert_eq].
      * destruct (decide _); [by rewrite lookup_delete_ne|by rewrite lookup_insert_ne].
    + destruct (decide (eid' = eid)) as [->|Hne]; [|done]. by rewrite E, delete_id.
  - cbn. destruct (decide (eid' = eid)) as [->|Hne]; [|done]. by rewrite E, delete_empty.
Qed.

Lemma unack_reply eid a file : (unack eid a file).1 = bool_decide (is_Some (get eid a file)).
Proof.
  unfold unack, get, of_engagement. destruct (file !! eid) as [eng|]; [|done].
  cbn. by destruct (eng !! a).
Qed.

Lemma represents_unack eid a file t : represents file t → represents (unack eid a file).2 (delete (eid, a) t).
Proof.
  intros Hr x y. unfold get. rewrite of_engagement_unack. destruct (decide (x = eid)) as [->|Hne].
  - destruct (decide (y = a)) as [->|Ha]; [by rewrite !lookup_delete_eq|].
    rewrite !lookup_delete_ne by congruence. apply Hr.
  - rewrite lookup_delete_ne by congruence. apply Hr.
Qed.

Lemma unack_tidy eid a file : tidy file → tidy (unack eid a file).2.
Proof.
  intros Ht. unfold unack. destruct (file !! eid) as [eng|]; [|done]. destruct (eng !! a); [|done]. cbn [snd].
  intros x m. destruct (decide (delete a eng = ∅)) as [Hd|Hd].
  - rewrite lookup_delete_Some. intros [_ Hx]. by eapply Ht.
  - rewrite lookup_insert_Some. intros [[<- <-]|[_ Hx]]; [done|by eapply Ht].
Qed.

Lemma batch_represents a who n ids c file t :
  represents file t →
  (foldl (batch_round a who n) (c, file) ids).1 = (foldl (spec_round a who n) (c, t) ids).1
  ∧ represents (foldl (batch_round a who n) (c, file) ids).2 (foldl (spec_round a who n) (c, t) ids).2
  ∧ (tidy file → tidy (foldl (batch_round a who n) (c, file) ids).2).
Proof.
  revert c file t. induction ids as [|[eid now] ids IH]; intros c file t Hr; [done|]. cbn [foldl].
  unfold batch_round at 2 4 6, spec_round at 2 4. cbn [fst snd]. rewrite Hr.
  edestruct IH as (E1 & E2 & E3); [by apply represents_put|]. rewrite E1. split; [done|]. split; [done|].
  intros Ht. by apply E3, put_tidy.
Qed.

Lemma step_refines o file t :
  represents file t →
  (step o file).1 = (spec_step o t).1 ∧ represents (step o file).2 (spec_step o t).2 ∧ (tidy file → tidy (step o file).2).
Proof.
  intros Hr. destruct o as [eid a who n now|eid a|ids a who n]; cbn [step spec_step ack].
  - split; [done|]. split; [by apply represents_put|by apply put_tidy].
  - pose proof (unack_reply eid a file) as Eu. pose proof (represents_unack eid a file t Hr) as Hu.
    pose proof (unack_tidy eid a file) as Hd. destruct (unack eid a file) as [b f]. cbn in *. subst. by rewrite Hr.
  - cbn [batch_ack]. destruct (batch_represents a who n ids (mk_tally 0 0) file t Hr) as (E1 & E2 & E3).
    destruct (foldl (batch_round a who n) _ ids), (foldl (spec_round a who n) _ ids). cbn in *. by subst.
Qed.

Lemma history_snoc {S} (f : op → S → reply * S) ops o s :
  history f (ops ++ [o]) s = let '(rs, s) := history f ops s in let '(r, s) := f o s in (rs ++ [r], s).
Proof. unfold history. rewrite foldl_app. cbn. by destruct (foldl _ _ ops). Qed.

(** C30: the store is a flat table of acknowledged alerts.  Over any history of ack, unack
    and batch_ack calls, the replies given to the operators -- entries, whether anything
    was removed, how many alerts of a batch were new -- are those of a table keyed by
    engagement and action, the file says of every alert what the table says, and a file
    with no empty engagement stays so. *)
Theorem acks_refine_table ops file t :
  represents file t →
  let '(replies, file') := history step ops file in
  let '(replies', t') := history spec_step ops t in
  replies = replies' ∧ represents file' t' ∧ (tidy file → tidy file').
Proof.
  intros Hr. induction ops as [|o ops IH] using rev_ind; [done|]. rewrite !history_snoc.
  destruct (history step ops file) as [rs f], (history spec_step ops t) as [rs' t']. destruct IH as (-> & Hr' & Ht').
  destruct (step_refines o f t' Hr') as (E & Hr2 & Ht2).
  destruct (step o f) as [r f2], (spec_step o t') as [r2 t2]. cbn in *. subst. auto.
Qed.

(** ** Undo *)

Lemma unack_ack eid a who n now file :
  tidy file → get eid a file = None → unack eid a (ack eid a who n now file).2 = (true, file).
Proof.
  intros Ht Hg. unfold ack, unack, put. cbn [snd]. rewrite lookup_insert_eq, lookup_insert_eq.
  rewrite delete_insert_id by exact Hg. f_equal. unfold get, of_engagement in *. destruct (file !! eid) as [eng|] eqn:E; cbn in *.
  - rewrite decide_False by (by eapply Ht). rewrite insert_insert_eq. by apply insert_id.
  - rewrite decide_True by done. by rewrite delete_insert_id.
Qed.

(** undo.  Withdrawing the acknowledgement of an alert that had none before leaves the
    file exactly as it was, whatever the operator and the note, and withdrawing it again
    changes nothing. *)
Theorem undo_restores eid a who n now file :
  tidy file → get eid a file = None →
  let file' := (ack eid a who n now file).2 in
  get eid a file' = Some (new_entry who n now)
  ∧ unack eid a file' = (true, file) ∧ unack eid a file = (false, file).
Proof.
  intros Ht Hg file'. split; [|split; [by apply unack_ack|]].
  - unfold file', ack. cbn. by rewrite get_put, decide_True.
  - unfold unack, get, of_engagement in *. destruct (file !! eid) as [eng|]; [|done]. cbn in Hg. by rewrite Hg.
Qed.

(** ** The join *)

Definition ack_keys : list str := ["acknowledged_at"; "acknowledged_by"; "acknowledge_note"]%py.

(** The action as the log has it. *)
Definition strip_ack (d : gmap str pyval) : gmap str pyval := foldr delete d ack_keys.

Definition from_log (d : gmap str pyval) : Prop := Forall (λ k, d !! k = None) ack_keys.

#[export] Instance from_log_dec d : Decision (from_log d).
Proof. unfold from_log. apply Forall_dec. intros k. apply option_eq_None_dec. Defined.

Lemma lookup_strip d k : strip_ack d !! k = if decide (k ∈ ack_keys) then None else d !! k.
Proof.
  unfold strip_ack. generalize ack_keys. intros l. induction l as [|x l IH]; cbn; [done|].
  destruct (decide (k = x)) as [->|Hne].
  - rewrite lookup_delete_eq, decide_True by set_solver. done.
  - rewrite lookup_delete_ne, IH by done. by apply decide_ext; set_solver.
Qed.

Lemma overlay_other m d k : k ∉ ack_keys → overlay_action m d !! k = d !! k.
Proof.
  intros Hk. unfold ack_keys in Hk.
  assert (k ≠ "acknowledged_at"%py ∧ k ≠ "acknowledged_by"%py ∧ k ≠ "acknowledge_note"%py) as (H1 & H2 & H3) by set_solver.
  unfold overlay_action, setdefault. cbn zeta.
  repeat case_match; by rewrite ?lookup_insert_ne by congruence.
Qed.

Lemma overlay_strip m d : from_log d → strip_ack (overlay_action m d) = d.
Proof.
  intros Hd. apply map_eq. intros k. rewrite lookup_strip. destruct (decide (k ∈ ack_keys)) as [Hk|Hk].
  - symmetry. by apply (proj1 (Forall_forall _ _) Hd).
  - by apply overlay_other.
Qed.

(** What an action shows: its acknowledgement, or explicit blanks. *)
Definition shows (d : gmap str pyval) (o : option ack_entry) : Prop :=
  d !! "acknowledged_at"%py = Some (from_option (λ e, VFloat (ts e)) VNone o)
  ∧ d !! "acknowledged_by"%py = Some (from_option (λ e, VStr (op_id e)) VNone o)
  ∧ d !! "acknowledge_note"%py = Some (from_option VStr VNone (o ≫= note)).

Lemma overlay_action_shows eid file d name :
  from_log d → d !! "action"%py = Some (VStr name) → name ≠ [] →
  shows (overlay_action (of_engagement file eid) d) (get eid name file).
Proof.
  intros Hd Ha Hn. unfold overlay_action, get. rewrite Ha. set (m := of_engagement file eid).
  replace (match Some (VStr name) with Some (VStr ((_ :: _) as n)) => m !! n | _ => None end)
    with (m !! name) by (by destruct name).
  apply Forall_cons in Hd as [H1 [H2 [H3 _]%Forall_cons]%Forall_cons].
  destruct (m !! name) as [e|].
  - unfold shows. cbn [from_option]. split; [|split].
    + rewrite !lookup_insert_ne by key_ne. apply lookup_insert_eq.
    + rewrite lookup_insert_ne by key_ne. apply lookup_insert_eq.
    + rewrite lookup_insert_eq. change (Some e ≫= note) with (note e). by destruct (note e).
  - unfold setdefault. rewrite H1, lookup_insert_ne, H2 by key_ne. rewrite !lookup_insert_ne, H3 by key_ne.
    unfold shows. cbn. split; [|split].
    + rewrite !lookup_insert_ne by key_ne. apply lookup_insert_eq.
    + rewrite lookup_insert_ne by key_ne. apply lookup_insert_eq.
    + apply lookup_insert_eq.
Qed.

(** the join never touches the record.  Shown with its acknowledgements, each action of
    an engagement carries the operator, the time and the note of the entry the store has
    for its name, or blanks when there is none, and without these three fields it is the
    action of the forensic log, field for field. *)
Theorem overlay_shows_log eid logs file :
  eid ≠ [] → Forall (Forall from_log) logs →
  let shown := overlay_engagement eid logs file in
  map (map strip_ack) shown = logs
  ∧ ∀ log d name, log ∈ shown → d ∈ log → d !! "action"%py = Some (VStr name) → name ≠ [] →
                  shows d (get eid name file).
Proof.
  intros He Hl shown.
  assert (Hs : shown = map (map (overlay_action (of_engagement file eid))) logs) by (by destruct eid). rewrite Hs. split.
  - rewrite map_map. rewrite <- (map_id logs) at 2. apply map_ext_Forall.
    eapply Forall_impl; [exact Hl|]. intros log Hlog. rewrite map_map. rewrite <- (map_id log) at 2.
    apply map_ext_Forall. eapply Forall_impl; [exact Hlog|]. apply overlay_strip.
  - intros log d name (log0 & -> & Hlog0)%list_elem_of_fmap (d0 & -> & Hd0)%list_elem_of_fmap Hn Hne.
    rewrite overlay_other in Hn by (vm_compute; set_solver).
    apply overlay_action_shows; [|done..]. rewrite Forall_forall in Hl. by apply (proj1 (Forall_forall _ _) (Hl _ Hlog0)).
Qed.

Definition demo_action : gmap str pyval := {["action"%py := VStr "alert_x"%py]}.

Lemma acks_refine_table_witness :
  represents ∅ ∅ ∧
  (let '(replies, file') := history step [Ack "e" "a" "" "" f0; Batch [("e", f1); ("f", f1); ("f", f1)] "a" "op" "n"; Unack "e" "a"]%py ∅ in
   let '(replies', t') := history spec_step [Ack "e" "a" "" "" f0; Batch [("e", f1); ("f", f1); ("f", f1)] "a" "op" "n"; Unack "e" "a"]%py ∅ in
   replies = replies' ∧ represents file' t' ∧ (tidy ∅ → tidy file')).
Proof. assert (Hr : represents ∅ ∅) by (by intros e a). split; [done|]. apply acks_refine_table. exact Hr. Defined.

Lemma undo_restores_witness :
  tidy ∅ ∧ (ack "e" "a" "" "" f0 ∅).2 ≠ ∅ ∧ unack "e" "a" (ack "e"%py "a"%py ""%py ""%py f0 ∅).2 = (true, ∅).
Proof.
  assert (Ht : tidy ∅) by (by intros e m). split; [exact Ht|]. split; [apply insert_non_empty|].
  exact (proj1 (proj2 (undo_restores "e"%py "a"%py ""%py ""%py f0 ∅ Ht eq_refl))).
Defined.

Lemma overlay_shows_log_witness :
  Forall (Forall from_log) [[demo_action]] ∧
  map (map strip_ack) (overlay_engagement "e"%py [[demo_action]] (ack "e"%py "alert_x"%py "mw"%py ""%py f1 ∅).2) = [[demo_action]].
Proof.
  assert (Hl : Forall (Forall from_log) [[demo_action]]) by (repeat constructor).
  split; [exact Hl|]. exact (proj1 (overlay_shows_log "e"%py [[demo_action]] (ack "e"%py "alert_x"%py "mw"%py ""%py f1 ∅).2 ltac:(done) Hl)).
Defined.

(** A dict that was shown once keeps the fields of an acknowledgement withdrawn since. *)
Example withdrawn_still_shown :
  let shown := overlay_action (of_engagement (ack "e"%py "alert_x"%py "mw"%py ""%py f1 ∅).2 "e"%py) demo_action in
  overlay_action (of_engagement ∅ "e"%py) shown !! "acknowledged_by"%py = Some (VStr "mw"%py).
Proof. by vm_compute. Qed.
