(* ===== verification/Notes.v ===== *)
(** plenith/notes.py: the operators' notes on an engagement, in a file beside the logs.

    A note's id comes from [uuid.uuid4] and its time from the clock: both are arguments. *)

From S2P Require Import Prelude PyStr KillQueue.

Record note := mk_note { n_id : str; author : str; n_ts : time; body : str }.
Abbreviation notes := (gmap str (list note)).

Definition notes_of (engagement_id : str) (file : notes) : list note := default [] (file !! engagement_id).

Definition add (engagement_id body author id : str) (now : time) (file : notes) : exc (note * notes) :=
  match strip body with
  | [] => Raise (ValueError "note body must be non-empty"%py)
  | body =>
      let n := mk_note id (or_anonymous author) now body in
      Ok (n, <[engagement_id := notes_of engagement_id file ++ [n]]> file)
  end.

(** [notes.sort(key=ts, reverse=True)]: stable, like the sort by the opposite key. *)
Definition list_notes (engagement_id : str) (file : notes) : list note :=
  sort_by (λ n, - n_ts n)%Z (notes_of engagement_id file).

Definition not_called (id : str) (n : note) : bool := negb (bool_decide (n_id n = id)).

Definition delete_note (engagement_id note_id : str) (file : notes) : bool * notes :=
  let notes := notes_of engagement_id file in
  let new_notes := List.filter (not_called note_id) notes in
  if decide (length new_notes = length notes) then (false, file)
  else (true, match new_notes with [] => delete engagement_id file | _ => <[engagement_id := new_notes]> file end).

Definition count (engagement_id : str) (file : notes) : nat := length (notes_of engagement_id file).

(** [engagement["notes"]]. *)
Definition overlay_notes (engagement_id : str) (file : notes) : list note :=
  match engagement_id with [] => [] | _ => list_notes engagement_id file end.

(** ** The specification: a journal *)

Abbreviation journal := (list (str * note)).

Inductive op := Add (eid body author id : str) (now : time) | Delete (eid id : str).

Definition step (file : notes) (o : op) : notes :=
  match o with
  | Add eid b a id now => match add eid b a id now file with Ok (_, f) => f | Raise _ => file end
  | Delete eid id => (delete_note eid id file).2
  end.

Definition struck (eid id : str) (x : str * note) : bool := bool_decide (x.1 = eid ∧ n_id x.2 = id).

Definition journal_step (j : journal) (o : op) : journal :=
  match o with
  | Add eid b a id now =>
      match strip b with [] => j | body => j ++ [(eid, mk_note id (or_anonymous a) now body)] end
  | Delete eid id => List.filter (λ x, negb (struck eid id x)) j
  end.

(** The journal's pages about an engagement. *)
Definition about (eid : str) (j : journal) : list note :=
  map snd (List.filter (λ x, bool_decide (x.1 = eid)) j).

(** ** Laws *)

Lemma about_app eid j k : about eid (j ++ k) = about eid j ++ about eid k.
Proof. unfold about. by rewrite List.filter_app, map_app. Qed.

Lemma about_struck eid eid' id j :
  about eid' (List.filter (λ x, negb (struck eid id x)) j)
  = if decide (eid' = eid) then List.filter (not_called id) (about eid' j) else about eid' j.
Proof.
  induction j as [|[e n] j IH]; [by destruct (decide _)|]. unfold about in *. cbn [List.filter fst].
  unfold struck at 1. cbn [fst snd].
  destruct (decide (eid' = eid)) as [->|Hne].
  - destruct (decide (e = eid)) as [->|He].
    + rewrite (bool_decide_true (eid = eid)) by done. cbn [map List.filter snd]. unfold not_called at 1.
      destruct (decide (n_id n = id)) as [Hi|Hi].
      * rewrite bool_decide_true by done. rewrite (bool_decide_true (n_id n = id)) by done. cbn. apply IH.
      * rewrite bool_decide_false by tauto. rewrite (bool_decide_false (n_id n = id)) by done. cbn.
        rewrite bool_decide_true by done. cbn. by rewrite IH.
    + rewrite (bool_decide_false (e = eid)) by done. rewrite bool_decide_false by tauto. cbn.
      by rewrite bool_decide_false.
  - destruct (bool_decide _) eqn:E; cbn.
    + apply bool_decide_eq_true in E as [-> _]. by rewrite bool_decide_false.
    + destruct (bool_decide (e = eid')); cbn; by rewrite IH.
Qed.

Lemma notes_of_insert (eid eid' : str) (l : list note) (file : notes) :
  notes_of eid' (<[eid := l]> file) = if decide (eid' = eid) then l else notes_of eid' file.
Proof.
  unfold notes_of. destruct (decide _) as [->|Hne]; [by rewrite lookup_insert_eq|by rewrite lookup_insert_ne].
Qed.

Lemma filter_same_length {A} (f : A → bool) l : length (List.filter f l) = length l → List.filter f l = l.
Proof.
  induction l as [|x l IH]; [done|]. cbn. destruct (f x); cbn; intros E.
  - by rewrite IH by lia.
  - pose proof (filter_length_le f l). lia.
Qed.

Lemma notes_of_delete eid id file eid' :
  notes_of eid' (delete_note eid id file).2
  = if decide (eid' = eid) then List.filter (not_called id) (notes_of eid' file) else notes_of eid' file.
Proof.
  unfold delete_note. destruct (decide (length _ = length _)) as [Hl|Hl]; cbn [snd].
  - destruct (decide (eid' = eid)) as [->|]; [|done]. by rewrite filter_same_length.
  - destruct (List.filter (not_called id) (notes_of eid file)) as [|n l] eqn:E; [|rewrite notes_of_insert].
    + unfold notes_of at 1. destruct (decide (eid' = eid)) as [->|Hne]; [by rewrite lookup_delete_eq, E|].
      by rewrite lookup_delete_ne.
    + destruct (decide (eid' = eid)) as [->|]; by rewrite ?E.
Qed.

(** No engagement is listed without a note. *)
Definition tidy (file : notes) : Prop := ∀ e l, file !! e = Some l → l ≠ [].

Lemma step_tidy file o : tidy file → tidy (step file o).
Proof.
  intros Ht. destruct o as [eid b a id now|eid id]; cbn [step].
  - unfold add. destruct (strip b); [done|]. intros e l. rewrite lookup_insert_Some.
    intros [[_ <-]|[_ He]]; [by destruct (notes_of eid file)|by eapply Ht].
  - unfold delete_note. destruct (decide _); [done|]. cbn [snd].
    destruct (List.filter _ _) eqn:E; intros e l'.
    + rewrite lookup_delete_Some. intros [_ He]. by eapply Ht.
    + rewrite lookup_insert_Some. intros [[_ <-]|[_ He]]; [done|by eapply Ht].
Qed.

Lemma step_journal file j o :
  (∀ eid, notes_of eid file = about eid j) → ∀ eid, notes_of eid (step file o) = about eid (journal_step j o).
Proof.
  intros Hj eid. destruct o as [eid0 b a id now|eid0 id]; cbn [step journal_step].
  - unfold add. destruct (strip b) as [|c s]; [done|]. rewrite notes_of_insert, about_app, Hj, Hj.
    unfold about at 3. cbn. destruct (decide (eid = eid0)) as [->|Hne].
    + by rewrite bool_decide_true.
    + rewrite bool_decide_false by congruence. by rewrite app_nil_r.
  - rewrite notes_of_delete, about_struck. by rewrite Hj.
Qed.

Lemma list_notes_perm eid file : list_notes eid file ≡ₚ notes_of eid file.
Proof. apply sort_by_perm. Qed.

(** notes are an append-only journal.  After any history of posts and deletions of a
    fresh store, an operator who opens an engagement sees, newest first, exactly the notes
    posted about it that no one has deleted since by their id; blank posts leave nothing,
    and no engagement is left with an empty list. *)
Theorem notes_follow_journal ops eid :
  let file := foldl step ∅ ops in
  list_notes eid file ≡ₚ about eid (foldl journal_step [] ops)
  ∧ Sorted (λ n m, n_ts m <= n_ts n)%Z (list_notes eid file)
  ∧ count eid file = length (about eid (foldl journal_step [] ops))
  ∧ tidy file.
Proof.
  assert (H : (∀ eid, notes_of eid (foldl step ∅ ops) = about eid (foldl journal_step [] ops)) ∧ tidy (foldl step ∅ ops)).
  { induction ops as [|o ops [IH IHt]] using rev_ind; [by split|]. rewrite !foldl_app. cbn [foldl].
    split; [intros e; by apply step_journal|by apply step_tidy]. }
  destruct H as [Hj Ht]. cbn zeta. split; [rewrite <- Hj; apply list_notes_perm|]. split; [|split; [|exact Ht]].
  - unfold list_notes. eapply Sorted_weaken; [|apply sort_by_sorted]. cbn. intros; lia.
  - unfold count. by rewrite Hj.
Qed.

(** A post reads back at once. *)
Lemma add_reads_back eid b a id now file n file' :
  add eid b a id now file = Ok (n, file') → n ∈ list_notes eid file' ∧ body n = strip b ∧ (delete_note eid id file').1 = true.
Proof.
  unfold add. destruct (strip b) as [|c s] eqn:E; [done|]. intros [= <- <-]. split; [|split; [done|]].
  - rewrite list_notes_perm, notes_of_insert, decide_True by done. set_solver.
  - set (n := mk_note _ _ _ _). set (file' := <[eid := _]> file).
    assert (E2 : notes_of eid file' = notes_of eid file ++ [n]) by (unfold file'; by rewrite notes_of_insert, decide_True).
    unfold delete_note. rewrite E2, List.filter_app. cbn [List.filter].
    assert (Hn : not_called id n = false) by (unfold not_called; by rewrite bool_decide_true).
    rewrite Hn, app_nil_r, length_app. cbn [length].
    pose proof (filter_length_le (not_called id) (notes_of eid file)). by rewrite decide_False by lia.
Qed.
