(* ===== verification/Backup.v ===== *)
(** tools/backup.py and tools/restore.py: the backup archive, its integrity check and its
    extraction.

    A path is the list of its components and a tree is its regular files; the archive is
    the sequence of its members, as tarfile writes and reads them, without its compression.
    What a file holds is its bytes together with what [json.loads] makes of them. *)

From S2P Require Import Prelude PyStr Posix Glob Hash Float Json.

Abbreviation path := (list str).
Record content := mk_content { data : bytes; loads : option pyval }.
Abbreviation tree := (gmap path content).
Abbreviation archive := (list (str * content)).

(** [json.dumps(v, indent=2, sort_keys=True)]. *)
Definition pad (n : nat) : str := NEWLINE :: repeat 32%N (2 * n).
Fixpoint pretty (n : nat) (v : jval) : str :=
  match v with
  | JLit _ | JStr _ | JArr [] | JObj [] => print v
  | JArr l => "["%py ++ join ","%py (map (λ x, pad (S n) ++ pretty (S n) x) l) ++ pad n ++ "]"%py
  | JObj l => "{"%py ++ join ","%py (map (λ kx, pad (S n) ++ jstr kx.1 ++ ": "%py ++ pretty (S n) kx.2) l) ++ pad n ++ "}"%py
  end.
Definition dumps_indent (v : pyval) : str := pretty 0 (to_json v).

Example dumps_indent_example :
  dumps_indent (VDict [("b", VInt 1); ("a", VDict [("x", VList [])])]%py)
  = "{\n  \x22a\x22: {\n    \x22x\x22: []\n  },\n  \x22b\x22: 1\n}"%py.
Proof. vm_compute. reflexivity. Qed.

(** [hashlib.sha256(...).hexdigest()]. *)
Definition sha (b : bytes) : str := hexdigest (sha256 b).

(** ** What is backed up *)

(** None of the entries is required. *)
Definition _INCLUDE : list str :=
  ["state/persistence"; "state-docker/persistence"; "state-docker/logs"; "state-docker/mfa"; "state/content";
   "state/checkpoints"; "state/coevolve"; "config.yaml"; "linux-fork/.env"]%py.

Definition _EXCLUDE_FILENAMES : list str :=
  ["ssh_host_key"; "ssh_host_key.pub"; "mfa_host_key"; "mfa_host_key.pub"; ".DS_Store"; "Thumbs.db"]%py.
Definition _EXCLUDE_SUFFIXES : list str := [".tmp"; ".swp"; ".pyc"; ".lock"]%py.

(** [Path.suffix] of a name: from the last dot, which is neither first nor last. *)
Definition suffix (name : str) : str :=
  let l := List.last (split_on DOT name) [] in
  match l with
  | [] => []
  | _ => if 1 <? length name - length l then DOT :: l else []
  end.

Definition name_of (p : path) : str := List.last p [].

Definition _should_include (p : path) : bool :=
  negb (bool_decide (name_of p ∈ _EXCLUDE_FILENAMES)) && negb (bool_decide (suffix (name_of p) ∈ _EXCLUDE_SUFFIXES))
  && negb (bool_decide ("__pycache__"%py ∈ p)).

(** Paths compare component by component. *)
Fixpoint path_leb (a b : path) : bool :=
  match a, b with
  | [], _ => true
  | _, [] => false
  | x :: a, y :: b => if decide (x = y) then path_leb a b else str_leb x y
  end.
Definition path_le (a b : path) : Prop := path_leb a b = true.
#[export] Instance path_le_dec : RelDecision path_le.
Proof. intros a b. unfold path_le. apply _. Defined.

Definition strictly_under (src p : path) : bool := bool_decide (src `prefix_of` p) && negb (bool_decide (p = src)).

(** [sorted(src.rglob("*"))], the files only. *)
Definition files_under (src : path) (t : tree) : list path :=
  merge_sort path_le (List.filter (strictly_under src) (map fst (map_to_list t))).

(** A path and its name in the archive. *)
Definition gather_one (root : path) (t : tree) (rel : str) : list (path * str) :=
  let src := root ++ split_on SLASH rel in
  if bool_decide (is_Some (t !! src)) then (if _should_include src then [(src, rel)] else [])
  else map (λ p, (p, join [SLASH] (drop (length root) p))) (List.filter _should_include (files_under src t)).

Definition _gather (root : path) (t : tree) : list (path * str) := flat_map (gather_one root t) _INCLUDE.

(** [unreadable] are the files that cannot be opened. *)
Definition hash_entry (unreadable : path → bool) (t : tree) (out : list (str * pyval)) (e : path * str) : list (str * pyval) :=
  match t !! e.1 with
  | Some c => if unreadable e.1 then out else assoc_set e.2 (VStr (sha (data c))) out
  | None => out
  end.
Definition _manifest (unreadable : path → bool) (t : tree) (entries : list (path * str)) : list (str * pyval) :=
  foldl (hash_entry unreadable t) [] entries.

Definition line_of (kv : str * pyval) : str := kv.1 ++ "="%py ++ match kv.2 with VStr v => v | _ => [] end.
Definition _summary_signature (manifest : list (str * pyval)) : str :=
  take 12 (sha (encode (join [NEWLINE] (map line_of (sort_items manifest))))).

(** ** The backup *)

(** [stamp_name], [stamp_meta]: the two readings of the clock; [environ]: the deployment
    id of the environment. *)
Record setting := mk_setting {
  root : path; stamp_name : str; stamp_meta : str; environ : option str; unreadable : path → bool
}.

Definition str_or (o : option str) (d : str) : str := match o with Some (c :: s) => c :: s | _ => d end.

Definition meta (w : setting) (deployment_id : option str) (count : nat) (sig : str) (manifest : list (str * pyval)) : pyval :=
  VDict [("version", VInt 1); ("tool", VStr "plenith-backup"); ("created_at", VStr (stamp_meta w));
         ("deployment_id", VStr (str_or deployment_id (default [] (environ w)))); ("file_count", VInt (Z.of_nat count));
         ("signature", VStr sig); ("files", VDict manifest)]%py.

Definition MANIFEST : str := "MANIFEST.json".
Definition manifest_member (v : pyval) : str * content := (MANIFEST, mk_content (encode (dumps_indent v)) (Some v)).

(** The members that are added, up to the first file that cannot be opened. *)
Fixpoint add_all (unreadable : path → bool) (t : tree) (entries : list (path * str)) : archive * bool :=
  match entries with
  | [] => ([], true)
  | (src, arc) :: rest =>
      match (if unreadable src then None else t !! src) with
      | Some c => let '(l, ok) := add_all unreadable t rest in ((arc, c) :: l, ok)
      | None => ([], false)
      end
  end.

Definition backup_name (n : str) : bool := _fnmatch n "plenith-state-*.tgz"%py.

(** [all_backups[:excess]]. *)
Definition retired (keep : nat) (out : gmap str archive) : list str :=
  let all := List.filter backup_name (sorted_keys out) in take (length all - keep) all.

(** [stuck] are the archives that cannot be removed. *)
Definition retire (stuck : str → bool) (keep : option nat) (out : gmap str archive) : gmap str archive :=
  match keep with
  | Some (S _ as k) => foldl (λ out n, if stuck n then out else delete n out) out (retired k out)
  | _ => out
  end.

(** The name of the archive and the archives of the output directory. *)
Definition backup (w : setting) (deployment_id : option str) (dry_run : bool) (keep : option nat) (stuck : str → bool)
    (t : tree) (out : gmap str archive) : exc str * gmap str archive :=
  let entries := _gather (root w) t in
  match entries with
  | [] => (Raise (ValueError "nothing to back up"%py), out)
  | _ =>
      let manifest := _manifest (unreadable w) t entries in
      let sig := _summary_signature manifest in
      let name := "plenith-state-"%py ++ stamp_name w ++ "-"%py ++ sig ++ ".tgz"%py in
      if dry_run then (Ok name, out)
      else
        let '(members, ok) := add_all (unreadable w) t entries in
        let out := <[name := manifest_member (meta w deployment_id (length entries) sig manifest) :: members]> out in
        if ok then (Ok name, retire stuck keep out) else (Raise (OSError "open"%py), out)
  end.

(** ** The restore *)

(** [getmember]: the last occurrence of the name. *)
Definition getmember (name : str) (a : archive) : option content :=
  snd <$> find (λ m, bool_decide (m.1 = rstrip_char SLASH name)) (rev a).

(** Slicing works on strings and lists. *)
Definition sliceable (v : pyval) : bool := match v with VStr _ | VList _ => true | _ => false end.

Definition digest_is (want : pyval) (c : content) : bool :=
  match want with VStr h => bool_decide (h = sha (data c)) | _ => false end.

Definition mismatch (a : archive) (kv : str * pyval) : bool :=
  match getmember kv.1 a with Some c => negb (digest_is kv.2 c) | None => true end.

(** [_verify_hashes], over the entries of the manifest. *)
Definition _verify_hashes (a : archive) (files : list (str * pyval)) : list (str * pyval) := List.filter (mismatch a) files.

Definition list_backups (out : gmap str archive) : list str := List.filter backup_name (sorted_keys out).

(** [_resolve_backup] for archives of the output directory. *)
Definition _resolve_backup (spec : str) (out : gmap str archive) : option archive :=
  if decide (spec = "latest"%py) then n ← last (list_backups out); out !! n else out !! spec.

(** [Path(name).parts] of a relative name. *)
Definition parts (name : str) : path :=
  List.filter (λ c, negb (bool_decide (c = [])) && negb (bool_decide (c = DOTS))) (split_on SLASH name).

Definition traverses (name : str) : bool := startswith name [SLASH] || bool_decide (DOTDOT ∈ parts name).

(** A file cannot be written over a directory nor below a file. *)
Definition blocked (p : path) (t : tree) : bool :=
  existsb (λ q, strictly_under q p || strictly_under p q) (map fst (map_to_list t)).

Definition extract_one (root : path) (st : exc unit * tree) (m : str * content) : exc unit * tree :=
  match st.1 with
  | Raise _ => st
  | Ok _ =>
      let p := root ++ parts m.1 in
      if bool_decide (p = root) || blocked p st.2 then (Raise (OSError "open"%py), st.2) else (Ok tt, <[p := m.2]> st.2)
  end.
Definition extractall (root : path) (members : archive) (t : tree) : exc unit * tree :=
  foldl (extract_one root) (Ok tt, t) members.

Definition members_of (a : archive) : archive := List.filter (λ m, negb (bool_decide (m.1 = MANIFEST))) a.

Definition other_deployment (target : str) (dep : pyval) : bool :=
  truthy (VStr target) && truthy dep && negb (match dep with VStr d => bool_decide (d = target) | _ => false end).

(** The exit status, or the exception that ends the command, and the tree. *)
Definition restore (a : archive) (root : path) (dry_run force : bool) (expected_deployment_id environ : option str)
    (t : tree) : exc Z * tree :=
  match c ← getmember MANIFEST a; loads c with
  | None => (Ok 6%Z, t)
  | Some (VDict m) =>
      let bk_dep := default (VStr []) (assoc_get "deployment_id"%py m) in
      let target_dep := str_or expected_deployment_id (default [] environ) in
      if other_deployment target_dep bk_dep && negb force then (Ok 3%Z, t)
      else
        match (let v := default VNone (assoc_get "files"%py m) in if truthy v then v else VDict []) with
        | VDict files =>
            match _verify_hashes a files with
            | (_ :: _) as bad =>
                if forallb (λ kv, sliceable kv.2) (take 10 bad) then (Ok 4%Z, t) else (Raise (TypeError "slice"%py), t)
            | [] =>
                if dry_run then (Ok 0%Z, t)
                else if existsb (λ m, traverses m.1) (members_of a) then (Ok 5%Z, t)
                else match extractall root (members_of a) t with
                     | (Ok _, t') => (Ok 0%Z, t')
                     | (Raise e, t') => (Raise e, t')
                     end
            end
        | _ => (Raise AttributeError, t)
        end
  | Some _ => (Raise AttributeError, t)
  end.

(** ** Facts about names and paths *)

Lemma split_on_good (p : path) : Forall good_comp p → p ≠ [] → split_on SLASH (join [SLASH] p) = p.
Proof. exact (join_good_no_slash_comps p). Qed.

Lemma parts_join (p : path) : Forall good_comp p → p ≠ [] → parts (join [SLASH] p) = p.
Proof.
  intros H Hn. unfold parts. rewrite split_on_good by done. clear Hn. induction H as [|c p Hc _ IH]; [done|].
  cbn [List.filter]. rewrite IH. destruct Hc as (H1 & H2 & _ & _). by rewrite !bool_decide_false by done.
Qed.

Lemma good_comp_last (p : path) : Forall good_comp p → p ≠ [] → ∃ s c, join [SLASH] p = s ++ [c] ∧ c ≠ SLASH.
Proof.
  intros H (p' & c & ->)%exists_last. apply Forall_app in H as [_ [(Hn & _ & _ & Hs) _]%Forall_cons].
  destruct (join_last_suffix [SLASH] p' c) as [pre ->]. destruct (exists_last Hn) as (s & x & ->).
  exists (pre ++ s), x. rewrite app_assoc. split; [done|]. intros ->. set_solver.
Qed.

Lemma rstrip_good (p : path) : Forall good_comp p → p ≠ [] → rstrip_char SLASH (join [SLASH] p) = join [SLASH] p.
Proof.
  intros H Hn. destruct (good_comp_last p H Hn) as (s & c & -> & Hc). unfold rstrip_char, rstrip_by.
  rewrite rev_app_distr. cbn [rev app lstrip_by]. apply N.eqb_neq in Hc. rewrite N.eqb_sym in Hc. rewrite Hc.
  cbn [rev]. by rewrite rev_involutive.
Qed.

Lemma traverses_good (p : path) : Forall good_comp p → p ≠ [] → traverses (join [SLASH] p) = false.
Proof.
  intros H Hn. unfold traverses. rewrite join_good_head, parts_join by done. apply bool_decide_eq_false.
  intros Hd. rewrite Forall_forall in H. by destruct (H _ Hd) as (_ & _ & ? & _).
Qed.

Lemma strictly_under_spec src p : strictly_under src p = true ↔ src `prefix_of` p ∧ p ≠ src.
Proof. unfold strictly_under. by rewrite andb_true_iff, negb_true_iff, bool_decide_eq_true, bool_decide_eq_false. Qed.

Lemma strictly_under_app r p q : strictly_under (r ++ p) (r ++ q) = strictly_under p q.
Proof.
  apply eq_true_iff_eq. rewrite !strictly_under_spec. split; intros [[k Hk] Hne]; (split; [exists k|intros E; apply Hne]).
  - rewrite <- app_assoc in Hk. by apply app_inv_head in Hk.
  - by rewrite E.
  - by rewrite Hk, app_assoc.
  - by apply app_inv_head in E.
Qed.

Lemma in_dom (t : tree) p : In p (map fst (map_to_list t)) ↔ is_Some (t !! p).
Proof.
  rewrite in_map_iff. split.
  - intros ([q c] & <- & Hin%list_elem_of_In%elem_of_map_to_list). by exists c.
  - intros [c Hc]. exists (p, c). split; [done|]. by apply list_elem_of_In, elem_of_map_to_list.
Qed.

Lemma blocked_spec p t : blocked p t = false ↔ ∀ q, is_Some (t !! q) → strictly_under q p = false ∧ strictly_under p q = false.
Proof.
  unfold blocked. rewrite <- not_true_iff_false, existsb_exists. split.
  - intros H q Hq. apply in_dom in Hq. split; apply not_true_iff_false; intros E; apply H; exists q; (split; [done|]); rewrite E; [done|apply orb_true_r].
  - intros H (q & Hq%in_dom & E%orb_true_iff). destruct (H q Hq) as [E1 E2]. destruct E as [E|E]; congruence.
Qed.

(** ** What is gathered *)

(** Names are names, and no file lies under a file. *)
Record wf_tree (root : path) (t : tree) : Prop := {
  wf_names p : is_Some (t !! (root ++ p)) → Forall good_comp p;
  wf_leaves p q : is_Some (t !! p) → is_Some (t !! q) → strictly_under p q = false
}.

(** The files a backup of [root] holds. *)
Definition backed_up (root : path) (t : tree) (p : path) : Prop :=
  is_Some (t !! p) ∧ _should_include p = true ∧ ∃ rel, rel ∈ _INCLUDE ∧ (root ++ split_on SLASH rel) `prefix_of` p.

Definition include_ok (rel : str) : Prop :=
  Forall good_comp (split_on SLASH rel) ∧ split_on SLASH rel ≠ [] ∧ Forall (λ c, c ≠ MANIFEST) (split_on SLASH rel).
#[export] Instance include_ok_dec rel : Decision (include_ok rel).
Proof. unfold include_ok. apply _. Defined.

Lemma includes_ok : Forall include_ok _INCLUDE.
Proof. apply (bool_decide_unpack _). vm_compute. exact I. Qed.

Lemma include_facts rel : rel ∈ _INCLUDE → include_ok rel.
Proof. pose proof includes_ok as H. rewrite Forall_forall in H. apply H. Qed.

Lemma files_under_elem src t p : p ∈ files_under src t ↔ is_Some (t !! p) ∧ strictly_under src p = true.
Proof. unfold files_under. rewrite merge_sort_Permutation, list_elem_of_In, filter_In, in_dom. done. Qed.

Lemma elem_of_map_in {A B} (f : A → B) l y : y ∈ map f l ↔ ∃ x, y = f x ∧ x ∈ l.
Proof. by rewrite list_elem_of_fmap. Qed.

(** The entries are the files backed up, under their paths relative to the root. *)
Lemma gather_elem root t src arc : wf_tree root t →
  (src, arc) ∈ _gather root t ↔ backed_up root t src ∧ ∃ rel, src = root ++ rel ∧ arc = join [SLASH] rel.
Proof.
  intros Hwf. unfold _gather. rewrite list_elem_of_In, in_flat_map. setoid_rewrite <- list_elem_of_In. unfold gather_one. split.
  - intros (rel & Hrel & Hin). destruct (include_facts rel Hrel) as (Hg & Hn & _). case_bool_decide as Hf.
    + destruct (_should_include _) eqn:Ei; [|by apply elem_of_nil in Hin]. apply list_elem_of_singleton in Hin. injection Hin as -> ->.
      split; [split; [done|split; [done|by exists rel]]|]. exists (split_on SLASH rel). by rewrite join_split_on.
    + apply elem_of_map_in in Hin as (p & [= -> ->] & Hp). rewrite list_elem_of_In, filter_In, <- list_elem_of_In, files_under_elem in Hp.
      destruct Hp as [[Hs [[k ->] _]%strictly_under_spec] Hi]. split; [split; [done|split; [done|]]; exists rel; by split; [|eexists]|].
      exists (split_on SLASH rel ++ k). rewrite app_assoc. split; [done|]. by rewrite <- app_assoc, drop_app_length.
  - intros [(Hs & Hi & rel & Hrel & [k Hk]) (q & -> & ->)]. exists rel. split; [done|].
    rewrite <- app_assoc in Hk. apply app_inv_head in Hk as ->. case_bool_decide as Hf.
    + assert (k = []) as ->.
      { destruct k as [|x k]; [done|]. pose proof (wf_leaves _ _ Hwf _ _ Hf Hs) as E. rewrite strictly_under_app in E.
        exfalso. assert (strictly_under (split_on SLASH rel) (split_on SLASH rel ++ x :: k) = true) as E2; [|by rewrite E in E2].
        apply strictly_under_spec. split; [by eexists|]. intros E'. apply (f_equal length) in E'. rewrite length_app in E'. cbn in E'. lia. }
      rewrite app_nil_r in *. rewrite Hi. apply list_elem_of_singleton. by rewrite join_split_on.
    + apply elem_of_map_in. exists (root ++ split_on SLASH rel ++ k). rewrite drop_app_length. split; [done|].
      rewrite list_elem_of_In, filter_In, <- list_elem_of_In, files_under_elem. split; [|done]. split; [done|].
      apply strictly_under_spec. split; [rewrite app_assoc; by eexists|]. intros E. by rewrite <- E in Hf.
Qed.

(** What is known of an entry's name. *)
Lemma gather_name root t src arc : wf_tree root t → (src, arc) ∈ _gather root t →
  Forall good_comp (parts arc) ∧ parts arc ≠ [] ∧ arc = join [SLASH] (parts arc) ∧ src = root ++ parts arc ∧ arc ≠ MANIFEST.
Proof.
  intros Hwf Hin. apply (gather_elem root t src arc Hwf) in Hin as [(Hs & _ & r & Hr & [k Hk]) (rel & -> & ->)].
  rewrite <- app_assoc in Hk. apply app_inv_head in Hk as ->. destruct (include_facts r Hr) as (_ & Hn & Hm).
  pose proof (wf_names _ _ Hwf _ Hs) as Hg. assert (split_on SLASH r ++ k ≠ []) as Hne by (by destruct (split_on SLASH r)).
  rewrite parts_join by done. repeat (split; [done|]). intros E. apply (f_equal (split_on SLASH)) in E.
  rewrite split_on_good in E by done. change (split_on SLASH MANIFEST) with [MANIFEST] in E.
  destruct (split_on SLASH r) as [|c cs]; [done|]. injection E as -> _. by apply Forall_cons in Hm as [? _].
Qed.

(** ** Extraction *)

Lemma blocked_insert p q c t : blocked p t = false → strictly_under q p = false → strictly_under p q = false →
  blocked p (<[q := c]> t) = false.
Proof.
  rewrite !blocked_spec. intros H H1 H2 x Hx. destruct (decide (x = q)) as [->|]; [done|].
  rewrite lookup_insert_ne in Hx by done. by apply H.
Qed.

Lemma extract_raised root members e t : foldl (extract_one root) (Raise e, t) members = (Raise e, t).
Proof. induction members as [|m members IH]; [done|]. exact IH. Qed.

(** Members that fit the tree and one another are all written, and nothing else changes. *)
Lemma extractall_ok root members t :
  (∀ m, m ∈ members → parts m.1 ≠ [] ∧ blocked (root ++ parts m.1) t = false) →
  (∀ m m', m ∈ members → m' ∈ members → strictly_under (parts m.1) (parts m'.1) = false) →
  (∀ m m', m ∈ members → m' ∈ members → parts m.1 = parts m'.1 → m.2 = m'.2) →
  ∃ t', extractall root members t = (Ok tt, t')
    ∧ (∀ m, m ∈ members → t' !! (root ++ parts m.1) = Some m.2)
    ∧ (∀ p, (∀ m, m ∈ members → p ≠ root ++ parts m.1) → t' !! p = t !! p).
Proof.
  unfold extractall. revert t. induction members as [|m members IH]; intros t Hb Hs Hf.
  { exists t. cbn. split; [done|]. split; [|done]. intros m Hm. by apply elem_of_nil in Hm. }
  destruct (Hb m ltac:(by left)) as [Hn Hbm]. cbn [foldl]. unfold extract_one at 2. cbn [fst snd]. rewrite Hbm, orb_false_r.
  rewrite bool_decide_false by (intros E; rewrite <- (app_nil_r root) in E at 2; by apply app_inv_head in E).
  destruct (IH (<[root ++ parts m.1 := m.2]> t)) as (t' & E & Hin & Hout).
  - intros m' Hm'. destruct (Hb m' ltac:(by right)) as [? ?]. split; [done|].
    apply blocked_insert; [done| |]; rewrite strictly_under_app; apply Hs; first [by left|by right].
  - intros m1 m2 H1 H2. apply Hs; by right.
  - intros m1 m2 H1 H2. apply Hf; by right.
  - exists t'. split; [exact E|]. split.
    + intros m' [->|Hm']%elem_of_cons; [|by apply Hin].
      destruct (decide (Exists (λ m', parts m'.1 = parts m.1) members)) as [(m' & Hm' & Ep)%Exists_exists|Hno].
      * rewrite <- Ep, (Hin m' Hm'). f_equal. apply Hf; [by right|by left|done].
      * rewrite Hout; [by rewrite lookup_insert_eq|]. intros m' Hm' Ep%app_inv_head. apply Hno, Exists_exists. by exists m'.
    + intros p Hp. rewrite Hout by (intros m' Hm'; apply Hp; by right). apply lookup_insert_ne. intros <-. by apply (Hp m ltac:(by left)).
Qed.

Lemma extractall_frame root members t :
  ∀ p, (∀ m, m ∈ members → p ≠ root ++ parts m.1 ∨ parts m.1 = []) → (extractall root members t).2 !! p = t !! p.
Proof.
  unfold extractall. generalize (Ok tt : exc unit). revert t. induction members as [|m members IH]; intros t r p Hp; [done|].
  cbn [foldl]. unfold extract_one at 2. cbn [fst snd]. destruct r as [u|e]; [|by rewrite extract_raised].
  destruct (_ || _) eqn:E; [by rewrite extract_raised|]. rewrite IH by (intros m' Hm'; apply Hp; by right).
  apply orb_false_iff in E as [E%bool_decide_eq_false _]. apply lookup_insert_ne. intros <-.
  destruct (Hp m ltac:(by left)) as [?|Hn]; [done|]. rewrite Hn, app_nil_r in E. done.
Qed.

(** A successful extraction of members with distinct paths leaves each of them in place. *)
Lemma extractall_done root members t t' : extractall root members t = (Ok tt, t') →
  NoDup (map (λ m, parts m.1) members) → ∀ m, m ∈ members → t' !! (root ++ parts m.1) = Some m.2.
Proof.
  unfold extractall. revert t. induction members as [|m members IH]; intros t E Hnd m' Hm'; [by apply elem_of_nil in Hm'|].
  cbn [foldl] in E. unfold extract_one at 2 in E. cbn [fst snd] in E.
  destruct (_ || _) eqn:Eb; [by rewrite extract_raised in E|]. cbn [map] in Hnd. apply NoDup_cons in Hnd as [Hni Hnd].
  apply elem_of_cons in Hm' as [->|Hm']; [|by eapply IH].
  replace t' with (extractall root members (<[root ++ parts m.1 := m.2]> t)).2 by (unfold extractall; by rewrite E).
  rewrite extractall_frame; [by rewrite lookup_insert_eq|]. intros m' Hm'. left. intros Ep%app_inv_head. apply Hni, elem_of_map_in. by exists m'.
Qed.

(** ** The manifest and the members of a backup *)

Lemma add_all_ok bad t entries : (∀ p, bad p = false) → Forall (λ e, is_Some (t !! e.1)) entries →
  ∃ l, add_all bad t entries = (l, true) ∧ Forall2 (λ e m, m.1 = e.2 ∧ t !! e.1 = Some m.2) entries l.
Proof.
  intros Hb. induction 1 as [|[src arc] entries [c Hc] _ (l & E & Hl)]; [by exists []|].
  exists ((arc, c) :: l). cbn [add_all]. cbn [fst] in Hc. rewrite Hb, Hc, E. split; [done|]. by constructor.
Qed.

Lemma manifest_elem bad t entries k v : (k, v) ∈ _manifest bad t entries →
  ∃ src c, (src, k) ∈ entries ∧ t !! src = Some c ∧ v = VStr (sha (data c)).
Proof.
  unfold _manifest. enough (∀ acc, (k, v) ∈ foldl (hash_entry bad t) acc entries →
    (k, v) ∈ acc ∨ ∃ src c, (src, k) ∈ entries ∧ t !! src = Some c ∧ v = VStr (sha (data c))) as H.
  { intros [Hin|]%H; [by apply elem_of_nil in Hin|done]. }
  induction entries as [|[src arc] entries IH]; intros acc Hin; [by left|]. cbn [foldl] in Hin.
  apply IH in Hin as [Hin|(s & c & H1 & H2)]; [|right; exists s, c; split; [by right|done]].
  unfold hash_entry in Hin. cbn [fst snd] in Hin. destruct (t !! src) as [c|] eqn:Ec; [|by left]. destruct (bad src); [by left|].
  apply assoc_set_elem in Hin as [[-> ->]|]; [|by left]. right. exists src, c. split; [by left|done].
Qed.

Lemma Forall2_in_l {A B} (R : A → B → Prop) l k x : Forall2 R l k → x ∈ l → ∃ y, y ∈ k ∧ R x y.
Proof.
  induction 1 as [|a b l k Hab _ IH]; [by intros ?%elem_of_nil|]. intros [->|Hx]%elem_of_cons.
  - exists b. split; [by left|done].
  - destruct (IH Hx) as (y & ? & ?). exists y. split; [by right|done].
Qed.

Lemma Forall2_in_r {A B} (R : A → B → Prop) l k y : Forall2 R l k → y ∈ k → ∃ x, x ∈ l ∧ R x y.
Proof. intros H%Forall2_flip. by apply (Forall2_in_l _ _ _ _ H). Qed.

Lemma find_last {A} (f : A → bool) l x : x ∈ l → f x = true → ∃ y, find f (rev l) = Some y ∧ y ∈ l ∧ f y = true.
Proof.
  intros Hx Hf. destruct (find f (rev l)) as [y|] eqn:E.
  - exists y. split; [done|]. apply find_some in E as [Hy%in_rev Hfy]. split; [by apply list_elem_of_In|done].
  - exfalso. assert (In x (rev l)) as Hin by (apply (proj1 (in_rev l x)), list_elem_of_In, Hx). pose proof (find_none f (rev l) E x Hin). congruence.
Qed.

Lemma find_member (mm : str * content) (l : archive) : mm.1 = MANIFEST → Forall (λ m, m.1 ≠ MANIFEST) l →
  getmember MANIFEST (mm :: l) = Some mm.2.
Proof.
  intros Hm Hl. unfold getmember. change (rstrip_char SLASH MANIFEST) with MANIFEST.
  destruct (find_last (λ m, bool_decide (m.1 = MANIFEST)) (mm :: l) mm) as (y & -> & Hy & Hf); [by left|by apply bool_decide_eq_true|].
  apply bool_decide_eq_true in Hf. apply elem_of_cons in Hy as [->|Hy]; [done|]. rewrite Forall_forall in Hl. by destruct (Hl y Hy).
Qed.

(** What the restore reads of the manifest. *)
Lemma meta_fields w dep n sig manifest :
  ∃ m, meta w dep n sig manifest = VDict m
    ∧ assoc_get "deployment_id"%py m = Some (VStr (str_or dep (default [] (environ w))))
    ∧ assoc_get "files"%py m = Some (VDict manifest).
Proof. eexists. split; [reflexivity|]. split; reflexivity. Qed.

(** The members of an archive that [backup] writes: its manifest, and one member with the
    content of each file backed up. *)
Record archive_of (w : setting) (dep : option str) (t : tree) (a : archive) : Prop := {
  arc_loads : ∃ n sig manifest, getmember MANIFEST a ≫= loads = Some (meta w dep n sig manifest)
    ∧ ∀ k v, (k, v) ∈ manifest → ∃ c, getmember k a = Some c ∧ v = VStr (sha (data c));
  arc_sound m : m ∈ members_of a → ∃ rel, m.1 = join [SLASH] rel ∧ Forall good_comp rel ∧ rel ≠ []
    ∧ backed_up (root w) t (root w ++ rel) ∧ t !! (root w ++ rel) = Some m.2;
  arc_complete rel : backed_up (root w) t (root w ++ rel) → ∃ m, m ∈ members_of a ∧ parts m.1 = rel
}.

Lemma backup_archive w dep stuck t out name out' : wf_tree (root w) t → (∀ p, unreadable w p = false) →
  backup w dep false None stuck t out = (Ok name, out') → ∃ a, out' !! name = Some a ∧ archive_of w dep t a.
Proof.
  intros Hwf Hr. unfold backup. pose proof (gather_elem (root w) t) as Hg. pose proof (gather_name (root w) t) as Hname.
  remember (_gather (root w) t) as es eqn:Ees. clear Ees. destruct es as [|e0 es']; [done|]. remember (e0 :: es') as es eqn:Ees. clear Ees e0 es'.
  destruct (add_all_ok (unreadable w) t es Hr) as (l & -> & Hl).
  { apply Forall_forall. intros [src arc] Hin. by apply Hg in Hin as [[Hs _] _]. }
  cbn [retire]. intros [= <- <-]. rewrite lookup_insert_eq. eexists. split; [reflexivity|].
  assert (Hmem : ∀ m, m ∈ l → ∃ src, (src, m.1) ∈ es ∧ t !! src = Some m.2).
  { intros m Hm. destruct (Forall2_in_r _ _ _ _ Hl Hm) as ([src arc] & He & Hm1 & Ht). cbn [fst snd] in *. exists src. by rewrite Hm1. }
  assert (Hno : Forall (λ m, m.1 ≠ MANIFEST) l).
  { apply Forall_forall. intros m (src & He & _)%Hmem. by apply Hname in He as (_ & _ & _ & _ & ?). }
  assert (Hms : ∀ v, members_of (manifest_member v :: l) = l).
  { intros v. unfold members_of. cbn [List.filter manifest_member fst]. rewrite bool_decide_true by done. cbn [negb].
    clear -Hno. induction Hno as [|m l Hm _ IH]; [done|]. cbn [List.filter]. by rewrite bool_decide_false, IH by done. }
  split.
  - exists (length es), (_summary_signature (_manifest (unreadable w) t es)), (_manifest (unreadable w) t es).
    rewrite find_member by done. split; [done|]. intros k v (src & c & He & Hc & ->)%manifest_elem.
    destruct (Hname _ _ Hwf He) as (Hgd & Hne & Hk & Hsrc & Hkm).
    destruct (Forall2_in_l _ _ _ _ Hl He) as (m & Hm & Hm1 & Hm2). cbn [fst snd] in *.
    unfold getmember. rewrite Hk, rstrip_good, <- Hk by done.
    match goal with |- context [find ?f (rev ?a)] => destruct (find_last f a m) as (y & -> & Hy & Hf) end;
      [by right|by apply bool_decide_eq_true|].
    apply bool_decide_eq_true in Hf. exists y.2. split; [done|]. apply elem_of_cons in Hy as [->|Hy]; [by destruct Hkm|].
    destruct (Hmem y Hy) as (src' & He' & Hc'). destruct (Hname _ _ Hwf He') as (_ & _ & _ & Hsrc' & _).
    rewrite Hf in Hsrc'. rewrite Hsrc', <- Hsrc, Hc in Hc'. by injection Hc' as <-.
  - intros m Hm. rewrite Hms in Hm. destruct (Hmem m Hm) as (src & He & Hc). destruct (Hname _ _ Hwf He) as (Hgd & Hne & Hk & Hsrc & _).
    exists (parts m.1). apply Hg in He as [Hb _]; [|done]. rewrite <- Hsrc. repeat (split; [done|]). done.
  - intros rel Hb. assert (He : (root w ++ rel, join [SLASH] rel) ∈ es) by (apply Hg; [done|]; split; [done|by exists rel]).
    destruct (Forall2_in_l _ _ _ _ Hl He) as (m & Hm & Hm1 & _). cbn [fst snd] in *. exists m. rewrite Hms. split; [done|].
    destruct (Hname _ _ Hwf He) as (_ & _ & _ & Hsrc%app_inv_head & _). by rewrite Hm1.
Qed.

(** ** The theorems *)

(** C15: a backup of a tree, restored under any root whose directories can take its files,
    exits with 0, puts every file that was backed up in its place with its bytes, and
    touches no other file. *)
Theorem restore_inverts_backup w dep stuck t out name out' root' force expected env t0 :
  wf_tree (root w) t → (∀ p, unreadable w p = false) →
  backup w dep false None stuck t out = (Ok name, out') →
  other_deployment (str_or expected (default [] env)) (VStr (str_or dep (default [] (environ w)))) && negb force = false →
  (∀ rel, backed_up (root w) t (root w ++ rel) → blocked (root' ++ rel) t0 = false) →
  ∃ a t1, out' !! name = Some a ∧ restore a root' false force expected env t0 = (Ok 0%Z, t1)
    ∧ (∀ rel, backed_up (root w) t (root w ++ rel) → t1 !! (root' ++ rel) = t !! (root w ++ rel))
    ∧ (∀ p, (∀ rel, backed_up (root w) t (root w ++ rel) → p ≠ root' ++ rel) → t1 !! p = t0 !! p).
Proof.
  intros Hwf Hr Hb Hdep Hfree. destruct (backup_archive _ _ _ _ _ _ _ Hwf Hr Hb) as (a & Ha & [(n & sig & man & Hm & Hman) Hs Hc]).
  assert (Hp : ∀ m, m ∈ members_of a → ∃ rel, parts m.1 = rel ∧ rel ≠ [] ∧ traverses m.1 = false
             ∧ backed_up (root w) t (root w ++ rel) ∧ t !! (root w ++ rel) = Some m.2).
  { intros m (rel & E & Hg & Hn & Hb' & Ht)%Hs. exists rel. by rewrite E, parts_join, traverses_good. }
  destruct (extractall_ok root' (members_of a) t0) as (t1 & Et & Hin & Hout).
  - intros m (rel & -> & Hn & _ & Hbu & _)%Hp. split; [done|by apply Hfree].
  - intros m m' (rel & -> & _ & _ & [Hx _] & _)%Hp (rel' & -> & _ & _ & [Hx' _] & _)%Hp.
    rewrite <- (strictly_under_app (root w)). by apply (wf_leaves _ _ Hwf).
  - intros m m' (rel & -> & _ & _ & _ & H1)%Hp (rel' & -> & _ & _ & _ & H2)%Hp E. rewrite <- E, H1 in H2. by injection H2.
  - exists a, t1. split; [done|]. split; [|split].
    + unfold restore. change (c ← getmember MANIFEST a; loads c) with (getmember MANIFEST a ≫= loads). rewrite Hm.
      destruct (meta_fields w dep n sig man) as (m & -> & Ed & Ef). cbv zeta. rewrite Ed, Ef. 
      repeat match goal with |- context [from_option id ?d (Some ?x)] => change (from_option id d (Some x)) with x end.
      rewrite Hdep.
      assert (Hv : (if truthy (VDict man) then VDict man else VDict []) = VDict man) by (by destruct man). rewrite Hv.
      assert (_verify_hashes a man = []) as ->.
      { unfold _verify_hashes. clear -Hman. induction man as [|[k v] man IH]; [done|]. cbn [List.filter]. unfold mismatch at 1. cbn [fst snd].
        destruct (Hman k v ltac:(by left)) as (c & -> & ->). unfold digest_is. rewrite bool_decide_true by done. apply IH. intros. apply Hman. by right. }
      assert (existsb (λ m, traverses m.1) (members_of a) = false) as ->.
      { apply not_true_iff_false. intros (x & Hx%list_elem_of_In & E)%existsb_exists. destruct (Hp x Hx) as (_ & _ & _ & E' & _). congruence. }
      by rewrite Et.
    + intros rel Hbu. destruct (Hc rel Hbu) as (m & Hm' & Hrel). destruct (Hp m Hm') as (rel' & E & _ & _ & _ & Ht).
      rewrite <- Hrel, (Hin m Hm'). by rewrite E.
    + intros p Hno. apply Hout. intros m Hm'. destruct (Hp m Hm') as (rel & -> & _ & _ & Hbu & _). by apply Hno.
Qed.

Lemma members_in a m : m ∈ members_of a ↔ m ∈ a ∧ m.1 ≠ MANIFEST.
Proof. unfold members_of. by rewrite !list_elem_of_In, filter_In, negb_true_iff, bool_decide_eq_false. Qed.

Lemma getmember_in n a c : getmember n a = Some c → (rstrip_char SLASH n, c) ∈ a.
Proof.
  unfold getmember. destruct (find _ _) as [m|] eqn:E; [|done]. intros [= <-].
  apply find_some in E as [Hin%in_rev Hm%bool_decide_eq_true]. rewrite <- Hm. apply list_elem_of_In. by destruct m.
Qed.

(** What a run of the restore can be: it refuses, or it has checked the manifest and extracts. *)
Lemma restore_cases a root dry force expected env t r t1 : restore a root dry force expected env t = (r, t1) →
  (t1 = t ∧ (r = Ok 0%Z → dry = true)) ∨
  (∃ m files, getmember MANIFEST a ≫= loads = Some (VDict m)
     ∧ files = match assoc_get "files"%py m with Some (VDict f) => f | _ => [] end
     ∧ _verify_hashes a files = [] ∧ existsb (λ m, traverses m.1) (members_of a) = false ∧ dry = false
     ∧ t1 = (extractall root (members_of a) t).2
     ∧ r = match (extractall root (members_of a) t).1 with Ok _ => Ok 0%Z | Raise e => Raise e end).
Proof.
  unfold restore. change (c ← getmember MANIFEST a; loads c) with (getmember MANIFEST a ≫= loads).
  destruct (getmember MANIFEST a ≫= loads) as [[| | | | | | |m]|] eqn:Em; try (intros [= <- <-]; left; split; congruence).
  cbv zeta. destruct (_ && negb force); [intros [= <- <-]; left; split; congruence|].
  destruct (if truthy _ then _ else _) as [| | | | | | |files] eqn:Ef; try (intros [= <- <-]; left; split; congruence).
  destruct (_verify_hashes a files) eqn:Ev; [|destruct (forallb _ _); intros [= <- <-]; left; split; congruence].
  destruct dry; [intros [= <- <-]; left; split; congruence|].
  destruct (existsb _ _) eqn:Et; [intros [= <- <-]; left; split; congruence|].
  intros E. right. exists m, files. split; [done|]. split.
  { destruct (assoc_get _ m) as [v|]; [|cbn in Ef; by injection Ef as <-]. cbn [from_option] in Ef. unfold id in Ef.
    destruct (truthy v) eqn:Et'; [by rewrite Ef|]. injection Ef as <-. by destruct v as [| | | | | | |[|]]. }
  repeat (split; [done|]). destruct (extractall root (members_of a) t) as [[u|e] t']; injection E as <- <-; done.
Qed.

(** whatever the archive, a restore that does not exit with 0, short of a failing write,
    changes nothing; it never writes outside its root; and when it exits with 0 every file
    the manifest lists is in place with the digest that the manifest gives, provided no two
    members share a path. *)
Theorem restore_checked a root dry force expected env t r t1 :
  restore a root dry force expected env t = (r, t1) →
  (∀ z, r = Ok z → z ≠ 0%Z → t1 = t)
  ∧ (∀ p, t1 !! p ≠ t !! p → ∃ rel, p = root ++ rel ∧ rel ≠ [] ∧ DOTDOT ∉ rel)
  ∧ (r = Ok 0%Z → dry = false → NoDup (map (λ m, parts m.1) (members_of a)) →
     ∃ m, getmember MANIFEST a ≫= loads = Some (VDict m) ∧
       ∀ files k v, assoc_get "files"%py m = Some (VDict files) → (k, v) ∈ files → rstrip_char SLASH k ≠ MANIFEST →
         ∃ c, t1 !! (root ++ parts (rstrip_char SLASH k)) = Some c ∧ v = VStr (sha (data c))).
Proof.
  intros [[-> Hd]|(m & files & Hm & Hf & Hv & Ht & Hdry & -> & Hr)]%restore_cases.
  { split; [done|]. split; [by intros p []|]. intros Hr Hdry. rewrite Hd in Hdry; done. }
  split; [|split].
  - intros z -> Hne. destruct (extractall root (members_of a) t).1; [|done]. by injection Hr.
  - intros p Hp.
    destruct (decide (Exists (λ m, p = root ++ parts m.1 ∧ parts m.1 ≠ []) (members_of a))) as [(x & Hx & -> & Hn)%Exists_exists|Hno].
    + exists (parts x.1). split; [done|]. split; [done|]. intros Hd. rewrite <- not_true_iff_false in Ht. apply Ht, existsb_exists.
      exists x. split; [by apply list_elem_of_In|]. unfold traverses. by rewrite (bool_decide_true _ Hd), orb_true_r.
    + destruct Hp. apply extractall_frame. intros x Hx. destruct (decide (parts x.1 = [])) as [|Hn]; [by right|left].
      intros ->. apply Hno, Exists_exists. by exists x.
  - intros -> _ Hnd. exists m. split; [done|]. intros files' k v Hf' Hin Hk. rewrite Hf' in Hf. subst files'.
    destruct (extractall root (members_of a) t) as [[u|e] t'] eqn:Ex; [|done]. cbn [snd].
    assert (Hmm : mismatch a (k, v) = false).
    { apply not_true_iff_false. intros Hmm. assert (In (k, v) (_verify_hashes a files)) as Hbad.
      { apply filter_In. split; [by apply list_elem_of_In|done]. }
      by rewrite Hv in Hbad. }
    unfold mismatch in Hmm. cbn [fst snd] in Hmm. destruct (getmember k a) as [c|] eqn:Eg; [|done].
    exists c. apply negb_false_iff in Hmm. destruct v as [| | | |h| | |]; try done. cbn in Hmm. apply bool_decide_eq_true in Hmm as <-.
    split; [|done]. destruct u. apply (extractall_done _ _ _ _ Ex Hnd (rstrip_char SLASH k, c)).
    apply members_in. split; [by apply getmember_in|done].
Qed.

(** ** Witnesses *)

Definition demo_content : content := mk_content [104; 105]%N None.
Definition demo_tree : tree :=
  {[ ["/"; "state"; "persistence"; "a.json"]%py := demo_content; ["/"; "state"; "persistence"; "b.tmp"]%py := demo_content;
     ["/"; "config.yaml"]%py := mk_content [97%N] None ]}.
Definition demo_setting : setting := mk_setting ["/"]%py "t"%py "t"%py (Some "d1"%py) (λ _, false).
Definition demo_backup := backup demo_setting None false None (λ _, false) demo_tree ∅.
Definition demo_name : str := match demo_backup.1 with Ok n => n | Raise _ => [] end.

Lemma demo_tree_wf : wf_tree ["/"]%py demo_tree.
Proof.
  assert (H : map_Forall (λ p _, Forall good_comp (drop 1 p) ∧ map_Forall (λ q _, strictly_under p q = false) demo_tree) demo_tree).
  { apply (bool_decide_unpack _). vm_compute. exact I. }
  split; [intros p [c Hc]; exact (proj1 (H _ _ Hc))|]. intros p q [c Hc] [d Hd]. exact (proj2 (H _ _ Hc) _ _ Hd).
Qed.

Lemma restore_inverts_backup_witness :
  ∃ a t1, demo_backup.2 !! demo_name = Some a ∧ restore a ["/"; "new"]%py false false (Some "d1"%py) None ∅ = (Ok 0%Z, t1)
    ∧ t1 !! ["/"; "new"; "config.yaml"]%py = Some (mk_content [97%N] None) ∧ t1 !! ["/"; "new"; "state"; "persistence"; "b.tmp"]%py = None.
Proof.
  assert (Eb : demo_backup = (Ok demo_name, demo_backup.2)) by (vm_compute; reflexivity).
  destruct (restore_inverts_backup demo_setting None (λ _, false) demo_tree ∅ demo_name demo_backup.2 ["/"; "new"]%py false (Some "d1"%py) None ∅
              demo_tree_wf (λ _, eq_refl) Eb eq_refl) as (a & t1 & Ha & Hr & Hin & Hout).
  { intros rel _. apply blocked_spec. intros q [c Hc]. by rewrite lookup_empty in Hc. }
  exists a, t1. split; [exact Ha|]. split; [exact Hr|]. split.
  - apply (Hin ["config.yaml"]%py). split; [vm_compute; eexists; reflexivity|]. split; [vm_compute; reflexivity|].
    exists "config.yaml"%py. split; [apply (bool_decide_unpack _); vm_compute; exact I|exists []; reflexivity].
  - rewrite Hout; [reflexivity|]. intros rel (_ & Hi & _) [= <-]. vm_compute in Hi. discriminate Hi.
Defined.

(** An archive with a member its manifest does not list: it is extracted without a check. *)
Definition padded_archive : archive :=
  [manifest_member (meta demo_setting None 0 [] []); ("linux-fork/run_hook"%py, demo_content)].

Lemma restore_checked_witness :
  ∃ t1, restore padded_archive ["/"]%py false false None None ∅ = (Ok 0%Z, t1)
    ∧ t1 !! ["/"; "linux-fork"; "run_hook"]%py = Some demo_content
    ∧ ∀ p, t1 !! p ≠ (∅ : tree) !! p → ∃ rel, p = "/"%py :: rel ∧ rel ≠ [] ∧ DOTDOT ∉ rel.
Proof.
  assert (E : restore padded_archive ["/"]%py false false None None ∅ = (Ok 0%Z, {[ ["/"; "linux-fork"; "run_hook"]%py := demo_content ]})).
  { vm_compute. reflexivity. }
  eexists. split; [exact E|]. split; [vm_compute; reflexivity|].
  exact (proj1 (proj2 (restore_checked padded_archive ["/"]%py false false None None ∅ _ _ E))).
Defined.

(** The environment file with the secrets is in every backup that finds it. *)
Example env_backed_up : backed_up [] {[ ["linux-fork"; ".env"]%py := demo_content ]} ["linux-fork"; ".env"]%py.
Proof.
  split; [by eexists|]. split; [vm_compute; reflexivity|]. exists "linux-fork/.env"%py. split; [|by exists []].
  apply (bool_decide_unpack _). vm_compute. exact I.
Qed.
