(* ===== verification/Snapshots.v ===== *)
(** plenith/snapshots.py: the archive of everything known about one engagement.

    [t] is the tree of the state directory, with paths relative to it. *)

From S2P Require Import Prelude PyStr Glob Hash Float Json KillQueue Backup.

Definition is_json (n : str) : bool := _fnmatch n "*.json"%py.

(** The parsed content is a dict whose engagement is this one. *)
Definition names_engagement (engagement_id : str) (c : content) : bool :=
  match loads c with
  | Some (VDict d) => match assoc_get "engagement_id"%py d with Some (VStr e) => bool_decide (e = engagement_id) | _ => false end
  | _ => false
  end.

Definition persistence_name (p : path) : option str :=
  match p with [d; n] => if bool_decide (d = "persistence"%py) && is_json n then Some n else None | _ => None end.
Definition log_name (p : path) : option (str * str) :=
  match p with [d; host; n] => if bool_decide (d = "logs"%py) && is_json n then Some (host, n) else None | _ => None end.

Definition _persistence_files_for (engagement_id : str) (t : tree) : list (str * content) :=
  omap (λ '(p, c), n ← persistence_name p; if names_engagement engagement_id c then Some (n, c) else None) (map_to_list t).

Definition _log_files_for (engagement_id : str) (t : tree) : list (str * str * content) :=
  omap (λ '(p, c), '(host, n) ← log_name p; if names_engagement engagement_id c then Some (host, n, c) else None) (map_to_list t).

(** [_acks_slice], [_notes_slice]: the engagement's entry of an overlay file. *)
Definition slice_of (file : str) (engagement_id : str) (t : tree) : list (str * pyval) :=
  match t !! [file] ≫= loads with
  | Some (VDict d) => match assoc_get engagement_id d with Some v => [(engagement_id, v)] | None => [] end
  | _ => []
  end.
Definition _acks_slice := slice_of "acks.json"%py.
Definition _notes_slice := slice_of "notes.json"%py.

(** [json.dumps(v, indent=2, default=str)]: the keys in their own order. *)
Fixpoint plain (v : pyval) : jval :=
  match v with
  | VList l => JArr (map plain l)
  | VDict d => JObj (map (λ kv, (kv.1, plain kv.2)) d)
  | _ => to_json v
  end.
Definition slice_bytes (s : list (str * pyval)) : bytes := encode (pretty 0 (plain (VDict s))).

Definition slice_member (file : str) (s : list (str * pyval)) : list (str * bytes) :=
  match s with [] => [] | _ => [(file, slice_bytes s)] end.

(** What [_add_bytes] is called with, in order. *)
Definition payload (engagement_id : str) (t : tree) : list (str * bytes) :=
  map (λ '(n, c), ("persistence/"%py ++ n, data c)) (_persistence_files_for engagement_id t)
  ++ map (λ '(host, n, c), ("logs/"%py ++ host ++ "/"%py ++ n, data c)) (_log_files_for engagement_id t)
  ++ slice_member "acks.json"%py (_acks_slice engagement_id t)
  ++ slice_member "notes.json"%py (_notes_slice engagement_id t).

Definition listing (m : str * bytes) : pyval :=
  VDict [("path", VStr m.1); ("size", VInt (Z.of_nat (length m.2))); ("sha256", VStr (sha m.2))]%py.

Definition manifest_of (engagement_id op_id note version : str) (captured_at : flt) (members : list (str * bytes)) : pyval :=
  VDict [("engagement_id", VStr engagement_id); ("captured_at", VFloat captured_at); ("captured_by", VStr (or_anonymous op_id));
         ("note", VStr note); ("plenith_version", VStr version); ("members", VList (map listing members))]%py.

Definition manifest_bytes (v : pyval) : bytes := encode (dumps_indent v).

Record receipt := mk_receipt { r_name : str; captured_by : str; r_members : nat; r_note : str }.

(** The archives of the snapshot directory.  [ts_ms] and [captured_at] are the two readings
    of the clock; an id with a slash would name a file elsewhere and is left out. *)
Definition write (engagement_id op_id note version : str) (ts_ms : Z) (captured_at : flt) (t : tree)
    (dir : gmap str (list (str * bytes))) : exc (receipt * gmap str (list (str * bytes))) :=
  match engagement_id with
  | [] => Raise (ValueError "engagement_id required"%py)
  | _ =>
      let name := engagement_id ++ "-"%py ++ str_of_Z ts_ms ++ ".tar.gz"%py in
      let members := payload engagement_id t in
      let v := manifest_of engagement_id op_id note version captured_at members in
      Ok (mk_receipt name (or_anonymous op_id) (length members) note,
          <[name := members ++ [("manifest.json"%py, manifest_bytes v)]]> dir)
  end.

(** [list_for]: the newest first; [mtime] are the files' times. *)
Definition list_for {A} (engagement_id : str) (mtime : str → Z) (dir : gmap str A) : list str :=
  sort_by (λ n, (- mtime n)%Z) (List.filter (λ n, _fnmatch n (engagement_id ++ "-*.tar.gz"%py)) (map fst (map_to_list dir))).

(** ** What a snapshot holds *)

(** The names are those of files: no slash. *)
Definition wf_names (t : tree) : Prop := ∀ p, is_Some (t !! p) → Forall (λ c, SLASH ∉ c) p.

(** The files and slices that belong to an engagement, under their names in the archive. *)
Inductive belongs (engagement_id : str) (t : tree) : str → bytes → Prop :=
| belongs_state n c : t !! ["persistence"; n]%py = Some c → is_json n = true → names_engagement engagement_id c = true →
    belongs engagement_id t ("persistence/"%py ++ n) (data c)
| belongs_log host n c : t !! ["logs"; host; n]%py = Some c → is_json n = true → names_engagement engagement_id c = true →
    belongs engagement_id t ("logs/"%py ++ host ++ "/"%py ++ n) (data c)
| belongs_slice file c d v : file ∈ ["acks.json"; "notes.json"]%py → t !! [file] = Some c → loads c = Some (VDict d) →
    assoc_get engagement_id d = Some v → belongs engagement_id t file (slice_bytes [(engagement_id, v)]).

Lemma persistence_name_spec p n : persistence_name p = Some n ↔ p = ["persistence"%py; n] ∧ is_json n = true.
Proof.
  destruct p as [|d [|m [|]]]; cbn -[is_json]; try (split; [done|by intros [? _]]).
  destruct (bool_decide (d = "persistence"%py)) eqn:E; cbn -[is_json].
  - apply bool_decide_eq_true in E as ->. destruct (is_json m) eqn:Em; split; [by intros [= <-]|by intros [[= ->] _]|done|].
    intros [[= ->] H]. congruence.
  - apply bool_decide_eq_false in E. split; [done|]. intros [[= -> ->] _]. done.
Qed.

Lemma log_name_spec p host n : log_name p = Some (host, n) ↔ p = ["logs"%py; host; n] ∧ is_json n = true.
Proof.
  destruct p as [|d [|h [|m [|]]]]; cbn -[is_json]; try (split; [done|by intros [? _]]).
  destruct (bool_decide (d = "logs"%py)) eqn:E; cbn -[is_json].
  - apply bool_decide_eq_true in E as ->. destruct (is_json m) eqn:Em; split; [by intros [= <- <-]|by intros [[= -> ->] _]|done|].
    intros [[= -> ->] H]. congruence.
  - apply bool_decide_eq_false in E. split; [done|]. intros [[= -> -> ->] _]. done.
Qed.

Lemma persistence_elem eid t n c :
  (n, c) ∈ _persistence_files_for eid t ↔ t !! ["persistence"; n]%py = Some c ∧ is_json n = true ∧ names_engagement eid c = true.
Proof.
  unfold _persistence_files_for. rewrite list_elem_of_omap. split.
  - intros ([p c'] & Hin%elem_of_map_to_list & (m & Hn & H)%bind_Some). destruct (names_engagement eid c') eqn:E; [|done].
    injection H as <- <-. by apply persistence_name_spec in Hn as [-> ?].
  - intros (Ht & Hj & He). exists (["persistence"; n]%py, c). split; [by apply elem_of_map_to_list|].
    apply bind_Some. exists n. split; [by apply persistence_name_spec|by rewrite He].
Qed.

Lemma log_elem eid t host n c :
  (host, n, c) ∈ _log_files_for eid t ↔ t !! ["logs"; host; n]%py = Some c ∧ is_json n = true ∧ names_engagement eid c = true.
Proof.
  unfold _log_files_for. rewrite list_elem_of_omap. split.
  - intros ([p c'] & Hin%elem_of_map_to_list & ([h m] & Hn & H)%bind_Some). destruct (names_engagement eid c') eqn:E; [|done].
    injection H as <- <- <-. by apply log_name_spec in Hn as [-> ?].
  - intros (Ht & Hj & He). exists (["logs"; host; n]%py, c). split; [by apply elem_of_map_to_list|].
    apply bind_Some. exists (host, n). split; [by apply log_name_spec|by rewrite He].
Qed.

Lemma slice_elem file eid t x : x ∈ slice_member file (slice_of file eid t) ↔
  ∃ c d v, t !! [file] = Some c ∧ loads c = Some (VDict d) ∧ assoc_get eid d = Some v ∧ x = (file, slice_bytes [(eid, v)]).
Proof.
  unfold slice_of, slice_member. split.
  - destruct (t !! [file]) as [c|] eqn:Ec; cbn [mbind option_bind]; [|by intros ?%elem_of_nil].
    destruct (loads c) as [[| | | | | | |d]|] eqn:El; try by intros ?%elem_of_nil.
    destruct (assoc_get eid d) as [v|] eqn:Ev; [|by intros ?%elem_of_nil]. intros ->%list_elem_of_singleton. by exists c, d, v.
  - intros (c & d & v & -> & El & Ev & ->). cbn [mbind option_bind]. rewrite El, Ev. by apply list_elem_of_singleton.
Qed.

Lemma payload_elem eid t n b : (n, b) ∈ payload eid t ↔ belongs eid t n b.
Proof.
  unfold payload. rewrite !elem_of_app, !list_elem_of_fmap, !slice_elem. split.
  - intros [([m c] & [= -> ->] & (H1 & H2 & H3)%persistence_elem)|[([[h m] c] & [= -> ->] & (H1 & H2 & H3)%log_elem)|[H|H]]].
    + by apply belongs_state.
    + by apply belongs_log.
    + destruct H as (c & d & v & Ht & El & Ev & [= -> ->]). eapply belongs_slice; [by left|done..].
    + destruct H as (c & d & v & Ht & El & Ev & [= -> ->]). eapply belongs_slice; [by right; left|done..].
  - intros [m c H1 H2 H3|h m c H1 H2 H3|file c d v Hf Ht El Ev].
    + left. exists (m, c). split; [done|by apply persistence_elem].
    + right. left. exists (h, m, c). split; [done|by apply log_elem].
    + right. right. apply elem_of_cons in Hf as [->|[->|H]%elem_of_cons]; [left|right|by apply elem_of_nil in H]; by exists c, d, v.
Qed.

(** the archive of an engagement ends in a manifest that lists every other member, in
    order, with its size and digest; the members are exactly the engagement's state and log
    files with their bytes and its slices of the overlays, so nothing of another engagement
    is handed out; and the archives taken at other times stay as they were. *)
Theorem snapshot_exact eid op_id note version ts_ms now t dir :
  eid ≠ [] →
  ∃ r dir' members, write eid op_id note version ts_ms now t dir = Ok (r, dir')
    ∧ dir' !! r_name r = Some (members ++ [("manifest.json"%py, manifest_bytes (manifest_of eid op_id note version now members))])
    ∧ r_members r = length members
    ∧ (∀ n b, (n, b) ∈ members ↔ belongs eid t n b)
    ∧ (∀ n, n ≠ r_name r → dir' !! n = dir !! n).
Proof.
  intros Hn. unfold write. destruct eid as [|x eid]; [done|]. eexists _, _, (payload (x :: eid) t). split; [reflexivity|].
  cbn [r_name r_members]. split; [by rewrite lookup_insert_eq|]. split; [done|]. split; [apply payload_elem|].
  intros n Hne. by rewrite lookup_insert_ne.
Qed.

Definition mine (e : str) (b : bytes) : content := mk_content b (Some (VDict [("engagement_id"%py, VStr e)])).
Definition demo_state : tree :=
  {[ ["persistence"; "a.json"]%py := mine "e1"%py [1%N]; ["logs"; "web"; "l.json"]%py := mine "e2"%py [2%N] ]}.

Lemma snapshot_exact_witness :
  ("e1"%py : str) ≠ [] ∧
  ∃ r dir' (members : list (str * bytes)), write "e1"%py [] [] "v"%py 7 f0 demo_state ∅ = Ok (r, dir') ∧ r_name r = "e1-7.tar.gz"%py
    ∧ r_members r = 1 ∧ ("persistence/a.json"%py, [1%N]) ∈ members.
Proof.
  split; [done|]. destruct (snapshot_exact "e1"%py [] [] "v"%py 7 f0 demo_state ∅ ltac:(done)) as (r & dir' & members & E & _ & Hl & Hm & _).
  assert (Hr : match write "e1"%py [] [] "v"%py 7 f0 demo_state ∅ with
               | Ok x => r_name x.1 = "e1-7.tar.gz"%py ∧ r_members x.1 = 1 | Raise _ => False end) by (vm_compute; split; reflexivity).
  rewrite E in Hr. exists r, dir', members. split; [exact E|]. split; [exact (proj1 Hr)|]. split; [exact (proj2 Hr)|]. apply (proj2 (Hm "persistence/a.json"%py [1%N])).
  exact (belongs_state "e1"%py demo_state "a.json"%py (mine "e1"%py [1%N]) eq_refl eq_refl eq_refl).
Defined.

(** The id is part of a glob pattern: a star lists the snapshots of every engagement. *)
Example star_lists_all : list_for "*"%py (λ _, 0%Z) {[ "e1-7.tar.gz"%py := (); "e2-8.tar.gz"%py := () ]} = ["e2-8.tar.gz"; "e1-7.tar.gz"]%py
  ∨ list_for "*"%py (λ _, 0%Z) {[ "e1-7.tar.gz"%py := (); "e2-8.tar.gz"%py := () ]} = ["e1-7.tar.gz"; "e2-8.tar.gz"]%py.
Proof. vm_compute. by first [left|right]. Qed.
