(* ===== verification/Logs.v ===== *)
(** Session logs: what session.py and session_logger.py write, and how tools/audit.py
    and plenith/api/server.py read it back as engagements.

    A log file is what [write_session_log] wrote, or does not parse; a directory is its
    *.json files, in the order it lists them, and its subdirectories. *)

From S2P Require Import Prelude PyStr Float Json Vfs AuditChain CounterAI Synthetic Session.

(** ** Writing *)

Record log := mk_log {
  l_engagement_id : str; l_claimed_user : str; l_source_ip : str; l_started_at : flt; l_ended_at : flt;
  l_observed : gmap str pyval; l_actions : list (gmap str pyval); l_commands : list command;
  l_chain_tip : pyval; l_chain_length : Z
}.

(** [write_session_log]: [now] is the clock when [to_dict] runs. *)
Definition write_session_log (now : flt) (s : Session) : exc log :=
  let chained := chain_actions GENESIS_HASH (map strip_chain (Session.actions_taken s)) in
  exc_bind (chain_tip chained) (λ tip,
    Ok (mk_log (engagement_id s) (claimed_user s) (source_ip s) (started_at s) now (_serialize_observed (observed s))
          chained (commands s) tip (Z.of_nat (length chained)))).

(** ** Reading *)

Inductive log_dir := LogDir (files : list (option log)) (subdirs : list log_dir).
Definition files_of (d : log_dir) : list (option log) := let 'LogDir f _ := d in f.
Definition subdirs_of (d : log_dir) : list log_dir := let 'LogDir _ s := d in s.

(** [_iter_log_files]: the directory and one level below. *)
Definition _iter_log_files (d : log_dir) : list (option log) := files_of d ++ flat_map files_of (subdirs_of d).

(** A stable sort, as Python's: [before x y] tells that [x] must come before [y]. *)
Fixpoint place {A} (before : A → A → bool) (x : A) (l : list A) : list A :=
  match l with
  | [] => [x]
  | y :: l' => if before y x then y :: place before x l' else x :: l
  end.
Definition stable_sort {A} (before : A → A → bool) (l : list A) : list A := foldr (place before) [] l.

Definition earlier (a b : log) : bool := flt_b (l_started_at a) (l_started_at b).

Record engagement := mk_engagement {
  e_id : str; e_user : str; e_ip : str; e_first : flt; e_last : flt; e_count : Z; e_cwd : str;
  e_observed : gmap str pyval; e_logs : list log;
  e_vfs : vfs_dict
}.
Definition newer (a b : engagement) : bool := flt_b (e_last b) (e_last a).

(** [d.setdefault(k, []).append(x)]. *)
Definition group_log (by_ : list (str * list log)) (l : log) : list (str * list log) :=
  match l_engagement_id l with
  | [] => by_
  | e => assoc_set e (default [] (assoc_get e by_) ++ [l]) by_
  end.
Definition logs_by_engagement (files : list (option log)) : list (str * list log) := foldl group_log [] (omap id files).

(** A state file with the time of its last change. *)
Definition index_state (by_ : list (str * (saved * flt))) (s : saved * flt) : list (str * (saved * flt)) :=
  match sv_engagement_id s.1 with [] => by_ | e => assoc_set e s by_ end.
Definition state_by_engagement (files : list (option (saved * flt))) : list (str * (saved * flt)) :=
  foldl index_state [] (omap id files).

Definition or_else (s d : str) : str := match s with [] => d | _ => s end.

(** The engagement of an id with logs. *)
Definition build (state : option (saved * flt)) (eid : str) (logs : list log) (last_log : log) : engagement :=
  match state with
  | Some (s, seen) =>
      mk_engagement eid (or_else (sv_claimed_user s) (l_claimed_user last_log)) (or_else (sv_source_ip s) (l_source_ip last_log))
        (default (l_started_at last_log) (sv_first_seen_at s)) seen (default 1%Z (sv_connection_count s)) (sv_cwd s) (sv_observed s) logs (sv_vfs s)
  | None =>
      mk_engagement eid (l_claimed_user last_log) (l_source_ip last_log) (l_started_at last_log) (l_ended_at last_log) 1 "?"%py
        (l_observed last_log) logs (mk_vfs_dict (Some ∅) None (Some []) None)
  end.

Definition load_one (states : list (str * (saved * flt))) (by_ : list (str * list log)) (acc : gset str * list engagement) (eid : str)
    : gset str * list engagement :=
  if bool_decide (eid = [] ∨ eid ∈ acc.1) then acc
  else
    let logs := stable_sort earlier (default [] (assoc_get eid by_)) in
    match last logs with
    | None => ({[eid]} ∪ acc.1, acc.2)
    | Some last_log => ({[eid]} ∪ acc.1, acc.2 ++ [build (assoc_get eid states) eid logs last_log])
    end.

Definition load_engagements (state_files : list (option (saved * flt))) (logs_dir : log_dir) : list engagement :=
  let states := state_by_engagement state_files in
  let by_ := logs_by_engagement (_iter_log_files logs_dir) in
  stable_sort newer (foldl (load_one states by_) (∅, []) (map fst by_ ++ map fst states)).2.

(** [discover_engagements]: the pairs of directories; the newest entry of an id is kept. *)
Definition keep_newest (merged : list (str * engagement)) (e : engagement) : list (str * engagement) :=
  match assoc_get (e_id e) merged with
  | Some cur => if flt_b (e_last cur) (e_last e) then assoc_set (e_id e) e merged else merged
  | None => assoc_set (e_id e) e merged
  end.
Definition discover_engagements (pairs : list (list (option (saved * flt)) * log_dir)) : list engagement :=
  stable_sort newer (map snd (foldl keep_newest [] (flat_map (λ p, load_engagements p.1 p.2) pairs))).

(** [max(a or 0, b or 0)]. *)
Definition later (a b : flt) : flt := 
  let a := if ftruth a then a else f0 in let b := if ftruth b then b else f0 in if flt_b a b then b else a.

(** [_load_all_engagements]: an engagement seen on several hosts has the logs of all of them. *)
Definition merge_engagement (by_ : list (str * engagement)) (e : engagement) : list (str * engagement) :=
  match e_id e with
  | [] => by_
  | _ =>
      match assoc_get (e_id e) by_ with
      | Some c => assoc_set (e_id e) (mk_engagement (e_id c) (e_user c) (e_ip c) (e_first c) (later (e_last c) (e_last e))
                                        (e_count c) (e_cwd c) (e_observed c) (e_logs c ++ e_logs e) (e_vfs c)) by_
      | None => assoc_set (e_id e) e by_
      end
  end.
Definition _load_all_engagements (state_files : list (option (saved * flt))) (logs_dir : option log_dir) : list engagement :=
  match logs_dir with
  | None => []
  | Some d =>
      let subdirs := match subdirs_of d with [] => [d] | l => l end in
      stable_sort newer (map snd (foldl merge_engagement [] (flat_map (load_engagements state_files) subdirs)))
  end.

(** [_aggregate_actions], [_aggregate_commands]. *)
Definition _aggregate_actions (e : engagement) : list (gmap str pyval) := flat_map l_actions (e_logs e).
Definition _aggregate_commands (e : engagement) : list command := flat_map l_commands (e_logs e).

(** ** Sorting *)

Lemma place_perm {A} before (x : A) l : place before x l ≡ₚ x :: l.
Proof. induction l as [|y l IH]; [done|]. cbn. destruct (before y x); [|done]. rewrite IH. by constructor. Qed.

Lemma stable_sort_perm {A} before (l : list A) : stable_sort before l ≡ₚ l.
Proof. induction l as [|x l IH]; [done|]. cbn. rewrite place_perm. by constructor. Qed.

Lemma stable_sort_elem {A} before (l : list A) x : x ∈ stable_sort before l ↔ x ∈ l.
Proof. by rewrite stable_sort_perm. Qed.

(** No element of the result must come before its predecessor. *)
Lemma stable_sort_sorted {A} (before : A → A → bool) (l : list A) : (∀ x y, before x y = true → before y x = false) →
  Sorted (λ x y, before y x = false) (stable_sort before l).
Proof.
  intros Hasym. induction l as [|x l IH]; [constructor|].
  change (stable_sort before (x :: l)) with (place before x (stable_sort before l)). revert IH. generalize (stable_sort before l). clear l. intros l.
  induction l as [|y l IHl]; intros Hs; cbn; [repeat constructor|]. destruct (before y x) eqn:E.
  - apply Sorted_inv in Hs as [Hs Hh]. constructor; [by apply IHl|]. destruct l as [|z l]; cbn; [constructor; by apply Hasym|].
    apply HdRel_inv in Hh. destruct (before z x) eqn:E2; constructor; [done|by apply Hasym].
  - constructor; [done|]. by constructor.
Qed.

Lemma flt_b_asym a b : flt_b a b = true → flt_b b a = false.
Proof.
  unfold flt_b, SpecFloat.SFltb, SpecFloat.SFcompare.
  destruct a as [[]|[]| |[] m e], b as [[]|[]| |[] m' e']; try done;
    assert (Pos.compare_cont Eq m' m = CompOpp (Pos.compare_cont Eq m m')) as -> by (symmetry; apply (Pos.compare_cont_antisym m m' Eq));
    rewrite (Z.compare_antisym e e'); destruct (e ?= e')%Z; cbn; try done; by destruct (Pos.compare_cont Eq m m').
Qed.

(** ** Dicts of lists *)

Lemma assoc_split {V} k (d : list (str * V)) old : assoc_get k d = Some old →
  ∃ d1 d2, d = d1 ++ (k, old) :: d2 ∧ ∀ v, assoc_set k v d = d1 ++ (k, v) :: d2.
Proof.
  induction d as [|[a b] d IH]; [done|]. cbn. case_decide as E.
  - intros [= ->]. subst a. by exists [], d.
  - intros (d1 & d2 & -> & Hv)%IH. exists ((a, b) :: d1), d2. split; [done|]. intros v. by rewrite Hv.
Qed.

Lemma assoc_set_new {V} k (v : V) d : assoc_get k d = None → assoc_set k v d = d ++ [(k, v)].
Proof. induction d as [|[a b] d IH]; [done|]. cbn. case_decide; [done|]. intros H'. by rewrite IH. Qed.

Lemma assoc_get_keys {V} k (d : list (str * V)) : k ∈ map fst d ↔ is_Some (assoc_get k d).
Proof.
  induction d as [|[a b] d IH]; cbn; [split; [by intros ?%elem_of_nil|by intros []]|].
  rewrite elem_of_cons. case_decide as E; [split; [by eexists|by left]|]. rewrite IH. naive_solver.
Qed.

(** ** Grouping *)

Definition has_id (l : log) : Prop := l_engagement_id l ≠ [].
Definition of_id (e : str) (l : log) : Prop := l_engagement_id l = e.
#[export] Instance has_id_dec l : Decision (has_id l).
Proof. unfold has_id. apply _. Defined.
#[export] Instance of_id_dec e l : Decision (of_id e l).
Proof. unfold of_id. apply _. Defined.

(** The logs of the files that parse. *)
Definition parsed (files : list (option log)) : list log := omap id files.

Lemma group_log_eq by_ l : has_id l →
  group_log by_ l = assoc_set (l_engagement_id l) (default [] (assoc_get (l_engagement_id l) by_) ++ [l]) by_.
Proof. unfold has_id, group_log. by destruct (l_engagement_id l). Qed.

(** The groups: an entry for each id, with its logs in order; together, all the logs. *)
Lemma grouped ls : let by_ := foldl group_log [] ls in
  NoDup (map fst by_) ∧ flat_map snd by_ ≡ₚ filter has_id ls
  ∧ (∀ e, default [] (assoc_get e by_) = if decide (e = []) then [] else filter (of_id e) ls)
  ∧ (∀ e v, assoc_get e by_ = Some v → e ≠ [] ∧ v ≠ []).
Proof.
  cbn zeta. induction ls as [|l ls (H1 & H2 & H3 & H4)] using rev_ind.
  { split; [constructor|]. split; [done|]. split; [|done]. intros e. by case_decide. }
  rewrite foldl_app. cbn [foldl]. rewrite filter_app, filter_cons, filter_nil. destruct (decide (has_id l)) as [Hl|Hl].
  - rewrite group_log_eq by done. set (e0 := l_engagement_id l) in *. split; [by apply assoc_set_NoDup|]. split; [|split].
    + rewrite <- H2. destruct (assoc_get e0 (foldl group_log [] ls)) as [v|] eqn:E.
      * destruct (assoc_split _ _ _ E) as (d1 & d2 & -> & ->). rewrite !flat_map_app. cbn. solve_Permutation.
      * rewrite assoc_set_new, flat_map_app by done. done.
    + intros e. rewrite assoc_get_set, filter_app, filter_cons, filter_nil. specialize (H3 e). destruct (decide (e = e0)) as [->|E1].
      * match goal with |- from_option id [] (Some ?x) = _ => change (from_option id [] (Some x)) with x end.
        rewrite H3, !(decide_False (P := e0 = [])) by exact Hl. by rewrite (decide_True (P := of_id e0 l)).
      * rewrite H3. destruct (decide (e = [])) as [|E2]; [done|].
        rewrite decide_False by (unfold of_id; intros E3; apply E1; by rewrite <- E3). by rewrite app_nil_r.
    + intros e v. rewrite assoc_get_set. case_decide as E1; [|by apply H4]. intros [= <-]. subst e. split; [exact Hl|]. by destruct (default _ _).
  - assert (group_log (foldl group_log [] ls) l = foldl group_log [] ls) as ->.
    { unfold group_log, has_id in *. destruct (l_engagement_id l); [done|]. by destruct Hl. }
    rewrite app_nil_r. split; [done|]. split; [done|]. split; [|done]. intros e. rewrite H3. case_decide as E1; [done|].
    rewrite filter_app, filter_cons, filter_nil. rewrite decide_False; [by rewrite app_nil_r|]. intros E2. apply Hl. unfold has_id. unfold of_id in E2. by rewrite E2.
Qed.

(** ** Loading *)

Definition entry (states : list (str * (saved * flt))) (by_ : list (str * list log)) (eid : str) : option engagement :=
  let logs := stable_sort earlier (default [] (assoc_get eid by_)) in build (assoc_get eid states) eid logs <$> last logs.

Lemma load_one_entry states by_ acc eid : eid ≠ [] → eid ∉ acc.1 →
  load_one states by_ acc eid = ({[eid]} ∪ acc.1, acc.2 ++ option_list (entry states by_ eid)).
Proof.
  intros H1 H2. unfold load_one, entry. rewrite bool_decide_false by naive_solver. cbn zeta.
  destruct (last _); cbn; [done|by rewrite app_nil_r].
Qed.

Lemma load_fresh states by_ keys acc : NoDup keys → Forall (λ e, e ≠ [] ∧ e ∉ acc.1) keys →
  foldl (load_one states by_) acc keys = (list_to_set (rev keys) ∪ acc.1, acc.2 ++ omap (entry states by_) keys).
Proof.
  revert acc. induction keys as [|e keys IH]; intros acc Hn Hf.
  { cbn. rewrite app_nil_r, union_empty_l_L. by destruct acc. }
  apply NoDup_cons in Hn as [Hne Hn]. apply Forall_cons in Hf as [[H1 H2] Hf]. cbn [foldl].
  rewrite load_one_entry by done. rewrite IH; [|done|].
  - cbn [fst snd rev]. rewrite list_to_set_app_L. cbn [list_to_set omap list_omap]. f_equal; [set_solver|].
    rewrite <- app_assoc. f_equal. by destruct (entry states by_ e).
  - rewrite Forall_forall in *. intros x Hx. destruct (Hf x Hx) as [? ?]. split; [done|]. cbn. set_solver.
Qed.

Lemma load_stale states by_ keys acc : Forall (λ e, e = [] ∨ e ∈ acc.1 ∨ entry states by_ e = None) keys →
  (foldl (load_one states by_) acc keys).2 = acc.2.
Proof.
  revert acc. induction keys as [|e keys IH]; intros acc Hf; [done|]. apply Forall_cons in Hf as [He Hf]. cbn [foldl].
  destruct (decide (e = [] ∨ e ∈ acc.1)) as [Hs|Hs].
  - assert (load_one states by_ acc e = acc) as -> by (unfold load_one; by rewrite bool_decide_true). by apply IH.
  - assert (entry states by_ e = None) as He' by naive_solver. rewrite load_one_entry, He' by naive_solver. cbn [option_list]. rewrite app_nil_r.
    rewrite IH; [done|]. rewrite Forall_forall in *. intros x Hx. destruct (Hf x Hx) as [?|[?|?]]; [by left|right; left; set_solver|by right; right].
Qed.

Lemma load_entries files d : let by_ := logs_by_engagement (_iter_log_files d) in
  load_engagements files d ≡ₚ omap (entry (state_by_engagement files) by_) (map fst by_).
Proof.
  cbn zeta. unfold load_engagements. rewrite stable_sort_perm, foldl_app. set (by_ := logs_by_engagement _).
  destruct (grouped (parsed (_iter_log_files d))) as (H1 & _ & _ & H4). change (foldl group_log [] _) with by_ in H1, H4.
  assert (Hk : ∀ e, e ∈ map fst by_ → e ≠ []).
  { intros e [v Hv]%assoc_get_keys. by destruct (H4 _ _ Hv). }
  rewrite (load_fresh _ by_ (map fst by_)); [|exact H1|rewrite Forall_forall; intros e He; split; [by apply Hk|set_solver]].
  rewrite load_stale; [reflexivity|]. rewrite Forall_forall. intros e _. cbn [fst].
  destruct (assoc_get e by_) as [v|] eqn:E.
  - right. left. apply elem_of_union_l. apply elem_of_list_to_set, list_elem_of_In. rewrite <- in_rev.
    apply list_elem_of_In, assoc_get_keys. by rewrite E.
  - right. right. unfold entry. by rewrite E.
Qed.

(** What loading keeps: one engagement for each id, and each log in the engagement of its id. *)
Record accounts (out : list engagement) (logs : list log) : Prop := {
  acc_ids : NoDup (map e_id out);
  acc_logs : flat_map e_logs out ≡ₚ filter has_id logs;
  acc_own e : e ∈ out → e_id e ≠ [] ∧ e_logs e ≠ [] ∧ Forall (of_id (e_id e)) (e_logs e)
}.

Lemma last_is_Some {A} (l : list A) : l ≠ [] → is_Some (last l).
Proof. intros (l' & x & ->)%exists_last. rewrite last_snoc. by eexists. Qed.

Lemma build_id st eid logs l : e_id (build st eid logs l) = eid ∧ e_logs (build st eid logs l) = logs.
Proof. by destruct st as [[s seen]|]. Qed.

Lemma load_accounts files d : accounts (load_engagements files d) (parsed (_iter_log_files d)).
Proof.
  pose proof (load_entries files d) as Hp. cbn zeta in Hp. set (by_ := logs_by_engagement _) in Hp.
  destruct (grouped (parsed (_iter_log_files d))) as (H1 & H2 & H3 & H4). change (foldl group_log [] _) with by_ in H1, H2, H3, H4.
  set (states := state_by_engagement files) in *.
  assert (He : ∀ k v, (k, v) ∈ by_ → ∃ l, entry states by_ k = Some (build (assoc_get k states) k (stable_sort earlier v) l)).
  { intros k v Hin%assoc_get_elem; [|done]. destruct (H4 _ _ Hin) as [_ Hv]. unfold entry. rewrite Hin. cbn [default from_option].
    change (id v) with v. destruct (last_is_Some (stable_sort earlier v)) as [l Hl]; [|exists l; by rewrite Hl].
    intros E. apply Hv. apply Permutation_nil. by rewrite <- E, stable_sort_perm. }
  assert (Hm : ∀ l, (∀ kv, kv ∈ l → kv ∈ by_) → map e_id (omap (entry states by_) (map fst l)) = map fst l
                 ∧ flat_map e_logs (omap (entry states by_) (map fst l)) ≡ₚ flat_map snd l).
  { induction l as [|[k v] l IH]; intros Hl; [done|]. destruct (He k v) as [x Hx]; [apply Hl; by left|].
    destruct IH as [E1 E2]; [intros; apply Hl; by right|]. cbn [map fst omap list_omap]. rewrite Hx.
    destruct (build_id (assoc_get k states) k (stable_sort earlier v) x) as [B1 B2].
    cbn [map flat_map snd]. rewrite E1, B1, B2, E2, stable_sort_perm. done. }
  destruct (Hm by_) as [E1 E2]; [done|]. split.
  - rewrite Hp, E1. done.
  - rewrite (Permutation_flat_map _ Hp), E2. done.
  - intros e Hin. rewrite Hp in Hin. apply list_elem_of_omap in Hin as (k & [[k' v] [-> Hkv]]%list_elem_of_fmap & Hk). cbn [fst] in Hk.
    destruct (He k' v Hkv) as [x Hx]. rewrite Hx in Hk. injection Hk as <-.
    destruct (build_id (assoc_get k' states) k' (stable_sort earlier v) x) as [-> ->].
    pose proof (assoc_get_elem _ _ _ H1 Hkv) as Hg. destruct (H4 _ _ Hg) as [Hn Hv]. split; [done|].
    specialize (H3 k'). rewrite Hg, decide_False in H3 by done. cbn in H3. unfold id in H3. split.
    + intros E. apply Hv. apply Permutation_nil. by rewrite <- E, stable_sort_perm.
    + rewrite stable_sort_perm, H3. apply Forall_forall. intros y Hy. by apply list_elem_of_filter in Hy as [? _].
Qed.

Lemma filter_of_id_has e (logs : list log) : e ≠ [] → filter (of_id e) (filter has_id logs) = filter (of_id e) logs.
Proof.
  intros He. induction logs as [|l logs IH]; [done|]. rewrite !(filter_cons _ l). destruct (decide (has_id l)) as [Hl|Hl].
  - rewrite filter_cons. case_decide; by rewrite IH.
  - rewrite decide_False; [done|]. intros <-. by apply Hl.
Qed.

Lemma filter_other k (es : list engagement) : (∀ e, e ∈ es → e_id e ≠ k ∧ Forall (of_id (e_id e)) (e_logs e)) →
  filter (of_id k) (flat_map e_logs es) = [].
Proof.
  induction es as [|e es IH]; intros H; [done|]. cbn [flat_map]. rewrite filter_app, IH by (intros; apply H; by right).
  rewrite app_nil_r. destruct (H e ltac:(by left)) as [Hn Hf]. induction Hf as [|l ls Hl _ IHl]; [done|].
  rewrite filter_cons, decide_False; [done|]. unfold of_id in *. congruence.
Qed.

Lemma filter_own {A} (P : A → Prop) `{!∀ x, Decision (P x)} l : Forall P l → filter P l = l.
Proof. induction 1 as [|x l Hx _ IH]; [done|]. by rewrite filter_cons, decide_True, IH. Qed.

(** An engagement has exactly the logs of its id. *)
Lemma accounts_exact out logs e : accounts out logs → e ∈ out → e_logs e ≡ₚ filter (of_id (e_id e)) logs.
Proof.
  intros [Hn Hl Ho] He. destruct (Ho e He) as (Hid & _ & Hf). rewrite <- filter_of_id_has, <- Hl by done.
  apply list_elem_of_split in He as (o1 & o2 & ->). rewrite flat_map_app, filter_app. cbn [flat_map]. rewrite filter_app.
  rewrite map_app in Hn. cbn [map] in Hn. apply NoDup_app in Hn as (_ & H1 & [H2 _]%NoDup_cons).
  rewrite filter_other, filter_own, filter_other; [by rewrite app_nil_r|..|done|].
  - intros x Hx. split; [|apply Ho, elem_of_app; right; by right]. intros E. apply H2, list_elem_of_fmap. by exists x.
  - intros x Hx. split; [|apply Ho, elem_of_app; by left]. intros E. apply (H1 (e_id x)); [apply list_elem_of_fmap; by exists x|].
    rewrite E. by left.
Qed.

(** ** Merging the hosts *)

Lemma merged es : (∀ e, e ∈ es → e_id e ≠ [] ∧ e_logs e ≠ [] ∧ Forall (of_id (e_id e)) (e_logs e)) →
  let by_ := foldl merge_engagement [] es in
  NoDup (map fst by_) ∧ flat_map e_logs (map snd by_) ≡ₚ flat_map e_logs es
  ∧ (∀ k e, (k, e) ∈ by_ → e_id e = k ∧ k ≠ [] ∧ e_logs e ≠ [] ∧ Forall (of_id k) (e_logs e)).
Proof.
  cbn zeta. induction es as [|x es IH] using rev_ind; intros Hes.
  { split; [constructor|]. split; [done|]. by intros ? ? ?%elem_of_nil. }
  destruct IH as (H1 & H2 & H3); [intros; apply Hes, elem_of_app; by left|].
  destruct (Hes x ltac:(apply elem_of_app; right; by left)) as (Hx1 & Hx2 & Hx3).
  rewrite foldl_app. cbn [foldl]. set (by_ := foldl merge_engagement [] es) in *.
  assert (Hm : merge_engagement by_ x = assoc_set (e_id x) (match assoc_get (e_id x) by_ with
    | Some c => mk_engagement (e_id c) (e_user c) (e_ip c) (e_first c) (later (e_last c) (e_last x)) (e_count c) (e_cwd c) (e_observed c) (e_logs c ++ e_logs x) (e_vfs c)
    | None => x end) by_).
  { unfold merge_engagement. destruct (e_id x); [done|]. by destruct (assoc_get _ by_). }
  rewrite Hm. split; [by apply assoc_set_NoDup|]. rewrite flat_map_app. cbn [flat_map]. rewrite app_nil_r.
  destruct (assoc_get (e_id x) by_) as [c|] eqn:E.
  - destruct (assoc_split _ _ _ E) as (d1 & d2 & Eb & ->). split.
    + rewrite <- H2, Eb, !map_app, !flat_map_app. cbn. solve_Permutation.
    + intros k e He. rewrite elem_of_app, elem_of_cons in He. destruct He as [He|[[= -> ->]|He]].
      * apply H3. rewrite Eb. apply elem_of_app. by left.
      * destruct (H3 (e_id x) c) as (E1 & E2 & E3 & E4); [by apply assoc_get_in|]. cbn [e_id e_logs]. split; [done|]. split; [done|].
        split; [by destruct (e_logs c)|]. apply Forall_app. by split.
      * apply H3. rewrite Eb. apply elem_of_app. right. by right.
  - rewrite assoc_set_new by done. split.
    + rewrite map_app, flat_map_app, H2. cbn. by rewrite app_nil_r.
    + intros k e [He|[= -> ->]%list_elem_of_singleton]%elem_of_app; [by apply H3|done].
Qed.

Definition host_dirs (d : log_dir) : list log_dir := match subdirs_of d with [] => [d] | l => l end.
(** The logs the API serves. *)
Definition served (d : log_dir) : list log := flat_map (λ s, parsed (_iter_log_files s)) (host_dirs d).

Lemma load_all_accounts files d : accounts (_load_all_engagements files (Some d)) (served d).
Proof.
  unfold _load_all_engagements, served. fold (host_dirs d). set (es := flat_map (load_engagements files) (host_dirs d)).
  assert (Hes : ∀ e, e ∈ es → e_id e ≠ [] ∧ e_logs e ≠ [] ∧ Forall (of_id (e_id e)) (e_logs e)).
  { intros e (s & _ & He%list_elem_of_In)%list_elem_of_In%in_flat_map. by eapply acc_own; [apply load_accounts|]. }
  assert (Hl : flat_map e_logs es ≡ₚ filter has_id (flat_map (λ s, parsed (_iter_log_files s)) (host_dirs d))).
  { unfold es. clear es Hes. induction (host_dirs d) as [|s l IH]; [done|]. cbn [flat_map]. rewrite flat_map_app, filter_app, IH.
    by rewrite (acc_logs _ _ (load_accounts files s)). }
  destruct (merged es Hes) as (H1 & H2 & H3). set (by_ := foldl merge_engagement [] es) in *.
  assert (Hi : map e_id (map snd by_) = map fst by_).
  { clear -H3. induction by_ as [|[k e] l IH]; [done|]. cbn [map fst snd]. rewrite IH by (intros; apply H3; by right).
    by destruct (H3 k e ltac:(by left)) as [-> _]. }
  split.
  - by rewrite stable_sort_perm, Hi.
  - by rewrite (Permutation_flat_map _ (stable_sort_perm _ _)), H2, Hl.
  - intros e He. rewrite stable_sort_perm in He. apply list_elem_of_fmap in He as ([k e'] & -> & Hk).
    destruct (H3 k e' Hk) as (E1 & E2 & E3 & E4). cbn [snd]. by rewrite E1.
Qed.

