(* ===== verification/Aggregations.v ===== *)
(** plenith/aggregations.py: the counts behind the dashboard's charts and the /alerts/rate,
    /alerts/top and /activity/heatmap routes.

    The hosts are the subdirectories of the log directory with the parsed logs of their
    files; a file that does not parse is skipped.  The fields of an action that are present
    have the types the engine gives them. *)

From S2P Require Import Prelude PyStr Regex Float Json Session Logs.

#[local] Open Scope exc_scope.

Abbreviation hosts := (list (str * list (option log))).

Definition _SEV_ORDER : list str := ["critical"; "high"; "medium"; "info"]%py.
(** [_SEV_RANK.get(s, 9)]. *)
Fixpoint index_of (s : str) (l : list str) (i : nat) : option nat :=
  match l with [] => None | x :: l => if decide (x = s) then Some i else index_of s l (S i) end.
Definition _SEV_RANK (s : option str) : nat := default 9 (s ← s; index_of s _SEV_ORDER 0).

(** ** Walking the logs *)

Definition _iter_session_logs (h : hosts) : list log := flat_map (λ x, omap id x.2) h.

(** A value used as a number. *)
Definition num (v : pyval) : exc flt :=
  match v with
  | VFloat f => Ok f
  | VInt z => Ok (of_int z)
  | VBool b => Ok (of_int (if b then 1 else 0))
  | _ => Raise (TypeError "number"%py)
  end.

(** [a.get("ts") or started + (a.get("ts_offset_s") or 0)]. *)
Definition action_ts (started : flt) (a : gmap str pyval) : exc flt :=
  let ts := default VNone (a !! "ts"%py) in
  if truthy ts then num ts
  else let off := default VNone (a !! "ts_offset_s"%py) in
       let* o := num (if truthy off then off else VInt 0) in Ok (fadd started o).

Definition started_or_0 (l : log) : flt := if ftruth (l_started_at l) then l_started_at l else f0.

(** [_iter_actions]: each action of each log with its time. *)
Definition _iter_actions (h : hosts) : list (gmap str pyval * exc flt) :=
  flat_map (λ l, map (λ a, (a, action_ts (started_or_0 l) a)) (l_actions l)) (_iter_session_logs h).

Definition str_value (v : pyval) : option str := match v with VStr s => Some s | _ => None end.
(** [a.get("severity", "info")], when it is a string. *)
Definition severity_of (a : gmap str pyval) : option str := str_value (default (VStr "info"%py) (a !! "severity"%py)).

(** [ts < start or ts >= end], negated. *)
Definition in_window (start end_ ts : flt) : bool := negb (flt_b ts start) && negb (fge_b ts end_).

(** A loop over a list whose body may raise. *)
Fixpoint exc_fold {A B} (f : A → B → exc A) (a : A) (l : list B) : exc A :=
  match l with [] => Ok a | b :: l => let* a := f a b in exc_fold f a l end.

(** [int(x)]. *)
Definition py_trunc (x : flt) : exc Z := of_option (ValueError "cannot convert float to integer"%py) (trunc x).

(** [l[i]] for an index that may be negative. *)
Definition py_index (n : nat) (i : Z) : exc nat :=
  if (0 <=? i)%Z && (i <? Z.of_nat n)%Z then Ok (Z.to_nat i)
  else if (i <? 0)%Z && (- Z.of_nat n <=? i)%Z then Ok (Z.to_nat (i + Z.of_nat n))
  else Raise IndexError.

(** ** /alerts/rate *)

Record bucket := mk_bucket { b_ts : flt; counts : gmap str nat }.
Definition count_of (s : str) (b : bucket) : nat := default 0 (counts b !! s).
Definition bump (s : str) (b : bucket) : bucket := mk_bucket (b_ts b) (<[s := S (count_of s b)]> (counts b)).

Definition empty_bucket (ts : flt) : bucket := mk_bucket ts (list_to_map (map (λ s, (s, 0)) _SEV_ORDER)).

Definition counted (wanted : list str) (a : gmap str pyval) : option str :=
  match severity_of a with
  | Some s => if bool_decide (s ∈ wanted) && bool_decide (s ∈ _SEV_ORDER) then Some s else None
  | None => None
  end.

Definition rate_step (wanted : list str) (start end_ : flt) (bucket_seconds : Z) (n : nat) (bs : list bucket)
    (x : gmap str pyval * exc flt) : exc (list bucket) :=
  let* ts := x.2 in
  if negb (in_window start end_ ts) then Ok bs
  else match counted wanted x.1 with
       | None => Ok bs
       | Some s =>
           let* k := py_trunc (fdiv (fsub ts start) (of_int bucket_seconds)) in
           let* i := py_index n (Z.min (Z.of_nat n - 1) k) in
           Ok (alter (bump s) i bs)
       end.

Definition _bucket (h : hosts) (wanted : list str) (bucket_seconds : Z) (start end_ : flt) : exc (list bucket) :=
  let* k := py_trunc (fdiv (fsub end_ start) (of_int bucket_seconds)) in
  let n := Z.to_nat (Z.max 1 k) in
  let bs := map (λ i, empty_bucket (fadd start (of_int (Z.of_nat i * bucket_seconds)))) (seq 0 n) in
  exc_fold (rate_step wanted start end_ bucket_seconds n) bs (_iter_actions h).

Definition sum (l : list nat) : nat := foldr plus 0 l.

Record rate := mk_rate { series : list bucket; totals : list (str * nat); compare : option (list bucket) }.

Definition alert_rate (h : hosts) (since until : flt) (bucket_seconds : Z) (severities : option (list str)) (compare_to : option str)
    : exc rate :=
  let wanted := match severities with Some ((_ :: _) as l) => l | _ => _SEV_ORDER end in
  let* series := _bucket h wanted bucket_seconds since until in
  let totals := map (λ s, (s, sum (map (count_of s) series))) _SEV_ORDER in
  if bool_decide (compare_to = Some "previous"%py) then
    let* c := _bucket h wanted bucket_seconds (fsub since (fsub until since)) since in Ok (mk_rate series totals (Some c))
  else Ok (mk_rate series totals None).

(** ** /alerts/top *)

Record top_entry := mk_top {
  t_name : str; t_severity : option str; t_count : nat; sparkline : list nat; first_at : flt; last_at : flt
}.

(** [a.get("action") or "?"]. *)
Definition action_name (a : gmap str pyval) : str := match a !! "action"%py with Some (VStr ((_ :: _) as s)) => s | _ => "?"%py end.

Definition top_step (since until bw : flt) (buckets : nat) (by_name : list (str * top_entry)) (x : gmap str pyval * exc flt)
    : exc (list (str * top_entry)) :=
  let* ts := x.2 in
  if negb (in_window since until ts) then Ok by_name
  else
    let name := action_name x.1 in
    let sev := severity_of x.1 in
    let r := default (mk_top name sev 0 (repeat 0 buckets) ts ts) (assoc_get name by_name) in
    let* k := py_trunc (fdiv (fsub ts since) bw) in
    let* i := py_index buckets (Z.min (Z.of_nat buckets - 1) k) in
    let* sev := (if _SEV_RANK sev <? _SEV_RANK (t_severity r)
                 then of_option (KeyError "severity"%py) (v ← x.1 !! "severity"%py; Some (str_value v))
                 else Ok (t_severity r)) in
    Ok (assoc_set name
          (mk_top (t_name r) sev (S (t_count r)) (alter S i (sparkline r))
             (if flt_b ts (first_at r) then ts else first_at r) (if flt_b (last_at r) ts then ts else last_at r))
          by_name).

(** Sorted by the rank of the severity, then by falling count. *)
Definition top_before (a b : top_entry) : bool :=
  (_SEV_RANK (t_severity a) <? _SEV_RANK (t_severity b))
  || ((_SEV_RANK (t_severity a) =? _SEV_RANK (t_severity b)) && (t_count b <? t_count a)).

Definition alert_top (h : hosts) (since until : flt) (limit sparkline_buckets : nat) : exc (list top_entry) :=
  let width := fsub until since in
  if fle_b width f0 then Ok []
  else
    let q := fdiv width (of_int (Z.of_nat sparkline_buckets)) in
    let bw := if fgt_b q f1 then q else f1 in
    let* by_name := exc_fold (top_step since until bw sparkline_buckets) [] (_iter_actions h) in
    Ok (take limit (stable_sort top_before (map snd by_name))).

(** ** /activity/heatmap *)

Inductive kind := KAll | KCommands | KAlerts.
Definition count_alerts (k : kind) : bool := match k with KCommands => false | _ => true end.
Definition count_commands (k : kind) : bool := match k with KAlerts => false | _ => true end.

Section activity.
(** [time.localtime(ts).tm_hour]. *)
Context (tm_hour : flt → nat).

(** The times of the events of a log that are counted. *)
Definition event_times (k : kind) (l : log) : list (exc flt) :=
  (if count_alerts k then map (action_ts (started_or_0 l)) (l_actions l) else [])
  ++ (if count_commands k then map (λ c, Ok (c_ts c)) (l_commands l) else []).

Definition hour_step (since until : flt) (row : list nat) (x : exc flt) : exc (list nat) :=
  let* ts := x in
  if negb (in_window since until ts) then Ok row
  else let* i := py_index (length row) (Z.of_nat (tm_hour ts)) in Ok (alter S i row).

(** The row of a host. *)
Definition heat_row (since until : flt) (k : kind) (logs : list log) : exc (list nat) :=
  exc_fold (hour_step since until) (repeat 0 24) (flat_map (event_times k) logs).

Definition grid_step (since until : flt) (host : option str) (k : kind) (grid : list (str * list nat)) (x : str * list (option log))
    : exc (list (str * list nat)) :=
  match host with
  | Some ((_ :: _) as h) => if decide (x.1 = h) then let* row := heat_row since until k (omap id x.2) in Ok (grid ++ [(x.1, row)]) else Ok grid
  | _ => let* row := heat_row since until k (omap id x.2) in Ok (grid ++ [(x.1, row)])
  end.

Fixpoint list_max (l : list nat) : nat := match l with [] => 0 | x :: l => Nat.max x (list_max l) end.
Fixpoint first_index (x : nat) (l : list nat) : nat := match l with [] => 0 | y :: l => if x =? y then 0 else S (first_index x l) end.

Definition hour_totals (grid : list (str * list nat)) : list nat :=
  map (λ hr, sum (map (λ g, nth hr g.2 0) grid)) (seq 0 24).
Definition host_totals (grid : list (str * list nat)) : list (str * nat) := map (λ g, (g.1, sum g.2)) grid.

Record heatmap := mk_heatmap { grid : list (str * list nat); peak_hour : option nat; busiest_host : option str; total : nat }.

(** Directories have distinct names, so each host has one row. *)
Definition activity_heatmap (h : hosts) (since until : flt) (host : option str) (k : kind) : exc heatmap :=
  let* grid := exc_fold (grid_step since until host k) [] h in
  let ht := hour_totals grid in
  let st := host_totals grid in
  Ok (mk_heatmap grid
        (if existsb (λ n, 0 <? n) ht then Some (first_index (list_max ht) ht) else None)
        (if existsb (λ x, 0 <? x.2) st
         then fst <$> find (λ x, x.2 =? list_max (map snd st)) st else None)
        (sum (map (λ g, sum g.2) grid))).

(** [activity_cell_engagements]: the engagements behind one cell. *)
Record cell_row := mk_row { r_id : str; r_user : str; r_ip : str; r_commands : nat; r_alerts : nat }.

(** The number of the times that fall into the window and the hour. *)
Definition hits (since until : flt) (hour : nat) (times : list (exc flt)) : exc nat :=
  exc_fold (λ n x, let* ts := x in
                   if negb (in_window since until ts) then Ok n else if negb (tm_hour ts =? hour) then Ok n else Ok (S n)) 0 times.

Definition cell_step (since until : flt) (hour : nat) (k : kind) (by_eng : list (str * cell_row)) (l : log)
    : exc (list (str * cell_row)) :=
  match l_engagement_id l with
  | [] => Ok by_eng
  | eid =>
      let r := default (mk_row eid (l_claimed_user l) (l_source_ip l) 0 0) (assoc_get eid by_eng) in
      let* a := (if count_alerts k then hits since until hour (map (action_ts (started_or_0 l)) (l_actions l)) else Ok 0) in
      let* c := (if count_commands k then hits since until hour (map (λ c, Ok (c_ts c)) (l_commands l)) else Ok 0) in
      Ok (assoc_set eid (mk_row (r_id r) (r_user r) (r_ip r) (r_commands r + c) (r_alerts r + a)) by_eng)
  end.

Definition weight (r : cell_row) : nat := r_commands r + r_alerts r.

Definition activity_cell_engagements (h : hosts) (host : str) (hour : Z) (since until : flt) (k : kind) (limit : nat) : exc (list cell_row) :=
  if (hour <? 0)%Z || (23 <? hour)%Z then Ok []
  else match assoc_get host h with
       | None => Ok []
       | Some files =>
           let* by_eng := exc_fold (cell_step since until (Z.to_nat hour) k) [] (omap id files) in
           Ok (take limit (stable_sort (λ a b, weight b <? weight a) (List.filter (λ r, 0 <? weight r) (map snd by_eng))))
       end.

End activity.

(** ** /dns/stats and /dns/top *)

Definition _DNS_LINE_RE : regex :=
  rx_flags IGNORECASE "\[(?P<ts>[\d:.]+)\].*?(?P<host>[\w.-]+)\.\s+(?P<qtype>A|AAAA|PTR)\s+(?P<result>NOERROR|NXDOMAIN|REFUSED)?"%py.

Definition _EXFIL_TOKENS : list str :=
  ["oast"; "burpcoll"; "interactsh"; "ngrok.io"; "dnslog.cn"; ".oast.live"; "shadowsrv"; "evil."; ".attacker."; "pipedream.net"]%py.

Inductive dns_class := Resolved | Blocked | Nxdomain.
#[export] Instance dns_class_eq_dec : EqDecision dns_class.
Proof. solve_decision. Defined.

Definition _classify_dns (host result : str) : dns_class :=
  if any_in _EXFIL_TOKENS (lower host) then Blocked
  else if decide (upper result = "NXDOMAIN"%py) then Nxdomain
  else Resolved.

Record dns_line := mk_dns { d_ts : str; d_host : str; d_qtype : str; d_result : dns_class }.

Definition str_or (o : option str) (d : str) : str := match o with Some ((_ :: _) as s) => s | _ => d end.

Definition parse_dns_line (line : str) : option dns_line :=
  m ← re_search _DNS_LINE_RE line;
  let host := str_or (group m "host"%py) "?"%py in
  let result := str_or (group m "result"%py) "NOERROR"%py in
  Some (mk_dns (str_or (group m "ts"%py) []) host (upper (str_or (group m "qtype"%py) "A"%py)) (_classify_dns host result)).

Definition parse_dns_lines (lines : list str) : list dns_line := omap parse_dns_line lines.

Definition of_class (c : dns_class) (l : list dns_line) : nat := length (List.filter (λ p, bool_decide (d_result p = c)) l).

(** total, resolved, blocked, nxdomain. *)
Definition dns_stats (l : list dns_line) : nat * nat * nat * nat :=
  (length l, of_class Resolved l, of_class Blocked l, of_class Nxdomain l).

Definition dns_count (c : dns_class) (counts : list (str * nat)) (p : dns_line) : list (str * nat) :=
  if bool_decide (d_result p = c) then assoc_set (d_host p) (S (default 0 (assoc_get (d_host p) counts))) counts else counts.

Definition dns_top (l : list dns_line) (c : dns_class) (limit : nat) : list (str * nat) :=
  take limit (stable_sort (λ a b, b.2 <? a.2) (foldl (dns_count c) [] l)).

Example dns_example :
  map (λ l, (d_host l, d_qtype l, d_result l))
    (parse_dns_lines ["[12:01:02] plenith-db x.oast.live. a NOERROR"; "noise"; "[1] h.example. AAAA  nxdomain"]%py)
  = [("x.oast.live", "A", Blocked); ("h.example", "AAAA", Nxdomain)]%py.
Proof. vm_compute. reflexivity. Qed.

(** ** Counting *)

Lemma exc_bind_inv {A B} (m : exc A) (f : A → exc B) b : exc_bind m f = Ok b → ∃ a, m = Ok a ∧ f a = Ok b.
Proof. apply exc_bind_ok. Qed.

Definition tally {A} (f : A → bool) (l : list A) : nat := length (List.filter f l).

Lemma tally_cons {A} (f : A → bool) x l : tally f (x :: l) = (if f x then 1 else 0) + tally f l.
Proof. unfold tally. cbn. by destruct (f x). Qed.

Lemma tally_app {A} (f : A → bool) l k : tally f (l ++ k) = tally f l + tally f k.
Proof. induction l as [|x l IH]; [done|]. rewrite <- app_comm_cons, !tally_cons, IH. lia. Qed.

(** A loop that adds, at each step that returns, what the step's input is worth. *)
Lemma exc_fold_sums {A B} (I : A → Prop) (f : A → B → exc A) (measure : A → nat) (worth : B → nat) l a a' :
  (∀ a b a', I a → f a b = Ok a' → I a' ∧ measure a' = measure a + worth b) →
  I a → exc_fold f a l = Ok a' → I a' ∧ measure a' = measure a + sum (map worth l).
Proof.
  intros Hstep. revert a. induction l as [|b l IH]; intros a Ha; cbn [exc_fold].
  - intros [= <-]. cbn. split; [done|lia].
  - intros (a1 & E1 & E2)%exc_bind_inv. destruct (Hstep _ _ _ Ha E1) as [H1 H2]. destruct (IH _ H1 E2) as [H3 H4].
    split; [done|]. unfold sum in *. cbn [map foldr]. lia.
Qed.

Lemma tally_sum {A} (f : A → bool) l : sum (map (λ x, if f x then 1 else 0) l) = tally f l.
Proof. unfold sum. induction l as [|x l IH]; [done|]. rewrite tally_cons, <- IH. done. Qed.

Lemma exc_fold_counts {A B} (I : A → Prop) (f : A → B → exc A) (measure : A → nat) (worth : B → bool) l a a' :
  (∀ a b a', I a → f a b = Ok a' → I a' ∧ measure a' = measure a + (if worth b then 1 else 0)) →
  I a → exc_fold f a l = Ok a' → I a' ∧ measure a' = measure a + tally worth l.
Proof. rewrite <- tally_sum. apply exc_fold_sums. Qed.

Lemma py_index_lt n i k : py_index n i = Ok k → k < n.
Proof.
  unfold py_index. destruct (_ && _)%Z eqn:E; [intros [= <-]; lia|]. destruct ((i <? 0)%Z && (- Z.of_nat n <=? i)%Z) eqn:E2; [intros [= <-]; lia|discriminate].
Qed.

Lemma sum_alter {A} (f : A → nat) (g : A → A) i (l : list A) x : l !! i = Some x →
  sum (map f (alter g i l)) + f x = sum (map f l) + f (g x).
Proof.
  unfold sum. revert i. induction l as [|y l IH]; intros [|i]; [done|done| |].
  - intros [= ->]. cbn. lia.
  - intros H. specialize (IH i H). change (alter g (S i) (y :: l)) with (y :: alter g i l). cbn [map foldr]. lia.
Qed.

Definition counted_as (wanted : list str) (start end_ : flt) (s : str) (x : gmap str pyval * exc flt) : bool :=
  match x.2 with Ok ts => in_window start end_ ts && bool_decide (counted wanted x.1 = Some s) | Raise _ => false end.

Lemma count_bump s s' b : count_of s (bump s' b) = count_of s b + (if decide (s = s') then 1 else 0).
Proof.
  unfold count_of at 1. unfold bump. cbn [counts]. case_decide as E.
  - subst s'. rewrite lookup_insert_eq. change (default 0 (Some (S (count_of s b)))) with (S (count_of s b)). lia.
  - rewrite lookup_insert_ne by done. unfold count_of. lia.
Qed.

Lemma rate_step_counts wanted start end_ bs n s a x a' : length a = n → rate_step wanted start end_ bs n a x = Ok a' →
  length a' = n ∧ sum (map (count_of s) a') = sum (map (count_of s) a) + (if counted_as wanted start end_ s x then 1 else 0).
Proof.
  intros Hl. unfold rate_step, counted_as. destruct (x.2) as [ts|e]; [|done]. cbn [exc_bind].
  destruct (in_window start end_ ts); cbn [negb andb]; [|intros [= <-]; split; [done|lia]].
  destruct (counted wanted x.1) as [s'|]; [|intros [= <-]; rewrite bool_decide_false by done; split; [done|lia]].
  intros (k & _ & (i & Hi%py_index_lt & [= <-])%exc_bind_inv)%exc_bind_inv. split; [by rewrite length_alter|].
  destruct (lookup_lt_is_Some_2 a i) as [b Hb]; [lia|]. pose proof (sum_alter (count_of s) (bump s') i a b Hb) as H.
  rewrite count_bump in H. destruct (decide (s = s')) as [->|Hne]; [rewrite bool_decide_true by done|rewrite bool_decide_false by congruence]; lia.
Qed.

Lemma bucket_counts h wanted bs start end_ l s : _bucket h wanted bs start end_ = Ok l →
  sum (map (count_of s) l) = tally (counted_as wanted start end_ s) (_iter_actions h).
Proof.
  intros (k & _ & H)%exc_bind_inv. set (n := Z.to_nat (Z.max 1 k)) in *.
  apply (exc_fold_counts (λ a, length a = n) _ (λ a, sum (map (count_of s) a)) (counted_as wanted start end_ s)) in H as [_ ->].
  - rewrite map_map. assert (H0 : ∀ l : list nat, sum (map (λ x, count_of s (empty_bucket (fadd start (of_int (Z.of_nat x * bs))))) l) = 0); [|by rewrite H0].
    unfold sum. induction l0 as [|x l0 IH]; [done|]. cbn [map foldr]. rewrite IH. unfold count_of, empty_bucket. cbn [counts].
    destruct (list_to_map _ !! s) as [v|] eqn:E; [|done]. apply elem_of_list_to_map_2, list_elem_of_fmap in E as (y & [= -> ->] & _). done.
  - intros a x a' Ha Hx. by eapply rate_step_counts.
  - by rewrite length_map, length_seq.
Qed.

(** when /alerts/rate answers, each total is the number of recorded alerts of that
    severity in the window, whatever the width of the buckets, the series adds up to the
    totals, and the series to compare with counts the window before in the same way. *)
Theorem rate_conserves h since until bs severities compare_to r :
  alert_rate h since until bs severities compare_to = Ok r →
  let wanted := match severities with Some ((_ :: _) as l) => l | _ => _SEV_ORDER end in
  (∀ s n, (s, n) ∈ totals r → n = tally (counted_as wanted since until s) (_iter_actions h)
                           ∧ n = sum (map (count_of s) (series r)))
  ∧ ∀ c s, compare r = Some c →
      sum (map (count_of s) c) = tally (counted_as wanted (fsub since (fsub until since)) since s) (_iter_actions h).
Proof.
  intros H wanted. unfold alert_rate in H. fold wanted in H. apply exc_bind_inv in H as (l & Hl & H).
  assert (Ht : ∀ s n, (s, n) ∈ map (λ s, (s, sum (map (count_of s) l))) _SEV_ORDER →
             n = tally (counted_as wanted since until s) (_iter_actions h) ∧ n = sum (map (count_of s) l)).
  { intros s n (s' & [= -> ->] & _)%list_elem_of_fmap. split; [by eapply bucket_counts|done]. }
  case_bool_decide.
  - apply exc_bind_inv in H as (c & Hc & [= <-]). split; [done|]. intros c' s [= <-]. by eapply bucket_counts.
  - injection H as <-. done.
Qed.

(** ** The drill-down *)

Section drill.
Context (tm_hour : flt → nat).

Definition hit (since until : flt) (hour : nat) (x : exc flt) : bool :=
  match x with Ok ts => in_window since until ts && (tm_hour ts =? hour) | Raise _ => false end.

Lemma hits_tally since until hour l n : hits tm_hour since until hour l = Ok n → n = tally (hit since until hour) l.
Proof.
  intros H. apply (exc_fold_counts (λ _, True) _ id (hit since until hour)) in H as [_ H]; [exact H| |done].
  intros a [ts|e] a' _; [|done]. cbn [exc_bind hit]. destruct (in_window _ _ _); cbn [negb andb]; [|intros [= <-]; unfold id; split; [done|lia]].
  destruct (_ =? _); intros [= <-]; unfold id; (split; [done|lia]).
Qed.

(** The hits are counted whenever every time can be read. *)
Lemma hits_returns since until hour l : Forall (λ x, is_ok x = true) l → is_ok (hits tm_hour since until hour l) = true.
Proof.
  unfold hits. generalize 0. intros n H. revert n. induction H as [|[ts|e] l Hx _ IH]; intros n; [done| |done].
  cbn [exc_fold exc_bind]. destruct (negb _); [apply IH|]. destruct (negb _); apply IH.
Qed.

Lemma row_tally since until k logs row hour : (∀ ts, tm_hour ts < 24) → hour < 24 →
  heat_row tm_hour since until k logs = Ok row →
  nth hour row 0 = tally (hit since until hour) (flat_map (event_times k) logs) ∧ Forall (λ x, is_ok x = true) (flat_map (event_times k) logs).
Proof.
  intros Hh Hhr H. unfold heat_row in H. split.
  - apply (exc_fold_counts (λ a, length a = 24) _ (λ a, nth hour a 0) (hit since until hour)) in H as [_ ->].
    + do 24 (destruct hour as [|hour]; [done|]). lia.
    + intros a [ts|e] a' Ha; [|done]. unfold hour_step. cbn [exc_bind hit]. destruct (in_window _ _ _); cbn [negb andb]; [|intros [= <-]; split; [done|lia]].
      unfold py_index. rewrite Ha, (proj2 (andb_true_iff _ _)) by (pose proof (Hh ts); lia). cbn [exc_bind]. rewrite Nat2Z.id. intros [= <-].
      split; [by rewrite length_alter|]. destruct (lookup_lt_is_Some_2 a hour) as [v Hv]; [lia|].
      rewrite !nth_lookup. destruct (tm_hour ts =? hour) eqn:E.
      * apply Nat.eqb_eq in E as ->. rewrite list_lookup_alter, decide_True, Hv by done. cbn. lia.
      * apply Nat.eqb_neq in E. rewrite list_lookup_alter, decide_False by done. lia.
    + done.
  - revert H. generalize (repeat 0 24). generalize (flat_map (event_times k) logs). intros l. induction l as [|[ts|e] l IH]; intros r; [done| |done].
    cbn [exc_fold exc_bind]. intros (r' & _ & H)%exc_bind_inv. constructor; [done|by eapply IH].
Qed.

Lemma sum_perm (l k : list nat) : l ≡ₚ k → sum l = sum k.
Proof. unfold sum. induction 1; cbn; lia. Qed.

Lemma weigh_set k r (d : list (str * cell_row)) :
  sum (map weight (map snd (assoc_set k r d))) + default 0 (weight <$> assoc_get k d) = sum (map weight (map snd d)) + weight r
  ∧ length (assoc_set k r d) <= S (length d).
Proof.
  unfold sum. destruct (assoc_get k d) as [o|] eqn:E.
  - destruct (assoc_split _ _ _ E) as (d1 & d2 & -> & ->). rewrite !map_app, !foldr_app, !length_app. cbn [map foldr snd length fmap option_fmap option_map default from_option].
    split; [|lia]. unfold id. generalize (foldr Nat.add 0 (map weight (map snd d2))). intros z.
    enough (∀ x, foldr Nat.add x (map weight (map snd d1)) = foldr Nat.add 0 (map weight (map snd d1)) + x) as H; [rewrite (H (_ + z)), (H (weight o + z)); lia|].
    clear. intros x. induction (map weight (map snd d1)) as [|y l IH]; cbn; lia.
  - rewrite assoc_set_new, !map_app, foldr_app, length_app by done. cbn. split; [|lia].
    induction (map weight (map snd d)) as [|y l IH]; cbn; lia.
Qed.

(** The times of a log that fall into the cell. *)
Definition cell_worth (since until : flt) (hour : nat) (k : kind) (l : log) : nat := tally (hit since until hour) (event_times k l).

Lemma cell_step_sums since until hour k by_ l by_' : l_engagement_id l ≠ [] → cell_step tm_hour since until hour k by_ l = Ok by_' →
  sum (map weight (map snd by_')) = sum (map weight (map snd by_)) + cell_worth since until hour k l ∧ length by_' <= S (length by_).
Proof.
  intros Hl. unfold cell_step. destruct (l_engagement_id l) as [|x e] eqn:Ee; [done|]. rewrite <- Ee. clear Ee.
  set (eid := l_engagement_id l). cbv zeta. set (r := default _ (assoc_get eid by_)).
  intros (a & Ha & (c & Hc & [= <-])%exc_bind_inv)%exc_bind_inv.
  assert (Hw : cell_worth since until hour k l = a + c).
  { unfold cell_worth, event_times. rewrite tally_app. f_equal; symmetry.
    - destruct (count_alerts k); [by apply hits_tally in Ha|by injection Ha as <-].
    - destruct (count_commands k); [by apply hits_tally in Hc|by injection Hc as <-]. }
  destruct (weigh_set eid (mk_row (r_id r) (r_user r) (r_ip r) (r_commands r + c) (r_alerts r + a)) by_) as [H1 H2]. split; [|done].
  assert (default 0 (weight <$> assoc_get eid by_) = weight r) as Hr by (unfold r; by destruct (assoc_get eid by_)).
  assert (weight (mk_row (r_id r) (r_user r) (r_ip r) (r_commands r + c) (r_alerts r + a)) = weight r + (a + c)) as Hr' by (unfold weight; cbn; lia).
  lia.
Qed.

Lemma cell_step_returns since until hour k by_ l : Forall (λ x, is_ok x = true) (event_times k l) → is_ok (cell_step tm_hour since until hour k by_ l) = true.
Proof.
  unfold cell_step, event_times. intros [Ha Hc]%Forall_app. destruct (l_engagement_id l); [done|].
  assert (∀ b (times : list (exc flt)), Forall (λ x, is_ok x = true) (if b : bool then times else []) →
    ∃ n, (if b then hits tm_hour since until hour times else Ok 0) = Ok n) as Hb.
  { intros [|] ts Hf; [|by eexists]. apply (hits_returns since until hour) in Hf. destruct (hits _ _ _ _ _) as [x|]; [by exists x|done]. }
  destruct (Hb _ _ Ha) as [a ->], (Hb _ _ Hc) as [c ->]. done.
Qed.

Lemma weigh_rows (l : list cell_row) : sum (map weight (List.filter (λ r, 0 <? weight r) l)) = sum (map weight l).
Proof.
  unfold sum. induction l as [|r l IH]; [done|]. cbn [List.filter]. destruct (0 <? weight r) eqn:E; cbn [map foldr]; [by rewrite IH|].
  apply Nat.ltb_ge in E. lia.
Qed.

Lemma grid_rows since until host k h g : exc_fold (grid_step tm_hour since until host k) [] h = Ok g →
  ∀ hst row, (hst, row) ∈ g → ∃ files, (hst, files) ∈ h ∧ heat_row tm_hour since until k (omap id files) = Ok row.
Proof.
  intros H. enough (∀ acc, exc_fold (grid_step tm_hour since until host k) acc h = Ok g → ∀ hst row, (hst, row) ∈ g →
    (hst, row) ∈ acc ∨ ∃ files, (hst, files) ∈ h ∧ heat_row tm_hour since until k (omap id files) = Ok row) as Hacc.
  { intros hst row Hin. by destruct (Hacc [] H hst row Hin) as [?%elem_of_nil|]. }
  clear H. induction h as [|[hn files] h IH]; intros acc H hst row Hin; [injection H as <-; by left|].
  cbn [exc_fold] in H. apply exc_bind_inv in H as (acc' & Hs & H). destruct (IH acc' H hst row Hin) as [Hi|(f & Hf & Hr)]; [|right; exists f; split; [by right|done]].
  assert (acc' = acc ∨ ∃ r, acc' = acc ++ [(hn, r)] ∧ heat_row tm_hour since until k (omap id files) = Ok r) as [->|(r & -> & Hr)].
  { unfold grid_step in Hs. cbn [fst snd] in Hs. destruct host as [[|x n]|]; [|case_decide|];
      try (apply exc_bind_inv in Hs as (r & Hr & [= <-]); right; by exists r). injection Hs as <-. by left. }
  - by left.
  - apply elem_of_app in Hi as [Hi|[= -> ->]%list_elem_of_singleton]; [by left|]. right. exists files. split; [by left|done].
Qed.

(** behind each cell of the heatmap are its engagements: when the logs of the host name
    their engagements and the limit does not cut the list, the drill-down of the cell
    answers, and the commands and alerts of its rows add up to the number in the cell. *)
Theorem cell_explains h since until host k m hst row hour limit :
  (∀ ts, tm_hour ts < 24) → NoDup (map fst h) → activity_heatmap tm_hour h since until host k = Ok m → (hst, row) ∈ grid m → hour < 24 →
  (∀ files, assoc_get hst h = Some files → Forall has_id (omap id files) ∧ length (omap id files) ≤ limit) →
  ∃ rows, activity_cell_engagements tm_hour h hst (Z.of_nat hour) since until k limit = Ok rows ∧ sum (map weight rows) = nth hour row 0.
Proof.
  intros Hh Hnd (g & Hg & [= <-])%exc_bind_inv Hin Hhr Hlogs. cbn [grid] in Hin.
  destruct (grid_rows _ _ _ _ _ _ Hg _ _ Hin) as (files & Hf & Hrow). apply (assoc_get_elem _ _ _ Hnd) in Hf.
  destruct (Hlogs files Hf) as [Hid Hlen]. destruct (row_tally since until k _ row hour Hh Hhr Hrow) as [Hn Hok].
  unfold activity_cell_engagements. rewrite (proj2 (orb_false_iff _ _)) by lia. rewrite Hf, Nat2Z.id. revert Hid Hlen Hn Hok. generalize (omap id files). intros logs Hid Hlen Hn Hok.
  assert (∀ acc, ∃ by_, exc_fold (cell_step tm_hour since until hour k) acc logs = Ok by_
            ∧ sum (map weight (map snd by_)) = sum (map weight (map snd acc)) + sum (map (cell_worth since until hour k) logs)
            ∧ length by_ <= length acc + length logs) as Hfold.
  { clear Hn Hlen. induction logs as [|l logs IH]; intros acc; [exists acc; unfold sum; cbn; split; [done|lia]|].
    apply Forall_cons in Hid as [Hl Hid]. cbn [flat_map] in Hok. apply Forall_app in Hok as [Hok1 Hok2].
    pose proof (cell_step_returns since until hour k acc l Hok1) as Hret. cbn [exc_fold].
    destruct (cell_step tm_hour since until hour k acc l) as [acc'|] eqn:E; [|done]. cbn [exc_bind].
    destruct (cell_step_sums _ _ _ _ _ _ _ Hl E) as [H1 H2]. destruct (IH Hid Hok2 acc') as (by_ & -> & H3 & H4). exists by_. split; [done|].
    unfold sum in *. cbn [map foldr length]. lia. }
  destruct (Hfold []) as (by_ & -> & Hs & Hl). cbn [exc_bind]. eexists. split; [reflexivity|].
  rewrite take_ge.
  - rewrite (sum_perm _ _ (fmap_Permutation _ _ _ (stable_sort_perm _ _))). rewrite weigh_rows, Hs, Hn. cbn.
    unfold sum. clear. induction logs as [|l logs IH]; [done|]. cbn [map foldr flat_map]. rewrite tally_app, IH. done.
  - rewrite (Permutation_length (stable_sort_perm _ _)). etrans; [apply filter_length_le|]. rewrite length_map. cbn in Hl. lia.
Qed.
End drill.

(** ** The top alerts *)

Lemma Sorted_take {A} (R : relation A) n l : Sorted R l → Sorted R (take n l).
Proof.
  intros H. revert n. induction H as [|x l H IH Hh]; intros [|n]; cbn; try constructor; [done|].
  destruct Hh; destruct n; by constructor.
Qed.

Definition named (since until : flt) (name : str) (x : gmap str pyval * exc flt) : bool :=
  match x.2 with Ok ts => in_window since until ts && bool_decide (action_name x.1 = name) | Raise _ => false end.

Definition top_inv (buckets : nat) (by_name : list (str * top_entry)) : Prop :=
  NoDup (map fst by_name) ∧
  ∀ k r, assoc_get k by_name = Some r → t_name r = k ∧ length (sparkline r) = buckets ∧ sum (sparkline r) = t_count r.

Lemma sum_repeat n : sum (repeat 0 n) = 0.
Proof. unfold sum. by induction n. Qed.

Lemma sum_alter_S i (l : list nat) : i < length l → sum (alter S i l) = S (sum l).
Proof.
  intros [v Hv]%lookup_lt_is_Some_2. pose proof (sum_alter id S i l v Hv) as H. rewrite !map_id in H. unfold id in H. lia.
Qed.

Lemma top_step_counts since until bw buckets name a x a' : top_inv buckets a → top_step since until bw buckets a x = Ok a' →
  top_inv buckets a' ∧ default 0 (t_count <$> assoc_get name a') = default 0 (t_count <$> assoc_get name a) + (if named since until name x then 1 else 0).
Proof.
  intros [Hnd Hinv]. unfold top_step, named. destruct (x.2) as [ts|e]; [|done]. cbn [exc_bind].
  destruct (in_window since until ts); cbn [negb andb]; [|intros [= <-]; split; [done|lia]]. cbv zeta.
  set (n := action_name x.1). set (r := default _ (assoc_get n a)).
  intros (k & _ & (i & Hi%py_index_lt & (sev & _ & [= <-])%exc_bind_inv)%exc_bind_inv)%exc_bind_inv.
  assert (Hr : t_name r = n ∧ length (sparkline r) = buckets ∧ sum (sparkline r) = t_count r ∧ t_count r = default 0 (t_count <$> assoc_get n a)).
  { unfold r. destruct (assoc_get n a) as [r'|] eqn:E; [destruct (Hinv _ _ E) as (? & ? & ?); done|]. cbn. unfold id. cbn.
    by rewrite repeat_length, sum_repeat. }
  destruct Hr as (Hr1 & Hr2 & Hr3 & Hr4). split; [split; [by apply assoc_set_NoDup|]|].
  - intros k' r'. rewrite assoc_get_set. case_decide as E; [|by apply Hinv]. intros [= <-]. cbn. subst k'.
    rewrite length_alter, sum_alter_S by lia. by rewrite Hr3.
  - rewrite assoc_get_set. destruct (decide (name = n)) as [->|E].
    + rewrite bool_decide_true by done. cbn. unfold id. unfold id in Hr4. lia.
    + rewrite bool_decide_false by congruence. lia.
Qed.

(** when /alerts/top answers, each entry counts every recorded alert of its name in the
    window once, its sparkline adds up to that count, no name has two entries, and the
    entries are ordered by severity and then by falling count. *)
Theorem top_counts h since until limit buckets out : alert_top h since until limit buckets = Ok out →
  NoDup (map t_name out) ∧ Sorted (λ a b, top_before b a = false) out
  ∧ ∀ r, r ∈ out → t_count r = tally (named since until (t_name r)) (_iter_actions h) ∧ sum (sparkline r) = t_count r.
Proof.
  unfold alert_top. destruct (fle_b _ _).
  { intros [= <-]. split; [constructor|]. split; [constructor|]. by intros r ?%elem_of_nil. }
  cbv zeta. intros (by_name & H & [= <-])%exc_bind_inv.
  match type of H with exc_fold (top_step _ _ ?w _) _ _ = _ => set (bw := w) in H end.
  assert (H0 : top_inv buckets []) by (split; [constructor|done]).
  assert (Hc : ∀ name, top_inv buckets by_name ∧ default 0 (t_count <$> assoc_get name by_name) = tally (named since until name) (_iter_actions h)).
  { intros name. apply (exc_fold_counts (top_inv buckets) _ (λ a, default 0 (t_count <$> assoc_get name a)) (named since until name)) in H as [H1 H2];
      [split; [done|exact H2]| |done]. intros a x a' Ha Hx. by eapply top_step_counts. }
  destruct (Hc []) as [[Hnd Hinv] _].
  assert (Hnames : map t_name (map snd by_name) = map fst by_name).
  { assert (∀ k r, (k, r) ∈ by_name → t_name r = k) as Hk by (intros k r Hin%(assoc_get_elem _ _ _ Hnd); by apply Hinv).
    clear -Hk. induction by_name as [|[k r] l IH]; [done|]. cbn [map fst snd]. rewrite IH by (intros; apply Hk; by right). by rewrite (Hk k r) by left. }
  split; [|split].
  - eapply sublist_NoDup; [|apply fmap_sublist, sublist_take]. change (t_name <$> ?l) with (map t_name l). rewrite stable_sort_perm, Hnames. done.
  - apply Sorted_take, stable_sort_sorted. intros a b. unfold top_before. lia.
  - intros r (i & Hr & _)%elem_of_take. apply list_elem_of_lookup_2 in Hr. rewrite stable_sort_perm in Hr.
    apply list_elem_of_fmap in Hr as ([k r'] & -> & Hk). cbn [snd]. apply (assoc_get_elem _ _ _ Hnd) in Hk as Hg.
    destruct (Hinv _ _ Hg) as (-> & _ & Hs). split; [|done]. destruct (Hc k) as [_ <-]. by rewrite Hg.
Qed.

(** Every parsed line is in exactly one class. *)
Lemma dns_partition l : let '(t, r, b, n) := dns_stats l in t = r + b + n.
Proof.
  cbn [dns_stats]. unfold of_class. induction l as [|p l IH]; [done|]. cbn [List.filter length].
  destruct (d_result p); repeat (case_bool_decide; try done); cbn [length]; lia.
Qed.

(** ** Witnesses *)

Definition demo_action (sev : str) : gmap str pyval := {[ "action"%py := VStr "a"%py; "severity"%py := VStr sev; "ts_offset_s"%py := VFloat (of_int 5) ]}.
Definition demo_log : log :=
  mk_log "e1"%py "u"%py "ip"%py (of_int 1000) (of_int 2000) ∅ [demo_action "high"%py; demo_action "info"%py; demo_action "high"%py]
    [mk_command (of_int 1001) "ls"%py "cache"%py []] VNone 3.
Definition demo_hosts : hosts := [("web"%py, [Some demo_log; None]); ("db"%py, [])].

Lemma rate_conserves_witness :
  ∃ r, alert_rate demo_hosts (of_int 0) (of_int 1500) 300 None None = Ok r ∧ ("high"%py, 2) ∈ totals r
    ∧ sum (map (count_of "high"%py) (series r)) = 2.
Proof.
  destruct (alert_rate demo_hosts (of_int 0) (of_int 1500) 300 None None) as [r|e] eqn:E; [|vm_compute in E; discriminate E].
  exists r. split; [reflexivity|]. destruct (rate_conserves demo_hosts _ _ _ _ _ r E) as [Ht _].
  assert (Hin : ("high"%py, 2) ∈ totals r).
  { assert (totals r = [("critical", 0); ("high", 2); ("medium", 0); ("info", 1)]%py) as ->.
    { assert (match alert_rate demo_hosts (of_int 0) (of_int 1500) 300 None None with Ok r => totals r | _ => [] end
              = [("critical", 0); ("high", 2); ("medium", 0); ("info", 1)]%py) as E' by (vm_compute; reflexivity). by rewrite E in E'. }
    right. left. }
  split; [exact Hin|]. symmetry. exact (proj2 (Ht _ _ Hin)).
Defined.

Lemma top_counts_witness :
  ∃ out, alert_top demo_hosts (of_int 0) (of_int 1500) 10 8 = Ok out ∧ ∀ r, r ∈ out → sum (sparkline r) = t_count r.
Proof.
  destruct (alert_top demo_hosts (of_int 0) (of_int 1500) 10 8) as [out|e] eqn:E; [|vm_compute in E; discriminate E].
  exists out. split; [reflexivity|]. intros r Hr. exact (proj2 (proj2 (proj2 (top_counts demo_hosts _ _ _ _ out E)) r Hr)).
Defined.

Definition noon (_ : flt) : nat := 12.

Lemma cell_explains_witness :
  ∃ m rows, activity_heatmap noon demo_hosts (of_int 0) (of_int 1500) None KAll = Ok m
    ∧ activity_cell_engagements noon demo_hosts "web"%py 12 (of_int 0) (of_int 1500) KAll 20 = Ok rows ∧ sum (map weight rows) = 4.
Proof.
  destruct (activity_heatmap noon demo_hosts (of_int 0) (of_int 1500) None KAll) as [m|e] eqn:E; [|vm_compute in E; discriminate E].
  assert (Hin : ("web"%py, repeat 0 12 ++ [4] ++ repeat 0 11) ∈ grid m).
  { assert (grid m = [("web"%py, repeat 0 12 ++ [4] ++ repeat 0 11); ("db"%py, repeat 0 24)]) as ->; [|by left].
    assert (match activity_heatmap noon demo_hosts (of_int 0) (of_int 1500) None KAll with Ok m => grid m | _ => [] end
            = [("web"%py, repeat 0 12 ++ [4] ++ repeat 0 11); ("db"%py, repeat 0 24)]) as E' by (vm_compute; reflexivity). by rewrite E in E'. }
  destruct (cell_explains noon demo_hosts (of_int 0) (of_int 1500) None KAll m "web"%py (repeat 0 12 ++ [4] ++ repeat 0 11) 12 20) as (rows & Hr & Hs).
  - intros ts. unfold noon. lia.
  - apply (bool_decide_unpack _). vm_compute. exact I.
  - exact E.
  - exact Hin.
  - lia.
  - intros files Hf. vm_compute in Hf. injection Hf as <-. split; [apply (bool_decide_unpack _); vm_compute; exact I|cbn; lia].
  - exists m, rows. split; [reflexivity|]. split; [exact Hr|exact Hs].
Defined.
