(* ===== verification/Ipaddr.v ===== *)
(** [ipaddress.ip_address] of the standard library, as far as the code uses it: whether a
    string is a literal address. *)

From S2P Require Import Prelude PyStr Regex.

Definition COLON : N := 58.
Definition PERCENT : N := 37.

(** One decimal octet: digits only, at most three, no leading zero, at most 255. *)
Definition octet (s : str) : bool :=
  match s with
  | [] => false
  | c :: r => forallb is_digit s && (length s <=? 3) && (negb (c =? 48)%N || bool_decide (r = []))
              && match py_int s with Some n => (n <=? 255)%Z | None => false end
  end.

Definition ipv4 (s : str) : bool :=
  let octets := split_on DOT s in negb (bool_decide (SLASH ∈ s)) && (length octets =? 4) && forallb octet octets.

Definition hextet (s : str) : bool := negb (bool_decide (s = [])) && forallb is_hex s && (length s <=? 4).

(** The parts between colons, an IPv4 tail counting as two. *)
Definition v6_parts (s : str) : option (list str) :=
  let parts := split_on COLON s in
  if length parts <? 3 then None
  else match last parts with
       | Some t => if bool_decide (DOT ∈ t)
                   then if ipv4 t then Some (removelast parts ++ ["0"; "0"]%py) else None
                   else Some parts
       | None => None
       end.

(** The inner empty parts, which stand for a run of zeros. *)
Definition skips (parts : list str) : list nat :=
  List.filter (λ i, bool_decide (nth i parts [] = [])) (seq 1 (length parts - 2)).

Definition v6_digits (s : str) : bool :=
  match v6_parts s with
  | None => false
  | Some parts =>
      if 9 <? length parts then false
      else
        let first := nth 0 parts [] in let final := List.last parts [] in
        match skips parts with
        | [] => (length parts =? 8) && forallb hextet parts
        | [i] =>
            let hi := if bool_decide (first = []) then i - 1 else i in
            let lo := length parts - i - 1 - (if bool_decide (final = []) then 1 else 0) in
            negb (bool_decide (first = []) && (0 <? hi)) && negb (bool_decide (final = []) && (0 <? lo)) && negb (8 <=? hi + lo)
            && forallb hextet (take hi parts) && forallb hextet (drop (length parts - lo) parts)
        | _ => false
        end
  end.

(** The zone after a percent sign may hold anything but another one. *)
Definition ipv6 (s : str) : bool :=
  negb (bool_decide (SLASH ∈ s)) &&
  match split_on PERCENT s with
  | [a] => v6_digits a
  | [a; zone] => negb (bool_decide (zone = [])) && v6_digits a
  | _ => false
  end.

Definition ip_address (s : str) : bool := ipv4 s || ipv6 s.

Example ip_examples :
  map ip_address ["10.0.0.9"; "::1"; "::"; "2001:db8::ff00:42:8329"; "::ffff:1.2.3.4"; "1:2:3:4:5:6:7:8"; "fe80::1%eth0"; "::1%*"]%py = repeat true 8
  ∧ map ip_address ["10.0.0"; "01.2.3.4"; "256.1.1.1"; "1::2::3"; ":::"; "1:2:3:4:5:6:7"; "::1%"; "..%2f"; "../x"; "1:2:3:4:5:6:7::8:9"; "12345::"]%py
    = repeat false 11.
Proof. vm_compute. split; reflexivity. Qed.

(** An IPv4 literal is digits and dots. *)
Lemma ipv4_chars s : ipv4 s = true → Forall (λ c, is_digit c = true ∨ c = DOT) s.
Proof.
  unfold ipv4. rewrite !andb_true_iff, forallb_forall. intros [_ Ho]. rewrite <- (join_split_on DOT s).
  assert (Hd : Forall (λ p, Forall (λ c, is_digit c = true) p) (split_on DOT s)).
  { apply Forall_forall. intros p Hp%list_elem_of_In%Ho. destruct p as [|c r]; [constructor|]. unfold octet in Hp.
    rewrite !andb_true_iff in Hp. destruct Hp as [[[Hp _] _] _]. apply Forall_forall. intros x Hx%list_elem_of_In. rewrite forallb_forall in Hp. by apply Hp. }
  clear Ho. induction Hd as [|p l Hp Hl IH]; [constructor|]. destruct l as [|q l].
  - cbn. eapply Forall_impl; [exact Hp|]. cbn. auto.
  - rewrite join_cons by done. apply Forall_app. split; [eapply Forall_impl; [exact Hp|]; cbn; auto|]. constructor; [by right|exact IH].
Qed.
