(* ===== verification/AuditViews.v ===== *)
(** tools/audit.py: the views of an engagement -- the one-line summary, the list, the detail
    view with its alerts, observations, diff and timeline -- as the lines they print.

    A view is what it prints when no exception ends it; [use_color] is the module's
    [_USE_COLOR], [now] the clock. *)

From Stdlib Require Import SpecFloat.
From S2P Require Import Prelude PyStr Posix Vfs Regex Float Json CounterAI Synthetic Session Responses Logs Aggregations Sanitize.

#[local] Open Scope exc_scope.

(** ** Times and widths *)

(** A number of days after 1970-01-01 as year, month and day. *)
Definition civil (days : Z) : Z * Z * Z :=
  let z := (days + 719468)%Z in
  let era := (z / 146097)%Z in
  let doe := (z mod 146097)%Z in
  let yoe := ((doe - doe / 1460 + doe / 36524 - doe / 146096) / 365)%Z in
  let doy := (doe - (365 * yoe + yoe / 4 - yoe / 100))%Z in
  let mp := ((5 * doy + 2) / 153)%Z in
  let d := (doy - (153 * mp + 2) / 5 + 1)%Z in
  let m := (if mp <? 10 then mp + 3 else mp - 9)%Z in
  ((yoe + era * 400 + (if m <=? 2 then 1 else 0))%Z, m, d).

Example civil_examples : map civil [0; 11016; 19782; 20453; -1]%Z = [(1970, 1, 1); (2000, 2, 29); (2024, 2, 29); (2025, 12, 31); (1969, 12, 31)]%Z.
Proof. vm_compute. reflexivity. Qed.

(** [int(x)] *)
Definition as_int (x : flt) : exc Z := of_option (ValueError "cannot convert float to integer"%py) (trunc x).

(** Rounding to an integer, ties to even. *)
Definition round_half_even (f : flt) : Z :=
  match f with
  | S754_finite s m e =>
      let r := if (0 <=? e)%Z then (Z.pos m * 2 ^ e)%Z else round_div (Z.pos m) (2 ^ (- e)) in
      if s then (- r)%Z else r
  | _ => 0%Z
  end.

(** The second in which a time falls, once its fraction is rounded to microseconds. *)
Definition epoch_second (f : flt) : exc Z :=
  let* whole := as_int f in
  Ok (whole + round_half_even (fmul (fsub f (of_int whole)) (of_int 1000000)) / 1000000)%Z.

Record utc_time := mk_utc { year : Z; month : Z; day : Z; hour : Z; minute : Z; second : Z }.

(** [datetime.fromtimestamp(epoch, tz=UTC)]. *)
Definition fromtimestamp (f : flt) : exc utc_time :=
  let* t := epoch_second f in
  let '(y, m, d) := civil (t / 86400)%Z in
  if ((1 <=? y) && (y <=? 9999))%Z
  then let r := (t mod 86400)%Z in Ok (mk_utc y m d (r / 3600) (r mod 3600 / 60) (r mod 60))
  else Raise (ValueError "year is out of range"%py).

Definition hms (u : utc_time) : str := zero_pad 2 (hour u) ++ ":"%py ++ zero_pad 2 (minute u) ++ ":"%py ++ zero_pad 2 (second u).
Definition ymd (u : utc_time) : str := str_of_Z (year u) ++ "-"%py ++ zero_pad 2 (month u) ++ "-"%py ++ zero_pad 2 (day u).

Definition _iso (epoch : flt) : exc (option str) :=
  if ftruth epoch then let* u := fromtimestamp epoch in Ok (Some (ymd u ++ "T"%py ++ hms u ++ "Z"%py)) else Ok None.
Definition format_iso (epoch : flt) : exc str :=
  if ftruth epoch then let* u := fromtimestamp epoch in Ok (ymd u ++ " "%py ++ hms u ++ " UTC"%py) else Ok "?"%py.
Definition format_hms (epoch : flt) : exc str :=
  if ftruth epoch then let* u := fromtimestamp epoch in Ok (hms u) else Ok "??:??:??"%py.

Definition format_duration (seconds : flt) : exc str :=
  let* n := as_int seconds in
  let n := Z.max 0 n in
  Ok (str_of_Z (n / 3600) ++ ":"%py ++ zero_pad 2 (n mod 3600 / 60) ++ ":"%py ++ zero_pad 2 (n mod 60)).

(** [int(delta // n)] is the quotient of the whole seconds. *)
Definition format_relative_ago (now epoch : flt) : exc str :=
  if ftruth epoch then
    let d := fsub now epoch in
    let delta := if fgt_b d f0 then d else f0 in
    let* n := as_int delta in
    Ok (if flt_b delta (of_int 60) then str_of_Z n ++ "s ago"%py
        else if flt_b delta (of_int 3600) then str_of_Z (n / 60) ++ "m ago"%py
        else if flt_b delta (of_int 86400) then str_of_Z (n / 3600) ++ "h ago"%py
        else str_of_Z (n / 86400) ++ "d ago"%py)
  else Ok "?"%py.

Definition spaces (n : nat) : str := repeat 32%N n.
Definition ljust (n : nat) (s : str) : str := s ++ spaces (n - length s).
Definition rjust (n : nat) (s : str) : str := spaces (n - length s) ++ s.
Definition center (n : nat) (s : str) : str :=
  let pad := n - length s in
  let left := pad / 2 + (if Nat.odd pad && Nat.odd n then 1 else 0) in
  if length s <? n then spaces left ++ s ++ spaces (pad - left) else s.

Example times :
  (format_iso (of_int 1778500462), format_duration (of_int 3725), format_relative_ago (of_int 1000) (of_int 100)) =
  (Ok "2026-05-11 11:54:22 UTC", Ok "1:02:05", Ok "15m ago")%py.
Proof. vm_compute. reflexivity. Qed.

(** The words and units of [--since]. *)
Definition _parse_duration (s : str) : option Z :=
  let s := lower (strip s) in
  match last s with
  | None => None
  | Some u =>
      match assoc_get [u] [("s", 1); ("m", 60); ("h", 3600); ("d", 86400); ("w", 604800)]%py%Z with
      | Some n => (λ k, k * n)%Z <$> py_int (removelast s)
      | None => py_int s
      end
  end.

Example durations : map _parse_duration ["5m"; " 2H"; "90s"; "7"; "w"; "1.5h"; ""]%py = [Some 300; Some 7200; Some 90; Some 7; None; None; None]%Z.
Proof. vm_compute. reflexivity. Qed.

(** ** Colours *)

Definition _ANSI : list (str * str) :=
  [("reset", "\x1b[0m"); ("bold", "\x1b[1m"); ("dim", "\x1b[2m"); ("red", "\x1b[31m"); ("yellow", "\x1b[33m"); ("green", "\x1b[32m");
   ("blue", "\x1b[34m"); ("magenta", "\x1b[35m"); ("cyan", "\x1b[36m"); ("white", "\x1b[37m"); ("bright_red", "\x1b[91m");
   ("bright_yellow", "\x1b[93m")]%py.
Definition ansi (name : str) : str := default [] (assoc_get name _ANSI).

(** ** Actions *)

Definition _SEVERITY_COLORS : list (str * str) :=
  [("critical", "bright_red"); ("high", "magenta"); ("medium", "yellow"); ("info", "dim")]%py.

(** [a["action"]]; action names are strings. *)
Definition action_of (a : gmap str pyval) : exc str :=
  match a !! "action"%py with Some (VStr n) => Ok n | _ => Raise (KeyError "action"%py) end.

(** A text field of an action, or what a missing one defaults to. *)
Definition field (k : str) (dflt : str) (a : gmap str pyval) : str := match a !! k with Some (VStr s) => s | _ => dflt end.

Definition setdefault {A} (k : str) (v : A) (d : list (str * A)) : list (str * A) :=
  match assoc_get k d with Some _ => d | None => d ++ [(k, v)] end.

(** The first action of each name, over all logs. *)
Definition by_action (e : engagement) : exc (list (str * gmap str pyval)) :=
  exc_fold (λ d a, let* n := action_of a in Ok (setdefault n a d)) [] (_aggregate_actions e).

Definition worse (top : option str) (a : gmap str pyval) : option str := if _SEV_RANK (severity_of a) <? _SEV_RANK top then severity_of a else top.
Definition top_severity (l : list (gmap str pyval)) : option str := foldl worse (Some "info"%py) l.

Definition count_action (acc : gset str * list (str * Z)) (a : gmap str pyval) : exc (gset str * list (str * Z)) :=
  let* n := action_of a in
  if decide (n ∈ acc.1) then Ok acc
  else let sev := default [] (severity_of a) in
       Ok ({[n]} ∪ acc.1, assoc_set sev (default 0 (assoc_get sev acc.2) + 1)%Z acc.2).
Definition count_alerts (logs : list log) : exc (list (str * Z)) :=
  let* r := exc_fold count_action (∅, [("critical", 0); ("high", 0); ("medium", 0); ("info", 0)]%py%Z) (flat_map l_actions logs) in Ok r.2.

(** ** The one-line summary *)

Definition _NARRATIVE_ORDER : list str :=
  ["alert_reverse_shell"; "alert_ssh_persistence"; "alert_dns_exfil"; "alert_credential_exfil"; "alert_lateral_decoy";
   "alert_honeytoken_tamper"; "alert_log_tampering"; "alert_credential_search"; "alert_payload_staging"; "alert_decoy_swallowed";
   "isolate_session"; "plant_sudo_vulnerability"; "spawn_fake_mysql"; "plant_aws_credentials"]%py.

Definition obs_of (k : str) (obs : gmap str pyval) : pyval := default VNone (obs !! k).

(** The strings of an observed list; the files hold lists, never sets. *)
Definition texts (v : pyval) : list str := match v with VList l => strings_of l | _ => [] end.

(** [len(v) if isinstance(v, list) else 1], of [obs.get(k) or []]. *)
Definition size_of (v : pyval) : Z := match v with VList l => Z.of_nat (length l) | v => if truthy v then 1%Z else 0%Z end.

Definition _DEV_TCP_RE : regex := rx "/dev/tcp/(\\d+\\.\\d+\\.\\d+\\.\\d+)/(\\d+)"%py.
Definition _NC_RE : regex := rx "\\bnc(?:at)?\\s+\\S+\\s+(\\d+\\.\\d+\\.\\d+\\.\\d+)\\s+(\\d+)"%py.
Definition _HOST_RE : regex := rx "https?://([\\w.-]+)"%py.

Definition grp (m : match_) (n : nat) : str := default [] (group_n m n).

(** The last two components of a host name. *)
Definition short_host (host : str) : str :=
  let parts := split_on DOT host in if 2 <? length parts then join "."%py (drop (length parts - 2) parts) else host.

Section views.
Context (use_color : bool).
Context `{Unicode}.

Definition color (text name : str) : str := if use_color then ansi name ++ text ++ ansi "reset"%py else text.

Definition _narrative_fragment (name : str) (action obs : gmap str pyval) : option str :=
  let trigger := field "triggered_by"%py [] action in
  let named n := bool_decide (name = n) in
  if named "alert_reverse_shell"%py then
    Some (color match re_search _DEV_TCP_RE trigger with
                | Some m => "revshell C2→"%py ++ grp m 1 ++ ":"%py ++ grp m 2
                | None => match re_search _NC_RE trigger with
                          | Some m => "revshell nc→"%py ++ grp m 1 ++ ":"%py ++ grp m 2
                          | None => "revshell"%py
                          end
                end "bright_red"%py)
  else if named "alert_ssh_persistence"%py then Some (color "ssh-persistence"%py "bright_red"%py)
  else if named "alert_dns_exfil"%py then
    Some (color match cmd ← head (texts (obs_of "dns_exfil_commands"%py obs)); re_search _HOST_RE cmd with
                | Some m => "exfil→"%py ++ short_host (grp m 1)
                | None => "exfil"%py
                end "magenta"%py)
  else if named "alert_credential_exfil"%py then
    let n := size_of (obs_of "credential_files_read"%py obs) in
    Some (color ("cred-exfil ("%py ++ str_of_Z n ++ " file"%py ++ (if (n =? 1)%Z then [] else "s"%py) ++ ")"%py) "magenta"%py)
  else if named "alert_lateral_decoy"%py then
    Some (color match head (py_sorted (texts (obs_of "decoy_targets"%py obs))) with
                | Some t => "lateral→"%py ++ t
                | None => "lateral"%py
                end "magenta"%py)
  else if named "alert_honeytoken_tamper"%py then Some (color "honeytoken-tampered"%py "magenta"%py)
  else if named "alert_log_tampering"%py then Some (color "logs-cleared"%py "magenta"%py)
  else if named "alert_credential_search"%py then
    Some (color match head (py_sorted (texts (obs_of "credential_search_terms"%py obs))) with
                | Some t => "cred-hunt ("%py ++ _safe (Some t) ++ ")"%py
                | None => "cred-hunt"%py
                end "yellow"%py)
  else if named "alert_payload_staging"%py then
    Some (color ("staging ("%py ++ str_of_Z (size_of (obs_of "payload_drops"%py obs)) ++ " files in /tmp)"%py) "yellow"%py)
  else if named "alert_decoy_swallowed"%py then
    Some (color ("took-bait ("%py ++ str_of_Z (size_of (obs_of "decoys_swallowed"%py obs)) ++ ")"%py) "yellow"%py)
  else if named "isolate_session"%py then Some (color "[isolated]"%py "dim"%py)
  else None.

Definition badge (top : option str) : str :=
  match top ≫= λ s, assoc_get s [("critical", ("[CRIT]", "bright_red")); ("high", ("[HIGH]", "magenta")); ("medium", ("[MED ]", "yellow"));
                                 ("info", ("[info]", "dim"))]%py with
  | Some (text, name) => color text name
  | None => color "[?   ]"%py "dim"%py
  end.

Definition idle_fragment (e : engagement) : str :=
  if truthy (obs_of "ran_sudo"%py (e_observed e)) then "ran sudo"%py
  else if truthy (obs_of "attempted_lateral"%py (e_observed e)) then "attempted ssh"%py
  else if (1 <? e_count e)%Z then "reconnected ("%py ++ str_of_Z (e_count e) ++ " conns)"%py
  else "idle"%py.

Definition build_narrative (now : flt) (e : engagement) : exc str :=
  let* by_name := by_action e in
  let* dwell := format_duration (fsub (e_last e) (e_first e)) in
  let* last_ago := format_relative_ago now (e_last e) in
  let fragments := omap (λ n, a ← assoc_get n by_name; _narrative_fragment n a (e_observed e)) _NARRATIVE_ORDER in
  let fragments := match fragments with [] => [idle_fragment e] | l => l end in
  let user_at_ip := _safe (Some (e_user e)) ++ "@"%py ++ e_ip e in
  Ok (color (take 8 (e_id e)) "cyan"%py ++ "  "%py ++ badge (top_severity (map snd by_name)) ++ "  "%py ++ ljust 28 user_at_ip ++ " · "%py
      ++ rjust 7 dwell ++ " · "%py ++ rjust 8 last_ago ++ " · "%py ++ join " + "%py fragments).

Definition print_summary (now : flt) (es : list engagement) : exc (list str) :=
  match es with [] => Ok [color "(no engagements found)"%py "dim"%py] | _ => exc_map (build_narrative now) es end.

(** ** The list *)

Definition format_alert_counts (counts : list (str * Z)) : str :=
  let part x := match assoc_get x.1.1 counts with
                | Some n => if (n =? 0)%Z then None else Some (color (str_of_Z n ++ x.1.2) x.2)
                | None => None
                end in
  match omap part [("critical", " crit", "bright_red"); ("high", " high", "magenta"); ("medium", " med", "yellow"); ("info", " info", "dim")]%py with
  | [] => color "—"%py "dim"%py
  | parts => join ", "%py parts
  end.

Definition list_row (now : flt) (e : engagement) : exc str :=
  let* dwell := format_duration (fsub (e_last e) (e_first e)) in
  let* last := format_relative_ago now (e_last e) in
  let* counts := count_alerts (e_logs e) in
  Ok (ljust 20 (color (take 8 (e_id e)) "cyan"%py) ++ " "%py ++ ljust 10 (take 10 (_safe (Some (e_user e)))) ++ " "%py
      ++ ljust 15 (take 15 (e_ip e)) ++ " "%py ++ rjust 5 (str_of_Z (e_count e)) ++ "  "%py ++ rjust 9 dwell ++ "  "%py
      ++ rjust 10 last ++ "  "%py ++ format_alert_counts counts).

Definition list_header : str :=
  ljust 10 "ENGAGE"%py ++ " "%py ++ ljust 10 "USER"%py ++ " "%py ++ ljust 15 "IP"%py ++ " "%py ++ rjust 5 "CONNS"%py ++ "  "%py
  ++ rjust 9 "DWELL"%py ++ "  "%py ++ rjust 10 "LAST"%py ++ "  ALERTS"%py.

Definition print_list (now : flt) (es : list engagement) : exc (list str) :=
  match es with
  | [] => Ok ["(no engagements found — nothing under state/persistence/ or state-docker/persistence/)"%py]
  | _ =>
      let* rows := exc_map (list_row now) es in
      let n := Z.of_nat (length es) in
      Ok ([color list_header "bold"%py; color (repeat 45%N 92) "dim"%py] ++ rows
          ++ [[]; color ("("%py ++ str_of_Z n ++ " engagement"%py ++ (if (n =? 1)%Z then [] else "s"%py)
                         ++ " — pass an id prefix for detail)"%py) "dim"%py])
  end.

(** ** The detail view *)

Definition alert_before (x y : flt * gmap str pyval) : bool :=
  let r := _SEV_RANK (severity_of x.2) in let r' := _SEV_RANK (severity_of y.2) in (r <? r') || ((r =? r') && flt_b x.1 y.1).

Definition alert_lines (a : gmap str pyval) (name : str) : list str :=
  let sev := default [] (severity_of a) in
  let rat := strip (field "rationale"%py [] a) in
  ["  ["%py ++ color (center 8 (upper sev)) (default "white"%py (assoc_get sev _SEVERITY_COLORS)) ++ "] "%py ++ color name "bold"%py;
   "     "%py ++ color "via:"%py "dim"%py ++ " "%py ++ _safe (Some (field "triggered_by"%py "?"%py a))]
  ++ match rat with [] => [] | _ => ["     "%py ++ color (_safe (Some (take 300 rat))) "dim"%py] end ++ [[]].

Definition print_alert (acc : gset str * list str) (x : flt * gmap str pyval) : exc (gset str * list str) :=
  let* n := action_of x.2 in
  if decide (n ∈ acc.1) then Ok acc else Ok ({[n]} ∪ acc.1, acc.2 ++ alert_lines x.2 n).

Definition _print_alerts (e : engagement) : exc (list str) :=
  let head := [[]; color "=== Alerts (highest severity first) ==="%py "bold"%py] in
  match flat_map (λ l, map (λ a, (l_started_at l, a)) (l_actions l)) (e_logs e) with
  | [] => Ok (head ++ [color "  (no alerts fired in this engagement)"%py "dim"%py])
  | alerts => let* r := exc_fold print_alert (∅, []) (stable_sort alert_before alerts) in Ok (head ++ r.2)
  end.

(** [repr(v)] and [str(v)]. *)
Fixpoint repr_value (v : pyval) : str :=
  match v with
  | VNone => "None"%py
  | VBool b => if b then "True"%py else "False"%py
  | VInt n => str_of_Z n
  | VFloat f => float_repr f
  | VStr s => py_repr s
  | VList l => "["%py ++ join ", "%py (map repr_value l) ++ "]"%py
  | VSet s => "{"%py ++ join ", "%py (map py_repr (elements s)) ++ "}"%py
  | VDict d => "{"%py ++ join ", "%py (map (λ kv, py_repr kv.1 ++ ": "%py ++ repr_value kv.2) d) ++ "}"%py
  end.
Definition show_value (v : pyval) : str := match v with VStr s => s | v => repr_value v end.
Definition safe_value (v : pyval) : str := match v with VNone => [] | v => _safe (Some (show_value v)) end.

(** [v in (False, [], 0, "", None)]. *)
Definition blank (v : pyval) : bool := match v with VSet _ | VDict _ => false | v => negb (truthy v) end.

Definition observation_line (k : str) (v : pyval) : str :=
  "  "%py ++ ljust 32 k ++ " = "%py ++
  match v with
  | VList ((_ :: _) as l) =>
      "["%py ++ join ", "%py (map safe_value (take 4 l)) ++ "]"%py
      ++ (if 4 <? length l then " (+"%py ++ str_of_Z (Z.of_nat (length l) - 4) ++ " more)"%py else [])
  | v => safe_value v
  end.

(** [items] walks the dictionary of the file in its order. *)
Context (items : gmap str pyval → list (str * pyval)).

Definition interesting (obs : gmap str pyval) : list (str * pyval) :=
  List.filter (λ kv, negb (blank kv.2) && negb (startswith kv.1 "alerted_"%py)) (items obs).

Definition _print_observations (e : engagement) : list str :=
  match interesting (e_observed e) with
  | [] => []
  | l => [color "=== Observed signals ==="%py "bold"%py] ++ map (λ kv, observation_line kv.1 kv.2) l ++ [[]]
  end.

Definition diff_line (line : str) : str :=
  let line := _safe (Some line) in
  "  "%py ++ color line (match line with
                         | c :: _ => if (c =? 43)%N then "green" else if (c =? 45)%N then "red" else if (c =? 77)%N then "yellow" else "dim"
                         | [] => "dim"
                         end)%py.
Definition _print_diff (diff : list str) : list str :=
  [color "=== Filesystem diff vs honeytoken baseline ==="%py "bold"%py] ++ map diff_line diff ++ [[]].

Definition _src_color (src : str) : str :=
  (if startswith src "alert_" || bool_decide (src = "error") then "red"
   else if startswith src "vfs-" then "green"
   else if bool_decide (src ∈ ["find"; "grep"; "ls"]) then "cyan"
   else if bool_decide (src = "sim-bot") then "blue"
   else if bool_decide (src = "llm") then "magenta" else "dim")%py.

Definition command_line (c : command) : exc str :=
  let* ts := format_hms (c_ts c) in
  let cmd := _safe (Some (c_cmd c)) in
  let cmd := if 90 <? length cmd then take 87 cmd ++ "..."%py else cmd in
  Ok ("  "%py ++ color ts "dim"%py ++ "  ["%py ++ color (ljust 12 (c_source c)) (_src_color (c_source c)) ++ "]  "%py ++ cmd).

Definition _print_timeline (limit : nat) (e : engagement) : exc (list str) :=
  let head := color ("=== Command timeline (last "%py ++ str_of_Z (Z.of_nat limit) ++ " of session) ==="%py) "bold"%py in
  let all_commands := stable_sort (λ a b, flt_b (c_ts a) (c_ts b)) (_aggregate_commands e) in
  match drop (length all_commands - limit) all_commands with
  | [] => Ok [head; color "  (no commands captured yet)"%py "dim"%py]
  | shown_ =>
      let* lines := exc_map command_line shown_ in
      Ok (head :: lines
          ++ (if limit <? length all_commands
              then [color ("  ... ("%py ++ str_of_Z (Z.of_nat (length all_commands - limit)) ++ " earlier commands omitted)"%py) "dim"%py] else [])
          ++ [[]])
  end.

(** [diff] is [compute_diff(eng)]. *)
Definition print_detail (now : flt) (diff : list str) (e : engagement) : exc (list str) :=
  let* first := format_iso (e_first e) in
  let* last := format_iso (e_last e) in
  let* ago := format_relative_ago now (e_last e) in
  let* age := format_duration (fsub (e_last e) (e_first e)) in
  let* alerts := _print_alerts e in
  let* timeline := _print_timeline 40 e in
  Ok ([[]; color ("=== Engagement "%py ++ e_id e ++ " ==="%py) "bold"%py;
       "User:           "%py ++ color (_safe (Some (e_user e))) "cyan"%py ++ " (claimed)"%py;
       "Source IP:      "%py ++ e_ip e;
       "First seen:     "%py ++ first;
       "Last seen:      "%py ++ last ++ "  ("%py ++ ago ++ ")"%py;
       "Engagement age: "%py ++ age;
       "Connections:    "%py ++ str_of_Z (e_count e);
       "Current cwd:    "%py ++ _safe (Some (e_cwd e))]
      ++ alerts ++ _print_observations e ++ _print_diff diff ++ timeline).
End views.
