(* ===== verification/AuditProps.v ===== *)
(** What the audit tool's views guarantee: nothing the attacker typed reaches the operator's
    terminal as a control sequence. *)

From S2P Require Import Prelude PyStr Posix Vfs Regex Float Json CounterAI Synthetic Session Responses Logs Aggregations Sanitize AuditViews.

(** What the views take as it is: the tool's and the deployment's own names, not the
    attacker's text. *)
Record trusted (e : engagement) : Prop := {
  t_id : Forall shown (e_id e);
  t_ip : Forall shown (e_ip e);
  t_action a n : a ∈ _aggregate_actions e → a !! "action"%py = Some (VStr n) → Forall shown n;
  t_severity a : a ∈ _aggregate_actions e → Forall shown (default [] (severity_of a));
  t_source c : c ∈ _aggregate_commands e → Forall shown (c_source c);
  t_decoys : Forall (Forall shown) (texts (obs_of "decoy_targets"%py (e_observed e)));
  t_keys k : is_Some (e_observed e !! k) → Forall shown k;
}.

(** ** Tame text

    Characters that a terminal shows as they are, and the tool's own colour codes. *)

Create HintDb tame discriminated.

Section views.
Context (use_color : bool) `{U : Unicode}.

Inductive tame : str → Prop :=
| tame_nil : tame []
| tame_char c s : shown c → tame s → tame (c :: s)
| tame_code name s : use_color = true → tame s → tame (ansi name ++ s).

Lemma tame_app s t : tame s → tame t → tame (s ++ t).
Proof.
  intros Hs Ht. induction Hs as [|c s Hc Hs IH|name s Hb Hs IH]; [done|by apply tame_char|]. rewrite <- app_assoc. by apply tame_code.
Qed.

Lemma tame_shown s : Forall shown s → tame s.
Proof. induction 1; [constructor|by apply tame_char]. Qed.

Lemma shown_const s : forallb (λ c, bool_decide (shown c)) s = true → Forall shown s.
Proof. rewrite forallb_forall. intros Hs. apply Forall_forall. intros c Hc%list_elem_of_In. by apply Hs, bool_decide_eq_true in Hc. Qed.

Lemma tame_safe s : tame (_safe s).
Proof. apply tame_shown, safe_is_shown. Qed.

Lemma tame_color text name : tame text → tame (color use_color text name).
Proof.
  intros Ht. unfold color. destruct use_color eqn:E; [|done]. apply tame_code; [done|]. apply tame_app; [done|].
  rewrite <- (app_nil_r (ansi _)). by apply tame_code, tame_nil.
Qed.

Lemma shown_spaces n : Forall shown (spaces n).
Proof. unfold spaces. induction n as [|n IH]; cbn; constructor; [unfold shown; lia|done]. Qed.

Lemma tame_spaces n : tame (spaces n).
Proof. apply tame_shown, shown_spaces. Qed.

Lemma tame_ljust n s : tame s → tame (ljust n s).
Proof. intros Hs. apply tame_app; [done|apply tame_spaces]. Qed.
Lemma tame_rjust n s : tame s → tame (rjust n s).
Proof. intros Hs. apply tame_app; [apply tame_spaces|done]. Qed.
Lemma tame_center n s : tame s → tame (center n s).
Proof. intros Hs. unfold center. case_match; [|done]. apply tame_app; [apply tame_spaces|]. apply tame_app; [done|apply tame_spaces]. Qed.

Lemma tame_join sep l : tame sep → Forall tame l → tame (join sep l).
Proof.
  intros Hs. induction 1 as [|x l Hx Hl IH]; [constructor|]. destruct l as [|y l]; [done|].
  change (join sep (x :: y :: l)) with (x ++ sep ++ join sep (y :: l)). apply tame_app; [done|]. by apply tame_app.
Qed.

Lemma tok_shown s : Forall (λ c, tok_char c = true) s → Forall shown s.
Proof.
  intros Hs. eapply Forall_impl; [exact Hs|]. cbn. intros c Hc. unfold shown. unfold tok_char in Hc.
  rewrite ?orb_true_iff, ?andb_true_iff, ?N.eqb_eq in Hc. unfold is_digit, is_alpha, is_lower, is_upper in Hc.
  rewrite ?orb_true_iff, ?andb_true_iff, ?N.eqb_eq, ?N.leb_le in Hc. lia.
Qed.

Lemma tame_Z n : tame (str_of_Z n).
Proof. apply tame_shown, tok_shown, str_of_Z_tok. Qed.

Lemma zero_pad_shown w n : Forall shown (zero_pad w n).
Proof.
  revert n. induction w as [|w IH]; intros n; [constructor|]. cbn. apply Forall_app. split; [done|].
  constructor; [|done]. unfold shown. pose proof (Z.mod_pos_bound n 10 eq_refl). lia.
Qed.
Lemma tame_pad w n : tame (zero_pad w n).
Proof. apply tame_shown, zero_pad_shown. Qed.

Lemma shown_take n s : Forall shown s → Forall shown (take n s).
Proof. apply Forall_take. Qed.

(** Decompose a text along its pieces. *)
Ltac tame :=
  lazymatch goal with
  | |- Forall _ [] => constructor
  | |- Forall _ (_ :: _) => constructor; [tame|tame]
  | |- Forall _ (_ ++ _) => apply Forall_app; split; tame
  | |- Forall _ _ => try assumption
  | |- tame (_ ++ _) => apply tame_app; tame
  | |- tame (color _ _ _) => apply tame_color; tame
  | |- tame (join _ _) => apply tame_join; tame
  | |- tame (ljust _ _) => apply tame_ljust; tame
  | |- tame (rjust _ _) => apply tame_rjust; tame
  | |- tame (center _ _) => apply tame_center; tame
  | |- tame (spaces _) => apply tame_spaces
  | |- tame (_safe _) => apply tame_safe
  | |- tame (take _ (_safe _)) => apply tame_shown, shown_take, safe_is_shown
  | |- tame (str_of_Z _) => apply tame_Z
  | |- tame (zero_pad _ _) => apply tame_pad
  | |- tame (if ?b then _ else _) => destruct b; tame
  | |- tame _ =>
      first [ assumption | exact tame_nil | solve [eauto 2 with tame nocore] | solve [apply tame_shown; assumption]
            | solve [apply tame_shown, shown_take; assumption] | solve [apply tame_shown, shown_const; vm_compute; reflexivity] | idtac ]
  | |- _ => idtac
  end.

(** ** The pieces *)

Lemma tame_fromtimestamp_pieces u : tame (hms u) ∧ tame (ymd u).
Proof. unfold hms, ymd. split; tame. Qed.

Lemma iso_tame f s : format_iso f = Ok s → tame s.
Proof.
  unfold format_iso. case_match; [|intros <-%Ok_inj; tame]. intros (u & _ & <-%Ok_inj)%exc_bind_inv.
  destruct (tame_fromtimestamp_pieces u). tame.
Qed.
Lemma hms_tame f s : format_hms f = Ok s → tame s.
Proof.
  unfold format_hms. case_match; [|intros <-%Ok_inj; tame]. intros (u & _ & <-%Ok_inj)%exc_bind_inv. by destruct (tame_fromtimestamp_pieces u).
Qed.
Lemma duration_tame f s : format_duration f = Ok s → tame s.
Proof. intros (n & _ & <-%Ok_inj)%exc_bind_inv. tame. Qed.
Lemma ago_tame now f s : format_relative_ago now f = Ok s → tame s.
Proof.
  unfold format_relative_ago. case_match; [|intros <-%Ok_inj; tame]. intros (n & _ & <-%Ok_inj)%exc_bind_inv. repeat case_match; tame.
Qed.
Hint Resolve iso_tame hms_tame duration_tame ago_tame : tame.

(** A host name that a command holds is letters, digits, dots and dashes. *)
Lemma host_group : gmay (re_prog _HOST_RE) 1 =
  (λ c, let host := is_word c || (c =? 46)%N || (c =? 45)%N in (host || host) || false).
Proof. vm_compute. reflexivity. Qed.

(** The address and the port of a reverse shell. *)
Definition digits_may (c : N) : bool := is_digit c || is_digit c.
Definition address_may (c : N) : bool :=
  let d := digits_may c in let p := (46 =? c)%N in (d || p || d || p || d || p || d) || false || false || false.
Lemma dev_tcp_groups : gmay (re_prog _DEV_TCP_RE) 1 = address_may ∧ gmay (re_prog _DEV_TCP_RE) 2 = (λ c, digits_may c || false).
Proof. split; vm_compute; reflexivity. Qed.
Lemma nc_groups : gmay (re_prog _NC_RE) 1 = address_may ∧ gmay (re_prog _NC_RE) 2 = (λ c, digits_may c || false).
Proof. split; vm_compute; reflexivity. Qed.

Lemma may_shown (f : N → bool) t : (∀ c, f c = true → shown c) → Forall (λ c, f c = true) t → Forall shown t.
Proof. intros Hf Ht. eapply Forall_impl; [exact Ht|exact Hf]. Qed.

Lemma digit_shown c : is_digit c = true → shown c.
Proof. unfold is_digit, shown. rewrite andb_true_iff, !N.leb_le. lia. Qed.
Lemma word_shown c : is_word c = true → shown c.
Proof. unfold is_word, is_alpha, is_lower, is_upper, is_digit, shown. rewrite !orb_true_iff, !andb_true_iff, !N.leb_le, N.eqb_eq. lia. Qed.

Lemma address_shown c : address_may c = true → shown c.
Proof.
  unfold address_may, digits_may. rewrite !orb_true_iff, !N.eqb_eq. intros H. assert (Hd : is_digit c = true ∨ c = 46%N) by naive_solver.
  destruct Hd as [Hd| ->]; [by apply digit_shown|unfold shown; lia].
Qed.

Lemma grp_shown r s m n : re_search r s = Some m → (∀ c, gmay (re_prog r) n c = true → shown c) → Forall shown (grp m n).
Proof.
  intros Hs Hg. unfold grp. destruct (group_n m n) as [t|] eqn:E; [|constructor]. cbn. eapply may_shown; [exact Hg|]. by eapply search_group.
Qed.

Lemma address_tame r s m : re_search r s = Some m → gmay (re_prog r) 1 = address_may → gmay (re_prog r) 2 = (λ c, digits_may c || false) →
  tame (grp m 1) ∧ tame (grp m 2).
Proof.
  intros Hs H1 H2. split; apply tame_shown; (eapply grp_shown; [exact Hs|]).
  - rewrite H1. apply address_shown.
  - rewrite H2. unfold digits_may. intros c Hc. apply digit_shown. rewrite !orb_true_iff in Hc. naive_solver.
Qed.

Lemma Forall_take_drop_elem {A} (P : A → Prop) l x : Forall P l → x ∈ l → P x.
Proof. rewrite Forall_forall. auto. Qed.

Lemma join_shown sep (l : list str) : Forall shown sep → Forall (Forall shown) l → Forall shown (join sep l).
Proof.
  intros Hs. induction 1 as [|p l Hp Hl IH]; [constructor|]. destruct l as [|q l]; [done|].
  change (join sep (p :: q :: l)) with (p ++ sep ++ join sep (q :: l)). apply Forall_app. split; [done|]. by apply Forall_app.
Qed.

Lemma short_host_shown t : Forall shown t → Forall shown (short_host t).
Proof.
  intros Ht. unfold short_host. case_match; [|done]. set (n := length _ - 2). rewrite <- (join_split_on DOT t) in Ht.
  assert (Hp : Forall (Forall shown) (split_on DOT t)).
  { clear -Ht. induction (split_on DOT t) as [|p l IH]; [constructor|]. destruct l as [|q l]; [by constructor|].
    rewrite join_cons in Ht by done. apply Forall_app in Ht as [Hp Ht]. constructor; [done|]. apply IH. by apply Forall_cons in Ht as [_ Ht]. }
  apply (join_shown [DOT]); [constructor; [unfold shown; right; right; right; left; by vm_compute|constructor]|]. by apply Forall_drop.
Qed.

Context (e : engagement) (He : trusted e).

Lemma head_shown (l : list str) t : Forall (Forall shown) l → head l = Some t → Forall shown t.
Proof. intros Hl. destruct Hl; [done|]. by intros [= <-]. Qed.

Ltac peel := match goal with |- (if ?b then _ else _) = _ → _ => destruct b; [intros <-%Some_inj|try peel] end.

Lemma fragment_tame name a f : _narrative_fragment use_color name a (e_observed e) = Some f → tame f.
Proof.
  unfold _narrative_fragment. cbv zeta.
  peel; [..|done]; tame.
  - destruct (re_search _DEV_TCP_RE _) as [m|] eqn:E.
    + destruct (address_tame _ _ _ E (proj1 dev_tcp_groups) (proj2 dev_tcp_groups)). tame.
    + destruct (re_search _NC_RE _) as [m|] eqn:E'; [|tame]. destruct (address_tame _ _ _ E' (proj1 nc_groups) (proj2 nc_groups)). tame.
  - destruct (head (texts _)) as [cmd|]; [|tame]. cbn [mbind option_bind]. destruct (re_search _HOST_RE cmd) as [m|] eqn:E; [|tame].
    apply tame_app; [tame|]. apply tame_shown, short_host_shown. eapply grp_shown; [exact E|]. rewrite host_group. intros c Hc.
    rewrite !orb_true_iff, !N.eqb_eq in Hc. assert (Hd : is_word c = true ∨ c = 46%N ∨ c = 45%N) by naive_solver.
    destruct Hd as [Hd|[-> | ->]]; [by apply word_shown|unfold shown; lia..].
  - destruct (head (py_sorted _)) as [t|] eqn:E; [|tame]. apply tame_app; [tame|]. apply tame_shown. eapply head_shown; [|exact E].
    rewrite py_sorted_perm. apply t_decoys, He.
  - destruct (head (py_sorted _)); tame.
Qed.

Lemma omap_Forall {A B} (P : B → Prop) (f : A → option B) l : (∀ x y, x ∈ l → f x = Some y → P y) → Forall P (omap f l).
Proof. intros Hf. apply Forall_forall. intros y (x & Hx & Hy)%list_elem_of_omap. eauto. Qed.

Lemma badge_tame top : tame (badge use_color top).
Proof.
  unfold badge. destruct top as [s|]; cbn [mbind option_bind]; [|tame]. cbn [assoc_get].
  repeat (case_decide; [tame|]). tame.
Qed.

Lemma idle_tame : tame (idle_fragment e).
Proof. unfold idle_fragment. tame. Qed.

Lemma narrative_tame now line : build_narrative use_color now e = Ok line → tame line.
Proof.
  intros (by_name & _ & (dwell & Hd & (ago & Ha & <-%Ok_inj)%exc_bind_inv)%exc_bind_inv)%exc_bind_inv.
  pose proof (t_id e He). pose proof (t_ip e He). pose proof (badge_tame (top_severity (map snd by_name))). tame.
  set (fs := omap _ _). assert (Hf : Forall tame fs).
  { unfold fs. apply omap_Forall. intros n f _ Hf. destruct (assoc_get n by_name) as [a|]; [|done]. by apply fragment_tame in Hf. }
  destruct fs; [|done]. constructor; [apply idle_tame|constructor].
Qed.

Lemma counts_tame counts : tame (format_alert_counts use_color counts).
Proof.
  unfold format_alert_counts. set (part := λ x, _). assert (Hp : ∀ x f, part x = Some f → tame x.1.2 → tame f).
  { intros x f. unfold part. case_match; [|done]. case_match; [done|]. intros <-%Some_inj Hx. tame. }
  set (l := omap part _). assert (Hl : Forall tame l); [|destruct l; [tame|apply tame_join; [tame|done]]].
  unfold l. apply omap_Forall. intros x f Hx Hf. apply (Hp _ _ Hf). clear Hf. revert x Hx. apply Forall_forall. repeat (constructor; [tame|]). constructor.
Qed.

Lemma list_row_tame now line : list_row use_color now e = Ok line → tame line.
Proof.
  intros (dwell & Hd & (ago & Ha & (counts & Hc & <-%Ok_inj)%exc_bind_inv)%exc_bind_inv)%exc_bind_inv.
  pose proof (t_id e He). pose proof (t_ip e He). pose proof (counts_tame counts). tame.
Qed.

Lemma list_tame (rows : list str) n : Forall tame rows →
  Forall tame ([color use_color list_header "bold"%py; color use_color (repeat 45%N 92) "dim"%py] ++ rows
     ++ [[]; color use_color ("("%py ++ str_of_Z n ++ " engagement"%py ++ (if (n =? 1)%Z then [] else "s"%py) ++ " — pass an id prefix for detail)"%py) "dim"%py]).
Proof. intros Hr. tame. Qed.

(** *** The parts of the detail view *)

Lemma upper_shown s : Forall shown s → Forall shown (upper s).
Proof.
  intros Hs. apply Forall_map. eapply Forall_impl; [exact Hs|]. cbn. intros c Hc. unfold upper_char, is_lower, shown in *.
  destruct (_ && _) eqn:E; [|done]. rewrite andb_true_iff, !N.leb_le in E. lia.
Qed.

Lemma action_name_shown a n : a ∈ _aggregate_actions e → action_of a = Ok n → Forall shown n.
Proof. intros Ha. unfold action_of. destruct (a !! "action"%py) as [[]|] eqn:E; try done. intros [= <-]. by eapply (t_action e He). Qed.

Lemma alert_lines_tame a n : a ∈ _aggregate_actions e → Forall shown n → Forall tame (alert_lines use_color a n).
Proof.
  intros Ha Hn. pose proof (upper_shown _ (t_severity e He a Ha)). unfold alert_lines. cbv zeta. tame. destruct (strip _); tame.
Qed.

Lemma exc_fold_inv {A B} (P : A → Prop) (f : A → B → exc A) (Q : B → Prop) a l r :
  (∀ a b a', P a → Q b → f a b = Ok a' → P a') → Forall Q l → P a → exc_fold f a l = Ok r → P r.
Proof.
  intros Hf Hl. revert a. induction Hl as [|b l Hb _ IH]; intros a Ha; [by intros <-%Ok_inj|].
  cbn [exc_fold]. intros (a' & E & H')%exc_bind_inv. eauto.
Qed.

Lemma alerts_tame lines : _print_alerts use_color e = Ok lines → Forall tame lines.
Proof.
  unfold _print_alerts. set (l := flat_map _ _). destruct l as [|x l'] eqn:E; [intros <-%Ok_inj; tame|]. rewrite <- E. clear E x l'.
  intros ([seen out] & Hr & <-%Ok_inj)%exc_bind_inv. cbv zeta. tame. cbn [snd]. change out with ((seen, out).2).
  eapply (exc_fold_inv (λ acc, Forall tame acc.2) _ (λ x, x.2 ∈ _aggregate_actions e)); [| | |exact Hr].
  - intros [seen0 out0] x [seen1 out1] Ho Hx (n & Hn & H')%exc_bind_inv. case_decide; injection H' as <- <-; [done|].
    cbn [snd] in *. apply Forall_app. split; [done|]. apply alert_lines_tame; [done|]. by eapply action_name_shown.
  - apply Forall_forall. intros x. rewrite stable_sort_perm. unfold l, _aggregate_actions.
    intros (lg & Hlg & Hx)%list_elem_of_In%in_flat_map. apply in_map_iff in Hx as (a & <- & Ha). apply list_elem_of_In, in_flat_map. eauto.
  - constructor.
Qed.

Lemma safe_value_tame v : tame (safe_value v).
Proof. destruct v; [exact tame_nil|apply tame_safe..]. Qed.

Context (items : gmap str pyval → list (str * pyval)) (Hitems : ∀ m, items m ≡ₚ map_to_list m).

Lemma observation_tame k v : Forall shown k → tame (observation_line k v).
Proof.
  intros Hk. unfold observation_line. pose proof (safe_value_tame v) as Hv.
  do 3 (apply tame_app; [tame|]). destruct v as [| | | | |l| |]; try done. destruct l as [|x l]; [done|].
  tame. apply Forall_map, Forall_forall. intros y _. apply safe_value_tame.
Qed.

Lemma observations_tame : Forall tame (_print_observations use_color items e).
Proof.
  unfold _print_observations. destruct (interesting items _) as [|x l] eqn:E; [constructor|]. rewrite <- E. tame.
  apply Forall_map, Forall_forall. intros [k v] Hin. apply observation_tame. apply (t_keys e He). exists v. cbn [fst].
  apply elem_of_map_to_list. rewrite <- Hitems. unfold interesting in Hin. apply list_elem_of_In, filter_In in Hin as [Hin _]. by apply list_elem_of_In.
Qed.

Lemma diff_tame diff : Forall tame (_print_diff use_color diff).
Proof. unfold _print_diff. tame. apply Forall_map, Forall_forall. intros line _. unfold diff_line. tame. Qed.

Lemma exc_map_Forall {A B} (P : B → Prop) (f : A → exc B) l r : (∀ a b, a ∈ l → f a = Ok b → P b) → exc_map f l = Ok r → Forall P r.
Proof.
  revert r. induction l as [|a l IH]; intros r Hf; [intros <-%Ok_inj; constructor|]. cbn [exc_map].
  intros (b & Hb & (bs & Hbs & <-%Ok_inj)%exc_bind_inv)%exc_bind_inv. constructor; [eapply Hf; [by left|done]|]. apply IH; [|done].
  intros a' b' Ha'. apply Hf. by right.
Qed.

Lemma command_tame c line : Forall shown (c_source c) → command_line use_color c = Ok line → tame line.
Proof.
  intros Hs (ts & Ht & <-%Ok_inj)%exc_bind_inv. cbv zeta. tame.
Qed.

Lemma timeline_tame limit lines : _print_timeline use_color limit e = Ok lines → Forall tame lines.
Proof.
  unfold _print_timeline. cbv zeta. set (all := stable_sort _ _). destruct (drop _ all) as [|c0 cs] eqn:E; [intros <-%Ok_inj; tame|].
  rewrite <- E. intros (ls & Hls & <-%Ok_inj)%exc_bind_inv. tame.
  - eapply exc_map_Forall; [|exact Hls]. intros c line Hc. apply command_tame, (t_source e He).
    assert (Hc' : c ∈ all) by (rewrite <- (take_drop (length all - limit) all); apply elem_of_app; by right).
    unfold all in Hc'. by rewrite stable_sort_perm in Hc'.
  - case_match; tame.
Qed.

Lemma detail_tame now diff lines : print_detail use_color items now diff e = Ok lines → Forall tame lines.
Proof.
  intros (first & H1 & (lst & H2 & (ago & H3 & (age & H4 & (alerts & H5 & (tl & H6 & <-%Ok_inj)%exc_bind_inv)%exc_bind_inv)%exc_bind_inv)%exc_bind_inv)%exc_bind_inv)%exc_bind_inv.
  pose proof (t_id e He). pose proof (t_ip e He). tame; [by apply alerts_tame|apply observations_tame|apply diff_tame|by eapply timeline_tame].
Qed.

Lemma tame_plain s : use_color = false → tame s → Forall shown s.
Proof. intros Hc. induction 1; [constructor|by constructor|congruence]. Qed.
End views.


(** A user name that would clear the screen, a command that would set the window's title. *)
Definition hostile : engagement :=
  mk_engagement "e1"%py "\x1b[2Jroot"%py "10.0.0.9"%py (of_int 1000) (of_int 1060) 1 "/"%py {[ "ran_sudo"%py := VBool true ]}
    [mk_log "e1"%py "\x1b[2Jroot"%py "10.0.0.9"%py (of_int 1000) (of_int 1060) ∅ [] [mk_command (of_int 1001) "echo \x1b]0;x\x07"%py "llm"%py []] VNone 0]
    (mk_vfs_dict None None None None).

Lemma hostile_trusted : trusted hostile.
Proof.
  split; try (apply shown_const; vm_compute; reflexivity).
  - by intros a n Ha%elem_of_nil.
  - by intros a Ha%elem_of_nil.
  - intros c Hc. apply list_elem_of_singleton in Hc as ->. apply shown_const. vm_compute. reflexivity.
  - constructor.
  - intros k [v Hk]. unfold hostile in Hk. cbn [e_observed] in Hk. apply lookup_singleton_Some in Hk as [<- _]. apply shown_const. vm_compute. reflexivity.
Qed.

