(* ===== verification/DiffProps.v ===== *)
(** The diff of tools/audit.py against the file system that plenith/session.py plants: what it
    calls the baseline is what a new engagement starts with, so its lines are the attacker's. *)

From S2P Require Import Prelude PyStr Posix Vfs Regex Float Json CounterAI Synthetic Session Logs Iocs.

Definition SYSTEM : list str := ["/etc/passwd"; "/etc/group"; "/etc/hostname"]%py.

(** The path a listing entry is planted at. *)
Definition planted_path (h name : str) : str :=
  let full := h ++ "/"%py ++ name in if decide (name ∈ known_dirs) then full ++ KEEP else full.

Section planted.
Context {G : Type} `{Random G}.

Definition token_files (p : Persona) (eid : str) : list (str * str) := (honeytoken_files (seeded eid : G) p).1.
Definition planted (p : Persona) (eid : str) : list str :=
  map fst (token_files p eid) ++ map (planted_path (home p)) (home_listing p).

(** A persona file whose home and listing spell canonical paths, away from the system files. *)
Definition tidy (p : Persona) (eid : str) : Prop :=
  Forall (λ f, abs_path f ∧ no_backslash f ∧ f ∉ SYSTEM) (planted p eid).

(** The planted files [v] and the baseline the diff computes: equal but for the markers of
    directories that already held a planted file. *)
Record agree {R} (v : vfs R) (base : gmap str str) : Prop := {
  agree_deleted : _deleted v = ∅;
  agree_sub : ∀ q c : str, _files v !! q = Some c → base !! q = Some c;
  agree_sup : ∀ q c : str, base !! q = Some c → _files v !! q = Some c ∨ (endswith q KEEP = true ∧ c = [])
}.

Lemma init_agree seeds : Forall (λ f : str * str, abs_path f.1 ∧ no_backslash f.1) seeds →
  agree (@init_vfs renderer seeds) (foldl (λ m pc, <[pc.1 := pc.2]> m) (∅ : gmap str str) seeds).
Proof.
  intros Hs. assert (E : ∀ (v : vfs renderer) m, _files v = m → _deleted v = ∅ →
    let v' := foldl (λ v pc, let c := _canon pc.1 None None in mk_vfs (<[c := pc.2]> (_files v)) (<[c := pc.2]> (_baseline v)) ∅ ∅ ∅) v seeds in
    _files v' = foldl (λ m pc, <[pc.1 := pc.2]> m) m seeds ∧ _deleted v' = ∅).
  { induction Hs as [|[f c] seeds [Ha Hb] _ IH]; intros v m Hv Hd; cbn [foldl]; [done|].
    apply IH; [|done]. cbn [_files fst snd]. cbn in Ha, Hb. by rewrite canon_id, Hv. }
  destruct (E empty_vfs ∅ eq_refl eq_refl) as [Hf Hd]. change (_files (@init_vfs renderer seeds) = foldl (λ m pc, <[pc.1 := pc.2]> m) ∅ seeds) in Hf.
  split; [exact Hd|..]; rewrite Hf; auto.
Qed.

Definition plant (base : gmap str str) (f : str) : gmap str str :=
  match base !! f with Some _ => base | None => <[f := []]> base end.

Lemma placeholder_plants h base name : placeholder h base name = plant base (planted_path h name).
Proof. done. Qed.

Lemma agree_present {R} (v : vfs R) base (f : str) : is_Some (_files v !! f) → agree v base → agree v (plant base f).
Proof. intros [c Hc] Ha. unfold plant. by rewrite (agree_sub _ _ Ha _ _ Hc). Qed.

Lemma agree_marker {R} (v : vfs R) base (f : str) : endswith f KEEP = true → agree v base → agree v (plant base f).
Proof.
  intros Hf Ha. unfold plant. destruct (base !! f) eqn:E; [done|]. destruct Ha as [Hd Hsub Hsup]. split; [done|..].
  - intros q c Hq. rewrite lookup_insert_ne; [auto|]. intros <-. apply Hsub in Hq. by rewrite E in Hq.
  - intros q c. destruct (decide (f = q)) as [<-|Hne]; [rewrite lookup_insert_eq; intros [= <-]; by right|].
    rewrite lookup_insert_ne by done. auto.
Qed.

Lemma agree_write (v : vfs renderer) base (f : str) h : abs_path f → no_backslash f → _files v !! f = None →
  agree v base → agree (write f [] None h false false v) (plant base f).
Proof.
  intros Ha Hb Hf [Hd Hsub Hsup]. unfold write. rewrite canon_id by done.
  assert (Hp : plant base f = <[f := []]> base).
  { unfold plant. destruct (base !! f) as [c|] eqn:E; [|done]. destruct (Hsup _ _ E) as [E2|[_ ->]]; [by rewrite Hf in E2|].
    symmetry. by apply insert_id. }
  rewrite Hp. split; cbn [_deleted _files].
  - rewrite Hd. set_solver.
  - intros q c. destruct (decide (f = q)) as [<-|Hne]; [by rewrite !lookup_insert_eq|]. rewrite !lookup_insert_ne by done. auto.
  - intros q c. destruct (decide (f = q)) as [<-|Hne]; [rewrite !lookup_insert_eq; auto|]. rewrite !lookup_insert_ne by done. auto.
Qed.

Lemma seed_step s base name :
  abs_path (planted_path (home (persona s)) name) → no_backslash (planted_path (home (persona s)) name) →
  agree (session_vfs s) base →
  agree (session_vfs (seed_listing_entry s name)) (placeholder (home (persona s)) base name).
Proof.
  intros Ha Hb Hag. rewrite placeholder_plants. unfold seed_listing_entry, planted_path in *. cbv zeta in *.
  set (full := home (persona s) ++ "/"%py ++ name) in *. change (full ++ "/.keep"%py) with (full ++ KEEP).
  assert (Habsent : ∀ f : str, f ∉ live_paths (session_vfs s) → _files (session_vfs s) !! f = None).
  { intros f Hf. apply eq_None_not_Some. intros Hs. apply Hf, live_paths_elem. split; [done|]. rewrite (agree_deleted _ _ Hag). set_solver. }
  destruct (decide (name ∈ known_dirs)).
  - destruct (existsb _ _) eqn:E.
    + apply agree_marker; [|done]. apply endswith_spec. by exists full.
    + apply agree_write; [done..| |done]. apply Habsent. intros Hl. apply Bool.not_true_iff_false in E. apply E, existsb_exists.
      exists (full ++ KEEP). split; [by apply list_elem_of_In|]. apply startswith_spec. exists ".keep"%py. by rewrite <- app_assoc.
  - unfold exists_. rewrite canon_id by done. case_bool_decide as E; [apply agree_present; tauto|].
    apply agree_write; [done..| |done]. apply Habsent. rewrite live_paths_elem. exact E.
Qed.

Lemma seed_entry_persona s name : persona (seed_listing_entry s name) = persona s.
Proof. unfold seed_listing_entry. by repeat case_match. Qed.

Lemma seed_listing_agree l s base h : home (persona s) = h →
  Forall (λ f, abs_path f ∧ no_backslash f) (map (planted_path h) l) → agree (session_vfs s) base →
  agree (session_vfs (foldl seed_listing_entry s l)) (foldl (placeholder h) base l)
  ∧ persona (foldl seed_listing_entry s l) = persona s.
Proof.
  revert s base. induction l as [|name l IH]; intros s base Hh Hl Ha; cbn [foldl]; [done|].
  apply Forall_cons in Hl as [[H1 H2] Hl]. subst h.
  destruct (IH (seed_listing_entry s name) (placeholder (home (persona s)) base name)) as [E1 E2];
    [by rewrite seed_entry_persona|done|by apply seed_step|]. by rewrite E2, seed_entry_persona.
Qed.

(** [q] is left as it was, and nothing is tombstoned. *)
Definition steady (q : str) (s s' : Session) : Prop :=
  _files (session_vfs s') !! q = _files (session_vfs s) !! q
  ∧ (_deleted (session_vfs s) = ∅ → _deleted (session_vfs s') = ∅).

#[local] Instance steady_preorder q : PreOrder (steady q).
Proof. split; [done|]. intros a b c [E1 D1] [E2 D2]. split; [congruence|auto]. Qed.

Lemma seed_file_steady h path content s (q : str) : abs_path path → no_backslash path → q ≠ path →
  steady q s (seed_file h path content s).
Proof.
  intros Ha Hb Hq. unfold steady, seed_file, write. rewrite canon_id by done. cbn. rewrite lookup_insert_ne by done. split; [done|set_solver].
Qed.

Lemma system_canonical f : f ∈ SYSTEM → abs_path f ∧ no_backslash f.
Proof.
  intros Hf. assert (Hg : Forall good_comp ["etc"; "passwd"; "group"; "hostname"]%py) by (repeat constructor; vm_compute; set_solver).
  rewrite !Forall_cons in Hg. destruct Hg as (He & Hp & Hg & Hh & _).
  repeat (apply elem_of_cons in Hf as [->|Hf]); [..|by apply elem_of_nil in Hf]; (split; [|vm_compute; set_solver]); exists 1.
  - exists ["etc"; "passwd"]%py. split; [by left|]. split; [by repeat apply Forall_cons_2|done].
  - exists ["etc"; "group"]%py. split; [by left|]. split; [by repeat apply Forall_cons_2|done].
  - exists ["etc"; "hostname"]%py. split; [by left|]. split; [by repeat apply Forall_cons_2|done].
Qed.

Lemma system_steady s (q : str) : q ∉ SYSTEM → steady q s (_seed_system_files s).
Proof.
  intros Hq. assert (Hseed : ∀ f content s, f ∈ SYSTEM → steady q s (seed_file None f content s)).
  { intros f content s' Hf. destruct (system_canonical f Hf). apply seed_file_steady; [done..|]. by intros ->. }
  unfold _seed_system_files. destruct (fleet s); [|reflexivity].
  assert (Hin : Forall (λ f, f ∈ SYSTEM) SYSTEM) by (by apply Forall_forall). unfold SYSTEM at 2 in Hin. rewrite !Forall_cons in Hin. destruct Hin as (H1 & H2 & H3 & _).
  etransitivity; [|by apply Hseed]. etransitivity; [by apply (Hseed "/etc/passwd"%py)|]. etransitivity; [by apply (Hseed "/etc/group"%py)|].
  unfold _register_dynamic_renderers. by destruct (fleet _).
Qed.

(** What a new connection finds. *)
Lemma fresh_files id uuid user ip p start bot rot s :
  connect (G := G) id uuid user ip p start bot rot None = Ok s → tidy p uuid →
  ∃ v : vfs renderer, agree v (baseline_files (G := G) p uuid) ∧ _deleted (session_vfs s) = ∅ ∧
       ∀ q : str, q ∉ SYSTEM → _files (session_vfs s) !! q = _files v !! q.
Proof.
  unfold connect. intros <-%Ok_inj Ht. unfold tidy, planted in Ht. apply Forall_app in Ht as [Ht Hl].
  set (s0 := mk_session _ _ _ _ _ _ _ _ _ _ _ _ _ _ _ _ _ _ _).
  destruct (seed_listing_agree (home_listing p) s0 (foldl (λ m pc, <[pc.1 := pc.2]> m) ∅ (token_files p uuid)) (home p)) as [Ha _]; [done|..].
  - eapply Forall_impl; [exact Hl|]. by intros f (? & ? & _).
  - apply (init_agree (token_files p uuid)). rewrite Forall_map in Ht. eapply Forall_impl; [exact Ht|]. by intros f (? & ? & _).
  - exists (session_vfs (_seed_persona_listing s0)). split; [exact Ha|]. split.
    + apply (system_steady (_seed_persona_listing s0) [] ltac:(vm_compute; set_solver)). exact (agree_deleted _ _ Ha).
    + intros q Hq. apply (system_steady _ q Hq).
Qed.

(** ** The diff *)

(** The line about a path, if there is one. *)
Definition report (base : gmap str str) (v : vfs renderer) (q : str) : option str :=
  match base !! q with
  | Some b => old_line (sorted_set (_deleted v)) (_files v) q b
  | None => match _files v !! q with Some c => new_line q c | None => None end
  end.

Lemma changes_elem base v x : x ∈ changes base (Vfs.to_dict v) ↔ ∃ q, report base v q = Some x.
Proof.
  unfold changes, report. cbn [Vfs.to_dict d_files d_deleted default from_option]. unfold id. cbv zeta.
  rewrite elem_of_app, !list_elem_of_omap. setoid_rewrite sorted_keys_elem. split.
  - intros [(q & [c Hc] & Hq)|(q & [c Hc] & Hq)]; exists q.
    + apply map_lookup_filter_Some in Hc as [Hc Hb]. cbn in Hb. cbn in Hq. rewrite Hc in Hq. by rewrite Hb, Hc.
    + cbn in Hq. rewrite Hc in Hq. by rewrite Hc.
  - intros [q Hq]. destruct (base !! q) as [b|] eqn:Hb.
    + right. exists q. split; [by exists b|]. by rewrite Hb.
    + left. exists q. destruct (_files v !! q) as [c|] eqn:Hc; [|done]. split; [|done].
      exists c. apply map_lookup_filter_Some. done.
Qed.

Lemma silent_diff base v : (∀ q, report base v q = None) → diff_of base (Vfs.to_dict v) = [NO_CHANGES].
Proof.
  intros Hn. unfold diff_of. destruct (changes base _) as [|x l] eqn:E; [done|].
  destruct (proj1 (changes_elem base v x)) as [q Hq]; [rewrite E; by left|]. by rewrite Hn in Hq.
Qed.

Lemma diff_lines base v line : line ∈ diff_of base (Vfs.to_dict v) →
  line = NO_CHANGES ∨ ∃ q, report base v q = Some line.
Proof.
  unfold diff_of. rewrite <- changes_elem. destruct (changes base _); [intros ->%list_elem_of_singleton; by left|by right].
Qed.

Lemma diff_reports base v q line : report base v q = Some line → line ∈ diff_of base (Vfs.to_dict v).
Proof.
  intros Hq. assert (Hl : line ∈ changes base (Vfs.to_dict v)) by (apply changes_elem; by exists q).
  unfold diff_of. destruct (changes base _); [by apply elem_of_nil in Hl|done].
Qed.

(** The paths the diff never reports as new. *)
Definition exempt (q : str) : bool := endswith q KEEP || existsb (startswith q) ["/etc/"; "/var/log/"]%py.

Lemma exempt_system (q : str) : exempt q = false → q ∉ SYSTEM.
Proof.
  intros He Hq. repeat (apply elem_of_cons in Hq as [->|Hq]; [vm_compute in He; discriminate He|]). by apply elem_of_nil in Hq.
Qed.

(** [q] is not as the connection [s] found it. *)
Definition touched (s : Session) (v : vfs renderer) (q : str) : Prop :=
  match _files (session_vfs s) !! q with
  | Some b => q ∈ _deleted v ∨ ∃ now, _files v !! q = Some now ∧ now ≠ b
  | None => is_Some (_files v !! q)
  end.

Lemma report_touched base s v q : exempt q = false → base !! q = _files (session_vfs s) !! q →
  is_Some (report base v q) ↔ touched s v q.
Proof.
  intros He Hb. unfold report, touched. rewrite Hb. destruct (_files (session_vfs s) !! q) as [b|].
  - unfold old_line. case_decide as Hd; rewrite sorted_set_elem in Hd; [split; [by left|by eexists]|].
    destruct (_files v !! q) as [now|]; [|split; [by intros []|naive_solver]].
    case_decide as Hn; [split; [by intros []|naive_solver]|].
    destruct (_ && _) eqn:E; [|split; [right; by exists now|by eexists]]. exfalso.
    apply andb_true_iff in E as [Eb%Nat.eqb_eq%nil_length_inv En%Nat.eqb_eq%nil_length_inv]. congruence.
  - destruct (_files v !! q) as [c|]; [|split; by intros []].
    unfold new_line. unfold exempt in He. rewrite He. split; [by exists c|by eexists].
Qed.

Lemma fresh_baseline id uuid user ip p start bot rot s :
  connect (G := G) id uuid user ip p start bot rot None = Ok s → tidy p uuid →
  ∀ q : str, exempt q = false → baseline_files (G := G) p uuid !! q = _files (session_vfs s) !! q.
Proof.
  intros Hs Ht q Hq. destruct (fresh_files _ _ _ _ _ _ _ _ _ Hs Ht) as (v & [_ Hsub Hsup] & _ & Hf).
  rewrite (Hf q) by by apply exempt_system. destruct (_files v !! q) as [c|] eqn:E; [by apply Hsub|].
  destruct (baseline_files p uuid !! q) as [c|] eqn:Eb; [|reflexivity]. destruct (Hsup _ _ Eb) as [E'|[Hk _]]; [by rewrite E in E'|].
  unfold exempt in Hq. by rewrite Hk in Hq.
Qed.

Lemma foldl_keys {A} (f : gmap str str → A → gmap str str) (key : A → str) l :
  (∀ m x (q : str), is_Some (f m x !! q) → is_Some (m !! q) ∨ q = key x) →
  ∀ m (q : str), is_Some (foldl f m l !! q) → is_Some (m !! q) ∨ q ∈ map key l.
Proof.
  intros Hf. induction l as [|x l IH]; intros m q Hq; cbn [foldl map] in *; [by left|].
  destruct (IH _ _ Hq) as [H'|H']; [|right; by right]. apply Hf in H' as [H'| ->]; [by left|right; by left].
Qed.

Lemma baseline_planted p eid (q : str) : is_Some (baseline_files (G := G) p eid !! q) → q ∈ planted p eid.
Proof.
  unfold baseline_files, planted. intros Hq. apply elem_of_app.
  apply (foldl_keys _ (planted_path (home p))) in Hq as [Hq|Hq]; [left|by right|].
  - apply (foldl_keys _ fst) in Hq as [[c Hc]|Hq]; [by rewrite lookup_empty in Hc|done|].
    intros m x k [c Hk]. destruct (decide (x.1 = k)) as [<-|Hne]; [by right|]. left. rewrite lookup_insert_ne in Hk by done. by exists c.
  - intros m x k. rewrite placeholder_plants. unfold plant. case_match; [by left|]. intros [c Hk].
    destruct (decide (planted_path (home p) x = k)) as [<-|Hne]; [by right|]. left. rewrite lookup_insert_ne in Hk by done. by exists c.
Qed.

(** A fresh session has no line. *)
Lemma fresh_silent id uuid user ip p start bot rot s :
  connect (G := G) id uuid user ip p start bot rot None = Ok s → tidy p uuid →
  ∀ q, report (baseline_files (G := G) p uuid) (session_vfs s) q = None.
Proof.
  intros Hs Ht q. destruct (fresh_files _ _ _ _ _ _ _ _ _ Hs Ht) as (v & [_ Hsub Hsup] & Hd & Hf).
  unfold report, old_line. rewrite Hd. destruct (decide (q ∈ SYSTEM)) as [Hq|Hq].
  - destruct (baseline_files p uuid !! q) as [b|] eqn:Eb.
    + exfalso. apply (proj1 (Forall_forall _ _) Ht q); [apply baseline_planted; by exists b|done].
    + case_match; [|done]. unfold new_line.
      repeat (apply elem_of_cons in Hq as [->|Hq]; [done|]). by apply elem_of_nil in Hq.
  - rewrite (Hf q Hq). destruct (baseline_files p uuid !! q) as [b|] eqn:Eb.
    + change (sorted_set ∅) with (@nil str). rewrite decide_False by set_solver.
      destruct (Hsup _ _ Eb) as [Ev|[_ ->]]; [rewrite Ev; by rewrite decide_True|].
      destruct (_files v !! q) as [c|] eqn:Ev; [|done]. apply Hsub in Ev. rewrite Eb in Ev. injection Ev as <-. by rewrite decide_True.
    + destruct (_files v !! q) as [c|] eqn:Ev; [|done]. apply Hsub in Ev. by rewrite Eb in Ev.
Qed.

End planted.

(** The demonstration session, and the same one after the attacker drops a payload, edits a credential
    and removes the shell history. *)
Definition demo_engagement (v : vfs renderer) : engagement :=
  mk_engagement "e1"%py "jdoe"%py "10.0.0.9"%py f0 f0 1 "/"%py ∅ [] (Vfs.to_dict v).
Definition tampered_vfs : vfs renderer :=
  unlink "~/.bash_history"%py None (Some "/home/jdoe"%py)
    (write "/home/jdoe/.aws/config"%py "x"%py None None false true
       (write "/tmp/x.sh"%py "id"%py None None false true (session_vfs demo))).
Definition demo_yaml (user : str) : option Persona := if decide (user = "jdoe"%py) then Some jdoe else None.

Lemma canonical_abs (f : str) : startswith f [SLASH] = true → normpath f = f → abs_path f.
Proof. intros Hs Hn. rewrite <- Hn. by apply normpath_abs. Qed.

Lemma demo_tidy : tidy (G := unit) jdoe "e1"%py.
Proof.
  assert (Hb : forallb (λ f, startswith f [SLASH] && bool_decide (normpath f = f) && bool_decide (BACKSLASH ∉ f) && bool_decide (f ∉ SYSTEM))
                 (planted (G := unit) jdoe "e1"%py) = true) by (vm_compute; reflexivity).
  apply Forall_forall. intros f Hf. rewrite forallb_forall in Hb. specialize (Hb f (proj1 (list_elem_of_In _ _) Hf)).
  rewrite !andb_true_iff, !bool_decide_eq_true in Hb. destruct Hb as [[[Hs Hn] Hbs] Hsys].
  split; [by apply canonical_abs|]. by split.
Qed.

