(* ===== verification/VerifyChain.v ===== *)
(** tools/verify_chain.py: the nightly check of the stored logs, and what its exit code promises. *)

From S2P Require Import Prelude PyStr Hash Float Json AuditChain Logs Backup Snapshots AuditViews.

#[local] Open Scope exc_scope.

Definition EXIT_OK : Z := 0.
Definition EXIT_BROKEN : Z := 1.
Definition EXIT_BAD_ARGS : Z := 2.

(** ** The files *)

(** What reading and parsing a file gives; [Logged] a dict whose actions, if any, are a list of dicts. *)
Inductive contents :=
| Unreadable (why : str)
| NotUtf8
| InvalidJson (why : str)
| OtherJson
| Logged (sd : session_dict).

(** A target: a file, or the paths [rglob] finds below a directory, each with its parts. *)
Inductive target :=
| Missing
| TFile (c : contents)
| TDir (found : list (list str * contents)).

Fixpoint parts_before (p q : list str) : bool :=
  match p, q with
  | [], [] => false
  | [], _ => true
  | _, [] => false
  | a :: p, b :: q => if decide (a = b) then parts_before p q else str_leb a b
  end.

Definition file_name (parts : list str) : str := List.last parts [].
Definition globbed (parts : list str) : bool := endswith (file_name parts) ".json"%py && negb (startswith (file_name parts) "."%py).
Definition path_of (root : str) (parts : list str) : str := join "/"%py (root :: parts).

Definition _walk_files (root : str) (t : target) : list (str * contents) :=
  match t with
  | Missing => []
  | TFile c => [(root, c)]
  | TDir found => map (λ f, (path_of root f.1, f.2))
                    (stable_sort (λ a b, parts_before a.1 b.1) (List.filter (λ f, globbed f.1) found))
  end.

(** ** One file *)

Inductive status := SOk | SLegacy | SBroken | SUnreadable | SInvalidJson | SInvalidShape.
#[export] Instance status_eq_dec : EqDecision status.
Proof. solve_decision. Defined.
Definition status_name (s : status) : str :=
  match s with SOk => "ok" | SLegacy => "legacy" | SBroken => "broken" | SUnreadable => "unreadable"
             | SInvalidJson => "invalid_json" | SInvalidShape => "invalid_shape" end%py.

(** The keys a verified file adds. *)
Record verified := mk_verified { v_engagement : pyval; v_host : pyval; v_user : pyval; v_length : nat; v_break_at : option nat }.
Record record := mk_record {
  r_path : str; r_status : status; r_ok : bool; r_legacy : bool; r_reason : option str; r_verified : option verified }.

Definition get_field (sd : session_dict) (k : str) : pyval := default (VStr "?"%py) (sd_fields sd !! k).

Definition status_of (r : ChainResult) : status :=
  if cr_ok r && negb (cr_legacy r) then SOk else if cr_legacy r then SLegacy else SBroken.

Definition _verify_one (f : str * contents) : exc record :=
  let bad s why := Ok (mk_record f.1 s false false (Some why) None) in
  match f.2 with
  | Unreadable why => bad SUnreadable why
  | NotUtf8 => Raise UnicodeDecodeError
  | InvalidJson why => bad SInvalidJson why
  | OtherJson => bad SInvalidShape "expected dict at top level"%py
  | Logged sd =>
      let result := verify_session sd in
      Ok (mk_record f.1 (status_of result) (cr_ok result) (cr_legacy result) (cr_reason result)
            (Some (mk_verified (get_field sd "engagement_id"%py) (get_field sd "source_ip"%py) (get_field sd "claimed_user"%py)
                     (cr_length result) (cr_break_at result))))
  end.

(** ** Reports *)

Definition rank (s : status) : nat := match s with SLegacy => 1 | SOk => 2 | _ => 0 end.
Definition worse_first (a b : record) : bool :=
  (rank (r_status a) <? rank (r_status b))
  || (rank (r_status a) =? rank (r_status b)) && negb (bool_decide (r_path a = r_path b)) && str_leb (r_path a) (r_path b).

Definition has_status (s : status) (r : record) : bool := bool_decide (r_status r = s).
Definition count (f : record → bool) (rs : list record) : Z := Z.of_nat (length (List.filter f rs)).

(** [f"{eng:<38}"] of [eng[:38]]: a value that is not a string has no such format. *)
Definition engagement_cell (r : record) : exc str :=
  match v_engagement <$> r_verified r with
  | None => Ok (ljust 38 "?"%py)
  | Some (VStr s) => Ok (ljust 38 (take 38 s))
  | Some _ => Raise (TypeError "unsupported format string"%py)
  end.

Definition extra_bits (r : record) : list str :=
  (match r_verified r with Some (mk_verified _ _ _ _ (Some i)) => ["break_at="%py ++ str_of_Z (Z.of_nat i)] | _ => [] end)
  ++ match r_reason r with Some ((_ :: _) as why) => ["reason="%py ++ why] | _ => [] end.

Definition row_lines (r : record) : exc (list str) :=
  let* eng := engagement_cell r in
  let len := match r_verified r with Some v => v_length v | None => 0 end in
  let line := ljust 8 (upper (status_name (r_status r))) ++ " "%py ++ rjust 4 (str_of_Z (Z.of_nat len)) ++ " "%py ++ eng ++ " "%py ++ r_path r in
  Ok (line :: if r_ok r || has_status SLegacy r then []
              else match extra_bits r with [] => [] | bits => ["         └── "%py ++ join " | "%py bits] end).

Definition _render_table (allow_legacy : bool) (records : list record) : exc (list str * Z) :=
  match records with
  | [] => Ok (["(no engagement logs found)"%py], EXIT_OK)
  | _ =>
      let records := stable_sort worse_first records in
      let n_ok := count (has_status SOk) records in
      let n_legacy := count (has_status SLegacy) records in
      let n_bad := (Z.of_nat (length records) - n_ok - n_legacy)%Z in
      let width_path := max 20 (min 70 (foldl max 0 (map (λ r, length (r_path r)) records))) in
      let* rows := exc_map row_lines records in
      let lines := [ljust 8 "STATUS"%py ++ " "%py ++ rjust 4 "LEN"%py ++ " "%py ++ ljust 38 "ENGAGEMENT"%py ++ " PATH"%py;
                    repeat 45%N (8 + 1 + 4 + 1 + 38 + 1 + min width_path 70)]
                   ++ concat rows
                   ++ [[]; "Summary: "%py ++ str_of_Z n_ok ++ " OK, "%py ++ str_of_Z n_legacy ++ " LEGACY, "%py ++ str_of_Z n_bad
                           ++ " BROKEN (of "%py ++ str_of_Z (Z.of_nat (length records)) ++ " log file(s))"%py] in
      Ok (if (0 <? n_bad)%Z then (lines, EXIT_BROKEN)
          else if (0 <? n_legacy)%Z && negb allow_legacy then
            (lines ++ [[]; "Failing because legacy (un-chained) logs are present and --no-allow-legacy was passed."%py], EXIT_BROKEN)
          else (lines, EXIT_OK))
  end.

Definition opt_val {A} (f : A → pyval) (o : option A) : pyval := match o with Some a => f a | None => VNone end.

Definition record_dict (r : record) : pyval := VDict (
  [("path", VStr (r_path r))]
  ++ match r_verified r with
     | Some v => [("engagement", v_engagement v); ("host", v_host v); ("user", v_user v); ("status", VStr (status_name (r_status r)));
                  ("ok", VBool (r_ok r)); ("legacy", VBool (r_legacy r)); ("length", VInt (Z.of_nat (v_length v)));
                  ("break_at", opt_val (λ i, VInt (Z.of_nat i)) (v_break_at v)); ("reason", opt_val VStr (r_reason r))]
     | None => [("status", VStr (status_name (r_status r))); ("reason", opt_val VStr (r_reason r));
                ("ok", VBool (r_ok r)); ("legacy", VBool (r_legacy r))]
     end)%py.

Definition _render_json (records : list record) : str * Z :=
  let n_bad := count (λ r, negb (r_ok r)) records in
  (pretty 0 (plain (VDict [("total", VInt (Z.of_nat (length records))); ("ok", VInt (count (has_status SOk) records));
                           ("legacy", VInt (count (has_status SLegacy) records)); ("broken", VInt n_bad);
                           ("records", VList (map record_dict records))]%py)),
   if (n_bad =? 0)%Z then EXIT_OK else EXIT_BROKEN).

(** The text printed and the exit code. *)
Definition main (root : str) (t : target) (json no_allow_legacy : bool) : exc (list str * Z) :=
  match t with
  | Missing => Ok (["error: path does not exist: "%py ++ root], EXIT_BAD_ARGS)
  | _ =>
      let* records := exc_map _verify_one (_walk_files root t) in
      if json then Ok (let '(text, code) := _render_json records in ([text], code))
      else _render_table (negb no_allow_legacy) records
  end.

(** ** What the exit code says *)

Lemma exc_map_Forall2 {A B} (f : A → exc B) l r : exc_map f l = Ok r → Forall2 (λ a b, f a = Ok b) l r.
Proof.
  revert r. induction l as [|a l IH]; intros r; cbn [exc_map]; [intros <-%Ok_inj; constructor|].
  intros (b & Hb & (bs & Hbs & <-%Ok_inj)%exc_bind_ok)%exc_bind_ok. constructor; auto.
Qed.

Lemma count_perm f rs rs' : rs ≡ₚ rs' → count f rs = count f rs'.
Proof. intros Hp. unfold count. induction Hp as [|x l l' _ IH|x y l|]; cbn; repeat case_match; cbn in *; lia. Qed.

Lemma count_none f rs : count f rs = 0%Z ↔ Forall (λ r, f r = false) rs.
Proof.
  unfold count. induction rs as [|r rs IH]; cbn; [split; [constructor|done]|]. rewrite Forall_cons, <- IH.
  destruct (f r); cbn; [split; [lia|by intros []]|naive_solver].
Qed.

(** Three statuses are disjoint, so the counts add up to the number of records. *)
Lemma counts_sound rs : (Z.of_nat (length rs) - count (has_status SOk) rs - count (has_status SLegacy) rs <= 0)%Z →
  (count (has_status SLegacy) rs <= 0)%Z → Forall (λ r, r_status r = SOk) rs.
Proof.
  unfold count, has_status. induction rs as [|r rs IH]; cbn; [constructor|].
  assert (Hb : ∀ s, length (List.filter (λ r, bool_decide (r_status r = s)) rs) ≤ length rs).
  { intros s. clear. induction rs as [|r rs IH]; cbn; [done|]. case_bool_decide; cbn; lia. }
  assert (Ht : length (List.filter (λ r, bool_decide (r_status r = SOk)) rs) + length (List.filter (λ r, bool_decide (r_status r = SLegacy)) rs) ≤ length rs).
  { clear. induction rs as [|r rs IH]; cbn; [done|]. repeat case_bool_decide; cbn; try lia. congruence. }
  repeat case_bool_decide; cbn; try congruence; intros; try lia. constructor; [done|]. apply IH; lia.
Qed.

Definition clean (c : contents) : Prop :=
  ∃ sd, c = Logged sd ∧ cr_ok (verify_session sd) = true ∧ cr_legacy (verify_session sd) = false.

Lemma verify_one_clean f r : _verify_one f = Ok r → r_status r = SOk ↔ clean f.2.
Proof.
  unfold _verify_one, clean. destruct f as [path c]; destruct c as [why| |why| |sd]; cbn [fst snd]; try (intros <-%Ok_inj; cbn; split; [done|naive_solver]); [done|].
  intros <-%Ok_inj. cbn [r_status]. unfold status_of. split.
  - destruct (cr_ok _ && _) eqn:E; [|by case_match]. intros _. apply andb_true_iff in E as [E1 E2%negb_true_iff]. by exists sd.
  - by intros (sd' & [= <-] & -> & ->).
Qed.

Lemma counts_complete rs : Forall (λ r, r_status r = SOk) rs →
  count (has_status SOk) rs = Z.of_nat (length rs) ∧ count (has_status SLegacy) rs = 0%Z.
Proof.
  unfold count, has_status. induction 1 as [|r rs Hr _ [IH1 IH2]]; [done|]. cbn. rewrite Hr.
  rewrite bool_decide_eq_true_2, bool_decide_eq_false_2 by done. cbn. lia.
Qed.

Lemma table_exit rs out code : _render_table false rs = Ok (out, code) → code = EXIT_OK ↔ Forall (λ r, r_status r = SOk) rs.
Proof.
  unfold _render_table. destruct rs as [|r0 rs0] eqn:Ers; [intros [= _ <-]; split; [constructor|done]|]. rewrite <- Ers. clear Ers r0 rs0. cbv zeta.
  intros (rows & _ & Hc)%exc_bind_ok. pose proof (stable_sort_perm worse_first rs) as Hp.
  rewrite (Permutation_length Hp), !(count_perm _ _ _ Hp), andb_true_r in Hc. apply Ok_inj in Hc.
  destruct (0 <? Z.of_nat _ - _ - _)%Z eqn:E1 in Hc; [|destruct (0 <? _)%Z eqn:E2 in Hc]; apply (f_equal snd) in Hc; cbn [snd] in Hc; subst code.
  - split; [done|]. intros [H1 H2]%counts_complete. lia.
  - split; [done|]. intros [H1 H2]%counts_complete. lia.
  - split; [|done]. intros _. apply counts_sound; lia.
Qed.


(** *** What it does not say *)

Definition bare_log : session_dict := mk_session_dict (Some [{[ "action"%py := VStr "alert"%py ]}]) {[ "engagement_id"%py := VStr "e1"%py ]}.

(** With --json the flag is not looked at: a log without a chain passes. *)
Example json_ignores_strictness :
  (∃ out, main "logs"%py (TFile (Logged bare_log)) false true = Ok (out, EXIT_BROKEN)) ∧
  (∃ out, main "logs"%py (TFile (Logged bare_log)) true true = Ok (out, EXIT_OK)).
Proof. split; eexists; vm_compute; reflexivity. Qed.

(** A file that is not UTF-8 ends the run with a traceback, whatever the others hold. *)
Example undecodable_ends_run :
  main "logs"%py (TDir [(["a.json"], Logged bare_log); (["b.json"], NotUtf8)]%py) false false = Raise UnicodeDecodeError.
Proof. vm_compute. reflexivity. Qed.

(** A directory without logs passes, so does one whose logs were renamed to hidden files. *)
Example hidden_logs_pass :
  main "logs"%py (TDir [(["host"; ".a.json"], Unreadable "gone")]%py) false true = Ok (["(no engagement logs found)"%py], EXIT_OK).
Proof. vm_compute. reflexivity. Qed.

Definition stamped_log : session_dict :=
  match stamp_session_chain bare_log with Ok sd => sd | Raise _ => bare_log end.

