(* ===== verification/Api.v ===== *)
(** plenith/api/auth.py, plenith/api/server.py and plenith/escalate.py: the REST API over
    the state files.

    The services are the files that the routes change; what the routes only read -- the log
    directory, the state tree, the clock -- is the world of a request.  FastAPI's part, the
    routing, the bearer header and the types of the bodies, is taken as done: a request is a
    route with its parameters, and the token is the presented one, or the empty string. *)

From S2P Require Import Prelude PyStr Glob Hash Float Json Session KillQueue Acks Notes Backup Snapshots Logs Aggregations Ipaddr.

#[local] Open Scope exc_scope.

(** ** plenith/api/auth.py *)

Definition is_ascii (s : str) : bool := forallb (λ c, c <? 128)%N s.

(** [hmac.compare_digest] of two strings. *)
Definition compare_digest (a b : str) : exc bool :=
  if is_ascii a && is_ascii b then Ok (bool_decide (a = b)) else Raise (TypeError "non-ASCII"%py).

(** The lines of a token file that hold tokens. *)
Definition token_lines (text : str) : list str :=
  List.filter (λ t, negb (bool_decide (t = [])) && negb (startswith t "#"%py)) (map strip (splitlines text)).

(** [env], the tokens of the configuration, and the file, when it can be read. *)
Definition _load_tokens_from_config (env : str) (tokens : list str) (token_file : option str) : list str :=
  List.filter (λ t, negb (bool_decide (t = []))) (map strip (split_on 44 env))
  ++ List.filter (λ t, negb (bool_decide (t = []))) (map strip tokens)
  ++ match token_file with Some text => token_lines text | None => [] end.

(** The tokens in the order in which the set is walked. *)
Definition APIAuth (tokens : list str) : list str := List.filter (λ t, negb (bool_decide (t = []))) (remove_dups tokens).

Definition enabled (auth : list str) : bool := negb (bool_decide (auth = [])).

Fixpoint _verify (auth : list str) (presented : str) : exc bool :=
  match auth with
  | [] => Ok false
  | tok :: auth => let* eq := compare_digest tok presented in if eq : bool then Ok true else _verify auth presented
  end.

(** What a route answers besides its body: an HTTP error, or an exception, which is a 500. *)
Inductive refusal := HTTPException (status : Z) | Crash (e : exn).

Definition check (auth : list str) (presented : str) : refusal + option str :=
  if negb (enabled auth) then inr None
  else match presented with
       | [] => inl (HTTPException 401)
       | _ => match _verify auth presented with
              | Ok true => inr (Some presented)
              | Ok false => inl (HTTPException 401)
              | Raise e => inl (Crash e)
              end
       end.

(** ** Summaries *)

Definition _SEVERITY_RANK (s : option str) : nat :=
  default 99 (s ← s; index_of s ["critical"; "high"; "medium"; "info"; "low"]%py 0).

Definition bump_severity (best : nat * option str) (a : gmap str pyval) : nat * option str :=
  let rank := _SEVERITY_RANK (severity_of a) in if rank <? best.1 then (rank, severity_of a) else best.
Definition severity_max (actions : list (gmap str pyval)) : option str := (foldl bump_severity (99, Some "info"%py) actions).2.

Record EngagementSummary := mk_summary {
  s_id : str; s_user : str; s_ip : str; s_first : flt; s_last : flt; s_count : Z; s_severity : option str; s_alerts : nat;
  s_confidence : pyval; s_proven : bool
}.

Definition obs_get (k : str) (e : engagement) : pyval := default VNone (e_observed e !! k).

(** [persona] and [dwell_seconds] are never set on a loaded engagement. *)
Definition _summarize_engagement (e : engagement) : EngagementSummary :=
  let actions := _aggregate_actions e in
  mk_summary (e_id e) (e_user e) (e_ip e) (e_first e) (e_last e) (e_count e) (severity_max actions) (length actions)
    (obs_get "attacker_llm_confidence"%py e) (truthy (obs_get "attacker_llm_proven_via_trap"%py e)).

Definition list_items (v : pyval) : list str :=
  match v with VList l => omap str_value l | VSet s => sorted_set s | _ => [] end.

(** [list(dict.fromkeys(l))]: the first occurrences. *)
Fixpoint fromkeys (seen : list str) (l : list str) : list str :=
  match l with
  | [] => []
  | x :: l => if decide (x ∈ seen) then fromkeys seen l else x :: fromkeys (x :: seen) l
  end.

Definition iocs_extracted (e : engagement) : list str :=
  fromkeys [] (flat_map (λ k, list_items (obs_get k e)) ["dns_exfil_commands"; "credential_files_read"; "decoy_targets"; "tampering_commands"]%py).

Record EngagementDetail := mk_detail { d_engagement : engagement; d_actions : list (gmap str pyval); d_commands : list command; d_iocs : list str }.
Definition _detail_engagement (e : engagement) : EngagementDetail :=
  mk_detail e (_aggregate_actions e) (_aggregate_commands e) (iocs_extracted e).

(** The fields of an alert, with the defaults of the missing ones. *)
Definition AlertSummary (a : gmap str pyval) : list (str * pyval) :=
  map (λ kd, (kd.1, default kd.2 (a !! kd.1)))
    [("action", VStr "?"); ("severity", VStr "info"); ("rationale", VNone); ("ts_offset_s", VNone); ("triggered_by", VNone);
     ("mitre_technique", VNone); ("mitre_tactic", VNone)]%py.

(** An optional filter: unset and empty let everything pass. *)
Definition passes {A} (o : option (list A)) (f : list A → bool) : bool := match o with Some ((_ :: _) as x) => f x | _ => true end.
Definition at_least (severity : option str) (got : option str) : bool :=
  passes severity (λ want, _SEVERITY_RANK got <=? _SEVERITY_RANK (Some want)).

Definition lists_engagement (user ip severity : option str) (cutoff : option flt) (e : engagement) : bool :=
  passes user (λ u, bool_decide (e_user e = u)) && passes ip (λ i, bool_decide (e_ip e = i))
  && match cutoff with Some c => negb (flt_b (if ftruth (e_last e) then e_last e else f0) c) | None => true end
  && at_least severity (s_severity (_summarize_engagement e)).

Definition lists_alert (severity action : option str) (a : gmap str pyval) : bool :=
  passes action (λ n, match a !! "action"%py with Some (VStr s) => bool_decide (s = n) | _ => false end)
  && at_least severity (severity_of a).

(** The alerts of all engagements that pass, of the engagements whose id has the prefix. *)
Definition alerts_of (es : list engagement) (severity action prefix : option str) : list (list (str * pyval)) :=
  flat_map (λ e, if passes prefix (startswith (e_id e)) then map AlertSummary (List.filter (lists_alert severity action) (_aggregate_actions e)) else []) es.

(** ** plenith/escalate.py *)

Definition sev_rank (s : option str) : nat := default 9 (s ← s; index_of s ["critical"; "high"; "medium"; "info"]%py 0).
Definition more_severe (top : option (gmap str pyval)) (a : gmap str pyval) : option (gmap str pyval) :=
  match top with
  | None => Some a
  | Some t => if sev_rank (severity_of a) <? sev_rank (severity_of t) then Some a else top
  end.
Definition top_action (e : engagement) : option (gmap str pyval) := foldl more_severe None (_aggregate_actions e).

Definition text_of (k : str) (a : gmap str pyval) : str := match a !! k with Some (VStr s) => s | _ => [] end.

Definition build_alert_from_engagement (e : engagement) (tier message : str) : list (str * pyval) :=
  let top := default (list_to_map [("action", VStr "engagement_escalation"); ("severity", VStr "high");
                         ("rationale", VStr ("Operator-initiated " ++ tier ++ " escalation. No automated alerts yet; manual review required."))]%py : gmap str pyval)
               (top_action e) in
  [("action", VStr (or_else (text_of "action" top) "engagement_escalation"));
   ("severity", if decide (tier = "L3") then VStr "critical" else default (VStr "high") (top !! "severity"));
   ("rationale", VStr (strip (message ++ " " ++ text_of "rationale" top)));
   ("ts_offset_s", default (VInt 0) (top !! "ts_offset_s")); ("triggered_by", default (VStr []) (top !! "triggered_by"));
   ("mitre_technique", default VNone (top !! "mitre_technique")); ("mitre_tactic", default VNone (top !! "mitre_tactic"));
   ("source_ip", VStr (e_ip e)); ("claimed_user", VStr (e_user e)); ("hostname", VStr "?"); ("engagement_id", VStr (e_id e));
   ("_escalation_tier", VStr tier)]%py.

(** ** plenith/api/server.py: the routes *)

Record services := mk_services {
  acks_file : acks; notes_file : notes; kill_file : gmap str kill_entry; mfa_dir : gmap str str;
  snapshot_dir : gmap str (list (str * bytes))
}.
Definition set_acks a s := mk_services a (notes_file s) (kill_file s) (mfa_dir s) (snapshot_dir s).
Definition set_notes n s := mk_services (acks_file s) n (kill_file s) (mfa_dir s) (snapshot_dir s).
Definition set_kills k s := mk_services (acks_file s) (notes_file s) k (mfa_dir s) (snapshot_dir s).
Definition set_mfa m s := mk_services (acks_file s) (notes_file s) (kill_file s) m (snapshot_dir s).
Definition set_snapshots d s := mk_services (acks_file s) (notes_file s) (kill_file s) (mfa_dir s) d.

(** What a request reads: the clock in its two forms, a fresh id, the files, and the answers
    of the system. *)
Record reading := mk_reading {
  at_time : time; at_float : flt; fresh_id : str; state_files : list (option (saved * flt)); logs_dir : option log_dir;
  host_logs : hosts; state_tree : tree; mtimes : str → Z; tm_hour : flt → nat; undeletable : str → bool;
  configured : list str  (* the chatops connectors *)
}.

Inductive request :=
| Health
| ListEngagements (user ip severity : option str) (since_seconds : option flt) (limit : nat)
| GetEngagement (prefix : str)
| ListAlerts (severity action prefix : option str) (limit : nat)
| WriteMfaDecision (ip decision : str) (reason : option str)
| BatchAck (ids : list str) (action_name : str) (op_id note : option str)
| AckAlert (eid action_name : str) (op_id note : option str)
| UnackAlert (eid action_name : str)
| ListNotes (eid : str)
| AddNote (eid body : str) (author : option str)
| DeleteNote (eid note_id : str)
| TakeSnapshot (eid : str) (op_id note : option str)
| ListSnapshots (eid : str)
| RequestKill (eid : str) (op_id reason : option str)
| CancelKill (eid : str)
| Escalate (eid tier : str) (message : option str)
| AlertRate (since until : option flt) (bucket_seconds : Z) (severity compare_to : option str)
| AlertTop (since until : option flt) (limit : nat)
| Heatmap (since until : option flt) (host : option str).

Inductive body :=
| BOk
| BEngagements (l : list EngagementSummary) (total : nat)
| BDetail (d : EngagementDetail)
| BAlerts (l : list (list (str * pyval))) (total : nat)
| BDecision (ip decision : str)
| BTally (t : Acks.tally)
| BAck (eid action_name : str) (e : ack_entry)
| BRemoved (b : bool)
| BNotes (eid : str) (l : list note)
| BNote (n : note)
| BSnapshot (r : receipt)
| BSnapshots (l : list str)
| BKill (eid : str) (e : kill_entry)
| BEscalated (alert : list (str * pyval)) (tier : str) (fired : list str)
| BRate (r : rate)
| BTop (l : list top_entry)
| BHeatmap (m : heatmap).

(** The routes without the token check. *)
Definition unauthenticated (r : request) : bool := match r with Health => true | _ => false end.

Definition operator (op_id : option str) : str := or_else (default [] op_id) "anonymous"%py.
Definition text (o : option str) : str := default [] o.

Definition fl (b : exc body) (s : services) : (refusal + body) * services :=
  match b with Ok b => (inr b, s) | Raise e => (inl (Crash e), s) end.

Definition window (w : reading) (back : Z) (since until : option flt) : flt * flt :=
  let until_v := default (at_float w) until in (default (fsub until_v (of_int back)) since, until_v).

Definition decision_text (ip decision : str) (now : time) (reason : option str) : str :=
  "ip="%py ++ ip ++ "\ndecision="%py ++ decision ++ "\nts="%py ++ str_of_Z (now / 1000000) ++ "\n"%py
  ++ match reason with Some ((_ :: _) as r) => "reason="%py ++ r ++ "\n"%py | _ => [] end.

(** [write_mfa_decision]; [Path.glob] refuses a pattern with two stars in a row. *)
Definition write_mfa_decision (ip decision : str) (reason : option str) (w : reading) (s : services) : (refusal + body) * services :=
  if negb (ip_address ip) then (inl (HTTPException 400), s)
  else if negb (bool_decide (decision ∈ ["pass"; "fail"]%py)) then (inl (HTTPException 400), s)
  else
    let pattern := ip ++ ".*"%py in
    if contains pattern "**"%py then (inl (Crash (ValueError "Invalid pattern"%py)), s)
    else
      let left := filter (λ kv, _fnmatch kv.1 pattern = false ∨ undeletable w kv.1 = true) (mfa_dir s) in
      (inr (BDecision ip decision), set_mfa (<[ip ++ "."%py ++ decision := decision_text ip decision (at_time w) reason]> left) s).

Definition load (w : reading) : list engagement := _load_all_engagements (state_files w) (logs_dir w).

(** ** The routes' handlers, which run once the token has been accepted. *)

Abbreviation handler := (reading → services → (refusal + body) * services).

Definition health : handler := λ _ s, (inr BOk, s).

Definition list_engagements (user ip severity : option str) (since_seconds : option flt) (limit : nat) : handler := λ w s,
  let cutoff := fsub (at_float w) <$> since_seconds in
  let l := map _summarize_engagement (List.filter (lists_engagement user ip severity cutoff) (load w)) in
  (inr (BEngagements (take limit l) (length l)), s).

Definition get_engagement (prefix : str) : handler := λ w s,
  match List.filter (λ e, startswith (e_id e) prefix) (load w) with
  | [] => (inl (HTTPException 404), s)
  | [e] => (inr (BDetail (_detail_engagement e)), s)
  | _ => (inl (HTTPException 409), s)
  end.

Definition list_alerts (severity action prefix : option str) (limit : nat) : handler := λ w s,
  let l := alerts_of (load w) severity action prefix in (inr (BAlerts (take limit l) (length l)), s).

Definition batch_ack (ids : list str) (action_name : str) (op_id note : option str) : handler := λ w s,
  match ids with
  | [] => (inl (HTTPException 422), s)
  | _ =>
      match Acks.batch_ack (map (λ i, (i, at_float w)) ids) (Some action_name) (operator op_id) (text note) (acks_file s) with
      | Ok (t, a) => (inr (BTally t), set_acks a s)
      | Raise e => (inl (Crash e), s)
      end
  end.

Definition ack_alert (eid action_name : str) (op_id note : option str) : handler := λ w s,
  let '(e, a) := ack eid action_name (operator op_id) (text note) (at_float w) (acks_file s) in (inr (BAck eid action_name e), set_acks a s).

Definition unack_alert (eid action_name : str) : handler := λ _ s,
  let '(b, a) := unack eid action_name (acks_file s) in (inr (BRemoved b), set_acks a s).

Definition list_notes (eid : str) : handler := λ _ s, (inr (BNotes eid (Notes.list_notes eid (notes_file s))), s).

Definition add_note (eid body : str) (author : option str) : handler := λ w s,
  match Notes.add eid body (operator author) (fresh_id w) (at_time w) (notes_file s) with
  | Ok (n, f) => (inr (BNote n), set_notes f s)
  | Raise (ValueError _) => (inl (HTTPException 422), s)
  | Raise e => (inl (Crash e), s)
  end.

Definition delete_note (eid note_id : str) : handler := λ _ s,
  let '(b, f) := Notes.delete_note eid note_id (notes_file s) in (inr (BRemoved b), set_notes f s).

Definition take_snapshot (eid : str) (op_id note : option str) : handler := λ w s,
  match Snapshots.write eid (operator op_id) (text note) "v1.0.1"%py (at_time w / 1000) (at_float w) (state_tree w) (snapshot_dir s) with
  | Ok (rc, d) => (inr (BSnapshot rc), set_snapshots d s)
  | Raise (ValueError _) => (inl (HTTPException 422), s)
  | Raise e => (inl (Crash e), s)
  end.

Definition list_snapshots (eid : str) : handler := λ w s, (inr (BSnapshots (list_for eid (mtimes w) (snapshot_dir s))), s).

Definition request_kill (eid : str) (op_id reason : option str) : handler := λ w s,
  let '(e, f) := KillQueue.request_kill eid (operator op_id) (text reason) (at_time w) (kill_file s) in (inr (BKill eid e), set_kills f s).

Definition cancel_kill (eid : str) : handler := λ w s,
  let '(b, f) := cancel eid (at_time w) (kill_file s) in (inr (BRemoved b), set_kills f s).

Definition escalate_engagement (eid tier : str) (message : option str) : handler := λ w s,
  match find (λ e, startswith (e_id e) eid) (load w) with
  | None => (inl (HTTPException 404), s)
  | Some e => (inr (BEscalated (build_alert_from_engagement e (or_else tier "L2"%py) (text message)) (or_else tier "L2"%py) (configured w)), s)
  end.

Definition get_alert_rate (since until : option flt) (bucket_seconds : Z) (severity compare_to : option str) : handler := λ w s,
  let '(a, b) := window w 21600 since until in
  fl (let* x := alert_rate (host_logs w) a b bucket_seconds (match severity with Some ((_ :: _) as v) => Some [v] | _ => None end) compare_to in Ok (BRate x)) s.

Definition get_alert_top (since until : option flt) (limit : nat) : handler := λ w s,
  let '(a, b) := window w 86400 since until in fl (let* x := alert_top (host_logs w) a b limit 8 in Ok (BTop x)) s.

Definition get_activity_heatmap (since until : option flt) (host : option str) : handler := λ w s,
  let '(a, b) := window w 86400 since until in fl (let* x := activity_heatmap (tm_hour w) (host_logs w) a b host KAll in Ok (BHeatmap x)) s.

(** The routing. *)
Definition handle (w : reading) (r : request) (s : services) : (refusal + body) * services :=
  match r with
  | Health => health w s
  | ListEngagements user ip severity since_seconds limit => list_engagements user ip severity since_seconds limit w s
  | GetEngagement prefix => get_engagement prefix w s
  | ListAlerts severity action prefix limit => list_alerts severity action prefix limit w s
  | WriteMfaDecision ip decision reason => write_mfa_decision ip decision reason w s
  | BatchAck ids action_name op_id note => batch_ack ids action_name op_id note w s
  | AckAlert eid action_name op_id note => ack_alert eid action_name op_id note w s
  | UnackAlert eid action_name => unack_alert eid action_name w s
  | ListNotes eid => list_notes eid w s
  | AddNote eid body author => add_note eid body author w s
  | DeleteNote eid note_id => delete_note eid note_id w s
  | TakeSnapshot eid op_id note => take_snapshot eid op_id note w s
  | ListSnapshots eid => list_snapshots eid w s
  | RequestKill eid op_id reason => request_kill eid op_id reason w s
  | CancelKill eid => cancel_kill eid w s
  | Escalate eid tier message => escalate_engagement eid tier message w s
  | AlertRate since until bucket_seconds severity compare_to => get_alert_rate since until bucket_seconds severity compare_to w s
  | AlertTop since until limit => get_alert_top since until limit w s
  | Heatmap since until host => get_activity_heatmap since until host w s
  end.

(** [RequestCounters]. *)
Record counters := mk_counters { count : nat; errors : nat }.
Definition hit_counter (status : Z) (c : counters) : counters := mk_counters (S (count c)) (if (400 <=? status)%Z then S (errors c) else errors c).

Definition status_of (o : refusal + body) : Z := match o with inr _ => 200 | inl (HTTPException n) => n | inl (Crash _) => 500 end.

(** A request through the token check and the counting middleware. *)
Definition serve_request (auth : list str) (w : reading) (presented : str) (r : request) (st : services * counters)
    : (refusal + body) * (services * counters) :=
  let '(o, s) := match (if unauthenticated r then inr None else check auth presented) with
                 | inl x => (inl x, st.1)
                 | inr _ => handle w r st.1
                 end in
  (o, (s, hit_counter (status_of o) st.2)).

(** A run of requests: the answers and the final state. *)
Fixpoint serve_all (auth : list str) (l : list (reading * str * request)) (st : services * counters)
    : list (refusal + body) * (services * counters) :=
  match l with
  | [] => ([], st)
  | (w, t, r) :: l =>
      let '(o, st) := serve_request auth w t r st in
      let '(os, st) := serve_all auth l st in (o :: os, st)
  end.
