(* ===== verification/Formats.v ===== *)
(** plenith/connectors/formats.py: alerts as CEF and LEEF lines, syslog frames and JSON
    events.

    An alert has the fields the module documents, each a string but for the offset; a
    field that is absent is [None].  Offsets print as Python prints floats. *)

From S2P Require Import Prelude PyStr Float Json.

Record alert := mk_alert {
  a_action : option str; a_severity : option str; a_rationale : option str; engagement : option str;
  a_source_ip : option str; a_user : option str; a_hostname : option str; ts_offset_s : option flt;
  a_triggered_by : option str; mitre_technique : option str; mitre_tactic : option str;
  mitre_technique_name : option str
}.

(** The tables of scores. *)
Definition _SEVERITY_TO_CEF_SCORE : list (str * Z) :=
  [("critical", 10%Z); ("high", 7%Z); ("medium", 5%Z); ("info", 3%Z); ("low", 2%Z)]%py.
Definition _SEVERITY_TO_SYSLOG_PRI : list (str * Z) :=
  [("critical", 16 * 8 + 2); ("high", 16 * 8 + 3); ("medium", 16 * 8 + 4); ("info", 16 * 8 + 6);
   ("low", 16 * 8 + 6)]%py%Z.

Definition _VENDOR : str := "Plenith".
Definition _PRODUCT : str := "DeceptionPlatform".
Definition _VERSION : str := "1.0".

(** [s.replace(c, t)] for a character [c]. *)
Definition replace (c : N) (t s : str) : str := flat_map (λ x, if (x =? c)%N then t else [x]) s.

Definition BAR : N := 124.
Definition EQUALS : N := 61.

Definition _escape_cef_value (s : str) : str :=
  replace 13 "\\r"%py (replace 10 "\\n"%py (replace EQUALS "\\="%py (replace BAR "\\|"%py (replace BACKSLASH "\\\\"%py s)))).

Definition _escape_cef_header (s : str) : str :=
  replace 13 " "%py (replace 10 " "%py (replace BAR "\\|"%py (replace BACKSLASH "\\\\"%py s))).

(** [str.title]: the letters after a letter in lower case, the others in upper. *)
Fixpoint str_title (after_letter : bool) (s : str) : str :=
  match s with
  | [] => []
  | c :: s' => (if after_letter then lower_char c else upper_char c) :: str_title (is_alpha c) s'
  end.

(** A pair unless the value is missing or empty. *)
Definition present (kv : str * option str) : list (str * str) :=
  match kv.2 with Some ((_ :: _) as v) => [(kv.1, v)] | _ => [] end.

Definition score (severity : str) : Z := default 3%Z (assoc_get severity _SEVERITY_TO_CEF_SCORE).

(** ** CEF *)

Definition cef_header (vendor product version prefix : str) (a : alert) : list str :=
  let action := default "unknown"%py (a_action a) in
  [vendor; product; version; prefix ++ "-"%py ++ action;
   str_title false (replace_char 95 32 action)].

Definition cef_fields (a : alert) : list (str * str) :=
  flat_map present
    [("src", a_source_ip a); ("suser", a_user a); ("dhost", a_hostname a);
     ("act", Some (default "unknown"%py (a_action a))); ("msg", Some (default [] (a_rationale a)));
     ("cs1", engagement a); ("cs1Label", Some "EngagementID"%py);
     ("cs2", a_triggered_by a); ("cs2Label", Some "TriggerCommand"%py);
     ("cn1", float_repr <$> ts_offset_s a); ("cn1Label", Some "SessionOffsetSec"%py);
     ("cs3", mitre_technique a)]%py
  ++ (match mitre_technique a with Some (_ :: _) => [("cs3Label", "MitreTechnique")]%py | _ => [] end).

Definition cef_pair (kv : str * str) : str := kv.1 ++ "="%py ++ _escape_cef_value kv.2.

Definition to_cef (vendor product version prefix : str) (a : alert) : str :=
  join "|"%py ("CEF:0"%py :: map _escape_cef_header (cef_header vendor product version prefix a)
               ++ [str_of_Z (score (default "info"%py (a_severity a)))])
  ++ "|"%py ++ join " "%py (map cef_pair (cef_fields a)).

(** ** LEEF *)

Definition leef_pairs (separator : N) (a : alert) : list (str * str) :=
  let severity := default "info"%py (a_severity a) in
  [("sev", str_of_Z (score severity)); ("severity", severity)]%py
  ++ map (λ kv, (kv.1, replace_char separator 32 kv.2))
       (flat_map present
          [("src", a_source_ip a); ("usrName", a_user a); ("devHost", a_hostname a); ("cat", a_action a);
           ("msg", a_rationale a); ("identSrc", engagement a); ("cmd", a_triggered_by a)]%py)
  ++ flat_map present [("mitreTechnique"%py, mitre_technique a)].

Definition to_leef (vendor product version : str) (separator : N) (a : alert) : str :=
  join "|"%py ["LEEF:2.0"%py; vendor; product; version; default "unknown"%py (a_action a);
               "x"%py ++ hex_digits 2 separator]
  ++ [separator] ++ join [separator] (map (λ kv, kv.1 ++ "="%py ++ kv.2) (leef_pairs separator a)).

(** ** Syslog *)

Inductive body_format := BodyCef | BodyLeef | BodyPlain.

Definition or_str (o : option str) (d : str) : str := match o with Some ((_ :: _) as s) => s | _ => d end.

(** [ts] is the clock as RFC 3339 prints it, [gethostname] the machine's name. *)
Definition to_syslog_5424 (a : alert) (ts gethostname : str) (hostname : option str) (app_name : str)
    (msgid : option str) (f : body_format) : str :=
  let pri := default (22 * 8 + 6)%Z (assoc_get (default "info"%py (a_severity a)) _SEVERITY_TO_SYSLOG_PRI) in
  let host := or_str hostname (or_str (a_hostname a) gethostname) in
  let body := match f with
              | BodyCef => to_cef _VENDOR _PRODUCT _VERSION "MC"%py a
              | BodyLeef => to_leef _VENDOR _PRODUCT _VERSION 9 a
              | BodyPlain => default (default [] (a_action a)) (a_rationale a)
              end in
  "<"%py ++ str_of_Z pri ++ ">1 "%py ++ ts ++ " "%py ++ host ++ " "%py ++ app_name ++ " - "%py
    ++ or_str msgid (default "-"%py (a_action a)) ++ " - "%py ++ body.

(** ** The JSON envelope: an event without nulls *)

Definition json_event (a : alert) : list (str * pyval) :=
  let field k v := match v with Some v => [(k, VStr v)] | None => [] end in
  (field "action" (a_action a) ++ field "severity" (a_severity a) ++ field "rationale" (a_rationale a)
   ++ field "engagement_id" (engagement a) ++ field "source_ip" (a_source_ip a) ++ field "claimed_user" (a_user a)
   ++ field "hostname" (a_hostname a) ++ field "triggered_by" (a_triggered_by a)
   ++ (match ts_offset_s a with Some x => [("ts_offset_s", VFloat x)] | None => [] end)
   ++ match mitre_technique a with
      | Some ((_ :: _) as t) =>
          let null v := match v with Some v => VStr v | None => VNone end in
          [("mitre", VDict [("technique", VStr t); ("tactic", null (mitre_tactic a));
                            ("technique_name", null (mitre_technique_name a))])]
      | _ => []
      end)%py.

Definition to_json_event (a : alert) (ts sourcetype : str) : pyval :=
  VDict [("sourcetype", VStr sourcetype); ("source", VStr "plenith");
         ("host", VStr (default "plenith"%py (a_hostname a))); ("time", VStr ts);
         ("event", VDict (json_event a))]%py.

(** ** What a consumer reads: the fields of a CEF line by the rules of its specification *)

Definition push (p : str) (l : list str) : list str := match l with h :: t => (p ++ h) :: t | [] => [p] end.

(** Split at the separators that no backslash protects. *)
Fixpoint cut (sep : N) (s : str) : list str :=
  match s with
  | [] => [[]]
  | 92%N :: ((c :: r) as r0) => push [92%N; c] (cut sep r)
  | c :: r => if (c =? sep)%N then [] :: cut sep r else push [c] (cut sep r)
  end.

Fixpoint unescape (s : str) : str :=
  match s with
  | 92%N :: ((c :: r) as r0) => (if (c =? 110)%N then 10 else if (c =? 114)%N then 13 else c)%N :: unescape r
  | c :: r => c :: unescape r
  | [] => []
  end.

(** The text before the last space, and the word after it. *)
Fixpoint last_word (s : str) : option (str * str) :=
  match s with
  | [] => None
  | c :: r =>
      match last_word r with
      | Some (v, k) => Some (c :: v, k)
      | None => if (c =? 32)%N then Some ([], r) else None
      end
  end.

(** The pairs of an extension cut at its equals signs: a key is the word before one. *)
Fixpoint read_pairs (key : str) (segments : list str) : option (list (str * str)) :=
  match segments with
  | [] => None
  | [v] => Some [(key, unescape v)]
  | seg :: rest =>
      match last_word seg with
      | Some (v, key') => cons (key, unescape v) <$> read_pairs key' rest
      | None => None
      end
  end.

Definition read_extension (ext : str) : option (list (str * str)) :=
  match cut EQUALS ext with [] => None | key :: segments => read_pairs key segments end.

(** A line: seven header fields and the extension. *)
Definition read_cef (line : str) : option (list str * list (str * str)) :=
  match cut BAR line with
  | [cef; vendor; product; version; signature; name; severity; ext] =>
      pair (map unescape [cef; vendor; product; version; signature; name; severity]) <$> read_extension ext
  | _ => None
  end.

(** ** Escaped text *)

(** Text in which every separator is protected. *)
Inductive sealed (sep : N) : str → Prop :=
| sealed_nil : sealed sep []
| sealed_plain c s : c ≠ BACKSLASH → c ≠ sep → sealed sep s → sealed sep (c :: s)
| sealed_escape c s : sealed sep s → sealed sep (BACKSLASH :: c :: s).

Lemma sealed_app sep a b : sealed sep a → sealed sep b → sealed sep (a ++ b).
Proof. induction 1; intros; cbn; auto using sealed. Qed.

Lemma push_app a b l : push (a ++ b) l = push a (push b l).
Proof. destruct l; cbn; by rewrite ?app_assoc, ?app_nil_r. Qed.

Lemma cut_plain sep c s : c ≠ BACKSLASH → cut sep (c :: s) = if (c =? sep)%N then [] :: cut sep s else push [c] (cut sep s).
Proof.
  intros Hc. unfold BACKSLASH in Hc. destruct c as [|c]; [done|]. do 7 (destruct c as [c|c|]; try done).
Qed.

Lemma cut_escape sep c s : cut sep (BACKSLASH :: c :: s) = push [BACKSLASH; c] (cut sep s).
Proof. reflexivity. Qed.

Lemma push_nonempty p l : push p l ≠ [].
Proof. by destruct l. Qed.

Lemma cut_nonempty sep s : cut sep s ≠ [].
Proof.
  destruct s as [|c s]; [done|]. destruct (decide (c = BACKSLASH)) as [->|Hc].
  - destruct s as [|d s]; [|rewrite cut_escape; apply push_nonempty].
    change (cut sep [BACKSLASH]) with (if (BACKSLASH =? sep)%N then [[]; []] else [[BACKSLASH]]). by destruct (_ =? _)%N.
  - rewrite cut_plain by done. destruct (_ =? _)%N; [done|]. apply push_nonempty.
Qed.

Lemma cut_sealed sep t r : sealed sep t → cut sep (t ++ r) = push t (cut sep r).
Proof.
  induction 1 as [|c s Hc Hsep _ IH|c s _ IH]; cbn [app].
  - pose proof (cut_nonempty sep r). by destruct (cut sep r).
  - rewrite cut_plain by done. apply N.eqb_neq in Hsep as ->. rewrite IH. symmetry. exact (push_app [c] s _).
  - change (cut sep (BACKSLASH :: c :: s ++ r)) with (push [92%N; c] (cut sep (s ++ r))).
    rewrite IH. symmetry. exact (push_app [92%N; c] s _).
Qed.

Lemma cut_join sep ts : sep ≠ BACKSLASH → Forall (sealed sep) ts → ts ≠ [] → cut sep (join [sep] ts) = ts.
Proof.
  intros Hs. induction 1 as [|t ts Ht Hts IH]; [done|]. intros _. destruct ts as [|t' ts].
  - cbn [join]. rewrite <- (app_nil_r t), cut_sealed by done. cbn. by rewrite app_nil_r.
  - change (join [sep] (t :: t' :: ts)) with (t ++ [sep] ++ join [sep] (t' :: ts)). rewrite cut_sealed by done.
    cbn [app]. rewrite cut_plain, N.eqb_refl, IH by done. cbn. by rewrite app_nil_r.
Qed.

Lemma unescape_plain c s : c ≠ BACKSLASH → unescape (c :: s) = c :: unescape s.
Proof. intros Hc. unfold BACKSLASH in Hc. destruct c as [|c]; [done|]. do 7 (destruct c as [c|c|]; try done). Qed.

Lemma unescape_pair c s :
  unescape (BACKSLASH :: c :: s) = (if (c =? 110)%N then 10%N else if (c =? 114)%N then 13%N else c) :: unescape s.
Proof. reflexivity. Qed.

(** ** What the emitters write *)

Lemma replace_app c t a b : replace c t (a ++ b) = replace c t a ++ replace c t b.
Proof. apply flat_map_app. Qed.

(** The two escapes, a character at a time. *)
Definition escaped (c : N) : str :=
  if (c =? BACKSLASH)%N then [BACKSLASH; BACKSLASH]
  else if (c =? BAR)%N then [BACKSLASH; BAR]
  else if (c =? EQUALS)%N then [BACKSLASH; EQUALS]
  else if (c =? NEWLINE)%N then [BACKSLASH; 110%N]
  else if (c =? 13)%N then [BACKSLASH; 114%N] else [c].

Definition escaped_header (c : N) : str :=
  if (c =? BACKSLASH)%N then [BACKSLASH; BACKSLASH]
  else if (c =? BAR)%N then [BACKSLASH; BAR]
  else if (c =? NEWLINE)%N then [32%N] else if (c =? 13)%N then [32%N] else [c].

Ltac by_character c :=
  destruct (N.eqb_spec c BACKSLASH) as [->|]; [reflexivity|];
  destruct (N.eqb_spec c BAR) as [->|]; [reflexivity|];
  destruct (N.eqb_spec c EQUALS) as [->|]; [reflexivity|];
  destruct (N.eqb_spec c NEWLINE) as [->|]; [reflexivity|];
  destruct (N.eqb_spec c 13) as [->|]; [reflexivity|].

Lemma replace_other c t x : x ≠ c → replace c t [x] = [x].
Proof. intros Hx. cbn. apply N.eqb_neq in Hx as ->. reflexivity. Qed.

Lemma escape_value_chars s : _escape_cef_value s = flat_map escaped s.
Proof.
  induction s as [|c s IH]; [done|]. change (c :: s) with ([c] ++ s). rewrite flat_map_app, <- IH.
  unfold _escape_cef_value. rewrite !replace_app. f_equal. clear IH. by_character c.
  rewrite !replace_other by done. unfold flat_map, escaped. by rewrite !(proj2 (N.eqb_neq _ _)) by done.
Qed.

Lemma escape_header_chars s : _escape_cef_header s = flat_map escaped_header s.
Proof.
  induction s as [|c s IH]; [done|]. change (c :: s) with ([c] ++ s). rewrite flat_map_app, <- IH.
  unfold _escape_cef_header. rewrite !replace_app. f_equal. clear IH. by_character c.
  rewrite !replace_other by done. unfold flat_map, escaped_header. by rewrite !(proj2 (N.eqb_neq _ _)) by done.
Qed.

Lemma escaped_cases c :
  (escaped c = [c] ∧ c ≠ BACKSLASH ∧ c ≠ BAR ∧ c ≠ EQUALS ∧ c ≠ NEWLINE ∧ c ≠ 13%N)
  ∨ ∃ d, escaped c = [BACKSLASH; d] ∧ d ≠ NEWLINE ∧ d ≠ 13%N
         ∧ (if (d =? 110)%N then 10%N else if (d =? 114)%N then 13%N else d) = c.
Proof.
  unfold escaped.
  destruct (N.eqb_spec c BACKSLASH) as [->|]; [right; by eexists|].
  destruct (N.eqb_spec c BAR) as [->|]; [right; by eexists|].
  destruct (N.eqb_spec c EQUALS) as [->|]; [right; by eexists|].
  destruct (N.eqb_spec c NEWLINE) as [->|]; [right; by eexists|].
  destruct (N.eqb_spec c 13) as [->|]; [right; by eexists|]. by left.
Qed.

Lemma escaped_header_cases c :
  (escaped_header c = [c] ∧ c ≠ BACKSLASH ∧ c ≠ BAR ∧ c ≠ NEWLINE ∧ c ≠ 13%N)
  ∨ (escaped_header c = [32%N] ∧ (c = NEWLINE ∨ c = 13%N))
  ∨ (escaped_header c = [BACKSLASH; c] ∧ (c = BACKSLASH ∨ c = BAR)).
Proof.
  unfold escaped_header.
  destruct (N.eqb_spec c BACKSLASH) as [->|]; [right; right; by auto|].
  destruct (N.eqb_spec c BAR) as [->|]; [right; right; by auto|].
  destruct (N.eqb_spec c NEWLINE) as [->|]; [right; left; by auto|].
  destruct (N.eqb_spec c 13) as [->|]; [right; left; by auto|]. by left.
Qed.

Lemma sealed_flat_map sep (f : N → str) (s : str) : (∀ c, sealed sep (f c)) → sealed sep (flat_map f s).
Proof. intros Hf. induction s as [|c s IH]; cbn; [constructor|]. by apply sealed_app. Qed.

Lemma value_sealed sep v : sep = BAR ∨ sep = EQUALS → sealed sep (_escape_cef_value v).
Proof.
  intros Hsep. rewrite escape_value_chars. apply sealed_flat_map. intros c.
  destruct (escaped_cases c) as [(-> & ? & ? & ? & _)|(d & -> & _)]; [|apply sealed_escape; constructor].
  apply sealed_plain; [done| |constructor]. by destruct Hsep as [-> | ->].
Qed.

Lemma header_sealed v : sealed BAR (_escape_cef_header v).
Proof.
  rewrite escape_header_chars. apply sealed_flat_map. intros c.
  destruct (escaped_header_cases c) as [(-> & ? & ? & _)|[[-> _]|[-> _]]];
    [apply sealed_plain; [done..|constructor]|apply sealed_plain; [done..|constructor]|apply sealed_escape; constructor].
Qed.

Lemma unescape_value v : unescape (_escape_cef_value v) = v.
Proof.
  rewrite escape_value_chars. induction v as [|c v IH]; [done|]. cbn [flat_map].
  destruct (escaped_cases c) as [(-> & ? & _)|(d & -> & _ & _ & Hd)]; cbn [app].
  - rewrite unescape_plain by done. by f_equal.
  - rewrite unescape_pair, Hd. by f_equal.
Qed.

(** Newlines and carriage returns as spaces. *)
Definition one_line (s : str) : str := replace_char 13 32 (replace_char NEWLINE 32 s).

Lemma unescape_header v : unescape (_escape_cef_header v) = one_line v.
Proof.
  rewrite escape_header_chars. unfold one_line, replace_char. rewrite map_map.
  induction v as [|c v IH]; [done|]. cbn [flat_map map].
  destruct (escaped_header_cases c) as [(-> & ? & ? & Hn & Hr)|[[-> Hc]|[-> Hc]]]; cbn [app].
  - rewrite unescape_plain, IH by done. f_equal. apply N.eqb_neq in Hn as ->. by apply N.eqb_neq in Hr as ->.
  - rewrite unescape_plain, IH by done. f_equal. by destruct Hc as [-> | ->].
  - rewrite unescape_pair, IH. f_equal. by destruct Hc as [-> | ->].
Qed.

(** ** Reading an extension back *)

(** Keys are words of ordinary characters. *)
Definition plain_key (k : str) : bool :=
  forallb (λ c, negb (existsb (N.eqb c) [BACKSLASH; BAR; EQUALS; 32; NEWLINE; 13]%N)) k.

Lemma plain_key_cons c k : plain_key (c :: k) = true →
  c ≠ BACKSLASH ∧ c ≠ BAR ∧ c ≠ EQUALS ∧ c ≠ 32%N ∧ c ≠ NEWLINE ∧ c ≠ 13%N ∧ plain_key k = true.
Proof.
  intros [Hc Hk]%andb_true_iff. apply negb_true_iff in Hc. cbn in Hc.
  repeat apply orb_false_iff in Hc as [?%N.eqb_neq Hc]. done.
Qed.

Lemma plain_key_sealed sep k : sep = BAR ∨ sep = EQUALS → plain_key k = true → sealed sep k.
Proof.
  intros Hsep. induction k as [|c k IH]; [constructor|].
  intros (? & ? & ? & _ & _ & _ & Hk)%plain_key_cons. apply sealed_plain; [done| |by apply IH].
  by destruct Hsep as [-> | ->].
Qed.

Lemma last_word_none k : plain_key k = true → last_word k = None.
Proof.
  induction k as [|c k IH]; [done|]. intros (_ & _ & _ & Hs & _ & _ & Hk)%plain_key_cons. cbn. rewrite IH by done.
  by apply N.eqb_neq in Hs as ->.
Qed.

Lemma last_word_app v k : plain_key k = true → last_word (v ++ " "%py ++ k) = Some (v, k).
Proof.
  intros Hk. induction v as [|c v IH]; [cbn; by rewrite last_word_none|].
  change ((c :: v) ++ " "%py ++ k) with (c :: (v ++ " "%py ++ k)). cbn [last_word]. by rewrite IH.
Qed.

(** The text between the equals signs of an extension that starts with the value [v]. *)
Fixpoint segments (v : str) (rest : list (str * str)) : list str :=
  match rest with
  | [] => [_escape_cef_value v]
  | (k, w) :: rest' => (_escape_cef_value v ++ " "%py ++ k) :: segments w rest'
  end.

Lemma cut_extension k v rest :
  Forall (λ kv, plain_key kv.1 = true) ((k, v) :: rest) →
  cut EQUALS (join " "%py (map cef_pair ((k, v) :: rest))) = k :: segments v rest.
Proof.
  revert k v. induction rest as [|[k' w] rest IH]; intros k v [Hk Hrest]%Forall_cons.
  - change (join " "%py (map cef_pair [(k, v)])) with (k ++ EQUALS :: _escape_cef_value v).
    rewrite cut_sealed by (apply plain_key_sealed; auto). rewrite cut_plain, N.eqb_refl by done.
    rewrite <- (app_nil_r (_escape_cef_value v)), cut_sealed by (apply value_sealed; auto).
    cbn. by rewrite !app_nil_r.
  - replace (join " "%py (map cef_pair ((k, v) :: (k', w) :: rest)))
      with (k ++ EQUALS :: (_escape_cef_value v ++ " "%py ++ join " "%py (map cef_pair ((k', w) :: rest))))
      by (unfold cef_pair; cbn [map join fst snd app]; rewrite <- !app_assoc; reflexivity).
    rewrite cut_sealed by (apply plain_key_sealed; auto). rewrite cut_plain, N.eqb_refl by done.
    rewrite cut_sealed by (apply value_sealed; auto).
    change (" "%py ++ join " "%py (map cef_pair ((k', w) :: rest)))
      with ([32%N] ++ join " "%py (map cef_pair ((k', w) :: rest))).
    rewrite cut_sealed by (repeat constructor; done). rewrite IH by done. cbn. by rewrite app_nil_r.
Qed.

Lemma read_segments k v rest :
  Forall (λ kv, plain_key kv.1 = true) rest → read_pairs k (segments v rest) = Some ((k, v) :: rest).
Proof.
  revert k v. induction rest as [|[k' w] rest IH]; intros k v Hrest; [cbn; by rewrite unescape_value|].
  apply Forall_cons in Hrest as [Hk Hrest]. cbn [fst] in Hk.
  assert (Hcase : read_pairs k (segments v ((k', w) :: rest))
                  = match last_word (_escape_cef_value v ++ " "%py ++ k') with
                    | Some (u, key') => cons (k, unescape u) <$> read_pairs key' (segments w rest)
                    | None => None
                    end) by (destruct rest as [|[]]; reflexivity).
  rewrite Hcase, last_word_app, IH, unescape_value by done. done.
Qed.

(** A consumer reads back the fields an extension was written from. *)
Lemma read_written fields :
  fields ≠ [] → Forall (λ kv, plain_key kv.1 = true) fields →
  read_extension (join " "%py (map cef_pair fields)) = Some fields.
Proof.
  destruct fields as [|[k v] rest]; [done|]. intros _ Hf. unfold read_extension. rewrite cut_extension by done.
  apply Forall_cons in Hf as [_ Hrest]. by apply read_segments.
Qed.

(** No value is missing a key, and the keys are the table's. *)
Lemma present_keys l : forallb (λ kv, plain_key kv.1) l = true → Forall (λ kv, plain_key kv.1 = true) (flat_map present l).
Proof.
  intros Hl. apply List.Forall_forall. intros kv (p & Hp & Hkv)%in_flat_map.
  assert (Hkey : plain_key p.1 = true) by (by apply (proj1 (forallb_forall _ _) Hl)).
  unfold present in Hkv. destruct (p.2) as [[|c v]|]; [done| |done]. by destruct Hkv as [<- | []].
Qed.

Lemma cef_fields_keys a : Forall (λ kv, plain_key kv.1 = true) (cef_fields a).
Proof.
  apply Forall_app. split; [by apply present_keys|]. destruct (mitre_technique a) as [[|]|]; by repeat constructor.
Qed.

Lemma cef_fields_some a : cef_fields a ≠ [].
Proof.
  intros Ha. assert (Hin : In ("cs1Label"%py, "EngagementID"%py) (cef_fields a)); [|rewrite Ha in Hin; destruct Hin].
  apply in_or_app. left. apply in_flat_map. exists ("cs1Label"%py, Some "EngagementID"%py).
  split; [cbn; auto 12|by left].
Qed.

(** ** One line per event *)

Definition unbroken (s : str) : Prop := Forall (λ c, c ≠ NEWLINE ∧ c ≠ 13%N) s.

Lemma unbroken_flat_map (f : N → str) (s : str) : (∀ c, unbroken (f c)) → unbroken (flat_map f s).
Proof. intros Hf. induction s as [|c s IH]; [constructor|]. apply Forall_app. split; [apply Hf|exact IH]. Qed.

Lemma value_unbroken v : unbroken (_escape_cef_value v).
Proof.
  rewrite escape_value_chars. apply unbroken_flat_map. intros c.
  destruct (escaped_cases c) as [(-> & _ & _ & _ & ? & ?)|(d & -> & ? & ? & _)]; by repeat constructor.
Qed.

Lemma header_unbroken v : unbroken (_escape_cef_header v).
Proof.
  rewrite escape_header_chars. apply unbroken_flat_map. intros c.
  destruct (escaped_header_cases c) as [(-> & _ & _ & ? & ?)|[[-> _]|[-> [-> | ->]]]]; by repeat constructor.
Qed.

Lemma plain_key_unbroken k : plain_key k = true → unbroken k.
Proof.
  induction k as [|c k IH]; [constructor|]. intros (_ & _ & _ & _ & ? & ? & Hk)%plain_key_cons.
  constructor; [done|by apply IH].
Qed.

Lemma join_unbroken sep l : unbroken sep → Forall unbroken l → unbroken (join sep l).
Proof.
  intros Hsep. induction 1 as [|x l Hx Hl IH]; [constructor|]. destruct l as [|y l]; [done|].
  change (join sep (x :: y :: l)) with (x ++ sep ++ join sep (y :: l)). by repeat (apply Forall_app; split).
Qed.

Lemma cef_pairs_sealed fields :
  Forall (λ kv, plain_key kv.1 = true) fields → sealed BAR (join " "%py (map cef_pair fields)).
Proof.
  assert (Hpair : ∀ kv, plain_key kv.1 = true → sealed BAR (cef_pair kv)).
  { intros [k v] Hk. repeat apply sealed_app;
      [apply plain_key_sealed; auto|by repeat constructor|apply value_sealed; auto]. }
  induction 1 as [|kv l Hkv Hl IH]; [constructor|]. destruct l as [|kv' l]; [by apply Hpair|].
  change (join " "%py (map cef_pair (kv :: kv' :: l)))
    with (cef_pair kv ++ " "%py ++ join " "%py (map cef_pair (kv' :: l))).
  apply sealed_app; [by apply Hpair|]. apply sealed_app; [by repeat constructor|done].
Qed.

Lemma score_text s : In (str_of_Z (score s)) ["10"; "7"; "5"; "3"; "2"]%py.
Proof. unfold score, _SEVERITY_TO_CEF_SCORE. cbn [assoc_get]. repeat case_match; vm_compute; tauto. Qed.

(** Text without any character the format gives a meaning to. *)
Lemma score_plain s : plain_key (str_of_Z (score s)) = true ∧ unescape (str_of_Z (score s)) = str_of_Z (score s).
Proof. destruct (score_text s) as [<- | [<- | [<- | [<- | [<- | []]]]]]; by split. Qed.

(** The pieces [to_cef] joins with bars. *)
Definition cef_pieces (vendor product version prefix : str) (a : alert) : list str :=
  "CEF:0"%py :: map _escape_cef_header (cef_header vendor product version prefix a)
  ++ [str_of_Z (score (default "info"%py (a_severity a))); join " "%py (map cef_pair (cef_fields a))].

Lemma to_cef_pieces vendor product version prefix a :
  to_cef vendor product version prefix a = join [BAR] (cef_pieces vendor product version prefix a).
Proof.
  unfold cef_pieces.
  set (hdr := map _escape_cef_header _). set (ext := join " "%py _). set (sc := str_of_Z _).
  replace ("CEF:0"%py :: hdr ++ [sc; ext]) with (("CEF:0"%py :: hdr ++ [sc]) ++ [ext])
    by (cbn [app]; by rewrite <- app_assoc).
  by rewrite join_snoc.
Qed.

Lemma cef_pieces_sealed vendor product version prefix a :
  Forall (sealed BAR) (cef_pieces vendor product version prefix a).
Proof.
  constructor; [repeat constructor; done|]. apply Forall_app. split.
  - apply Forall_map, Forall_true, header_sealed.
  - constructor; [apply plain_key_sealed; [auto|apply score_plain]|].
    constructor; [|constructor]. apply cef_pairs_sealed, cef_fields_keys.
Qed.

Lemma to_cef_unbroken vendor product version prefix a : unbroken (to_cef vendor product version prefix a).
Proof.
  rewrite to_cef_pieces. apply join_unbroken; [repeat constructor; done|].
  constructor; [repeat constructor; done|]. apply Forall_app. split.
  - apply Forall_map, Forall_true, header_unbroken.
  - constructor; [apply plain_key_unbroken, score_plain|]. constructor; [|constructor].
    apply join_unbroken; [repeat constructor; done|]. apply Forall_map.
    eapply Forall_impl; [apply cef_fields_keys|]. intros [k v] Hk. repeat (apply Forall_app; split);
      [by apply plain_key_unbroken|repeat constructor; done|apply value_unbroken].
Qed.

(** C16: a CEF line is one line, and a consumer that reads it by the rules of the format finds
    seven header fields -- the texts given, with their newlines as spaces -- and exactly the
    fields of the alert under their names, each with the value it had: nothing an attacker
    types (a command, a user name, a path with bars, equals signs, backslashes or newlines)
    adds, hides or changes a field of the event. *)
Theorem cef_parses vendor product version prefix a :
  read_cef (to_cef vendor product version prefix a)
    = Some ("CEF:0"%py :: map one_line (cef_header vendor product version prefix a)
              ++ [str_of_Z (score (default "info"%py (a_severity a)))], cef_fields a)
  ∧ unbroken (to_cef vendor product version prefix a).
Proof.
  split; [|apply to_cef_unbroken]. unfold read_cef.
  rewrite to_cef_pieces, cut_join by (try apply cef_pieces_sealed; done).
  unfold cef_pieces, cef_header. cbn [map app]. rewrite read_written by (apply cef_fields_some || apply cef_fields_keys).
  cbn [fmap option_fmap option_map]. rewrite !unescape_header. by rewrite (proj2 (score_plain _)).
Qed.

(** LEEF and syslog lines carry the texts raw: a newline in a command ends the record, and a
    user name with the separator in it is cut. *)
Example leef_injects :
  let a := mk_alert (Some "alert_x"%py) None None None None None None None (Some "echo
LEEF:2.0|x"%py) None None None in
  to_leef _VENDOR _PRODUCT _VERSION 9 a
  = "LEEF:2.0|Plenith|DeceptionPlatform|1.0|alert_x|x09	sev=3	severity=info	cat=alert_x	cmd=echo
LEEF:2.0|x"%py.
Proof. reflexivity. Qed.

(** An unknown severity is framed under facility 22, the others under 16. *)
Example syslog_facilities :
  let a s := mk_alert (Some "x"%py) (Some s) None None None None None None None None None None in
  to_syslog_5424 (a "info"%py) "T"%py "h"%py None "plenith"%py None BodyPlain = "<134>1 T h plenith - x - x"%py
  ∧ to_syslog_5424 (a "notice"%py) "T"%py "h"%py None "plenith"%py None BodyPlain = "<182>1 T h plenith - x - x"%py.
Proof. by vm_compute. Qed.
