(* ===== verification/Siem.v ===== *)
(** plenith/connectors/siem.py: the transports that carry alerts to a SIEM.

    The batching clients buffer documents and post them; a transport is a state with one
    function per method, and the network's answers are arguments. *)

From S2P Require Import Prelude PyStr Hash Float Json Proxy Formats.

(** [json.dumps(v, separators=(",", ":"))]: dicts in their own order; events hold no sets. *)
Fixpoint document (v : pyval) : jval :=
  match v with
  | VList l => JArr (map document l)
  | VDict d => JObj (map (λ kv, (kv.1, document kv.2)) d)
  | _ => to_json v
  end.
Definition dumps (v : pyval) : str := print (document v).

(** [time.time()]. *)
Definition epoch (t : time) : flt := fdiv (of_int t) (of_int 1000000).

(** ** Batching: Splunk HEC and Elasticsearch *)

(** What the two clients differ in: the document of an alert, and a batch's body. *)
Record sink := mk_sink {
  batch_size : nat; batch_window_seconds : Z;
  _format : alert → str → time → pyval;    (* the alert, [_utcnow_isoformat()], [time.time()] *)
  render : list pyval → str
}.

Definition dict_set (k : str) (v : pyval) (d : pyval) : pyval :=
  match d with VDict l => VDict (assoc_set k v l) | _ => d end.
Definition dict_get (k : str) (d : pyval) : pyval :=
  match d with VDict l => default VNone (assoc_get k l) | _ => VNone end.

Definition hec_format (sourcetype : str) (index : option str) (a : alert) (iso : str) (now : time) : pyval :=
  let env := dict_set "time"%py (VFloat (epoch now)) (to_json_event a iso sourcetype) in
  match index with Some ((_ :: _) as i) => dict_set "index"%py (VStr i) env | _ => env end.

Definition SplunkHEC (sourcetype : str) (index : option str) (batch_size : nat) (window : Z) : sink :=
  mk_sink batch_size window (hec_format sourcetype index) (λ l, join [NEWLINE] (map dumps l)).

(** [json.dumps({"index": {"_index": self.index}})]. *)
Definition index_action (index : str) : str := "{\x22index\x22: {\x22_index\x22: "%py ++ jstr index ++ "}}"%py.

Definition ElasticBulk (index : str) (batch_size : nat) (window : Z) : sink :=
  mk_sink batch_size window
    (λ a iso _, dict_get "event"%py (to_json_event a iso "plenith:alert"%py))
    (λ l, join [NEWLINE] (flat_map (λ d, [index_action index; dumps d]) l) ++ [NEWLINE]).

(** A client, with the posts it has made: body, number of events, and whether it was accepted. *)
Record post := mk_post { p_body : str; p_events : nat; p_ok : bool }.
Record client := mk_client { _pending : list pyval; _last_flush : time; posts : list post }.

Definition flush (s : sink) (now : time) (ok : bool) (c : client) : nat * client :=
  match _pending c with
  | [] => (0, c)
  | l => (if ok then length l else 0, mk_client [] now (posts c ++ [mk_post (render s l) (length l) ok]))
  end.

(** The clock's readings in one call of [emit]. *)
Record readings := mk_readings { at_iso : str; at_format : time; at_check : time; at_flush : time }.

Definition due (s : sink) (t : readings) (c : client) : bool :=
  (batch_size s <=? length (_pending c))
  || (seconds (batch_window_seconds s) <? at_check t - _last_flush c)%Z.

Definition emit (s : sink) (a : alert) (t : readings) (ok : bool) (c : client) : client :=
  let c := mk_client (_pending c ++ [_format s a (at_iso t) (at_format t)]) (_last_flush c) (posts c) in
  if due s t c then (flush s (at_flush t) ok c).2 else c.

Inductive call := Emit (a : alert) (t : readings) (ok : bool) | Flush (now : time) (ok : bool).

Definition step (s : sink) (c : client) (k : call) : client :=
  match k with Emit a t ok => emit s a t ok c | Flush now ok => (flush s now ok c).2 end.
Definition run (s : sink) : client → list call → client := foldl (step s).

(** The documents of the alerts emitted, in order. *)
Definition documents (s : sink) (ks : list call) : list pyval :=
  flat_map (λ k, match k with Emit a t _ => [_format s a (at_iso t) (at_format t)] | Flush _ _ => [] end) ks.

(** ** Syslog over TCP: octet-counted frames *)

Definition surrogate (c : N) : bool := (55296 <=? c)%N && (c <? 57344)%N.

(** [line.encode("utf-8")]; surrogates raise. *)
Definition encode_strict (line : str) : exc bytes :=
  if existsb surrogate line then Raise (ValueError "surrogates not allowed"%py) else Ok (encode line).

Definition frame (msg : bytes) : bytes := str_of_Z (Z.of_nat (length msg)) ++ [32%N] ++ msg.

(** The connections opened so far, the last one first, each with the bytes it carried;
    [open] tells whether the last is still the writer. *)
Record tcp := mk_tcp { open : bool; streams : list bytes }.

Inductive sending := Delivered | Broken (sent : nat).

(** [emit]: [connects] answers the connection attempt, if one is made; a write that breaks
    leaves what was already on the wire. *)
Definition tcp_emit (line : str) (connects : bool) (r : sending) (s : tcp) : tcp :=
  let s := if open s then s else if connects then mk_tcp true ([] :: streams s) else s in
  if negb (open s) then s
  else match encode_strict line, streams s with
       | Ok msg, cur :: rest =>
           match r with
           | Delivered => mk_tcp true ((cur ++ frame msg) :: rest)
           | Broken n => mk_tcp false ((cur ++ take n (frame msg)) :: rest)
           end
       | _, _ => mk_tcp false (streams s)
       end.

(** A receiver by RFC 6587: the decimal length, a space, that many octets; what is left is
    an incomplete frame. *)
Definition take_frame (s : bytes) : option (bytes * bytes) :=
  match split_on 32 s with
  | len :: (_ :: _) =>
      match py_int len with
      | Some n => let rest := drop (S (length len)) s in
                  if (n <=? Z.of_nat (length rest))%Z && isdigit len then Some (take (Z.to_nat n) rest, drop (Z.to_nat n) rest)
                  else None
      | None => None
      end
  | _ => None
  end.

Fixpoint receive (fuel : nat) (s : bytes) : list bytes :=
  match fuel with
  | 0 => []
  | S f => match take_frame s with Some (m, r) => m :: receive f r | None => [] end
  end.

(** ** One line per document *)

Definition clean (s : str) : Prop := Forall (λ c, 32 <= c)%N s.

Lemma clean_app a b : clean a → clean b → clean (a ++ b).
Proof. intros. by apply Forall_app. Qed.

Lemma clean_cons c s : (32 <= c)%N → clean s → clean (c :: s).
Proof. by constructor. Qed.

Lemma clean_tok t : tok t → clean t.
Proof.
  intros [_ Ht]. eapply Forall_impl; [exact Ht|]. intros c Hc. unfold tok_char in Hc. cbn beta.
  destruct (N.le_gt_cases 32 c); [done|]. exfalso.
  assert (Hx : ∃ k, k < 32 ∧ c = N.of_nat k) by (exists (N.to_nat c); lia). destruct Hx as (k & Hk & ->).
  do 32 (destruct k as [|k]; [discriminate Hc|]). lia.
Qed.

Lemma clean_hex4 n : clean (hex4 n).
Proof. unfold hex4. repeat constructor; case_match; lia. Qed.

Lemma clean_char c : clean (json_char c).
Proof.
  unfold json_char. do 7 (destruct (c =? _)%N; [by repeat constructor; lia|]).
  destruct ((32 <=? c)%N && (c <=? 126)%N) eqn:E; [constructor; [lia|constructor]|].
  destruct (c <? 65536)%N; unfold u_escape; repeat first [apply clean_app | apply clean_cons; [lia|] | apply clean_hex4].
Qed.

Lemma clean_jstr s : clean (jstr s).
Proof.
  apply clean_cons; [lia|]. apply clean_app; [|by repeat constructor].
  induction s as [|c s IH]; cbn; [constructor|]. apply clean_app; [apply clean_char|done].
Qed.

Lemma clean_arr l : Forall (λ v, clean (print v)) l → clean (print (JArr l)).
Proof.
  destruct 1 as [|x l Hx Hl]; [by repeat constructor|]. rewrite print_arr. apply clean_cons; [lia|]. apply clean_app; [done|].
  induction Hl as [|y l Hy Hl IH]; cbn; [by repeat constructor|]. apply clean_cons; [lia|]. by apply clean_app.
Qed.

Lemma clean_obj l : Forall (λ kv, clean (print kv.2)) l → clean (print (JObj l)).
Proof.
  destruct 1 as [|[k x] l Hx Hl]; [by repeat constructor|]. rewrite print_obj. apply clean_cons; [lia|].
  apply clean_app; [apply clean_jstr|]. apply clean_cons; [lia|]. apply clean_app; [done|].
  induction Hl as [|[k' y] l Hy Hl IH]; cbn [obj_rest]; [by repeat constructor|]. apply clean_cons; [lia|].
  apply clean_app; [apply clean_jstr|]. apply clean_cons; [lia|]. by apply clean_app.
Qed.

Lemma clean_dumps v : clean (dumps v).
Proof.
  unfold dumps. induction v as [| b | z | f | t | ss | l IH | d IH] using pyval_nested_ind; cbn [document to_json].
  - by repeat constructor; lia.
  - destruct b; by repeat constructor; lia.
  - apply clean_tok, str_of_Z_tok.
  - apply clean_tok, float_repr_tok.
  - apply clean_jstr.
  - apply clean_arr, Forall_map, Forall_true. intros x. apply clean_jstr.
  - by apply clean_arr, Forall_map.
  - by apply clean_obj, Forall_map.
Qed.

Lemma clean_line s : clean s → NEWLINE ∉ s.
Proof. intros Hs Hin. apply (proj1 (Forall_forall _ _) Hs) in Hin. unfold NEWLINE in Hin. lia. Qed.

(** ** Batches *)

(** What a receiver of a sink's posts sees: the lines that are documents. *)
Class Readable (s : sink) := {
  read_body : str → list str;
  read_render l : l ≠ [] → read_body (render s l) = map dumps l
}.
#[global] Arguments read_body s {_} _ : assert.

#[export] Program Instance hec_readable st index n w : Readable (SplunkHEC st index n w) :=
  {| read_body := split_on NEWLINE |}.
Next Obligation.
  intros st index n w l Hl. apply split_on_join; [by destruct l|].
  apply Forall_map, Forall_true. intros v. apply clean_line, clean_dumps.
Qed.

(** NDJSON pairs: the action and the source. *)
Fixpoint bulk_sources (lines : list str) : list str :=
  match lines with _ :: doc :: rest => doc :: bulk_sources rest | _ => [] end.

#[export] Program Instance bulk_readable index n w : Readable (ElasticBulk index n w) :=
  {| read_body b := bulk_sources (split_on NEWLINE b) |}.
Next Obligation.
  intros index n w l Hl. cbn [render ElasticBulk].
  assert (Hlines : Forall (λ p, NEWLINE ∉ p) (flat_map (λ d, [index_action index; dumps d]) l)).
  { induction l as [|d l IH]; [done|]. cbn [flat_map app]. constructor; [|constructor].
    - apply clean_line. unfold index_action. repeat apply clean_app; [by repeat constructor; lia|apply clean_jstr|by repeat constructor; lia].
    - apply clean_line, clean_dumps.
    - destruct l; [constructor|]. by apply IH. }
  rewrite split_on_app_sep, split_on_join; [|by destruct l|done]. clear.
  induction l as [|d l IH]; [done|]. cbn. by f_equal.
Qed.

Definition fresh (t : time) : client := mk_client [] t [].

Section batching.
Context (s : sink) `{!Readable s}.

(** Everything a client has been given, in the order given: posted, then waiting. *)
Definition carried (c : client) : list str := flat_map (λ p, read_body s (p_body p)) (posts c) ++ map dumps (_pending c).

Definition honest (c : client) : Prop := Forall (λ p, p_events p = length (read_body s (p_body p)) ∧ 0 < p_events p) (posts c).

Lemma flush_carried now ok c : carried (flush s now ok c).2 = carried c ∧ (honest c → honest (flush s now ok c).2).
Proof.
  unfold carried, honest, flush. destruct (_pending c) as [|d l] eqn:E; [cbn; by rewrite E|]. cbn [snd posts _pending map p_body p_events].
  rewrite flat_map_app, app_nil_r. cbn [flat_map p_body]. rewrite read_render, app_nil_r by done. split; [done|].
  intros Hh. apply Forall_app. split; [done|]. constructor; [|constructor]. cbn [p_body p_events].
  rewrite read_render, length_map by done. cbn. split; [done|lia].
Qed.

Lemma step_carried k c :
  carried (step s c k) = carried c ++ map dumps (documents s [k]) ∧ (honest c → honest (step s c k)).
Proof.
  destruct k as [a t ok|now ok]; cbn [step documents flat_map].
  - unfold emit. set (c' := mk_client _ _ _).
    assert (Hc : carried c' = carried c ++ map dumps [_format s a (at_iso t) (at_format t)] ∧ (honest c → honest c')).
    { unfold carried, c'. cbn. by rewrite map_app, app_assoc. }
    destruct (due s t c'); [|exact Hc]. destruct (flush_carried (at_flush t) ok c') as [-> ?]. naive_solver.
  - rewrite app_nil_r. apply flush_carried.
Qed.

Lemma run_carried ks c :
  carried (run s c ks) = carried c ++ map dumps (documents s ks) ∧ (honest c → honest (run s c ks)).
Proof.
  revert c. induction ks as [|k ks IH]; intros c; [by rewrite app_nil_r|]. cbn [run foldl].
  destruct (IH (step s c k)) as [E1 H1]. destruct (step_carried k c) as [E2 H2]. split; [|auto].
  change (foldl (step s) (step s c k) ks) with (run s (step s c k) ks). rewrite E1, E2, <- app_assoc, <- map_app.
  change (documents s (k :: ks)) with (documents s ([k] ++ ks)). unfold documents. by rewrite flat_map_app.
Qed.
End batching.

(** C19: no alert is lost, repeated or reordered before it is posted.  After any sequence of
    [emit] and [flush] calls of a batching client, with any answers of the network and any
    readings of the clock, the documents a receiver reads in the bodies posted, followed by
    those still waiting, are the documents of the alerts emitted, in order; every post
    carries at least one, and as many as its count says. *)
Theorem batches_deliver_in_order s `{!Readable s} ks t0 :
  let c := run s (fresh t0) ks in
  flat_map (λ p, read_body s (p_body p)) (posts c) ++ map dumps (_pending c) = map dumps (documents s ks)
  ∧ Forall (λ p, p_events p = length (read_body s (p_body p)) ∧ 0 < p_events p) (posts c).
Proof.
  destruct (run_carried s ks (fresh t0)) as [E H]. split; [exact E|]. apply H. constructor.
Qed.

Lemma flush_empties s now ok c : _pending (flush s now ok c).2 = [].
Proof. unfold flush. by destruct (_pending c) eqn:E; cbn. Qed.

Lemma emit_bounded s a t ok c :
  0 < batch_size s →
  length (_pending (emit s a t ok c)) < batch_size s
  ∧ (_pending (emit s a t ok c) ≠ [] → (at_check t - _last_flush (emit s a t ok c) <= seconds (batch_window_seconds s))%Z).
Proof.
  intros Hb. unfold emit. destruct (due s t _) eqn:E; [by rewrite flush_empties|].
  apply orb_false_iff in E as [E1%Nat.leb_gt E2%Z.ltb_ge]. split; [done|]. intros _. exact E2.
Qed.

Lemma run_bounded s ks t0 : 0 < batch_size s → length (_pending (run s (fresh t0) ks)) < batch_size s.
Proof.
  intros Hb. unfold run. induction ks as [|k ks IH] using rev_ind; [done|]. rewrite foldl_app. cbn [foldl].
  destruct k as [a t ok|now ok]; cbn [step]; [by apply emit_bounded|by rewrite flush_empties].
Qed.

(** C40: the buffer is bounded.  Whatever is called and whatever the network answers, fewer
    than [batch_size] events wait after every call, and when an [emit] leaves events
    waiting the last flush is at most the window old. *)
Theorem buffer_bounded s ks t0 a t ok :
  0 < batch_size s →
  let c := run s (fresh t0) ks in
  let c' := emit s a t ok c in
  length (_pending c) < batch_size s
  ∧ length (_pending c') < batch_size s
  ∧ (_pending c' ≠ [] → (at_check t - _last_flush c' <= seconds (batch_window_seconds s))%Z).
Proof. intros Hb. split; [by apply run_bounded|by apply emit_bounded]. Qed.

(** ** Frames *)

Lemma isdigit_elem s c : isdigit s = true → c ∈ s → is_digit c = true.
Proof.
  unfold isdigit. destruct s as [|x s]; [done|]. intros Hs Hc. by apply (proj1 (forallb_forall _ _) Hs), list_elem_of_In.
Qed.

Lemma split_on_digits len r : isdigit len = true → split_on 32 (len ++ 32%N :: r) = len :: split_on 32 r.
Proof. intros Hd. apply split_on_app. intros Hin%(isdigit_elem _ _ Hd). done. Qed.

Lemma frame_length_digits (m : bytes) : isdigit (str_of_Z (Z.of_nat (length m))) = true.
Proof.
  unfold str_of_Z. destruct (Z.ltb_spec (Z.of_nat (length m)) 0); [lia|]. apply str_of_nat_digits. lia.
Qed.

Lemma take_frame_frame m r : take_frame (frame m ++ r) = Some (m, r).
Proof.
  unfold take_frame, frame. set (len := str_of_Z _). assert (Hd : isdigit len = true) by apply frame_length_digits.
  rewrite <- !app_assoc. change (len ++ [32%N] ++ m ++ r) with (len ++ 32%N :: (m ++ r)).
  rewrite split_on_digits by done. destruct (split_on 32 (m ++ r)) eqn:E; [by apply split_on_nonempty in E|].
  unfold len at 1. rewrite py_int_str_of_Z by lia. cbv zeta.
  replace (drop (S (length len)) (len ++ 32%N :: m ++ r)) with (m ++ r)
    by (rewrite <- Nat.add_1_r, <- drop_drop, drop_app_length; done).
  rewrite Hd, andb_true_r, (proj2 (Z.leb_le _ _)) by (rewrite length_app; lia).
  by rewrite Nat2Z.id, take_app_length, drop_app_length.
Qed.

(** A frame cut short is not a frame. *)
Lemma take_frame_cut m n : n < length (frame m) → take_frame (take n (frame m)) = None.
Proof.
  intros Hn. unfold frame in *. set (len := str_of_Z (Z.of_nat (length m))) in *.
  assert (Hd : isdigit len = true) by apply frame_length_digits. rewrite length_app in Hn. cbn [length app] in Hn.
  unfold take_frame. destruct (decide (n <= length len)) as [Hl|Hl].
  - rewrite take_app_le by done. rewrite split_on_no_sep; [done|]. intros Hin.
    apply (subseteq_take n) in Hin. by apply (isdigit_elem _ _ Hd) in Hin.
  - replace (take n (len ++ [32%N] ++ m)) with (len ++ 32%N :: take (n - S (length len)) m)
      by (rewrite take_app_ge by lia; replace (n - length len) with (S (n - S (length len))) by lia; done).
    rewrite split_on_digits by done. destruct (split_on 32 _) eqn:E; [done|].
    unfold len at 1. rewrite py_int_str_of_Z by lia. cbv zeta.
    match goal with |- context [drop ?k ?l] => replace (drop k l) with (take (n - S (length len)) m) end.
    2: { rewrite <- Nat.add_1_r, <- drop_drop, drop_app_length. done. }
    rewrite (proj2 (Z.leb_gt _ _)) by (rewrite length_take; lia). done.
Qed.

(** What each connection carried, as messages: the specification of [tcp_emit]. *)
Record line_log := mk_log { l_open : bool; messages : list (list bytes) }.

Definition log_emit (line : str) (connects : bool) (r : sending) (s : line_log) : line_log :=
  let s := if l_open s then s else if connects then mk_log true ([] :: messages s) else s in
  if negb (l_open s) then s
  else match encode_strict line, messages s with
       | Ok msg, cur :: rest =>
           match r with
           | Delivered => mk_log true ((cur ++ [msg]) :: rest)
           | Broken n => mk_log false ((if decide (length (frame msg) <= n) then cur ++ [msg] else cur) :: rest)
           end
       | _, _ => mk_log false (messages s)
       end.

Abbreviation emissions := (list (str * bool * sending)).
Definition tcp_run (es : emissions) : tcp := foldl (λ s '(l, k, r), tcp_emit l k r s) (mk_tcp false []) es.
Definition log_run (es : emissions) : line_log := foldl (λ s '(l, k, r), log_emit l k r s) (mk_log false []) es.

Definition frames (ms : list bytes) : bytes := flat_map frame ms.

Lemma frame_nonempty m : 0 < length (frame m).
Proof. unfold frame. rewrite length_app. cbn. lia. Qed.

Lemma frames_length ms : length ms <= length (frames ms).
Proof. induction ms as [|m ms IH]; cbn; [lia|]. rewrite length_app. pose proof (frame_nonempty m). unfold frames in IH. lia. Qed.

Lemma receive_frames ms part fuel :
  take_frame part = None → length ms <= fuel → receive fuel (frames ms ++ part) = ms.
Proof.
  intros Hp. revert fuel. induction ms as [|m ms IH]; intros fuel Hf.
  - destruct fuel; [done|]. cbn. by rewrite Hp.
  - destruct fuel as [|fuel]; [cbn in Hf; lia|]. cbn [receive frames flat_map]. rewrite <- app_assoc, take_frame_frame.
    f_equal. apply IH. cbn in Hf. lia.
Qed.

Definition received (stream : bytes) : list bytes := receive (length stream) stream.

Lemma received_frames ms part : take_frame part = None → received (frames ms ++ part) = ms.
Proof. intros Hp. apply receive_frames; [done|]. rewrite length_app. pose proof (frames_length ms). lia. Qed.

(** A stream that carried [ms], and perhaps the start of another frame once it broke. *)
Definition carries (whole : bool) (stream : bytes) (ms : list bytes) : Prop :=
  ∃ part, stream = frames ms ++ part ∧ take_frame part = None ∧ (whole = true → part = []).

Inductive in_step : tcp → line_log → Prop :=
| in_step_closed sts mss : Forall2 (carries false) sts mss → in_step (mk_tcp false sts) (mk_log false mss)
| in_step_open st sts ms mss : carries true st ms → Forall2 (carries false) sts mss →
    in_step (mk_tcp true (st :: sts)) (mk_log true (ms :: mss)).

Lemma carries_empty : carries true [] [].
Proof. by exists []. Qed.

Lemma carries_weaken w st ms : carries w st ms → carries false st ms.
Proof. intros (p & H1 & H2 & _). by exists p. Qed.

Lemma frames_snoc ms m : frames (ms ++ [m]) = frames ms ++ frame m.
Proof. unfold frames. rewrite flat_map_app. cbn. by rewrite app_nil_r. Qed.

Lemma carries_deliver st ms m : carries true st ms → carries true (st ++ frame m) (ms ++ [m]).
Proof.
  intros (p & -> & _ & Hp). rewrite Hp by done. exists []. by rewrite frames_snoc, !app_nil_r.
Qed.

Lemma carries_break st ms m n :
  carries true st ms →
  carries false (st ++ take n (frame m)) (if decide (length (frame m) <= n) then ms ++ [m] else ms).
Proof.
  intros Hc. destruct (decide (length (frame m) <= n)) as [Hn|Hn].
  - rewrite take_ge by done. by eapply carries_weaken, carries_deliver.
  - destruct Hc as (p & -> & _ & Hp). rewrite Hp, app_nil_r by done. exists (take n (frame m)).
    split; [done|]. split; [apply take_frame_cut; lia|done].
Qed.

Lemma emit_opened l r st sts ms mss :
  carries true st ms → Forall2 (carries false) sts mss →
  in_step (match encode_strict l with
           | Ok msg => match r with
                       | Delivered => mk_tcp true ((st ++ frame msg) :: sts)
                       | Broken n => mk_tcp false ((st ++ take n (frame msg)) :: sts)
                       end
           | Raise _ => mk_tcp false (st :: sts)
           end)
          (match encode_strict l with
           | Ok msg => match r with
                       | Delivered => mk_log true ((ms ++ [msg]) :: mss)
                       | Broken n => mk_log false ((if decide (length (frame msg) <= n) then ms ++ [msg] else ms) :: mss)
                       end
           | Raise _ => mk_log false (ms :: mss)
           end).
Proof.
  intros Hst Hsts. destruct (encode_strict l) as [msg|e]; [destruct r as [|n]|].
  - apply in_step_open; [by apply carries_deliver|done].
  - apply in_step_closed. constructor; [by apply carries_break|done].
  - apply in_step_closed. constructor; [by eapply carries_weaken|done].
Qed.

Lemma tcp_emit_in_step l k r s t : in_step s t → in_step (tcp_emit l k r s) (log_emit l k r t).
Proof.
  destruct 1 as [sts mss Hs|st sts ms mss Hst Hsts]; unfold tcp_emit, log_emit; cbn [open l_open negb streams messages].
  - destruct k; cbn [open l_open negb streams messages]; [|by apply in_step_closed].
    pose proof (emit_opened l r [] sts [] mss carries_empty Hs) as H.
    by destruct (encode_strict l).
  - pose proof (emit_opened l r st sts ms mss Hst Hsts) as H. by destruct (encode_strict l).
Qed.

(** framing.  Whatever the lines hold, however connections fail and wherever a write
    breaks, a receiver that reads each connection's octets by RFC 6587 gets exactly the
    messages written whole on it, in order: the transport refines a log of messages, and
    the cut frame at the end of a broken connection is never taken for a message. *)
Theorem frames_refine_messages (es : emissions) :
  map received (streams (tcp_run es)) = messages (log_run es) ∧ open (tcp_run es) = l_open (log_run es).
Proof.
  assert (H : in_step (tcp_run es) (log_run es)).
  { unfold tcp_run, log_run. induction es as [|[[l k] r] es IH] using rev_ind; [by apply in_step_closed|].
    rewrite !foldl_app. by apply tcp_emit_in_step. }
  assert (Hr : ∀ w st ms, carries w st ms → received st = ms) by (intros w st ms (p & -> & Hp & _); by apply received_frames).
  assert (Hrs : ∀ sts mss, Forall2 (carries false) sts mss → map received sts = mss).
  { induction 1 as [|st ms sts mss Hst _ IH]; [done|]. cbn. f_equal; [by eapply Hr|done]. }
  destruct H as [sts mss Hs|st sts ms mss Hst Hsts]; cbn; (split; [|done]); [by apply Hrs|].
  f_equal; [by eapply Hr|by apply Hrs].
Qed.

(** ** Fan-out *)

Inductive emitter :=
| Batch (s : sink) (c : client)
| Udp (f : body_format) (host : option str) (datagrams : list bytes)
| Tcp (f : body_format) (host : option str) (s : tcp)
| Webhook (bodies : list pyval).

(** What the world answers one emitter: the clock, the machine's name, the network. *)
Record world := mk_world {
  w_readings : readings; w_ok : bool; gethostname : str; w_connects : bool; w_sending : sending
}.

Definition syslog_line (f : body_format) (host : option str) (a : alert) (w : world) : str :=
  to_syslog_5424 a (at_iso (w_readings w)) (gethostname w) host "plenith"%py None f.

Definition emitter_emit (a : alert) (w : world) (e : emitter) : emitter :=
  match e with
  | Batch s c => Batch s (emit s a (w_readings w) (w_ok w) c)
  | Udp f host ds => match encode_strict (syslog_line f host a w) with
                     | Ok d => if w_ok w then Udp f host (ds ++ [d]) else e
                     | Raise _ => e
                     end
  | Tcp f host s => Tcp f host (tcp_emit (syslog_line f host a w) (w_connects w) (w_sending w) s)
  | Webhook bs => if w_ok w then Webhook (bs ++ [to_json_event a (at_iso (w_readings w)) "plenith:alert"%py]) else e
  end.

Definition emitter_flush (w : world) (e : emitter) : nat * emitter :=
  match e with
  | Batch s c => let '(n, c) := flush s (at_flush (w_readings w)) (w_ok w) c in (n, Batch s c)
  | _ => (0, e)
  end.

(** [FanOut]: every emitter with its own answers of the world. *)
Definition fan_out (a : alert) (ws : list world) (es : list emitter) : list emitter := zip_with (emitter_emit a) ws es.
Definition fan_flush (ws : list world) (es : list emitter) : nat * list emitter :=
  let r := zip_with emitter_flush ws es in (foldr plus 0 (map fst r), map snd r).

(** A lone alert waits in the buffer until something else is emitted: no timer flushes it. *)
Definition lone_alert (a : alert) (t : time) : client :=
  run (SplunkHEC "plenith:alert"%py None 16 5) (fresh t) [Emit a (mk_readings "T"%py t t t) true].

Lemma lone_alert_waits a t : posts (lone_alert a t) = [] ∧ length (_pending (lone_alert a t)) = 1.
Proof.
  unfold lone_alert. cbn [run foldl step]. unfold emit, due. cbn [batch_size SplunkHEC length _pending fresh app at_check _last_flush batch_window_seconds].
  assert ((seconds 5 <? t - t)%Z = false) as -> by (unfold seconds; lia). done.
Qed.

Definition demo_alert : alert :=
  mk_alert (Some "alert_x"%py) (Some "high"%py) None None None None None None None None None None.

Lemma buffer_bounded_witness :
  0 < batch_size (ElasticBulk "i"%py 2 5) ∧
  length (_pending (run (ElasticBulk "i"%py 2 5) (fresh 0%Z) [Emit demo_alert (mk_readings "T"%py 1 2 3)%Z false])) < 2.
Proof.
  assert (Hb : 0 < batch_size (ElasticBulk "i"%py 2 5)) by (cbn; lia). split; [exact Hb|].
  exact (proj1 (buffer_bounded (ElasticBulk "i"%py 2 5) [Emit demo_alert (mk_readings "T"%py 1 2 3)%Z false] 0%Z
                  demo_alert (mk_readings "T"%py 4 5 6)%Z true Hb)).
Defined.

Lemma batches_deliver_in_order_witness :
  let ks := [Emit demo_alert (mk_readings "T"%py 1 2 3)%Z true; Flush 4%Z false] in
  let c := run (ElasticBulk "i"%py 2 5) (fresh 0%Z) ks in
  flat_map (λ p, read_body (ElasticBulk "i"%py 2 5) (p_body p)) (posts c) = ["{\x22action\x22:\x22alert_x\x22,\x22severity\x22:\x22high\x22}"%py]
  ∧ flat_map (λ p, read_body (ElasticBulk "i"%py 2 5) (p_body p)) (posts c) ++ map dumps (_pending c) = map dumps (documents (ElasticBulk "i"%py 2 5) ks).
Proof.
  intros ks c. split; [vm_compute; reflexivity|].
  exact (proj1 (batches_deliver_in_order (ElasticBulk "i"%py 2 5) ks 0%Z)).
Defined.
