(* ===== verification/SshServer.v ===== *)
(** plenith/ssh_server.py and plenith/state_store.py: the server's live connections, the
    kill poller they share, and the engagement state kept between connections.

    The server is a state with one function per callback; a run is a list of events in
    the order in which the event loop and the operators' processes produce them. *)

From S2P Require Import Prelude PyStr Posix Vfs Regex Float Json CounterAI Synthetic Session.
From S2P Require Import Heuristics Responses Shell Search Orchestrator KillQueue.

(** ** plenith/state_store.py *)

Definition key_char (c : N) : bool :=
  is_alpha c || is_digit c || (c =? 95)%N || (c =? 46)%N || (c =? 45)%N.

Definition _safe_key (ip user : str) : str :=
  map (λ c, if key_char c then c else 95%N) (ip ++ "__"%py ++ user).


Definition _path_for (ip user : str) : str := _safe_key ip user ++ ".json"%py.
(** The directory is a map from file names to states. *)
Definition load (ip user : str) (d : gmap str saved) : option saved := d !! _path_for ip user.
Definition save (ip user : str) (state : saved) (d : gmap str saved) : gmap str saved := <[_path_for ip user := state]> d.

(** ** A connection *)

Record conn := mk_conn {
  _session : Session; _conn_started : time; _closed : bool; _queue : list str; shown : list str
}.

Definition close (c : conn) : conn := mk_conn (_session c) (_conn_started c) true (_queue c) (shown c).

(** [_safe_write]: [pipe] tells whether the channel takes the text. *)
Definition _safe_write (pipe : bool) (text : str) (c : conn) : conn :=
  if _closed c then c
  else if pipe then mk_conn (_session c) (_conn_started c) (_closed c) (_queue c) (shown c ++ [text])
  else close c.

Definition _prompt (s : Session) : str :=
  let h := home (persona s) in
  let cwd := if startswith (cwd s) h then "~"%py ++ drop (length h) (cwd s) else cwd s in
  username (persona s) ++ "@"%py ++ hostname (persona s) ++ ":"%py ++ cwd ++ "$ "%py.

Definition _banner (banner : str) : str :=
  "Welcome to "%py ++ banner ++ "\r\nLast login: Tue May 11 09:14:22 2026 from 10.10.5.7\r\n"%py.

(** [data.replace("\r\n", "\n").replace("\r", "\n")]. *)
Fixpoint newlines (s : str) : str :=
  match s with
  | 13%N :: ((10%N :: r) as r0) => newlines r0
  | 13%N :: r => 10%N :: newlines r
  | c :: r => c :: newlines r
  | [] => []
  end.

(** The commands that a chunk of typing queues. *)
Definition lines_of (data : str) : list str :=
  flat_map (λ raw, let cmd := strip raw in
              if negb (bool_decide (cmd = [])) || bool_decide (raw = []) then [cmd] else [])
    (split_on NEWLINE (newlines data)).

Definition data_received (data : str) (c : conn) : conn :=
  if _closed c then c
  else mk_conn (_session c) (_conn_started c) (_closed c) (_queue c ++ lines_of data) (shown c).

(** [response.replace("\n", "\r\n")], ended by a newline. *)
Definition to_terminal (response : str) : str :=
  flat_map (λ c, if (c =? NEWLINE)%N then [13; 10]%N else [c])
    (if endswith response "\n"%py then response else response ++ "\n"%py).

(** ** The server *)

Record server := mk_server {
  conns : gmap nat conn;                    (* connections between made and lost *)
  _LIVE_SESSIONS : gmap str (gset nat);
  _PENDING_VIEW : gmap str kill_entry;
  kills : gmap str kill_entry;                        (* the kill queue's file *)
  states : gmap str saved
}.

Definition with_conns f sv := mk_server (f (conns sv)) (_LIVE_SESSIONS sv) (_PENDING_VIEW sv) (kills sv) (states sv).
Definition with_live f sv := mk_server (conns sv) (f (_LIVE_SESSIONS sv)) (_PENDING_VIEW sv) (kills sv) (states sv).
Definition with_view v sv := mk_server (conns sv) (_LIVE_SESSIONS sv) v (kills sv) (states sv).
Definition with_kills f sv := mk_server (conns sv) (_LIVE_SESSIONS sv) (_PENDING_VIEW sv) (f (kills sv)) (states sv).
Definition with_states f sv := mk_server (conns sv) (_LIVE_SESSIONS sv) (_PENDING_VIEW sv) (kills sv) (f (states sv)).

Definition new_server (files : gmap str kill_entry) (dir : gmap str saved) : server := mk_server ∅ ∅ ∅ files dir.

Definition set_conn (i : nat) (c : conn) : server → server := with_conns (insert i c).

(** [_apply_kill(entry)] on connection [i]. *)
Definition _apply_kill (i : nat) (e : kill_entry) (now : time) (sv : server) : bool * server :=
  match conns sv !! i with
  | None => (false, sv)
  | Some c =>
      let eid := engagement_id (_session c) in
      if _closed c || negb (is_pending e) then (false, sv)
      else if (requested_at e <? _conn_started c)%Z then (false, with_kills (λ q, (cancel eid now q).2) sv)
      else (true, with_kills (λ q, (mark_killed eid now q).2) (set_conn i (close c) sv))
  end.

Section callbacks.
Context {G : Type} `{Random G} `{Policy} `{Plugins}.
Context (exact : gmap str str) (banner : str).

(** The order in which a set of live sessions is walked. *)
Context (set_order : gset nat → list nat).

(** What a new connection brings: the arguments of [Session] but for the restored state. *)
Record hello := mk_hello {
  h_id : str; h_uuid : str; h_user : str; h_ip : str; h_persona : Persona; h_start : flt;
  h_bot : option (list Persona); h_rot : option artifacts
}.

Definition new_session (h : hello) (prior : option saved) : exc Session :=
  connect (G := G) (h_id h) (h_uuid h) (h_user h) (h_ip h) (h_persona h) (h_start h) (h_bot h) (h_rot h) prior.

(** [connection_made]: registers the session; when its constructor raises there is none. *)
Definition connection_made (i : nat) (h : hello) (now : time) (sv : server) : server :=
  match new_session h (load (h_ip h) (h_user h) (states sv)) with
  | Raise _ => sv
  | Ok s =>
      let eid := engagement_id s in
      with_live (λ l, <[eid := {[i]} ∪ default ∅ (l !! eid)]> l)
        (set_conn i (mk_conn s now false [] [_banner banner; _prompt s]) sv)
  end.

(** The queue's next command, as the worker runs it once nothing stops it. *)
Definition run_line (w : world) (pipe : bool) (cmd : str) (c : conn) : conn :=
  let '(r, s1) := handle_command (G := G) exact w cmd (_session c) in
  let on s := mk_conn s (_conn_started c) (_closed c) (_queue c) (shown c) in
  let c1 := match r with
            | Ok (Some (response, source)) =>
                let c1 := on (record_command (w_moment w) cmd source response s1) in
                match response with [] => c1 | _ => _safe_write pipe (to_terminal response) c1 end
            | _ => _safe_write pipe "bash: internal error\r\n"%py (on s1)
            end in
  _safe_write pipe (_prompt (_session c1)) c1.

Definition leaves (cmd : str) : bool := bool_decide (cmd ∈ ["exit"; "logout"; "quit"]%py).

(** One turn of [_run_worker] on connection [i]. *)
Definition work (i : nat) (w : world) (pipe : bool) (now : time) (sv : server) : server :=
  match conns sv !! i with
  | Some c =>
      match _queue c with
      | [] => sv
      | cmd :: rest =>
          let c := mk_conn (_session c) (_conn_started c) (_closed c) rest (shown c) in
          let sv := set_conn i c sv in
          if _closed c then sv
          else
            let '(killed, sv) :=
              match _PENDING_VIEW sv !! engagement_id (_session c) with
              | Some e => _apply_kill i e now sv
              | None => (false, sv)
              end in
            if killed then sv
            else match cmd with
                 | [] => set_conn i (_safe_write pipe (_prompt (_session c)) c) sv
                 | _ => if leaves cmd then set_conn i (close (_safe_write pipe "logout\r\n"%py c)) sv
                        else set_conn i (run_line w pipe cmd c) sv
                 end
      end
  | None => sv
  end.

(** [connection_lost]: deregisters, and saves the engagement. *)
Definition connection_lost (i : nat) (sv : server) : server :=
  match conns sv !! i with
  | None => sv
  | Some c =>
      let s := _session c in
      let eid := engagement_id s in
      with_states (save (source_ip s) (claimed_user s) (to_persistent_state s))
        (with_live (λ l, match l !! eid with
                         | None => l
                         | Some live => let live := live ∖ {[i]} in
                                        if decide (live = ∅) then delete eid l else <[eid := live]> l
                         end)
           (with_conns (delete i) sv))
  end.

Definition kill_one (e : kill_entry) (now : time) (sv : server) (i : nat) : server := (_apply_kill i e now sv).2.

(** The dispatch of one pending engagement to its live sessions. *)
Definition kill_engagement (now : time) (sv : server) (eid : str) : server :=
  match _PENDING_VIEW sv !! eid with
  | Some e => foldl (kill_one e now) sv (set_order (default ∅ (_LIVE_SESSIONS sv !! eid)))
  | None => sv
  end.

Definition _kill_poll_once (now : time) (sv : server) : server :=
  let view := filter (λ kv, is_pending kv.2 = true) (all now (kills sv)) in
  foldl (kill_engagement now) (with_view view sv) (sorted_keys view).

(** ** Runs *)

Inductive event :=
| Connect (i : nat) (h : hello)
| Typed (i : nat) (data : str)
| Work (i : nat) (w : world) (pipe : bool)
| Lost (i : nat)
| Tick
| RequestKill (eid by_ why : str)
| CancelKill (eid : str).

(** One event at time [now]; the ids of connections are new. *)
Definition step (sv : server) (now : time) (ev : event) : server :=
  match ev with
  | Connect i h => match conns sv !! i with Some _ => sv | None => connection_made i h now sv end
  | Typed i data => with_conns (alter (data_received data) i) sv
  | Work i w pipe => work i w pipe now sv
  | Lost i => connection_lost i sv
  | Tick => _kill_poll_once now sv
  | RequestKill eid by_ why => with_kills (λ q, (request_kill eid by_ why now q).2) sv
  | CancelKill eid => with_kills (λ q, (cancel eid now q).2) sv
  end.

Definition trace := list (time * event).
Definition run (sv : server) (tr : trace) : server := foldl (λ sv te, step sv te.1 te.2) sv tr.
End callbacks.
