(* ===== verification/SshProps.v ===== *)
(** Properties of the SSH server: whatever the interleaving, each connection's session is a
    sequential run of its own commands, kill requests hit the connections they were made
    against, and a poll leaves none of them open. *)

From S2P Require Import Prelude PyStr Posix Vfs Regex Float Json CounterAI Synthetic Session.
From S2P Require Import Heuristics Responses Engagement Shell Search Orchestrator Pipeline KillQueue SshServer.

(** ** Folds *)

Lemma foldl_inv {A B} (f : A → B → A) (P : A → Prop) l s :
  P s → (∀ s x, P s → P (f s x)) → P (foldl f s l).
Proof. intros Hs Hf. revert s Hs. induction l as [|x l IH]; intros s Hs; cbn; auto. Qed.

(** What one element establishes and the others keep holds at the end. *)
Lemma foldl_hits {A B} (f : A → B → A) (I P : A → Prop) x l s :
  x ∈ l → I s → (∀ s y, I s → I (f s y)) → (∀ s, I s → P (f s x)) →
  (∀ s y, I s → P s → P (f s y)) → P (foldl f s l).
Proof.
  intros Hx Hs HI Hhit HP. revert s Hs. induction l as [|y l IH]; [by apply not_elem_of_nil in Hx|].
  intros s Hs. cbn [foldl]. apply elem_of_cons in Hx as [->|Hx]; [|by apply IH; auto].
  assert (H : I (foldl f (f s y) l) ∧ P (foldl f (f s y) l)); [|by destruct H].
  apply (foldl_inv f (λ s, I s ∧ P s)); [auto|]. intros s' z [? ?]. auto.
Qed.

(** ** The engagement of a session never changes *)

Definition same_id (s s' : Session) : Prop := engagement_id s' = engagement_id s.

#[export] Instance same_id_preorder : PreOrder same_id.
Proof. unfold same_id. split; [done | intros a b c H1 H2; congruence]. Qed.

Lemma on_observed_id b f s : engagement_id (on_observed b f s) = engagement_id s.
Proof. by destruct b. Qed.

#[export] Instance same_id_primitives : Primitives same_id.
Proof.
  split.
  - apply same_id_preorder.
  - done.
  - intros op path s. unfold observe_vfs_event. cbv zeta.
    unfold same_id. by destruct op; rewrite !on_observed_id.
  - intros n r s. apply on_observed_id.
Qed.

(** Policies and plugins that keep the engagement. *)
Class KeepsIdentity `{Policy} `{Plugins} : Prop := {
  policy_id t s a s' : policy_decide t s = Some (a, s') → same_id s s';
  detectors_id cmd s : same_id s (run_detectors cmd s);
  responders_id a s : same_id s (run_responders a s);
}.

Section server.
Context {G : Type} `{Random G} `{Policy} `{Plugins} `{!KeepsIdentity}.
Context (exact : gmap str str) (banner : str) (set_order : gset nat → list nat).

Lemma plant_decoy_id path body cred kind s : same_id s (plant_decoy path body cred kind s).
Proof. unfold plant_decoy. by destruct cred. Qed.

Lemma execute_id name s : same_id s (execute (G := G) name s).
Proof.
  unfold execute, _plant_sudo_vulnerability, _spawn_fake_mysql, _plant_aws_credentials.
  repeat case_bool_decide; try apply plant_decoy_id. reflexivity.
Qed.

Lemma action_loop_id n t cmd s : same_id s (action_loop (G := G) n t cmd s).1.
Proof.
  revert s. induction n as [|n IH]; intros s; cbn [action_loop]; [reflexivity|].
  destruct (policy_decide t s) as [[a s']|] eqn:E; [|reflexivity].
  etransitivity; [by eapply policy_id|]. etransitivity; [|apply IH].
  unfold apply_action. etransitivity; [|apply responders_id]. etransitivity; [|apply execute_id]. done.
Qed.

Lemma handle_command_id w cmd : keeps same_id (handle_command (G := G) exact w cmd).
Proof.
  unfold handle_command. cbv zeta.
  apply keeps_bind; [apply keeps_modify; intros s; by destruct (update_observations_frame (w_moment w) cmd s) as [o ->] | intros _].
  apply keeps_bind; [apply keeps_modify, detectors_id | intros _].
  apply keeps_bind; [apply keeps_modify; intros s; apply action_loop_id | intros _].
  apply keeps_bind; [by apply dispatch_keeps|]. intros r.
  apply keeps_bind; [apply keeps_modify; intros s; apply action_loop_id | intros _]. apply keeps_ret.
Qed.

(** ** What the events do to the sessions *)

(** A connection but for being closed and what it shows. *)
Definition core (c : conn) : Session * time * list str := (_session c, _conn_started c, _queue c).
Definition sessions (sv : server) : gmap nat (Session * time * list str) := core <$> conns sv.

Lemma apply_kill_sessions i e now sv : sessions (_apply_kill i e now sv).2 = sessions sv.
Proof.
  unfold _apply_kill. destruct (conns sv !! i) as [c|] eqn:E; [|done].
  destruct (_closed c || _); [done|]. destruct (_ <? _)%Z; [done|].
  unfold sessions. cbn. rewrite fmap_insert. apply insert_id. by rewrite lookup_fmap, E.
Qed.

Lemma kill_engagement_sessions now sv eid : sessions (kill_engagement set_order now sv eid) = sessions sv.
Proof.
  unfold kill_engagement. destruct (_PENDING_VIEW sv !! eid) as [e|]; [|done].
  apply foldl_inv; [done|]. intros s x <-. apply apply_kill_sessions.
Qed.

Lemma tick_sessions now sv : sessions (_kill_poll_once set_order now sv) = sessions sv.
Proof.
  unfold _kill_poll_once. apply foldl_inv; [done|]. intros s x <-. apply kill_engagement_sessions.
Qed.

Lemma safe_write_session pipe text c :
  _session (_safe_write pipe text c) = _session c ∧ _conn_started (_safe_write pipe text c) = _conn_started c ∧
  _queue (_safe_write pipe text c) = _queue c.
Proof. unfold _safe_write. by destruct (_closed c), pipe. Qed.

(** A line runs the command on the session, as a connection of its own would. *)
Lemma run_line_session w pipe cmd c :
  _session (run_line (G := G) exact w pipe cmd c) = (serve (G := G) exact [(w, cmd)] (_session c)).2 ∧
  _conn_started (run_line (G := G) exact w pipe cmd c) = _conn_started c ∧
  _queue (run_line (G := G) exact w pipe cmd c) = _queue c.
Proof.
  unfold run_line. cbn [serve]. destruct (handle_command exact w cmd (_session c)) as [r s1].
  destruct r as [[[response source]|]|e]; cbv zeta; cbn [snd];
    rewrite !(proj1 (safe_write_session _ _ _)), !(proj1 (proj2 (safe_write_session _ _ _))),
            !(proj2 (proj2 (safe_write_session _ _ _))); try done.
  destruct response; [done|].
  by rewrite !(proj1 (safe_write_session _ _ _)), !(proj1 (proj2 (safe_write_session _ _ _))),
             !(proj2 (proj2 (safe_write_session _ _ _))).
Qed.

Lemma sessions_conn sv sv' i c' : sessions sv' = sessions sv → conns sv' !! i = Some c' →
  ∃ c, conns sv !! i = Some c ∧ core c = core c'.
Proof.
  intros E Hc. apply (f_equal (λ m, m !! i)) in E. unfold sessions in E. rewrite !lookup_fmap, Hc in E.
  destruct (conns sv !! i) as [c|]; [|done]. exists c. split; [done|]. by apply Some_inj in E.
Qed.

Lemma serve_app ws1 ws2 s :
  (serve (G := G) exact (ws1 ++ ws2) s).2 = (serve (G := G) exact ws2 (serve (G := G) exact ws1 s).2).2.
Proof.
  revert s. induction ws1 as [|[w cmd] ws1 IH]; intros s; cbn [app serve]; [done|].
  destruct (handle_command exact w cmd s) as [r s1]. set (s2 := match r with Ok (Some (body, source)) => _ | _ => s1 end).
  specialize (IH s2). destruct (serve exact (ws1 ++ ws2) s2), (serve exact ws1 s2). exact IH.
Qed.

(** ** Every session is a sequential run *)

(** A line typed on connection [i]. *)
Definition typed (tr : trace) (i : nat) (cmd : str) : Prop :=
  ∃ t data, (t, Typed i data) ∈ tr ∧ cmd ∈ lines_of data.

(** The session is that of a connection of its own that ran lines typed on it. *)
Definition sequential (tr : trace) (i : nat) (c : conn) : Prop :=
  ∃ h prior s0 ws, (_conn_started c, Connect i h) ∈ tr ∧ new_session (G := G) h prior = Ok s0 ∧
    _session c = (serve (G := G) exact ws s0).2 ∧ Forall (λ wc, typed tr i wc.2) ws.

Definition seq_inv (tr : trace) (sv : server) : Prop :=
  ∀ i c, conns sv !! i = Some c → sequential tr i c ∧ Forall (typed tr i) (_queue c).

Lemma typed_more tr te i cmd : typed tr i cmd → typed (tr ++ [te]) i cmd.
Proof. intros (t&d&?&?). exists t, d. split; [|done]. apply elem_of_app. by left. Qed.

Lemma sequential_more tr te i c : sequential tr i c → sequential (tr ++ [te]) i c.
Proof.
  intros (h&prior&s0&ws&Hin&?&?&Hw). exists h, prior, s0, ws. split_and!; [apply elem_of_app; by left|done|done|].
  eapply Forall_impl; [exact Hw|]. intros. by apply typed_more.
Qed.

Lemma sequential_core tr i c c' : _session c' = _session c → _conn_started c' = _conn_started c →
  sequential tr i c → sequential tr i c'.
Proof. intros E1 E2 (h&prior&s0&ws&?). exists h, prior, s0, ws. by rewrite E1, E2. Qed.

(** What leaves the cores alone keeps the invariant. *)
Lemma seq_inv_core tr sv sv' : sessions sv' = sessions sv → seq_inv tr sv → seq_inv tr sv'.
Proof.
  intros E Hi i c' Hc. destruct (sessions_conn _ _ _ _ E Hc) as (c&Hc0&[= E1 E2 E3]).
  destruct (Hi i c Hc0) as [Hs Hq]. split; [by apply (sequential_core tr i c) | by rewrite <- E3].
Qed.

Lemma seq_inv_more tr te sv : seq_inv tr sv → seq_inv (tr ++ [te]) sv.
Proof.
  intros Hi i c Hc. destruct (Hi i c Hc) as [Hs Hq]. split; [by apply sequential_more|].
  eapply Forall_impl; [exact Hq|]. intros. by apply typed_more.
Qed.

Lemma seq_inv_set tr sv i c : seq_inv tr sv → sequential tr i c → Forall (typed tr i) (_queue c) →
  seq_inv tr (set_conn i c sv).
Proof.
  intros Hi Hs Hq j c'. unfold set_conn. cbn. rewrite lookup_insert. case_decide as Hij; [|apply Hi].
  subst j. by intros [= <-].
Qed.

Lemma sequential_line tr i w pipe cmd c : sequential tr i c → typed tr i cmd →
  sequential tr i (run_line (G := G) exact w pipe cmd c).
Proof.
  intros (h&prior&s0&ws&Hin&Hn&Hs&Hw) Hcmd. destruct (run_line_session w pipe cmd c) as (E1&E2&_).
  exists h, prior, s0, (ws ++ [(w, cmd)]). rewrite E1, E2, serve_app, <- Hs. split_and!; [done|done|done|].
  apply Forall_app. split; [done|]. by apply Forall_singleton.
Qed.

Lemma seq_inv_work tr now i w pipe sv : seq_inv tr sv → seq_inv tr (work (G := G) exact i w pipe now sv).
Proof.
  intros Hi. unfold work. destruct (conns sv !! i) as [c|] eqn:Hc; [|done].
  destruct (_queue c) as [|cmd rest] eqn:Hq; [done|].
  destruct (Hi i c Hc) as [Hs HQ]. rewrite Hq in HQ. apply Forall_cons in HQ as [Hcmd HQ].
  set (c1 := mk_conn (_session c) (_conn_started c) (_closed c) rest (shown c)).
  assert (Hs1 : sequential tr i c1) by (by apply (sequential_core tr i c)).
  assert (Hi1 : seq_inv tr (set_conn i c1 sv)) by (by apply seq_inv_set).
  destruct (_closed c1); [done|].
  set (r := match _PENDING_VIEW _ !! _ with Some e => _ | None => _ end).
  assert (Hr : sessions r.2 = sessions (set_conn i c1 sv)).
  { unfold r. destruct (_PENDING_VIEW _ !! _); [apply apply_kill_sessions | done]. }
  destruct r as [[] sv2]; cbn [snd] in Hr; apply (seq_inv_core _ _ sv2) in Hi1; try done.
  assert (Hwrite : ∀ text, seq_inv tr (set_conn i (_safe_write pipe text c1) sv2) ∧
                           seq_inv tr (set_conn i (close (_safe_write pipe text c1)) sv2)).
  { intros text. destruct (safe_write_session pipe text c1) as (E1&E2&E3).
    split; (apply seq_inv_set; [done | by apply (sequential_core tr i c1) | cbn; by rewrite E3]). }
  destruct cmd as [|ch cmd]; [apply Hwrite|]. destruct (leaves _); [apply Hwrite|].
  apply seq_inv_set; [done | by apply sequential_line|].
  by rewrite (proj2 (proj2 (run_line_session w pipe (ch :: cmd) c1))).
Qed.

Lemma seq_inv_step tr now ev sv : seq_inv tr sv →
  seq_inv (tr ++ [(now, ev)]) (step (G := G) exact banner set_order sv now ev).
Proof.
  intros Hi. pose proof (seq_inv_more tr (now, ev) sv Hi) as Hm.
  destruct ev as [i h|i data|i w pipe|i| |eid by_ why|eid]; cbn [step].
  - destruct (conns sv !! i) as [c|]; [done|]. unfold connection_made.
    destruct (new_session h _) as [s|e] eqn:E; [|done].
    intros j c. cbn. rewrite lookup_insert. case_decide as Hij; [|apply Hm]. subst j. intros [= <-].
    split; [|by constructor]. exists h, (load (h_ip h) (h_user h) (states sv)), s, [].
    split_and!; [apply elem_of_app; right; by constructor | done | done | by constructor].
  - intros j c. cbn. destruct (decide (i = j)) as [<-|Hij]; [|rewrite lookup_alter_ne by done; apply Hm].
    rewrite lookup_alter_eq. destruct (conns sv !! i) as [c0|] eqn:Hc; [|done]. cbn. intros [= <-].
    destruct (Hm i c0 Hc) as [Hs Hq]. unfold data_received. destruct (_closed c0); [done|].
    split; [by apply (sequential_core _ i c0)|]. cbn. apply Forall_app. split; [done|].
    apply Forall_forall. intros cmd Hin. exists now, data. split; [|done].
    apply elem_of_app. right. by constructor.
  - by apply seq_inv_work.
  - unfold connection_lost. destruct (conns sv !! i) as [c|]; [|done].
    intros j c'. cbn. rewrite lookup_delete. case_decide; [done|]. apply Hm.
  - by apply (seq_inv_core _ sv), Hm; apply tick_sessions.
  - exact Hm.
  - exact Hm.
Qed.

Lemma seq_inv_run files dir tr : seq_inv tr (run (G := G) exact banner set_order (new_server files dir) tr).
Proof.
  induction tr as [|[now ev] tr IH] using rev_ind; [by intros i c|].
  unfold run in *. rewrite foldl_app. cbn [foldl fst snd]. by apply seq_inv_step.
Qed.


(** ** The poller's registry *)

Definition ids (sv : server) : gmap nat str := (λ c, engagement_id (_session c)) <$> conns sv.

(** The registry holds exactly the live connections, under their engagements. *)
Definition registered (sv : server) : Prop :=
  ∀ eid i, i ∈ default ∅ (_LIVE_SESSIONS sv !! eid) ↔ ids sv !! i = Some eid.

Lemma ids_of_sessions sv sv' : sessions sv' = sessions sv → ids sv' = ids sv.
Proof.
  intros E. assert (Hids : ∀ sv, ids sv = (λ x, engagement_id x.1.1) <$> sessions sv)
    by (intros sv0; unfold ids, sessions; by rewrite <- map_fmap_compose).
  by rewrite !Hids, E.
Qed.

Lemma ids_set i c c' sv : conns sv !! i = Some c → engagement_id (_session c') = engagement_id (_session c) →
  ids (set_conn i c' sv) = ids sv.
Proof. intros Hc E. unfold ids. cbn. rewrite fmap_insert, E. apply insert_id. by rewrite lookup_fmap, Hc. Qed.

Lemma run_line_id w pipe cmd c : engagement_id (_session (run_line (G := G) exact w pipe cmd c)) = engagement_id (_session c).
Proof.
  rewrite (proj1 (run_line_session w pipe cmd c)). cbn [serve].
  pose proof (handle_command_id w cmd (_session c)) as Hid. destruct (handle_command exact w cmd _) as [r s1].
  cbn [snd] in *. by destruct r as [[[]|]|].
Qed.

Lemma apply_kill_live i e now sv : _LIVE_SESSIONS (_apply_kill i e now sv).2 = _LIVE_SESSIONS sv ∧
  _PENDING_VIEW (_apply_kill i e now sv).2 = _PENDING_VIEW sv.
Proof.
  unfold _apply_kill. destruct (conns sv !! i); [|done]. destruct (_closed c || _); [done|]. by destruct (_ <? _)%Z.
Qed.

Lemma work_frame i w pipe now sv :
  ids (work (G := G) exact i w pipe now sv) = ids sv ∧
  _LIVE_SESSIONS (work (G := G) exact i w pipe now sv) = _LIVE_SESSIONS sv ∧
  _PENDING_VIEW (work (G := G) exact i w pipe now sv) = _PENDING_VIEW sv.
Proof.
  unfold work. destruct (conns sv !! i) as [c|] eqn:Hc; [|done]. destruct (_queue c) as [|cmd rest]; [done|].
  set (c1 := mk_conn (_session c) (_conn_started c) (_closed c) rest (shown c)).
  set (sv1 := set_conn i c1 sv). assert (E1 : ids sv1 = ids sv) by (by apply (ids_set i c)).
  destruct (_closed c1); [done|].
  set (r := match _PENDING_VIEW _ !! _ with Some e => _ | None => _ end).
  assert (Hr : ids r.2 = ids sv ∧ _LIVE_SESSIONS r.2 = _LIVE_SESSIONS sv ∧ _PENDING_VIEW r.2 = _PENDING_VIEW sv).
  { rewrite <- E1. unfold r. destruct (_PENDING_VIEW _ !! _) as [e|]; [|done].
    destruct (apply_kill_live i e now sv1) as [El Ev].
    split_and!; [apply ids_of_sessions, apply_kill_sessions | exact El | exact Ev]. }
  destruct r as [[] sv2]; [done|]. cbn [snd] in Hr. destruct Hr as (Hi&Hl&Hv).
  assert (Hset : ∀ c', engagement_id (_session c') = engagement_id (_session c) → ids (set_conn i c' sv2) = ids sv).
  { intros c' Hc'. assert (Hx : ids sv !! i = Some (engagement_id (_session c))) by (unfold ids; by rewrite lookup_fmap, Hc).
    rewrite <- Hi in Hx. unfold ids in Hx. rewrite lookup_fmap in Hx.
    destruct (conns sv2 !! i) as [c2|] eqn:Hc2; [|done]. apply Some_inj in Hx.
    rewrite <- Hi. apply (ids_set i c2); [done|]. by rewrite Hc', Hx. }
  destruct cmd as [|ch cmd]; [|destruct (leaves _)];
    (split; [apply Hset | done]).
  - by rewrite (proj1 (safe_write_session _ _ _)).
  - cbn. by rewrite (proj1 (safe_write_session _ _ _)).
  - exact (run_line_id w pipe (ch :: cmd) c1).
Qed.

Lemma registered_same sv sv' : ids sv' = ids sv → _LIVE_SESSIONS sv' = _LIVE_SESSIONS sv →
  registered sv → registered sv'.
Proof. unfold registered. intros -> ->. done. Qed.

Lemma tick_live now sv : _LIVE_SESSIONS (_kill_poll_once set_order now sv) = _LIVE_SESSIONS sv.
Proof.
  unfold _kill_poll_once. apply foldl_inv; [done|]. intros s eid <-. unfold kill_engagement.
  destruct (_PENDING_VIEW s !! eid) as [e|]; [|done]. apply foldl_inv; [done|]. intros s' x <-. apply apply_kill_live.
Qed.

Lemma registered_step now ev sv : registered sv → registered (step (G := G) exact banner set_order sv now ev).
Proof.
  intros Hr. destruct ev as [i h|i data|i w pipe|i| |eid by_ why|eid]; cbn [step]; try exact Hr.
  - destruct (conns sv !! i) as [c|] eqn:Hc; [done|]. unfold connection_made.
    destruct (new_session h _) as [s|e]; [|done]. intros eid j. unfold ids. cbn. rewrite fmap_insert. cbn.
    assert (Hj : j ∈ default ∅ (_LIVE_SESSIONS sv !! eid) ↔ ids sv !! j = Some eid) by apply Hr.
    assert (Hi : ids sv !! i = None) by (unfold ids; by rewrite lookup_fmap, Hc).
    rewrite !lookup_insert. fold (ids sv).
    destruct (decide (engagement_id s = eid)) as [<-|He]; cbn;
      (destruct (decide (i = j)) as [<-|Hij]).
    + split; [done|]. intros _. apply elem_of_union_l, elem_of_singleton. done.
    + rewrite elem_of_union, elem_of_singleton, <- Hj. naive_solver.
    + rewrite Hj, Hi. naive_solver.
    + exact Hj.
  - apply (registered_same sv); [|done|done]. unfold ids. cbn. apply map_eq. intros j. rewrite !lookup_fmap.
    destruct (decide (i = j)) as [<-|Hij]; [rewrite lookup_alter_eq | by rewrite lookup_alter_ne].
    destruct (conns sv !! i) as [c|]; [|done]. cbn. unfold data_received. by destruct (_closed c).
  - destruct (work_frame i w pipe now sv) as (?&?&_). by apply (registered_same sv).
  - unfold connection_lost. destruct (conns sv !! i) as [c|] eqn:Hc; [|done]. intros eid j. unfold ids. cbn.
    rewrite fmap_delete, lookup_delete. fold (ids sv). pose proof (Hr eid j) as Hj.
    assert (Hi : ids sv !! i = Some (engagement_id (_session c))) by (unfold ids; by rewrite lookup_fmap, Hc).
    set (e0 := engagement_id (_session c)) in *.
    destruct (_LIVE_SESSIONS sv !! e0) as [X|] eqn:HX.
    2: { exfalso. assert (i ∈ default ∅ (_LIVE_SESSIONS sv !! e0)) by (by apply Hr). rewrite HX in *. set_solver. }
    assert (Hd : default ∅ ((if decide (X ∖ {[i]} = ∅) then delete e0 (_LIVE_SESSIONS sv)
                             else <[e0 := X ∖ {[i]}]> (_LIVE_SESSIONS sv)) !! eid)
                 = default ∅ (_LIVE_SESSIONS sv !! eid) ∖ (if decide (e0 = eid) then {[i]} else ∅)).
    { destruct (decide (e0 = eid)) as [<-|Hne]; rewrite ?HX; destruct (decide (X ∖ {[i]} = ∅)) as [E|E].
      - rewrite lookup_delete_eq. cbn. by rewrite E.
      - by rewrite lookup_insert_eq.
      - rewrite lookup_delete_ne by done. set_solver.
      - rewrite lookup_insert_ne by done. set_solver. }
    rewrite Hd, elem_of_difference, Hj. destruct (decide (i = j)) as [<-|Hij].
    + split; [|done]. rewrite Hi. intros [[= ->] Hn]. rewrite decide_True in Hn by done. set_solver.
    + destruct (decide (e0 = eid)); set_solver.
  - apply (registered_same sv); [apply ids_of_sessions, tick_sessions | apply tick_live | done].
Qed.

Lemma registered_run files dir tr : registered (run (G := G) exact banner set_order (new_server files dir) tr).
Proof.
  induction tr as [|[now ev] tr IH] using rev_ind; [by intros eid i|].
  unfold run in *. rewrite foldl_app. by apply registered_step.
Qed.

(** ** Where kill requests come from *)

(** Pending entries only go away. *)
Definition shrinks (q q' : gmap str kill_entry) : Prop :=
  ∀ k e, is_pending e = true → q' !! k = Some e → q !! k = Some e.

#[export] Instance shrinks_preorder : PreOrder shrinks.
Proof. split; [by intros q k e | intros a b c H3 H4 k e He Hc; auto]. Qed.

Lemma cancel_shrinks eid now q : shrinks q (cancel eid now q).2.
Proof. intros k e _. destruct (cancel_lookup eid now q k) as [->| ->]; [done|done]. Qed.

Lemma mark_shrinks eid now q : shrinks q (mark_killed eid now q).2.
Proof.
  intros k e He. destruct (mark_lookup eid now q k) as [->|(e'&_&->&Hp)]; [done|]. intros [= ->]. congruence.
Qed.

Lemma apply_kill_shrinks i e now sv : shrinks (kills sv) (kills (_apply_kill i e now sv).2).
Proof.
  unfold _apply_kill. destruct (conns sv !! i); [|reflexivity]. destruct (_closed c || _); [reflexivity|].
  destruct (_ <? _)%Z; [apply cancel_shrinks | apply mark_shrinks].
Qed.

Lemma kill_engagement_shrinks now sv eid : shrinks (kills sv) (kills (kill_engagement set_order now sv eid)).
Proof.
  unfold kill_engagement. destruct (_PENDING_VIEW sv !! eid) as [e|]; [|reflexivity].
  apply foldl_inv; [reflexivity|]. intros s x Hs. etransitivity; [exact Hs | apply apply_kill_shrinks].
Qed.

Lemma tick_shrinks now sv : shrinks (kills sv) (kills (_kill_poll_once set_order now sv)).
Proof.
  unfold _kill_poll_once. apply foldl_inv; [reflexivity|]. intros s x Hs.
  etransitivity; [exact Hs | apply kill_engagement_shrinks].
Qed.

Lemma work_shrinks i w pipe now sv : shrinks (kills sv) (kills (work (G := G) exact i w pipe now sv)).
Proof.
  unfold work. destruct (conns sv !! i) as [c|]; [|reflexivity]. destruct (_queue c) as [|cmd rest]; [reflexivity|].
  set (c1 := mk_conn _ _ _ _ _). destruct (_closed c1); [reflexivity|].
  set (r := match _PENDING_VIEW _ !! _ with Some e => _ | None => _ end).
  assert (Hr : shrinks (kills sv) (kills r.2)).
  { unfold r. destruct (_PENDING_VIEW _ !! _) as [e|]; [|reflexivity]. exact (apply_kill_shrinks i e now (set_conn i c1 sv)). }
  destruct r as [[] sv2]; [exact Hr|]. destruct cmd; [exact Hr|]. by destruct (leaves _).
Qed.

Lemma tick_view now sv :
  _PENDING_VIEW (_kill_poll_once set_order now sv) = filter (λ kv, is_pending kv.2 = true) (all now (kills sv)).
Proof.
  unfold _kill_poll_once. apply foldl_inv; [done|]. intros s eid <-. unfold kill_engagement.
  destruct (_PENDING_VIEW s !! eid) as [e|]; [|done]. apply foldl_inv; [done|]. intros s' x <-. apply apply_kill_live.
Qed.

(** A request that an operator made at the time the entry bears. *)
Definition requested (tr : trace) (eid : str) (e : kill_entry) : Prop :=
  ∃ by_ why, (requested_at e, RequestKill eid by_ why) ∈ tr.

Definition originated (tr : trace) (sv : server) : Prop :=
  ∀ eid e, is_pending e = true → kills sv !! eid = Some e ∨ _PENDING_VIEW sv !! eid = Some e → requested tr eid e.

Lemma requested_more tr te eid e : requested tr eid e → requested (tr ++ [te]) eid e.
Proof. intros (b&y&Hin). exists b, y. apply elem_of_app. by left. Qed.

Lemma originated_shrinks tr te sv sv' : originated tr sv → shrinks (kills sv) (kills sv') →
  _PENDING_VIEW sv' = _PENDING_VIEW sv → originated (tr ++ [te]) sv'.
Proof.
  intros Ho Hs Hv eid e He Hin. apply requested_more, Ho; [done|]. rewrite <- Hv. destruct Hin; [left; by apply Hs | by right].
Qed.

Lemma originated_step tr now ev sv : originated tr sv →
  originated (tr ++ [(now, ev)]) (step (G := G) exact banner set_order sv now ev).
Proof.
  intros Ho. destruct ev as [i h|i data|i w pipe|i| |eid by_ why|eid]; cbn [step].
  - apply (originated_shrinks _ _ sv); [done|..]; (destruct (conns sv !! i); [done|]; unfold connection_made;
      by destruct (new_session h _)).
  - by apply (originated_shrinks _ _ sv).
  - apply (originated_shrinks _ _ sv); [done | apply work_shrinks | apply work_frame].
  - apply (originated_shrinks _ _ sv); [done|..]; unfold connection_lost; by destruct (conns sv !! i).
  - intros eid e He [Hk|Hv].
    + apply requested_more, Ho; [done|]. left. by apply (tick_shrinks now sv).
    + rewrite tick_view in Hv. apply map_lookup_filter_Some in Hv as [Hv _].
      apply requested_more, Ho; [done|]. left. by apply (gc_pending now).
  - intros k e He [Hk|Hv]; [|apply requested_more, Ho; [done | by right]].
    cbn [with_kills kills] in Hk. pose proof (request_time eid by_ why now (kills sv)) as Ht.
    unfold request_kill in Hk, Ht. cbn [fst snd] in Hk, Ht. rewrite lookup_insert in Hk. case_decide as Hek.
    + subst k. injection Hk as <-. destruct Ht as [Ht|(e0&H0'&Hp&Ht)].
      * exists by_, why. apply elem_of_app. right. rewrite Ht. by constructor.
      * destruct (requested_more tr (now, RequestKill eid by_ why) eid e0) as (b&y&Hin); [by apply Ho; [|left]|].
        exists b, y. by rewrite Ht.
    + apply requested_more, Ho; [done|]. left. by apply (gc_pending now).
  - apply (originated_shrinks _ _ sv); [done | apply cancel_shrinks | done].
Qed.

Lemma originated_run dir tr : originated tr (run (G := G) exact banner set_order (new_server ∅ dir) tr).
Proof.
  induction tr as [|[now ev] tr IH] using rev_ind.
  - intros eid e _ [Hin|Hin]; cbn in Hin; by rewrite lookup_empty in Hin.
  - unfold run in *. rewrite foldl_app. by apply originated_step.
Qed.

(** ** What a poll does *)

(** One kill request applied: only its own connection can close, and only on a pending
    request made since it opened. *)
Lemma apply_kill_conn i e now sv j c' : conns (_apply_kill i e now sv).2 !! j = Some c' →
  ∃ c, conns sv !! j = Some c ∧ core c = core c' ∧ (_closed c = true → _closed c' = true) ∧
       (_closed c = false → _closed c' = true → j = i ∧ is_pending e = true ∧ (_conn_started c <= requested_at e)%Z).
Proof.
  unfold _apply_kill. destruct (conns sv !! i) as [c|] eqn:Hc.
  2: { intros Hj. exists c'. split_and!; [done|done|done|congruence]. }
  destruct (_closed c || _) eqn:E1; [intros Hj; exists c'; split_and!; [done|done|done|congruence]|].
  destruct (requested_at e <? _conn_started c)%Z eqn:E2; cbn; [intros Hj; exists c'; split_and!; [done|done|done|congruence]|].
  apply orb_false_iff in E1 as [E1 Hp%negb_false_iff]. rewrite lookup_insert. case_decide as Hij.
  - subst j. intros [= <-]. exists c. split_and!; [done|done|done|]. intros _ _. split_and!; [done|done|lia].
  - intros Hj. exists c'. split_and!; [done|done|done|congruence].
Qed.

Section set_order.
(** Walking a set visits its elements. *)
Context (Hwalk : ∀ X i, i ∈ set_order X ↔ i ∈ X).

Definition view_of now sv := filter (λ kv, is_pending kv.2 = true) (all now (kills sv)).

(** What the poll leaves alone while it runs. *)
Definition polling now (sv s : server) : Prop :=
  _PENDING_VIEW s = view_of now sv ∧ _LIVE_SESSIONS s = _LIVE_SESSIONS sv ∧ ids s = ids sv.

Lemma polling_kill now sv s i e : polling now sv s → polling now sv (_apply_kill i e now s).2.
Proof.
  intros (Hv&Hl&Hi). destruct (apply_kill_live i e now s) as [El Ev]. unfold polling.
  by rewrite El, Ev, (ids_of_sessions _ _ (apply_kill_sessions i e now s)).
Qed.

Lemma polling_engagement now sv s eid : polling now sv s → polling now sv (kill_engagement set_order now s eid).
Proof.
  intros Hp. unfold kill_engagement. destruct (_PENDING_VIEW s !! eid); [|done].
  apply foldl_inv; [done|]. intros. by apply polling_kill.
Qed.

(** Why a connection is closed during a poll of [sv]. *)
Definition closed_fairly now (sv : server) (j : nat) (s : server) : Prop :=
  polling now sv s ∧ ∀ c', conns s !! j = Some c' →
    ∃ c, conns sv !! j = Some c ∧ core c = core c' ∧
      (_closed c = false → _closed c' = true →
       ∃ eid e, view_of now sv !! eid = Some e ∧ j ∈ default ∅ (_LIVE_SESSIONS sv !! eid) ∧
                (_conn_started c <= requested_at e)%Z).

Lemma closed_fairly_kill now sv j s i eid e : closed_fairly now sv j s →
  view_of now sv !! eid = Some e → i ∈ default ∅ (_LIVE_SESSIONS sv !! eid) →
  closed_fairly now sv j (_apply_kill i e now s).2.
Proof.
  intros [Hp Hc] He Hi. split; [by apply polling_kill|]. intros c' Hj.
  destruct (apply_kill_conn _ _ _ _ _ _ Hj) as (c1&H1'&E1&_&Hk1). destruct (Hc c1 H1') as (c&Hcj&E&Hk).
  exists c. split_and!; [done|congruence|]. intros Ho Hcl. destruct (_closed c1) eqn:Hc1; [by apply Hk|].
  destruct (Hk1 eq_refl Hcl) as (->&_&Ht). exists eid, e. split_and!; [done|done|].
  injection E as _ -> _. done.
Qed.

Lemma closed_fairly_tick now sv j : closed_fairly now sv j (_kill_poll_once set_order now sv).
Proof.
  unfold _kill_poll_once. apply foldl_inv.
  - split; [done|]. intros c' Hj. exists c'. split_and!; [done|done|congruence].
  - intros s eid Hs. unfold kill_engagement. destruct (_PENDING_VIEW s !! eid) as [e|] eqn:He; [|done].
    pose proof (proj1 Hs) as (Hv&Hl&_). rewrite Hv in He. rewrite Hl.
    assert (Hall : Forall (λ i, i ∈ default ∅ (_LIVE_SESSIONS sv !! eid)) (set_order (default ∅ (_LIVE_SESSIONS sv !! eid)))).
    { apply Forall_forall. intros i. apply Hwalk. }
    revert s Hs Hv Hl. induction Hall as [|i l Hi _ IH]; intros s Hs Hv Hl; [done|]. cbn [foldl].
    pose proof (closed_fairly_kill now sv j s i eid e Hs He Hi) as Hs'. apply IH; [done | apply Hs' | apply Hs'].
Qed.

(** C7: a kill hits only the connection it was raised against.  In every run of a server
    that starts with an empty queue, a connection that a poll closes belongs to an
    engagement for which an operator asked for a kill after that connection opened; a
    request older than the connection, made against a predecessor, never closes it. *)
Theorem kills_are_aimed dir tr now i c c' :
  let sv := run (G := G) exact banner set_order (new_server ∅ dir) tr in
  conns sv !! i = Some c → _closed c = false →
  conns (step (G := G) exact banner set_order sv now Tick) !! i = Some c' → _closed c' = true →
  ∃ t by_ why, (t, RequestKill (engagement_id (_session c)) by_ why) ∈ tr ∧ (_conn_started c <= t)%Z.
Proof.
  intros sv Hc Ho Hc' Hcl. destruct (closed_fairly_tick now sv i) as [_ Hf].
  destruct (Hf c' Hc') as (c0&Hc0&_&Hk). rewrite Hc in Hc0. injection Hc0 as <-.
  destruct (Hk Ho Hcl) as (eid&e&He&Hi&Ht). apply (registered_run ∅ dir tr) in Hi. fold sv in Hi.
  unfold ids in Hi. rewrite lookup_fmap, Hc in Hi. apply Some_inj in Hi. rewrite Hi.
  apply map_lookup_filter_Some in He as [He Hp]. cbn in Hp. apply gc_lookup in He as [He _].
  destruct (originated_run dir tr eid e Hp (or_introl He)) as (b&y&Hin). by exists (requested_at e), b, y.
Qed.

(** What a poll settles for connection [i] of engagement [eid], whose pending entry is [e]. *)
Definition settled (i : nat) (eid : str) (e : kill_entry) (s : server) : Prop :=
  ∀ c, conns s !! i = Some c → _closed c = false →
    (requested_at e < _conn_started c)%Z ∧ ∀ e', is_pending e' = true → kills s !! eid ≠ Some e'.

Lemma settled_kill i eid e j e1 now s : settled i eid e s → settled i eid e (_apply_kill j e1 now s).2.
Proof.
  intros Hs c' Hc' Ho. destruct (apply_kill_conn _ _ _ _ _ _ Hc') as (c&Hc&[= _ Et _]&Hcl&_).
  assert (Hco : _closed c = false) by (destruct (_closed c); [rewrite Hcl in Ho|]; done).
  destruct (Hs c Hc Hco) as [Ht Hk]. rewrite <- Et. split; [done|]. intros e' He' Hin.
  apply (Hk e' He'). by apply (apply_kill_shrinks j e1 now s).
Qed.

Lemma settled_hit now sv i eid e s : is_pending e = true → ids sv !! i = Some eid → polling now sv s →
  settled i eid e (_apply_kill i e now s).2.
Proof.
  intros Hp Hi (_&_&Hids) c' Hc' Ho. rewrite <- Hids in Hi. unfold ids in Hi. rewrite lookup_fmap in Hi.
  revert Hc'. unfold _apply_kill. destruct (conns s !! i) as [c|] eqn:Hc; [|done]. apply Some_inj in Hi. subst eid.
  rewrite Hp, orb_false_r. destruct (_closed c) eqn:Hcl; [cbn; intros Hc'; congruence|].
  destruct (Z.ltb_spec (requested_at e) (_conn_started c)); cbn.
  - intros Hc'. rewrite Hc in Hc'. injection Hc' as <-. split; [done|]. intros e' He' Hin.
    apply cancel_pending in Hin. congruence.
  - rewrite lookup_insert_eq. intros [= <-]. done.
Qed.

(** What a poll leaves of the connections that stay open. *)
Lemma poll_settles files dir tr now i c' :
  let sv := run (G := G) exact banner set_order (new_server files dir) tr in
  let sv' := step (G := G) exact banner set_order sv now Tick in
  conns sv' !! i = Some c' → _closed c' = false →
  let eid := engagement_id (_session c') in
  (∀ e, is_pending e = true → kills sv !! eid = Some e → (requested_at e < _conn_started c')%Z) ∧
  eid ∉ pending (kills sv').
Proof.
  intros sv sv' Hc' Ho eid.
  assert (Hid : ids sv !! i = Some eid).
  { assert (E : ids sv' = ids sv) by apply ids_of_sessions, tick_sessions. rewrite <- E. unfold ids. by rewrite lookup_fmap, Hc'. }
  assert (Hi : i ∈ default ∅ (_LIVE_SESSIONS sv !! eid)) by (by apply registered_run).
  assert (Hset : ∀ e, is_pending e = true → kills sv !! eid = Some e → settled i eid e sv').
  { intros e Hp He. assert (Hv : view_of now sv !! eid = Some e).
    { apply map_lookup_filter_Some. split; [by apply gc_pending | done]. }
    cbn [sv' step]. unfold sv', step, _kill_poll_once. fold (view_of now sv).
    apply (foldl_hits _ (polling now sv) _ eid); [apply sorted_keys_elem; by eexists | done | apply polling_engagement |..].
    - intros s Hpo. unfold kill_engagement. destruct (Hpo) as (Ev&El&_). rewrite Ev, Hv, El.
      apply (foldl_hits _ (polling now sv) _ i); [by apply Hwalk | done | intros; by apply polling_kill |..].
      + intros s1 Hp1. by apply (settled_hit now sv).
      + intros s1 j _. apply settled_kill.
    - intros s k _ Hs. unfold kill_engagement. destruct (_PENDING_VIEW s !! k); [|done].
      apply foldl_inv; [done|]. intros s1 j. apply settled_kill. }
  split.
  - intros e Hp He. by apply (Hset e Hp He c' Hc').
  - unfold pending. rewrite sorted_keys_elem. intros [e He]. apply map_lookup_filter_Some in He as [He Hp].
    cbn in Hp. pose proof (tick_shrinks now sv eid e Hp He) as He0.
    by apply (Hset e Hp He0 c' Hc' Ho) in He.
Qed.

End set_order.
End server.

#[export] Instance heuristic_identity `{Unicode} : @KeepsIdentity HeuristicPolicy no_plugins.
Proof.
  split; [|done..]. intros t s a s'. unfold policy_decide, HeuristicPolicy.
  destruct (decide_action _ _) as [[a' o]|]; [|done]. by intros [= <- <-].
Defined.

(** ** State keys *)

Lemma safe_key_chars ip user : Forall (λ c, key_char c = true) (_safe_key ip user).
Proof.
  apply Forall_map, Forall_forall. intros c _. by destruct (key_char c) eqn:E.
Qed.

(** A key is a file name: no separators, and never one of the two special names. *)
Lemma safe_key_name ip user : SLASH ∉ _safe_key ip user ∧ _path_for ip user ≠ "."%py ∧ _path_for ip user ≠ ".."%py.
Proof.
  split_and!.
  - intros Hin. pose proof (safe_key_chars ip user) as Hf. rewrite Forall_forall in Hf. by apply Hf in Hin.
  - intros E%(f_equal length). unfold _path_for in E. rewrite length_app in E. cbn in E. lia.
  - intros E%(f_equal length). unfold _path_for in E. rewrite length_app in E. cbn in E. lia.
Qed.

(** Users that differ in such characters share their state. *)
Example keys_collide : _safe_key "10.0.0.9" "a/b" = _safe_key "10.0.0.9" "a_b".
Proof. reflexivity. Qed.

(** ** Runs on concrete inputs *)

Definition walk (X : gset nat) : list nat := elements X.
Lemma walk_elements X i : i ∈ walk X ↔ i ∈ X.
Proof. apply elem_of_elements. Qed.

Definition demo_hello : hello := mk_hello "c1" "e1" "jdoe" "10.0.0.9" jdoe f0 (Some [jdoe]) None.
Definition demo_run : server → trace → server := run (G := unit) ∅ "corp"%py walk.
Definition empty_server : server := new_server ∅ ∅.

(** Two connections of one engagement, a request between their openings, and a poll. *)
Definition demo_trace : trace :=
  [(seconds 10, Connect 0 demo_hello); (seconds 11, Typed 0 "cd /tmp\r"%py);
   (seconds 12, Work 0 demo_world true); (seconds 15, RequestKill "e1"%py "mwilson"%py []);
   (seconds 20, Connect 1 demo_hello)].

(** Whether connection [i] is live, and closed. *)
Definition closed_at (i : nat) (sv : server) : option bool := _closed <$> conns sv !! i.

Lemma closed_at_conn i sv b : closed_at i sv = Some b → ∃ c, conns sv !! i = Some c ∧ _closed c = b.
Proof. unfold closed_at. destruct (conns sv !! i) as [c|]; [|done]. intros [= <-]. by exists c. Qed.


Lemma kills_are_aimed_witness :
  ∃ eid t by_ why, (t, RequestKill eid by_ why) ∈ demo_trace ∧ (seconds 10 <= t)%Z.
Proof.
  destruct (closed_at_conn 0 (demo_run empty_server demo_trace) false) as (c&Hc&Ho); [vm_compute; reflexivity|].
  destruct (closed_at_conn 0 (step (G := unit) ∅ "corp"%py walk (demo_run empty_server demo_trace) (seconds 21) Tick) true)
    as (c'&Hc'&Hcl); [vm_compute; reflexivity|].
  assert (Ht : (_conn_started <$> conns (demo_run empty_server demo_trace) !! 0) = Some (seconds 10)) by (vm_compute; reflexivity).
  rewrite Hc in Ht. apply Some_inj in Ht.
  destruct (kills_are_aimed (G := unit) ∅ "corp"%py walk walk_elements ∅ demo_trace (seconds 21) 0 c c' Hc Ho Hc' Hcl)
    as (t&b&y&Hin&Hle).
  rewrite Ht in Hle. exists (engagement_id (_session c)), t, b, y. split; [exact Hin | exact Hle].
Defined.


(** A kill that is lost: after a reconnect, the view of the last poll still shows the
    request that killed the predecessor; the next command takes it for stale and cancels
    the new request that an operator has made meanwhile. *)
Definition lost_kill : trace :=
  [(seconds 10, Connect 0 demo_hello); (seconds 20, RequestKill "e1"%py "mwilson"%py []); (seconds 21, Tick);
   (seconds 21, Lost 0); (seconds 22, Connect 1 demo_hello); (seconds 22, Typed 1 "id\n"%py);
   (seconds 22, RequestKill "e1"%py "mwilson"%py [])].

Example fast_path_drops_new_kill :
  let sv := demo_run empty_server lost_kill in
  let sv' := demo_run sv [(seconds 22, Work 1 demo_world true); (seconds 23, Tick)] in
  (requested_at <$> kills sv !! "e1"%py, kills sv' !! "e1"%py, closed_at 1 sv') = (Some (seconds 22), None, Some false).
Proof. vm_compute. reflexivity. Qed.

(** A line from the terminal also queues an empty one, and the prompt is printed twice. *)
Example line_queues_two : lines_of "id\n"%py = ["id"; ""]%py.
Proof. reflexivity. Qed.

(** The prompt abbreviates every path that starts with the home's characters. *)
Example prompt_of_neighbour : _prompt (with_cwd "/home/jdoe2"%py demo) = "jdoe@corp-app01:~2$ "%py.
Proof. vm_compute. reflexivity. Qed.
