(* ===== verification/Tenancy.v ===== *)
(** plenith/multitenancy.py: tenants, the tokens that open them, and the paths of their state. *)

From S2P Require Import Prelude PyStr Posix Json Backup Api.

#[local] Open Scope exc_scope.

(** ** Roles *)

Definition ROLE_ADMIN : str := "admin"%py.
Definition ROLE_ANALYST : str := "analyst"%py.
Definition ROLE_READ_ONLY : str := "read_only"%py.
Definition _VALID_ROLES : list str := [ROLE_ADMIN; ROLE_ANALYST; ROLE_READ_ONLY].

Definition ROLE_PERMITS (role : str) : list str :=
  if decide (role = ROLE_ADMIN) then ["read"; "action"; "admin"]%py
  else if decide (role = ROLE_ANALYST) then ["read"; "action"]%py
  else if decide (role = ROLE_READ_ONLY) then ["read"]%py else [].

Definition can (role permit : str) : bool :=
  if decide (role ∈ _VALID_ROLES) then bool_decide (permit ∈ ROLE_PERMITS role) else false.

(** ** Records *)

Record TenantToken := mk_TenantToken { value : str; tenant_id : str; role : str }.
#[export] Instance token_eq_dec : EqDecision TenantToken.
Proof. solve_decision. Defined.

Record Tenant := mk_Tenant {
  id : str; deployment_id : str; state_subdir : str; tokens : list TenantToken; connectors : pyval; mfa : pyval }.

(** The configuration: an absent key is [None]. *)
Record token_block := mk_token_block { tb_value : option str; tb_role : option str }.
Record tenant_block := mk_tenant_block {
  b_id : option str; b_deployment_id : option str; b_state_subdir : option str; b_tokens : list token_block;
  b_connectors : pyval; b_mfa : pyval }.
Record tenancy_block := mk_tenancy_block { b_enabled : bool; b_tenants : list tenant_block }.

(** ** The registry *)

(** [_token_index] keeps the order of the insertions, which [lookup] walks. *)
Record TenantRegistry := mk_registry {
  tenants : list (str * Tenant); _token_index : list (str * TenantToken); enabled : bool }.

(** [x or d]. *)
Definition str_or_default (o : option str) (d : str) : str := match o with Some ((_ :: _) as s) => s | _ => d end.

Definition token_of (tid : str) (t : token_block) : option TenantToken :=
  match tb_value t with
  | Some ((_ :: _) as v) =>
      let r := default ROLE_READ_ONLY (tb_role t) in
      if decide (r ∈ _VALID_ROLES) then Some (mk_TenantToken v tid r) else None
  | _ => None
  end.

Definition tenant_of (tid : str) (t : tenant_block) : Tenant :=
  mk_Tenant tid (default [] (b_deployment_id t)) (str_or_default (b_state_subdir t) (tid ++ "/"%py))
    (omap (token_of tid) (b_tokens t)) (b_connectors t) (b_mfa t).

Definition add_tenant (reg : TenantRegistry) (t : tenant_block) : TenantRegistry :=
  match b_id t with
  | Some ((_ :: _) as tid) =>
      let tenant := tenant_of tid t in
      mk_registry (assoc_set tid tenant (tenants reg))
        (foldl (λ ix k, assoc_set (value k) k ix) (_token_index reg) (tokens tenant)) (enabled reg)
  | _ => reg
  end.

Definition from_config (cfg : option tenancy_block) : TenantRegistry :=
  match cfg with
  | Some b => if b_enabled b then foldl add_tenant (mk_registry [] [] true) (b_tenants b) else mk_registry [] [] false
  | None => mk_registry [] [] false
  end.

Fixpoint match_token (ix : list (str * TenantToken)) (presented : str) : exc (option TenantToken) :=
  match ix with
  | [] => Ok None
  | (known, record) :: ix =>
      let* eq := compare_digest known presented in
      if eq : bool then Ok (Some record) else match_token ix presented
  end.

Definition lookup (reg : TenantRegistry) (presented : str) : exc (option TenantToken) :=
  match presented with
  | [] => Ok None
  | _ => if enabled reg then match_token (_token_index reg) presented else Ok None
  end.

Definition get_tenant (reg : TenantRegistry) (tid : str) : option Tenant := assoc_get tid (tenants reg).
Definition list_tenants (reg : TenantRegistry) : list str := py_sorted (map fst (tenants reg)).

(** ** Namespacing *)

(** A pure path: the number of slashes of its root, and its parts. *)
Record ppath := mk_ppath { anchor : nat; comps : list str }.
Definition Path (s : str) : ppath := mk_ppath (initial_slashes s) (parts s).
(** [base / s]: an absolute [s] replaces the base. *)
Definition div (base : ppath) (s : str) : ppath :=
  if startswith s [SLASH] then Path s else mk_ppath (anchor base) (comps base ++ parts s).

Definition state_path_for (tenant : option Tenant) (base : ppath) (subkey : str) : ppath :=
  match tenant with
  | Some t => match state_subdir t with [] => div base subkey | sub => div (div base sub) subkey end
  | None => div base subkey
  end.

(** [e["_tenant_id"]] of an engagement dict. *)
Definition filter_engagements_by_tenant (engagements : list (gmap str pyval)) (tenant : option Tenant) : list (gmap str pyval) :=
  match tenant with
  | None => engagements
  | Some t => List.filter (λ e, match e !! "_tenant_id"%py with Some (VStr s) => bool_decide (s = id t) | _ => false end) engagements
  end.

(** ** Lookups *)

(** The tokens of the configuration, in its order. *)
Definition issued_by (t : tenant_block) : list TenantToken :=
  match b_id t with Some ((_ :: _) as tid) => tokens (tenant_of tid t) | _ => [] end.
Definition issued (b : tenancy_block) : list TenantToken := flat_map issued_by (b_tenants b).

Definition with_value (p : str) (l : list TenantToken) : list TenantToken := List.filter (λ k, bool_decide (value k = p)) l.

Lemma index_get p l ix :
  assoc_get p (foldl (λ ix k, assoc_set (value k) k ix) ix l) = match last (with_value p l) with Some k => Some k | None => assoc_get p ix end.
Proof.
  unfold with_value. induction l as [|k l IH] using rev_ind; [done|]. rewrite foldl_app, List.filter_app. cbn. rewrite assoc_get_set, IH.
  case_decide as E; [subst p; rewrite bool_decide_eq_true_2 by done; by rewrite last_snoc|].
  rewrite bool_decide_eq_false_2 by congruence. by rewrite app_nil_r.
Qed.

Lemma add_tenants_index l reg :
  _token_index (foldl add_tenant reg l) = foldl (λ ix k, assoc_set (value k) k ix) (_token_index reg) (flat_map issued_by l)
  ∧ enabled (foldl add_tenant reg l) = enabled reg.
Proof.
  revert reg. induction l as [|t l IH]; intros reg; [done|]. cbn [foldl flat_map]. rewrite foldl_app.
  destruct (IH (add_tenant reg t)) as [-> ->]. unfold add_tenant, issued_by. by destruct (b_id t) as [[|]|].
Qed.

Lemma match_token_get ix p : is_ascii p = true → Forall (λ kv : str * TenantToken, is_ascii kv.1 = true) ix →
  match_token ix p = Ok (assoc_get p ix).
Proof.
  intros Hp. induction 1 as [|[k r] ix Hk _ IH]; [done|]. cbn [fst] in Hk. cbn [match_token assoc_get]. unfold compare_digest. rewrite Hk, Hp. cbn [andb exc_bind].
  rewrite IH. case_bool_decide as E; case_decide; congruence.
Qed.

Lemma index_keys (P : str → Prop) l ix : Forall (λ kv : str * TenantToken, P kv.1) ix → Forall (λ k, P (value k)) l →
  Forall (λ kv, P kv.1) (foldl (λ ix k, assoc_set (value k) k ix) ix l).
Proof.
  intros Hix Hl. revert ix Hix. induction Hl as [|k l Hk _ IH]; intros ix Hix; [done|]. cbn [foldl]. apply IH.
  apply Forall_forall. intros [x y] [[-> ->]|Hin]%assoc_set_elem; [done|]. by apply (proj1 (Forall_forall _ _) Hix (x, y)).
Qed.

Lemma issued_value k b : k ∈ issued b → value k ≠ [] ∧ role k ∈ _VALID_ROLES ∧
  ∃ t, t ∈ b_tenants b ∧ b_id t = Some (tenant_id k) ∧ tenant_id k ≠ [].
Proof.
  unfold issued. intros Hk%list_elem_of_In%in_flat_map. destruct Hk as (t & Ht%list_elem_of_In & Hk%list_elem_of_In).
  unfold issued_by in Hk. destruct (b_id t) as [[|c tid]|] eqn:Eid; [by apply elem_of_nil in Hk| |by apply elem_of_nil in Hk].
  apply list_elem_of_omap in Hk as (tb & _ & Hk). unfold token_of in Hk. destruct (tb_value tb) as [[|]|]; try done.
  case_decide as Hr; [|done]. injection Hk as <-. cbn. split; [done|]. split; [done|]. by exists t.
Qed.

(** The token a presented string opens: the last one of the configuration with that value. *)
Lemma lookup_exact b p : b_enabled b = true → is_ascii p = true → Forall (λ k, is_ascii (value k) = true) (issued b) →
  lookup (from_config (Some b)) p = Ok (last (with_value p (issued b))).
Proof.
  intros He Hp Ha. unfold from_config. rewrite He. destruct (add_tenants_index (b_tenants b) (mk_registry [] [] true)) as [Hix Hen].
  unfold lookup. destruct p as [|c p'] eqn:Ep.
  - f_equal. destruct (last _) as [k|] eqn:Hl; [|done]. exfalso. apply last_Some in Hl as [l' Hl].
    assert (Hk : k ∈ with_value [] (issued b)) by (rewrite Hl; set_solver).
    apply list_elem_of_In, List.filter_In in Hk as [Hk%list_elem_of_In Hv%bool_decide_eq_true]. by apply issued_value in Hk as [? _].
  - rewrite <- Ep in *. rewrite Hen. cbn [enabled]. rewrite match_token_get, Hix; [|done|].
    + cbn [_token_index]. rewrite index_get. unfold issued. f_equal. by destruct (last _).
    + rewrite Hix. by apply (index_keys (λ s, is_ascii s = true)); [constructor|].
Qed.

(** ** Isolation *)

Lemma add_tenants_get tid l reg :
  get_tenant (foldl add_tenant reg l) tid =
  match last (List.filter (λ t, bool_decide (b_id t = Some tid)) l) with
  | Some t => match tid with [] => get_tenant reg tid | _ => Some (tenant_of tid t) end
  | None => get_tenant reg tid
  end.
Proof.
  unfold get_tenant. induction l as [|t l IH] using rev_ind; [done|]. rewrite foldl_app, List.filter_app. cbn [foldl List.filter].
  unfold add_tenant at 1. destruct (decide (b_id t = Some tid)) as [E|E].
  - rewrite bool_decide_eq_true_2, last_snoc, E by done. destruct tid as [|c tid].
    + rewrite IH. by destruct (last _).
    + cbn [tenants]. rewrite assoc_get_set. by rewrite decide_True.
  - rewrite bool_decide_eq_false_2, app_nil_r by done. destruct (b_id t) as [[|c x]|] eqn:Ex; [exact IH| |exact IH].
    cbn [tenants]. rewrite assoc_get_set, decide_False by congruence. exact IH.
Qed.

(** Tenants that keep the default directory, under a name that is one. *)
Definition default_subdir (t : tenant_block) : Prop :=
  b_state_subdir t = None ∧ match b_id t with Some i => good_comp i | None => True end.

Lemma tenant_path t tid base sub : good_comp tid → default_subdir t → b_id t = Some tid → startswith sub [SLASH] = false →
  state_path_for (Some (tenant_of tid t)) base sub = mk_ppath (anchor base) (comps base ++ tid :: parts sub).
Proof.
  intros Hg [Hd _] Ht Hs. unfold state_path_for, tenant_of. cbn [state_subdir]. rewrite Hd. cbn [str_or_default].
  assert (Hp : parts (tid ++ "/"%py) = [tid]).
  { unfold parts. change (tid ++ "/"%py) with (tid ++ SLASH :: []). rewrite split_on_app by apply Hg.
    cbn. destruct Hg as (H1 & H2 & _ & _). by rewrite !bool_decide_eq_false_2 by done. }
  destruct (tid ++ "/"%py) as [|c s] eqn:E; [by destruct tid|]. rewrite <- E in *.
  assert (Hs' : startswith (tid ++ "/"%py) [SLASH] = false).
  { destruct Hg as (Hn & _ & _ & Hc). destruct tid as [|x tid]; [done|]. cbn. rewrite andb_true_r. apply N.eqb_neq. intros ->. apply Hc. by left. }
  unfold div. rewrite Hs', Hs. cbn [anchor comps]. rewrite Hp. by rewrite <- app_assoc.
Qed.

Lemma with_value_last p l k : last (with_value p l) = Some k → k ∈ l ∧ value k = p.
Proof.
  intros [l' Hl]%last_Some. assert (Hk : k ∈ with_value p l) by (rewrite Hl; set_solver).
  apply list_elem_of_In, List.filter_In in Hk as [Hk%list_elem_of_In Hv%bool_decide_eq_true]. done.
Qed.

Lemma opened_tenant b k : b_enabled b = true → k ∈ issued b →
  ∃ t, t ∈ b_tenants b ∧ b_id t = Some (tenant_id k) ∧ get_tenant (from_config (Some b)) (tenant_id k) = Some (tenant_of (tenant_id k) t).
Proof.
  intros He Hk. apply issued_value in Hk as (_ & _ & t & Ht & Hid & Hne). unfold from_config. rewrite He, add_tenants_get.
  destruct (last _) as [t'|] eqn:Hl.
  - apply last_Some in Hl as [l' Hl]. assert (Hin : t' ∈ List.filter (λ t, bool_decide (b_id t = Some (tenant_id k))) (b_tenants b)) by (rewrite Hl; set_solver).
    apply list_elem_of_In, List.filter_In in Hin as [Hin%list_elem_of_In Hv%bool_decide_eq_true]. exists t'. by destruct (tenant_id k).
  - exfalso. apply last_None in Hl. assert (Hin : t ∈ List.filter (λ t, bool_decide (b_id t = Some (tenant_id k))) (b_tenants b)).
    { apply list_elem_of_In, List.filter_In. split; [by apply list_elem_of_In|]. by apply bool_decide_eq_true. }
    rewrite Hl in Hin. by apply elem_of_nil in Hin.
Qed.


Lemma roles_nest permit : (can ROLE_READ_ONLY permit = true → can ROLE_ANALYST permit = true) ∧ (can ROLE_ANALYST permit = true → can ROLE_ADMIN permit = true).
Proof.
  change (can ROLE_READ_ONLY permit) with (bool_decide (permit ∈ ["read"]%py)). change (can ROLE_ANALYST permit) with (bool_decide (permit ∈ ["read"; "action"]%py)).
  change (can ROLE_ADMIN permit) with (bool_decide (permit ∈ ["read"; "action"; "admin"]%py)). rewrite !bool_decide_eq_true. set_solver.
Qed.

Definition acme : tenant_block := mk_tenant_block (Some "acme"%py) None None
  [mk_token_block (Some "tok-a"%py) (Some "admin"%py); mk_token_block (Some "tok-r"%py) None; mk_token_block (Some "tok-x"%py) (Some "root"%py)] (VDict []) (VDict []).
Definition globex : tenant_block := mk_tenant_block (Some "globex"%py) None None [mk_token_block (Some "tok-g"%py) (Some "analyst"%py)] (VDict []) (VDict []).
Definition two_tenants : tenancy_block := mk_tenancy_block true [acme; globex].

(** A value issued to two tenants opens the later one, and a tenant that is listed twice keeps the tokens of its first block. *)
Example shared_token_moves :
  lookup (from_config (Some (mk_tenancy_block true [globex; mk_tenant_block (Some "acme"%py) None None [mk_token_block (Some "tok-g"%py) (Some "admin"%py)] (VDict []) (VDict [])]))) "tok-g"%py
  = Ok (Some (mk_TenantToken "tok-g"%py "acme"%py "admin"%py)).
Proof. vm_compute. reflexivity. Qed.

