(* ===== verification/Secrets.v ===== *)
(** plenith/secrets.py: references to secrets in the configuration, their resolution at load time, and the
    redacted view; tools/secrets_check.py, which resolves them ahead of a deployment. *)

From S2P Require Import Prelude PyStr Posix Hash Regex Json Backup Snapshots AuditViews.

#[local] Open Scope exc_scope.

(** ** Query strings *)

(** [bytes.decode("utf-8", "replace")]: the character at the front and the bytes it takes; a sequence that breaks
    off is one replacement character. *)
Definition REPLACEMENT : N := 65533.
Definition cont (lo hi b : N) : bool := (lo <=? b)%N && (b <=? hi)%N.

Definition first_char (b : N) (bs : list N) : N * nat :=
  if (b <? 128)%N then (b, 0)
  else
    let need n lo hi lead :=
      match bs with
      | c1 :: r =>
          if negb (cont lo hi c1) then (REPLACEMENT, 0)
          else if n =? 1 then ((lead * 64 + (c1 - 128))%N, 1)
          else match r with
               | c2 :: r =>
                   if negb (cont 128 191 c2) then (REPLACEMENT, 1)
                   else if n =? 2 then (((lead * 64 + (c1 - 128)) * 64 + (c2 - 128))%N, 2)
                   else match r with
                        | c3 :: _ => if negb (cont 128 191 c3) then (REPLACEMENT, 2)
                                     else ((((lead * 64 + (c1 - 128)) * 64 + (c2 - 128)) * 64 + (c3 - 128))%N, 3)
                        | [] => (REPLACEMENT, 2)
                        end
               | [] => (REPLACEMENT, 1)
               end
      | [] => (REPLACEMENT, 0)
      end in
    if cont 194 223 b then need 1 128%N 191%N (b - 192)%N
    else if (b =? 224)%N then need 2 160%N 191%N 0%N
    else if (b =? 237)%N then need 2 128%N 159%N 13%N
    else if cont 225 239 b then need 2 128%N 191%N (b - 224)%N
    else if (b =? 240)%N then need 3 144%N 191%N 0%N
    else if (b =? 244)%N then need 3 128%N 143%N 4%N
    else if cont 241 243 b then need 3 128%N 191%N (b - 240)%N
    else (REPLACEMENT, 0).

Fixpoint decode_replace (fuel : nat) (bs : list N) : str :=
  match fuel, bs with
  | S n, b :: bs => let '(c, used) := first_char b bs in c :: decode_replace n (drop used bs)
  | _, _ => []
  end.

(** [unquote]: the escapes of each ASCII run are bytes of UTF-8. *)
Fixpoint unquote_run (acc : list N) (s : str) : str :=
  match s with
  | [] => decode_replace (length acc) (rev acc)
  | c :: s' =>
      match c, s' with
      | 37%N, a :: b :: r => if is_hex a && is_hex b then unquote_run ((hex_val a * 16 + hex_val b)%N :: acc) r else unquote_run (c :: acc) s'
      | _, _ => if (c <? 128)%N then unquote_run (c :: acc) s'
                else decode_replace (length acc) (rev acc) ++ c :: unquote_run [] s'
      end
  end.
Definition unquote (s : str) : str := unquote_run [] s.

(** [s.split(c, 1)]. *)
Fixpoint partition_at (c : N) (s : str) : option (str * str) :=
  match s with
  | [] => None
  | x :: s => if (x =? c)%N then Some ([], s) else (λ p, (x :: p.1, p.2)) <$> partition_at c s
  end.

Definition params := list (str * list str).

(** [parse_qs(qs, keep_blank_values=True)]. *)
Definition parse_qs (qs : str) : params :=
  foldl (λ d nv,
    match nv with
    | [] => d
    | _ => let '(n, v) := default (nv, []) (partition_at 61 nv) in
           let key := unquote (replace_char 43 32 n) in
           assoc_set key (default [] (assoc_get key d) ++ [unquote (replace_char 43 32 v)]) d
    end) [] (split_on 38 qs).

Example parse_qs_example :
  parse_qs "default=a%20b+c&strip=false&x&default=%C3%A9%ff"%py = [("default", ["a b c"; [233; 65533]%N]); ("strip", ["false"]); ("x", [[]])]%py.
Proof. vm_compute. reflexivity. Qed.

(** ** Providers *)

Definition Provider := str → params → exc str.

Definition _SCHEME_RE : regex := rx "^([a-z][a-z0-9+\\-]*)://"%py.
Definition scheme_ok (scheme : str) : bool :=
  match scheme with
  | c :: s => is_lower c && forallb (λ c, is_lower c || is_digit c || (c =? 43)%N || (c =? 45)%N) s
  | [] => false
  end.

Definition register_provider (scheme : str) (fn : Provider) (providers : list (str * Provider)) : exc (list (str * Provider)) :=
  if scheme_ok scheme then Ok (assoc_set scheme fn providers) else Raise (ValueError "invalid scheme"%py).
Definition registered_schemes (providers : list (str * Provider)) : list str := py_sorted (map fst providers).

Section providers.
Context `{Unicode}.

Definition _provider_env (environ : gmap str str) : Provider := λ spec _,
  match environ !! spec with
  | Some val => Ok val
  | None => Raise (SecretResolutionError ("env var "%py ++ py_repr spec ++ " is not set"%py))
  end.

(** [str(Path(spec))]. *)
Definition path_str (spec : str) : str :=
  match repeat SLASH (initial_slashes spec) ++ join [SLASH] (parts spec) with [] => DOTS | s => s end.

(** [read_text] of a path; [show] is [str] of an exception. *)
Definition _provider_file (show : exn → str) (read_text : str → exc str) : Provider := λ spec params,
  match spec with
  | [] => Raise (SecretResolutionError "file:// reference has no path"%py)
  | _ =>
      match read_text (path_str spec) with
      | Raise (OSError m) => Raise (SecretResolutionError ("could not read "%py ++ path_str spec ++ ": "%py ++ show (OSError m)))
      | Raise e => Raise e
      | Ok content =>
          match default ["true"%py] (assoc_get "strip"%py params) with
          | [] => Raise IndexError
          | v :: _ => Ok (if decide (lower v = "false"%py) then content else rstrip_char NEWLINE content)
          end
      end
  end.
End providers.

(** ** Resolution *)

Section resolve.
Context `{Unicode} (show : exn → str) (_PROVIDERS : list (str * Provider)).

Definition _parse_reference (value : str) : option (str * str * params) :=
  match re_match _SCHEME_RE value with
  | None => None
  | Some m =>
      let scheme := grp m 1 in
      match assoc_get scheme _PROVIDERS with
      | None => None
      | Some _ =>
          let rest := drop (length scheme + 3) value in
          let '(rest, fragment) := default (rest, []) (partition_at 35 rest) in
          let '(spec, ps) := match partition_at 63 rest with Some (spec, qs) => (spec, parse_qs qs) | None => (rest, []) end in
          Some (scheme, spec, match fragment with [] => ps | f => assoc_set "_fragment"%py [f] ps end)
      end
  end.

(** [params.pop("default", [])]. *)
Definition pop_default (ps : params) : option str * params :=
  (head (default [] (assoc_get "default"%py ps)), List.filter (λ kv, negb (bool_decide (kv.1 = "default"%py))) ps).

(** The cache, and the references the providers were asked for, in order. *)
Record cache := mk_cache { hits : gmap str str; calls : list str }.
Definition no_cache : cache := mk_cache ∅ [].

Definition ask (scheme spec : str) (ps : params) : exc str :=
  match assoc_get scheme _PROVIDERS with Some fn => fn spec ps | None => Raise (KeyError scheme) end.

Definition resolution_error (field_path value : str) (e : exn) : exn :=
  SecretResolutionError (field_path ++ (match e with SecretResolutionError _ => ": failed to resolve " | _ => ": provider error resolving " end)%py
                         ++ py_repr value ++ ": "%py ++ show e).

Definition _resolve_value (value field_path : str) (c : cache) : exc (str * cache) :=
  match _parse_reference value with
  | None => Ok (value, c)
  | Some (scheme, spec, ps) =>
      match hits c !! value with
      | Some v => Ok (v, c)
      | None =>
          let '(dflt, ps) := pop_default ps in
          let asked := calls c ++ [value] in
          match ask scheme spec ps, dflt with
          | Ok resolved, _ => Ok (resolved, mk_cache (<[value := resolved]> (hits c)) asked)
          | Raise _, Some d => Ok (d, mk_cache (<[value := d]> (hits c)) asked)
          | Raise e, None => Raise (resolution_error field_path value e)
          end
      end
  end.

Definition key_path (path k : str) : str := match path with [] => k | _ => path ++ "."%py ++ k end.
Definition item_path (path : str) (i : nat) : str := path ++ "["%py ++ str_of_Z (Z.of_nat i) ++ "]"%py.
Definition root_path (path : str) : str := match path with [] => "<root>"%py | _ => path end.

Fixpoint resolve (cfg : pyval) (path : str) (c : cache) : exc (pyval * cache) :=
  match cfg with
  | VDict d =>
      let* r := (fix items (d : list (str * pyval)) (c : cache) : exc (list (str * pyval) * cache) :=
        match d with
        | [] => Ok ([], c)
        | (k, v) :: d => let* (v, c) := resolve v (key_path path k) c in let* (d, c) := items d c in Ok ((k, v) :: d, c)
        end) d c in
      Ok (VDict r.1, r.2)
  | VList l =>
      let* r := (fix elems (i : nat) (l : list pyval) (c : cache) : exc (list pyval * cache) :=
        match l with
        | [] => Ok ([], c)
        | v :: l => let* (v, c) := resolve v (item_path path i) c in let* (l, c) := elems (S i) l c in Ok (v :: l, c)
        end) 0 l c in
      Ok (VList r.1, r.2)
  | VStr s => let* (s, c) := _resolve_value s (root_path path) c in Ok (VStr s, c)
  | _ => Ok (cfg, c)
  end.

(** ** Inspection *)

Fixpoint find_references (cfg : pyval) (path : str) : list (str * str) :=
  match cfg with
  | VDict d => flat_map (λ kv, find_references kv.2 (key_path path kv.1)) d
  | VList l => (fix elems (i : nat) (l : list pyval) : list (str * str) :=
                  match l with [] => [] | v :: l => find_references v (item_path path i) ++ elems (S i) l end) 0 l
  | VStr s => if _parse_reference s is Some _ then [(root_path path, s)] else []
  | _ => []
  end.

Definition SENSITIVE_KEYS : regex := rx_flags IGNORECASE "(token|password|secret|api_?key|hec|webhook)"%py.
Definition MASK : str := "***REDACTED***"%py.
Definition sensitive (parent_key : option str) : bool := match parent_key with Some ((_ :: _) as k) => searches SENSITIVE_KEYS k | _ => false end.

Fixpoint _walk (node : pyval) (parent_key : option str) : pyval :=
  match node with
  | VDict d => VDict (map (λ kv, (kv.1, _walk kv.2 (Some kv.1))) d)
  | VList l => VList (map (λ v, _walk v parent_key) l)
  | VStr s => if _parse_reference s is Some _ then node else if sensitive parent_key then VStr MASK else node
  | _ => node
  end.
Definition redact (cfg : pyval) : pyval := _walk cfg None.

(** ** tools/secrets_check.py *)

Definition EXIT_OK : Z := 0.
Definition EXIT_RESOLVE_FAILURES : Z := 1.

Record check := mk_check { ck_path : str; ck_uri : str; ck_error : option str }.

(** Each reference is resolved by itself, under its own path. *)
Definition check_one (r : str * str) : check :=
  mk_check r.1 r.2 (match resolve (VDict [(r.1, VStr r.2)]) [] no_cache with Ok _ => None | Raise e => Some (show e) end).
Definition failed (c : check) : bool := if ck_error c is Some _ then true else false.
Definition n_failed (cs : list check) : Z := Z.of_nat (length (List.filter failed cs)).

Definition check_dict (c : check) : pyval := VDict
  ([("path", VStr (ck_path c)); ("uri", VStr (ck_uri c)); ("ok", VBool (negb (failed c)))]
   ++ match ck_error c with Some e => [("error", VStr e)] | None => [] end)%py.

Definition _render_list (config : str) (refs : list (str * str)) : list str :=
  ["Config: "%py ++ config; "Schemes available: "%py ++ join ", "%py (registered_schemes _PROVIDERS); []]
  ++ match refs with
     | [] => ["(no secret references found — config uses plaintext only)"%py]
     | _ => [ljust 40 "FIELD"%py ++ " URI"%py; repeat 45%N 100]
            ++ map (λ r, ljust 40 r.1 ++ " "%py ++ r.2) refs ++ [[]; "Total: "%py ++ str_of_Z (Z.of_nat (length refs)) ++ " reference(s)"%py]
     end.

Definition failures_first (a b : check) : bool :=
  if failed a then negb (failed b) || negb (bool_decide (ck_path a = ck_path b)) && str_leb (ck_path a) (ck_path b)
  else negb (failed b) && negb (bool_decide (ck_path a = ck_path b)) && str_leb (ck_path a) (ck_path b).

Definition _render_resolve (config : str) (cs : list check) : list str :=
  ["Config: "%py ++ config; []]
  ++ match cs with
     | [] => ["(no secret references found)"%py]
     | _ =>
         [ljust 6 "STATUS"%py ++ " "%py ++ ljust 40 "FIELD"%py ++ " URI"%py; repeat 45%N 100]
         ++ flat_map (λ c, (ljust 6 (if failed c then "FAIL"%py else "OK"%py) ++ " "%py ++ ljust 40 (ck_path c) ++ " "%py ++ ck_uri c)
                           :: match ck_error c with Some e => ["        └── "%py ++ e] | None => [] end)
              (Logs.stable_sort failures_first cs)
         ++ [[]; "Summary: "%py ++ str_of_Z (Z.of_nat (length cs) - n_failed cs) ++ " OK, "%py ++ str_of_Z (n_failed cs)
                 ++ " FAIL (of "%py ++ str_of_Z (Z.of_nat (length cs)) ++ " reference(s))"%py]
     end.

(** [main] on a configuration that exists and parses: the lines printed and the exit code. *)
Definition main (config : str) (raw : pyval) (resolving json show_redacted : bool) : list str * Z :=
  let references := find_references raw [] in
  if negb resolving then
    (if json then [pretty 0 (plain (VDict [("config", VStr config); ("schemes_available", VList (map VStr (registered_schemes _PROVIDERS)));
                     ("reference_count", VInt (Z.of_nat (length references)));
                     ("references", VList (map (λ r, VDict [("path", VStr r.1); ("uri", VStr r.2)]) references))]%py))]
     else _render_list config references, EXIT_OK)
  else
    let results := map check_one references in
    let out := ([("config", VStr config); ("total", VInt (Z.of_nat (length references)));
                 ("resolved", VInt (Z.of_nat (length results) - n_failed results)); ("failed", VInt (n_failed results));
                 ("results", VList (map check_dict results))]
                ++ if show_redacted then
                     [("redacted_resolved_config", match resolve raw [] no_cache with
                                                   | Ok (v, _) => redact v
                                                   | Raise e => VStr ("<resolution failed: " ++ show e ++ ">") end)]
                   else [])%py in
    (if json then [pretty 0 (plain (VDict out))] else _render_resolve config results,
     if (n_failed results =? 0)%Z then EXIT_OK else EXIT_RESOLVE_FAILURES).
End resolve.

(** ** The meaning of a configuration *)

Section spec.
Context `{Unicode} (show : exn → str) (_PROVIDERS : list (str * Provider)).
Abbreviation parse := (_parse_reference _PROVIDERS).

(** The value of a string: itself, or what its provider answers, or its default. *)
Definition value_of (field_path value : str) : exc str :=
  match parse value with
  | None => Ok value
  | Some (scheme, spec, ps) =>
      match ask _PROVIDERS scheme spec (pop_default ps).2, (pop_default ps).1 with
      | Ok v, _ => Ok v
      | Raise _, Some d => Ok d
      | Raise e, None => Raise (resolution_error show field_path value e)
      end
  end.

(** The configuration with every string replaced by its value, the rest as it is. *)
Fixpoint subst (cfg : pyval) (path : str) : exc pyval :=
  match cfg with
  | VDict d =>
      let* d := (fix items (d : list (str * pyval)) : exc (list (str * pyval)) :=
        match d with
        | [] => Ok []
        | (k, v) :: d => let* v := subst v (key_path path k) in let* d := items d in Ok ((k, v) :: d)
        end) d in
      Ok (VDict d)
  | VList l =>
      let* l := (fix elems (i : nat) (l : list pyval) : exc (list pyval) :=
        match l with
        | [] => Ok []
        | v :: l => let* v := subst v (item_path path i) in let* l := elems (S i) l in Ok (v :: l)
        end) 0 l in
      Ok (VList l)
  | VStr s => let* s := value_of (root_path path) s in Ok (VStr s)
  | _ => Ok cfg
  end.

(** What the cache holds is right, and each of its keys was asked for once. *)
Record consistent (c : cache) : Prop := {
  cons_hits : ∀ u v fp, hits c !! u = Some v → value_of fp u = Ok v;
  cons_calls : ∀ u, u ∈ calls c ↔ is_Some (hits c !! u);
  cons_once : NoDup (calls c)
}.

(** A step of the resolution: the value of the specification, and the new references asked for. *)
Definition follows {A} (r : exc (A * cache)) (spec : exc A) (c : cache) (refs : list str) : Prop :=
  match spec with
  | Raise e => r = Raise e
  | Ok v => ∃ c', r = Ok (v, c') ∧ consistent c' ∧ ∀ u, u ∈ calls c' ↔ u ∈ calls c ∨ u ∈ refs
  end.

Lemma follows_bind {A B} (r : exc (A * cache)) spec c refs (f : A * cache → exc (B * cache)) (g : A → exc B) refs' :
  follows r spec c refs → (∀ a c', consistent c' → follows (f (a, c')) (g a) c' refs') →
  follows (exc_bind r f) (exc_bind spec g) c (refs ++ refs').
Proof.
  unfold follows at 1. destruct spec as [a|e]; [|by intros ->]. intros (c1 & -> & Hc1 & Hu1) Hf. cbn [exc_bind].
  specialize (Hf a c1 Hc1). unfold follows in *. destruct (g a) as [b|e]; [|done].
  destruct Hf as (c2 & -> & Hc2 & Hu2). exists c2. split; [done|]. split; [done|]. intros u. rewrite Hu2, Hu1, elem_of_app. tauto.
Qed.

Lemma follows_ret {A} (a : A) c : consistent c → follows (Ok (a, c)) (Ok a) c [].
Proof. intros Hc. exists c. split; [done|]. split; [done|]. intros u. rewrite elem_of_nil. tauto. Qed.

Lemma follows_value s fp c : consistent c →
  follows (_resolve_value show _PROVIDERS s fp c) (value_of fp s) c (if parse s is Some _ then [s] else []).
Proof.
  intros Hc. unfold _resolve_value, value_of. destruct (parse s) as [[[scheme spec] ps]|] eqn:Ep; [|by apply follows_ret].
  destruct (hits c !! s) as [v|] eqn:Ev.
  - pose proof (cons_hits c Hc s v fp Ev) as Hv. unfold value_of in Hv. rewrite Ep in Hv. rewrite Hv. exists c.
    split; [done|]. split; [done|]. intros u. split; [by left|]. intros [| ->%list_elem_of_singleton]; [done|]. apply Hc. by exists v.
  - destruct (pop_default ps) as [d ps'] eqn:Ed. cbn [fst snd].
    assert (Hnew : ∀ v, (∀ fp, value_of fp s = Ok v) →
      consistent (mk_cache (<[s:=v]> (hits c)) (calls c ++ [s])) ∧ ∀ u, u ∈ calls c ++ [s] ↔ u ∈ calls c ∨ u ∈ [s]).
    { intros v Hv. split; [|intros u; apply elem_of_app]. destruct Hc as [H1 H2 H3]. split; cbn [hits calls].
      - intros u w fp'. destruct (decide (s = u)) as [<-|Hne]; [rewrite lookup_insert_eq; intros [= <-]; apply Hv|].
        rewrite lookup_insert_ne by done. apply H1.
      - intros u. rewrite elem_of_app, H2, list_elem_of_singleton. destruct (decide (s = u)) as [<-|Hne].
        + rewrite lookup_insert_eq. split; [by eexists|by right].
        + rewrite lookup_insert_ne by done. naive_solver.
      - apply NoDup_snoc; [done|]. intros Hin%H2. rewrite Ev in Hin. by destruct Hin. }
    destruct (ask _PROVIDERS scheme spec ps') as [v|e] eqn:Ea; [|destruct d as [d|]; [|done]];
      (eexists; split; [reflexivity|]; apply Hnew; intros fp'; unfold value_of; rewrite Ep, Ed; cbn [fst snd]; by rewrite Ea).
Qed.

Lemma resolve_follows cfg path c : consistent c →
  follows (resolve show _PROVIDERS cfg path c) (subst cfg path) c (map snd (find_references _PROVIDERS cfg path)).
Proof.
  revert path c. induction cfg as [| | | |s| |l IH|d IH] using pyval_nested_ind; intros path c Hc; try by apply follows_ret.
  - cbn [resolve subst find_references]. rewrite <- (app_nil_r (map snd _)). eapply follows_bind; [|intros; by apply follows_ret].
    replace (map snd _) with (if parse s is Some _ then [s] else []) by (by destruct (parse s)). by apply follows_value.
  - cbn [resolve subst find_references]. rewrite <- (app_nil_r (map snd _)). eapply follows_bind; [|intros; by apply follows_ret].
    generalize 0 as i. revert c Hc. induction IH as [|v l Hv _ IHl]; intros c Hc i; [by apply follows_ret|]. rewrite map_app.
    eapply follows_bind; [by apply Hv|]. intros v' c1 Hc1. rewrite <- (app_nil_r (map snd _)).
    eapply follows_bind; [by apply IHl|]. intros l' c2 Hc2. by apply follows_ret.
  - cbn [resolve subst find_references]. rewrite <- (app_nil_r (map snd _)). eapply follows_bind; [|intros; by apply follows_ret].
    revert c Hc. induction IH as [|[k v] d Hv _ IHd]; intros c Hc; [by apply follows_ret|]. cbn [flat_map]. rewrite map_app.
    eapply follows_bind; [by apply Hv|]. intros v' c1 Hc1. rewrite <- (app_nil_r (map snd _)).
    eapply follows_bind; [by apply IHd|]. intros d' c2 Hc2. by apply follows_ret.
Qed.

Lemma no_cache_consistent : consistent no_cache.
Proof.
  split; cbn; [intros u v fp Hu; by rewrite lookup_empty in Hu| |constructor].
  intros u. rewrite lookup_empty. split; [by intros ?%elem_of_nil|by intros []].
Qed.

(** The configuration loads exactly when each of its references resolves. *)
Lemma value_ok fp fp' s : is_ok (value_of fp s) = is_ok (value_of fp' s).
Proof. unfold value_of. by repeat case_match. Qed.

Lemma subst_ok cfg path : is_ok (subst cfg path) = forallb (λ r, is_ok (value_of r.1 r.2)) (find_references _PROVIDERS cfg path).
Proof.
  assert (Hb : ∀ {A B} (m : exc A) (f : A → exc B) b, (∀ a, is_ok (f a) = b) → is_ok (exc_bind m f) = is_ok m && b) by (by intros A B [] f b Hf; cbn).
  revert path. induction cfg as [| | | |s| |l IH|d IH] using pyval_nested_ind; intros path; try done; cbn [subst find_references].
  - rewrite (Hb _ _ _ _ true), andb_true_r by done. unfold value_of at 1. destruct (parse s) as [[[sc sp] ps]|] eqn:Ep; [|done].
    cbn [forallb fst snd]. rewrite andb_true_r. unfold value_of. rewrite Ep. by repeat case_match.
  - rewrite (Hb _ _ _ _ true), andb_true_r by done. generalize 0 as i. induction IH as [|v l Hv _ IHl]; intros i; [done|].
    rewrite forallb_app, <- Hv, <- IHl. apply Hb. intros a. rewrite (Hb _ _ _ _ true), andb_true_r by done. done.
  - rewrite (Hb _ _ _ _ true), andb_true_r by done. induction IH as [|[k v] d Hv _ IHd]; [done|]. cbn [flat_map].
    cbn [snd] in Hv. rewrite forallb_app, <- Hv, <- IHd. apply Hb. intros a. rewrite (Hb _ _ _ _ true), andb_true_r by done. done.
Qed.
End spec.

(** ** Properties *)

(** C13: resolving with the shared cache is resolving without one: the loaded configuration is the given one with
    each string replaced by its value and nothing else changed, or the error of its first reference that has
    none; and each reference of the configuration is asked for exactly once, and nothing else is. *)
Theorem resolve_once `{Unicode} show providers cfg :
  match subst show providers cfg [] with
  | Raise e => resolve show providers cfg [] no_cache = Raise e
  | Ok v => ∃ c, resolve show providers cfg [] no_cache = Ok (v, c) ∧ NoDup (calls c) ∧
                 ∀ u, u ∈ calls c ↔ u ∈ map snd (find_references providers cfg [])
  end.
Proof.
  pose proof (resolve_follows show providers cfg [] no_cache (no_cache_consistent show providers)) as Hf. unfold follows in Hf.
  destruct (subst _ _ _ _) as [v|e]; [|done]. destruct Hf as (c & Hr & Hc & Hu). exists c. split; [done|]. split; [apply Hc|].
  intros u. rewrite Hu. cbn. rewrite elem_of_nil. tauto.
Qed.

Lemma resolve_is_ok `{Unicode} show providers cfg path :
  is_ok (resolve show providers cfg path no_cache) = is_ok (subst show providers cfg path).
Proof.
  pose proof (resolve_follows show providers cfg path no_cache (no_cache_consistent show providers)) as Hf. unfold follows in Hf.
  destruct (subst _ _ _ _) as [v|e]; [by destruct Hf as (c & -> & _)|by rewrite Hf].
Qed.

(** C22: the check ahead of a deployment tells the truth: [secrets_check --resolve] exits 0 exactly when the service
    could load the configuration, and it never writes to it or exits otherwise than 0 or 1. *)
Theorem check_predicts_load `{Unicode} show providers config raw json redacted :
  (main show providers config raw true json redacted).2 = EXIT_OK ↔ is_ok (resolve show providers raw [] no_cache) = true.
Proof.
  rewrite resolve_is_ok, subst_ok. unfold main. cbn [negb snd]. unfold n_failed.
  induction (find_references providers raw []) as [|[p u] refs IH]; [done|]. cbn [map forallb List.filter fst snd].
  assert (E : failed (check_one show providers (p, u)) = negb (is_ok (value_of show providers p u))).
  { unfold failed, check_one. cbn [fst snd ck_error]. pose proof (resolve_is_ok show providers (VDict [(p, VStr u)]) []) as Hr.
    rewrite subst_ok in Hr. cbn [find_references flat_map fst snd] in Hr. rewrite app_nil_r in Hr.
    destruct (_parse_reference providers u) eqn:Ep.
    - cbn [forallb fst snd] in Hr. rewrite andb_true_r, (value_ok show providers _ p) in Hr. rewrite <- Hr. by destruct (resolve _ _ _ _ _).
    - cbn [forallb] in Hr. unfold value_of. rewrite Ep. by destruct (resolve _ _ _ _ _). }
  rewrite E. destruct (is_ok _) eqn:Eo; cbn [negb andb length]; [exact IH|]. by rewrite (proj2 (Z.eqb_neq _ _)) by lia.
Qed.

(** ** What the redacted view shows *)

Definition env_only `{Unicode} (environ : gmap str str) : list (str * Provider) := [("env"%py, _provider_env environ)].

(** A default is a secret in clear, and a reference is shown as it is. *)
Example redact_shows_default `{Unicode} :
  redact (env_only ∅) (VDict [("api_key", VStr "env://KEY?default=hunter2")]%py) = VDict [("api_key", VStr "env://KEY?default=hunter2")]%py.
Proof. vm_compute. reflexivity. Qed.

(** A secret that was resolved under a key without one of the words is shown as well. *)
Example redact_by_key `{Unicode} show :
  (λ r, redact (env_only {[ "DSN"%py := "postgres://u:hunter2@db"%py ]}) r.1) <$>
    (match resolve show (env_only {[ "DSN"%py := "postgres://u:hunter2@db"%py ]}) (VDict [("dsn", VStr "env://DSN"); ("token", VStr "env://DSN")]%py) [] no_cache with
     | Ok r => Some r | Raise _ => None end)
  = Some (VDict [("dsn", VStr "postgres://u:hunter2@db"); ("token", VStr MASK)]%py).
Proof. vm_compute. reflexivity. Qed.
