(* ===== verification/Http.v ===== *)
(** The HTTP client as the connectors use it (httpx): a service is a function of its state, [send] answers a request or
    raises as the client does; what the clients build from it -- the requests, their order, the reading of the
    answers -- is theirs. *)

From S2P Require Import Prelude PyStr Hash Json.

#[local] Open Scope exc_scope.

(** ** HTTP *)

Inductive http_method := GET | POST.
Inductive payload := NoPayload | Query (d : list (str * str)) | Form (d : list (str * str)) | JsonBody (v : pyval).
Record hreq := mk_hreq { h_method : http_method; h_url : str; h_headers : list (str * str); h_auth : option (str * str); h_payload : payload }.

(** A response: its status, and its body as JSON or the error that decoding it raises. *)
Record hresp := mk_hresp { status_code : Z; r_json : exc pyval }.

Definition is_success (r : hresp) : bool := (200 <=? status_code r)%Z && (status_code r <=? 299)%Z.
Definition raise_for_status (r : hresp) : exc hresp := if is_success r then Ok r else Raise (ValueError "HTTPStatusError"%py).

(** [v.get(k, dflt)]. *)
Definition get_key (k : str) (dflt v : pyval) : exc pyval :=
  match v with VDict d => Ok (default dflt (assoc_get k d)) | _ => Raise AttributeError end.
Definition get_ (k : str) (v : pyval) : exc pyval := get_key k VNone v.

Definition is_text (s : str) (v : pyval) : bool := match v with VStr t => bool_decide (t = s) | _ => false end.

(** [base64.b64encode], with the alphabet of the URL-safe variant when [url] is set. *)
Definition b64_char (url : bool) (n : N) : N :=
  (if n <? 26 then 65 + n else if n <? 52 then 71 + n else if n <? 62 then n - 4 else if n =? 62 then (if url then 45 else 43) else (if url then 95 else 47))%N.
Fixpoint b64 (url : bool) (b : bytes) : str :=
  let c := b64_char url in
  match b with
  | x :: y :: z :: b => [c (x / 4); c (x mod 4 * 16 + y / 16); c (y mod 16 * 4 + z / 64); c (z mod 64)]%N ++ b64 url b
  | [x; y] => [c (x / 4); c (x mod 4 * 16 + y / 16); c (y mod 16 * 4); 61]%N
  | [x] => [c (x / 4); c (x mod 4 * 16); 61; 61]%N
  | [] => []
  end.

Example b64_example : b64 false (encode "Man Ma M"%py) = "TWFuIE1hIE0="%py.
Proof. vm_compute. reflexivity. Qed.

Section client.
Context {S : Type} (send : hreq → S → exc hresp * S).

(** A [try] whose [except Exception] answers [dflt]. *)
Definition or_else {A} (dflt : A) (r : exc A * S) : A * S := match r with (Ok a, s) => (a, s) | (Raise _, s) => (dflt, s) end.

(** A request that must succeed, and what is made of its answer. *)
Definition fetch {A} (req : hreq) (read : hresp → exc A) (s : S) : exc A * S :=
  let '(r, s) := send req s in ((let* r := r in let* r := raise_for_status r in read r), s).
End client.

(** ** What an answer proves *)

Section laws.
Context {S : Type} (send : hreq → S → exc hresp * S).

(** The service answered [req], with a success and a body that holds [v] under [k]. *)
Definition says (req : hreq) (s : S) (k v : str) : Prop :=
  ∃ r d, (send req s).1 = Ok r ∧ is_success r = true ∧ r_json r = Ok (VDict d) ∧ assoc_get k d = Some (VStr v).

(** The request has no usable answer: the network failed, the status is an error, or the body is not JSON. *)
Definition silent (req : hreq) (s : S) : Prop :=
  match (send req s).1 with Raise _ => True | Ok r => is_success r = false ∨ is_ok (r_json r) = false end.

Lemma is_text_true k v : is_text k v = true → v = VStr k.
Proof. destruct v; try done. cbn. by intros ->%bool_decide_eq_true. Qed.

Lemma get_key_inv k dflt v x : get_key k dflt v = Ok x → ∃ d, v = VDict d ∧ x = default dflt (assoc_get k d).
Proof. destruct v; try done. cbn. intros <-%Ok_inj. eauto. Qed.

Lemma get_text k v w : get_ k v = Ok (VStr w) → ∃ d, v = VDict d ∧ assoc_get k d = Some (VStr w).
Proof.
  unfold get_. intros (d & -> & E)%get_key_inv. exists d. split; [done|]. destruct (assoc_get k d); [by rewrite E|done].
Qed.

Lemma fetch_inv {A} req (read : hresp → exc A) s a s' : fetch send req read s = (Ok a, s') →
  ∃ r, (send req s).1 = Ok r ∧ is_success r = true ∧ read r = Ok a.
Proof.
  unfold fetch. destruct (send req s) as [r s1]. cbn [fst]. intros [= E <-].
  apply exc_bind_ok in E as (r1 & -> & (r2 & Hr & Ha)%exc_bind_ok). unfold raise_for_status in Hr.
  destruct (is_success r1) eqn:Es; [|done]. apply Ok_inj in Hr as <-. eauto.
Qed.

Lemma or_else_inv {A} (dflt a : A) (r : exc A * S) s : or_else dflt r = (a, s) → a ≠ dflt → r = (Ok a, s).
Proof. destruct r as [[b|e] s1]; cbn; by intros [= <- <-]. Qed.

(** Reading a field of the answer's JSON. *)
Lemma fetch_says (A : Type) req (f : pyval → A) k w s a s' (good : A → Prop) :
  (∀ v, good (f v) → v = VStr w) → good a →
  fetch send req (λ r, let* j := r_json r in let* v := get_ k j in Ok (f v)) s = (Ok a, s') → says req s k w.
Proof.
  intros Hf Ha (r & Hr & Hs & Hread)%fetch_inv. apply exc_bind_ok in Hread as (j & Hj & (v & Hv & <-%Ok_inj)%exc_bind_ok).
  apply Hf in Ha as ->. apply get_text in Hv as (d & -> & Hd). by exists r, d.
Qed.

Lemma fetch_silent {A} req (read : pyval → exc A) s : silent req s →
  ∃ e s', fetch send req (λ r, let* j := r_json r in read j) s = (Raise e, s').
Proof.
  unfold silent, fetch. destruct (send req s) as [[r|e] s1]; cbn [fst exc_bind]; [|by eauto].
  unfold raise_for_status. destruct (is_success r) eqn:E; cbn [exc_bind]; [|by eauto].
  intros [|Hj]; [done|]. destruct (r_json r); [done|]. by eauto.
Qed.
End laws.
