(* ===== verification/Heartbeat.v ===== *)
(** plenith/heartbeat.py: the agents' heartbeat files and the roster read from them.

    The directory maps file names to parsed contents (or what reading them raises); an agent is its writer's fields and the
    state of its task, and the events are its start, the turns of its task, and its stop. *)

From Stdlib Require Import SpecFloat.
From S2P Require Import Prelude PyStr Float Json AuditViews Http.

#[local] Open Scope exc_scope.

Definition DEFAULT_STALE_SECONDS : flt := of_int 30.
Definition DEFAULT_DOWN_SECONDS : flt := of_int 90.

(** ** The writer *)

Record HeartbeatWriter := mk_writer {
  w_hostname : str; w_persona : str; w_version : str; w_deployment_id : str; w_content_epoch : str;
  w_started_at : flt; w_engagements_open : Z; w_engagements_total : Z; w_pid : Z;
  w_task : bool;          (* a task was created and not yet stopped *)
  w_stopped : bool;       (* the event that ends the loop; nothing clears it *)
}.

Abbreviation directory := (gmap str (exc pyval)).

Definition json_name (h : str) : str := h ++ ".json"%py.
Definition file_path (w : HeartbeatWriter) : str := json_name (w_hostname w).

Definition payload (w : HeartbeatWriter) (now : flt) : list (str * pyval) :=
  [("hostname", VStr (w_hostname w)); ("persona", VStr (w_persona w)); ("version", VStr (w_version w)); ("started_at", VFloat (w_started_at w));
   ("last_beat", VFloat now); ("engagements_open", VInt (w_engagements_open w)); ("engagements_total_since_start", VInt (w_engagements_total w));
   ("deployment_id", VStr (w_deployment_id w)); ("content_epoch", VStr (w_content_epoch w)); ("pid", VInt (w_pid w))]%py.

Definition write_once (w : HeartbeatWriter) (now : flt) (d : directory) : directory := <[file_path w := Ok (VDict (payload w now))]> d.

Definition set_task (task stopped : bool) (w : HeartbeatWriter) : HeartbeatWriter :=
  mk_writer (w_hostname w) (w_persona w) (w_version w) (w_deployment_id w) (w_content_epoch w) (w_started_at w) (w_engagements_open w)
    (w_engagements_total w) (w_pid w) task stopped.

Definition start (now : flt) (w : HeartbeatWriter) (d : directory) : HeartbeatWriter * directory :=
  if w_task w then (w, d) else (set_task true (w_stopped w) w, write_once w now d).

(** A turn of the task's loop. *)
Definition run_turn (now : flt) (w : HeartbeatWriter) (d : directory) : directory :=
  if w_task w && negb (w_stopped w) then write_once w now d else d.

(** The last beat, marked: an unreadable file is left, a document that is not an object raises TypeError. *)
Definition stop (now : flt) (w : HeartbeatWriter) (d : directory) : exc (HeartbeatWriter * directory) :=
  let w' := set_task false true w in
  match d !! file_path w with
  | Some (Ok (VDict data)) => Ok (w', <[file_path w := Ok (VDict (assoc_set "status" (VStr "stopping") (assoc_set "last_beat" (VFloat now) data)))%py]> d)
  | Some (Ok _) => Raise (TypeError "item assignment"%py)
  | Some (Raise (OSError _)) | Some (Raise JSONDecodeError) | None => Ok (w', d)
  | Some (Raise e) => Raise e
  end.

(** ** The roster *)

Record AgentHealth := mk_health {
  a_hostname : str; a_persona : str; a_version : str; a_started_at : flt; a_last_beat : flt; a_age_seconds : flt; a_status : str;
  a_engagements_open : Z; a_engagements_total_since_start : Z; a_deployment_id : str; a_content_epoch : str;
}.

Definition health_dict (a : AgentHealth) : pyval := VDict
  [("hostname", VStr (a_hostname a)); ("persona", VStr (a_persona a)); ("version", VStr (a_version a)); ("started_at", VFloat (a_started_at a));
   ("last_beat", VFloat (a_last_beat a)); ("age_seconds", VFloat (a_age_seconds a)); ("status", VStr (a_status a));
   ("engagements_open", VInt (a_engagements_open a)); ("engagements_total_since_start", VInt (a_engagements_total_since_start a));
   ("deployment_id", VStr (a_deployment_id a)); ("content_epoch", VStr (a_content_epoch a))]%py.

Definition _classify (age_seconds : flt) (recorded_status : pyval) (stale down : flt) : str :=
  if is_text "stopping"%py recorded_status then "stopping"%py
  else if fgt_b age_seconds down then "down"%py
  else if fgt_b age_seconds stale then "degraded"%py
  else "healthy"%py.

Section reader.
Context `{Unicode} (parse_float : str → option flt).   (* float(s) of a string *)

(** [float(v or 0)] and [int(v or 0)]. *)
Definition float_or_0 (v : pyval) : exc flt :=
  if negb (truthy v) then Ok f0 else
  match v with
  | VFloat f => Ok f
  | VInt n => Ok (of_int n)
  | VBool _ => Ok f1
  | VStr s => of_option (ValueError "could not convert string to float"%py) (parse_float s)
  | _ => Raise (TypeError "float() argument"%py)
  end.
Definition int_or_0 (v : pyval) : exc Z :=
  if negb (truthy v) then Ok 0%Z else
  match v with
  | VFloat f => as_int f
  | VInt n => Ok n
  | VBool _ => Ok 1%Z
  | VStr s => of_option (ValueError "invalid literal for int()"%py) (py_int s)
  | _ => Raise (TypeError "int() argument"%py)
  end.

Definition stem (name : str) : str := take (length name - 5) name.

Definition health_of (stale down now : flt) (name : str) (data : pyval) : exc AgentHealth :=
  let* last := get_ "last_beat"%py data in
  let* last_beat := float_or_0 last in
  let age := fmax f0 (fsub now last_beat) in
  let text k dflt := let* v := get_key k (VStr dflt) data in Ok (show_value v) in
  let* hostname := text "hostname"%py (stem name) in
  let* persona := text "persona"%py [] in
  let* version := text "version"%py "?"%py in
  let* started := get_ "started_at"%py data in
  let* started_at := float_or_0 started in
  let* status := get_ "status"%py data in
  let* open := get_ "engagements_open"%py data in
  let* open := int_or_0 open in
  let* total := get_ "engagements_total_since_start"%py data in
  let* total := int_or_0 total in
  let* deployment := text "deployment_id"%py [] in
  let* epoch := text "content_epoch"%py [] in
  Ok (mk_health hostname persona version started_at last_beat age (_classify age status stale down) open total deployment epoch).

(** The files in the order of their names; one that cannot be read or parsed is passed over. *)
Fixpoint read_files (stale down now : flt) (d : directory) (names : list str) : exc (list AgentHealth) :=
  match names with
  | [] => Ok []
  | name :: names =>
      match default (Raise (OSError [])) (d !! name) with
      | Raise (OSError _) | Raise JSONDecodeError => read_files stale down now d names
      | Raise e => Raise e
      | Ok data => let* a := health_of stale down now name data in let* l := read_files stale down now d names in Ok (a :: l)
      end
  end.

Definition read_all_heartbeats (stale down now : flt) (d : directory) : exc (list AgentHealth) :=
  read_files stale down now d (List.filter (λ n, endswith n ".json"%py) (sorted_keys d)).
End reader.

(** ** A fleet of agents *)

Inductive event := Start (h : str) (now : flt) | Turn (h : str) (now : flt) | Stop (h : str) (now : flt).

Record fleet := mk_fleet { f_writers : gmap str HeartbeatWriter; f_dir : directory }.

Definition step (f : fleet) (e : event) : exc fleet :=
  match e with
  | Start h now => match f_writers f !! h with
                   | Some w => let '(w, d) := start now w (f_dir f) in Ok (mk_fleet (<[h := w]> (f_writers f)) d)
                   | None => Ok f end
  | Turn h now => match f_writers f !! h with Some w => Ok (mk_fleet (f_writers f) (run_turn now w (f_dir f))) | None => Ok f end
  | Stop h now => match f_writers f !! h with
                  | Some w => let* wd := stop now w (f_dir f) in Ok (mk_fleet (<[h := wd.1]> (f_writers f)) wd.2)
                  | None => Ok f end
  end.

Fixpoint run (f : fleet) (es : list event) : exc fleet :=
  match es with [] => Ok f | e :: es => let* f := step f e in run f es end.

(** ** The roster refines the table of last beats *)

(** What is known of an agent: its last beat, and whether it was that of a stop. *)
Record beat := mk_beat { b_time : flt; b_stopping : bool }.
Record abstract := mk_abstract { ab_running : bool; ab_stopped : bool; ab_beat : option beat }.

Definition abs_step (h : str) (a : abstract) (e : event) : abstract :=
  match e with
  | Start h' now => if decide (h = h') then if ab_running a then a else mk_abstract true (ab_stopped a) (Some (mk_beat now false)) else a
  | Turn h' now => if decide (h = h') then if ab_running a && negb (ab_stopped a) then mk_abstract (ab_running a) (ab_stopped a) (Some (mk_beat now false)) else a else a
  | Stop h' now => if decide (h = h') then mk_abstract false true ((λ _, mk_beat now true) <$> ab_beat a) else a
  end.
Definition abs_run (h : str) (es : list event) : abstract := foldl (abs_step h) (mk_abstract false false None) es.

Definition shown (stale down now : flt) (w : HeartbeatWriter) (b : beat) : AgentHealth :=
  let age := fmax f0 (fsub now (b_time b)) in
  mk_health (w_hostname w) (w_persona w) (w_version w) (w_started_at w) (b_time b) age
    (if b_stopping b then "stopping" else if fgt_b age down then "down" else if fgt_b age stale then "degraded" else "healthy")%py
    (w_engagements_open w) (w_engagements_total w) (w_deployment_id w) (w_content_epoch w).

(** *** Proof *)

Definition data (w : HeartbeatWriter) (b : beat) : pyval :=
  VDict (payload w (b_time b) ++ if b_stopping b then [("status", VStr "stopping")]%py else []).

Definition at_work (w : HeartbeatWriter) (a : abstract) : HeartbeatWriter := set_task (ab_running a) (ab_stopped a) w.

Lemma file_path_set_task w x y : file_path (set_task x y w) = file_path w.
Proof. done. Qed.

Lemma stopped_data w b now : assoc_set "status"%py (VStr "stopping"%py) (assoc_set "last_beat"%py (VFloat now)
    (payload w (b_time b) ++ if b_stopping b then [("status", VStr "stopping")]%py else []))
  = payload w now ++ [("status", VStr "stopping")]%py.
Proof. by destruct (b_stopping b). Qed.

(** The agents' own files are as the table says, and there are no others. *)
Definition agrees (ws : gmap str HeartbeatWriter) (tab : str → abstract) (f : fleet) : Prop :=
  (∀ h, f_writers f !! h = (λ w, at_work w (tab h)) <$> ws !! h) ∧
  (∀ name v, f_dir f !! name = Some v ↔ ∃ h w b, ws !! h = Some w ∧ ab_beat (tab h) = Some b ∧ name = json_name h ∧ v = Ok (data w b)).

Lemma json_inj h h' : json_name h = json_name h' → h = h'.
Proof. apply app_inv_tail. Qed.

Section refinement.
Context (ws : gmap str HeartbeatWriter) (named : ∀ h w, ws !! h = Some w → w_hostname w = h).

(** Writing the file of [h] and recording the beat of [h]. *)
Lemma agrees_beat tab f h w a b : agrees ws tab f → ws !! h = Some w → ab_beat a = Some b →
  agrees ws (λ x, if decide (x = h) then a else tab x) (mk_fleet (<[h := at_work w a]> (f_writers f)) (<[json_name h := Ok (data w b)]> (f_dir f))).
Proof.
  intros [Hw Hd] Hh Hb. split; cbn [f_writers f_dir].
  - intros x. destruct (decide (x = h)) as [->|Hne]; [by rewrite lookup_insert_eq, Hh|]. by rewrite lookup_insert_ne.
  - intros name v. destruct (decide (name = json_name h)) as [->|Hne].
    + rewrite lookup_insert_eq. split.
      * intros [= <-]. exists h, w, b. by rewrite decide_True.
      * intros (x & w' & b' & Hx & Hbx & E%json_inj & ->). subst x. rewrite decide_True in Hbx by done. by simplify_eq.
    + rewrite lookup_insert_ne by done. rewrite Hd. split; intros (x & w' & b' & Hx & Hbx & -> & ->); exists x, w', b'.
      * by rewrite decide_False by (intros ->; done).
      * by rewrite decide_False in Hbx by (intros ->; done).
Qed.

(** A change of the task alone. *)
Lemma agrees_task tab f h w a : agrees ws tab f → ws !! h = Some w → ab_beat a = ab_beat (tab h) →
  agrees ws (λ x, if decide (x = h) then a else tab x) (mk_fleet (<[h := at_work w a]> (f_writers f)) (f_dir f)).
Proof.
  intros [Hw Hd] Hh Hb. split; cbn [f_writers f_dir].
  - intros x. destruct (decide (x = h)) as [->|Hne]; [by rewrite lookup_insert_eq, Hh|]. by rewrite lookup_insert_ne.
  - intros name v. rewrite Hd. split; intros (x & w' & b' & Hx & Hbx & -> & ->); exists x, w', b'; case_decide; subst; by rewrite ?Hb in *.
Qed.

Lemma agrees_ext tab tab' f : (∀ h, tab h = tab' h) → agrees ws tab f → agrees ws tab' f.
Proof. intros E [Hw Hd]. split; [intros h; by rewrite <- E|]. intros name v. rewrite Hd. split; intros (h & w & b & H); exists h, w, b; by rewrite ?E in *. Qed.

Lemma agrees_same tab f h w : agrees ws tab f → ws !! h = Some w → f_writers f !! h = Some (at_work w (tab h)).
Proof. intros [Hw _] Hh. by rewrite Hw, Hh. Qed.

Lemma agrees_none tab tab' f : (∀ h, is_Some (ws !! h) → tab h = tab' h) → agrees ws tab f → agrees ws tab' f.
Proof.
  intros E [Hw Hd]. split.
  - intros h. rewrite Hw. destruct (ws !! h) as [w|] eqn:Eh; [|done]. cbn. by rewrite E by (rewrite Eh; by eexists).
  - intros name v. rewrite Hd. split; intros (h & w & b & Hh & Hb & H); exists h, w, b; [rewrite <- E|rewrite E]; done.
Qed.

Lemma agrees_step tab f e : agrees ws tab f → ∃ f', step f e = Ok f' ∧ agrees ws (λ h, abs_step h (tab h) e) f'.
Proof.
  intros Ha. set (h := match e with Start h _ | Turn h _ | Stop h _ => h end).
  assert (Hother : ∀ x, x ≠ h → abs_step x (tab x) e = tab x) by (intros x Hx; destruct e; cbn; by rewrite decide_False).
  destruct (ws !! h) as [w|] eqn:Hh.
  - assert (Hto : ∀ f', agrees ws (λ x, if decide (x = h) then abs_step h (tab h) e else tab x) f' → agrees ws (λ x, abs_step x (tab x) e) f').
    { intros f'. apply agrees_ext. intros x. case_decide as Ex; [by subst x|]. symmetry. by apply Hother. }
    pose proof (agrees_same _ _ _ _ Ha Hh) as Hw. pose proof (named h w Hh) as Hn.
    assert (Hf : file_path w = json_name h) by (unfold file_path; by rewrite Hn).
    destruct e as [h' now|h' now|h' now]; unfold h in *; clear h; rename h' into h; cbn [step abs_step] in *; rewrite decide_True in Hto by done; rewrite Hw.
    + unfold start, at_work. cbn [w_task set_task w_stopped]. destruct (ab_running (tab h)) eqn:Er.
      * eexists. split; [reflexivity|]. apply Hto. rewrite <- Er. by apply agrees_task.
      * eexists. split; [reflexivity|]. apply Hto. unfold write_once. rewrite file_path_set_task, Hf.
        exact (agrees_beat tab f h w (mk_abstract true (ab_stopped (tab h)) (Some (mk_beat now false))) _ Ha Hh eq_refl).
    + unfold run_turn, at_work. cbn [w_task set_task w_stopped]. eexists. split; [reflexivity|]. apply Hto.
      destruct (ab_running (tab h) && negb (ab_stopped (tab h))) eqn:Er.
      * unfold write_once. rewrite file_path_set_task, Hf.
        pose proof (agrees_beat tab f h w (mk_abstract (ab_running (tab h)) (ab_stopped (tab h)) (Some (mk_beat now false))) _ Ha Hh eq_refl) as Hb.
        rewrite insert_id in Hb by done. exact Hb.
      * eapply agrees_ext; [|exact Ha]. intros x. by case_decide; subst.
    + unfold stop, at_work. rewrite file_path_set_task, Hf. destruct Ha as [Hwr Hd]. destruct (ab_beat (tab h)) as [b|] eqn:Eb.
      * assert (E : f_dir f !! (json_name h) = Some (Ok (data w b))) by (apply Hd; by exists h, w, b). rewrite E. unfold data.
        rewrite stopped_data. cbn [exc_bind fst snd fmap option_fmap option_map]. eexists. split; [reflexivity|]. apply Hto.
        exact (agrees_beat tab f h w (mk_abstract false true (Some (mk_beat now true))) _ (conj Hwr Hd) Hh eq_refl).
      * assert (E : f_dir f !! (json_name h) = None).
        { destruct (f_dir f !! _) as [v|] eqn:E; [|done]. apply Hd in E as (x & w' & b & _ & Hb & Ex%json_inj & _). subst x. congruence. }
        rewrite E. cbn [exc_bind fst snd]. eexists. split; [reflexivity|]. apply Hto.
        apply (agrees_task tab f h w (mk_abstract false true None)); [done|done|by rewrite Eb].
  - assert (Hf : f_writers f !! h = None) by (destruct Ha as [Hw _]; by rewrite Hw, Hh).
    exists f. split; [destruct e; cbn [step]; unfold h in Hf; by rewrite Hf|].
    eapply agrees_none; [|exact Ha]. intros x [w Hx]. symmetry. apply Hother. intros ->. congruence.
Qed.

Lemma agrees_run es tab f : agrees ws tab f → ∃ f', run f es = Ok f' ∧ agrees ws (λ h, foldl (abs_step h) (tab h) es) f'.
Proof.
  revert tab f. induction es as [|e es IH]; intros tab f Ha; [by exists f|]. cbn [run foldl].
  destruct (agrees_step tab f e Ha) as (f1 & -> & H1). cbn [exc_bind]. by apply (IH (λ h, abs_step h (tab h) e)).
Qed.
End refinement.

Section roster.
Context `{Unicode} (parse_float : str → option flt).

Lemma int_or_0_int n : int_or_0 (VInt n) = Ok n.
Proof. unfold int_or_0. cbn. by destruct (Z.eqb_spec n 0) as [->|]. Qed.

Lemma float_or_0_float f : ftruth f = true → float_or_0 parse_float (VFloat f) = Ok f.
Proof. intros E. unfold float_or_0. cbn [truthy]. by rewrite E. Qed.

Lemma health_of_data stale down now w b name : ftruth (b_time b) = true → ftruth (w_started_at w) = true →
  health_of parse_float stale down now name (data w b) = Ok (shown stale down now w b).
Proof.
  intros Hb Hs. destruct w as [hn per ver dep ep sa eo et pid task stopped], b as [t st]. cbn [b_time w_started_at] in Hb, Hs.
  unfold health_of, data, shown, _classify.
  destruct st; lazy -[float_or_0 int_or_0 fsub fmax fgt_b f0]; rewrite (float_or_0_float _ Hb); lazy -[float_or_0 int_or_0 fsub fmax fgt_b f0];
    rewrite (float_or_0_float _ Hs); lazy -[float_or_0 int_or_0 fsub fmax fgt_b f0];
    rewrite int_or_0_int; lazy -[float_or_0 int_or_0 fsub fmax fgt_b f0]; rewrite int_or_0_int; lazy -[fsub fmax fgt_b f0]; reflexivity.
Qed.

Lemma json_name_ends h : endswith (json_name h) ".json"%py = true.
Proof. apply endswith_app. Qed.

Definition timely (e : event) : Prop := match e with Start _ t | Turn _ t | Stop _ t => ftruth t = true end.

Lemma abs_times_from h es a b : Forall timely es → (∀ b, ab_beat a = Some b → ftruth (b_time b) = true) →
  ab_beat (foldl (abs_step h) a es) = Some b → ftruth (b_time b) = true.
Proof.
  intros He. revert a. induction He as [|e es Ht _ IH]; intros a Ha; [apply Ha|]. cbn [foldl]. apply IH. intros b'.
  destruct e as [h' t|h' t|h' t]; cbn [abs_step] in *; repeat case_match; cbn [ab_beat]; try apply Ha; try (by intros [= <-]).
  destruct (ab_beat a); [by intros [= <-]|done].
Qed.

Lemma abs_times h es b : Forall timely es → ab_beat (abs_run h es) = Some b → ftruth (b_time b) = true.
Proof. intros He. by apply abs_times_from. Qed.

(** One record for each file. *)
Lemma read_files_ok stale down now (tab : str → abstract) ws f names :
  agrees ws tab f → (∀ h w b, ws !! h = Some w → ab_beat (tab h) = Some b → ftruth (b_time b) = true ∧ ftruth (w_started_at w) = true) →
  Forall (λ n, is_Some (f_dir f !! n)) names →
  ∃ l, read_files parse_float stale down now (f_dir f) names = Ok l ∧
    Forall2 (λ n a, ∃ h w b, n = json_name h ∧ ws !! h = Some w ∧ ab_beat (tab h) = Some b ∧ a = shown stale down now w b) names l.
Proof.
  intros [Hw Hd] Ht. induction 1 as [|n names [v Hv] _ (l & E & Hl)]; [by exists []|]. cbn [read_files]. rewrite Hv. cbn [from_option].
  apply Hd in Hv as (h & w & b & Hh & Hb & -> & ->). unfold id. destruct (Ht h w b Hh Hb) as [H1 H2]. rewrite (health_of_data _ _ _ _ _ _ H1 H2), E.
  cbn [exc_bind]. eexists. split; [reflexivity|]. constructor; [by exists h, w, b|done].
Qed.

(** C28: the roster is exactly the agents that have beaten, each once: after any starts, turns and stops of any agents the files are read
    without error, and an agent is listed with its last beat, as stopping when that beat was the one of its stop, and else healthy, degraded
    or down by the time since; so an agent whose task runs is healthy at every moment less than [stale] after its last turn. *)
Theorem roster_exact stale down now ws es :
  (∀ h w, ws !! h = Some w → w_hostname w = h ∧ w_task w = false ∧ w_stopped w = false ∧ ftruth (w_started_at w) = true) → Forall timely es →
  ∃ f roster, run (mk_fleet ws ∅) es = Ok f ∧ read_all_heartbeats parse_float stale down now (f_dir f) = Ok roster ∧
    (∀ a, a ∈ roster ↔ ∃ h w b, ws !! h = Some w ∧ ab_beat (abs_run h es) = Some b ∧ a = shown stale down now w b) ∧
    NoDup (map a_hostname roster).
Proof.
  intros Hws He. assert (H0 : agrees ws (λ _, mk_abstract false false None) (mk_fleet ws ∅)).
  { split; cbn [f_writers f_dir].
    - intros h. destruct (ws !! h) as [w|] eqn:E; [|done]. destruct (Hws h w E) as (_ & Ht & Hs & _). destruct w. cbn in *. by subst.
    - intros name v. rewrite lookup_empty. split; [done|]. by intros (h & w & b & _ & Hb & _). }
  destruct (agrees_run ws (λ h w E, proj1 (Hws h w E)) es _ _ H0) as (f & Er & Ha).
  set (tab := λ h, abs_run h es). change (agrees ws tab f) in Ha.
  assert (Ht : ∀ h w b, ws !! h = Some w → ab_beat (tab h) = Some b → ftruth (b_time b) = true ∧ ftruth (w_started_at w) = true).
  { intros h w b Hh Hb. split; [by eapply abs_times|]. by destruct (Hws h w Hh) as (_ & _ & _ & ?). }
  set (names := List.filter (λ n, endswith n ".json"%py) (sorted_keys (f_dir f))).
  assert (Hnames : ∀ n, n ∈ names ↔ is_Some (f_dir f !! n)).
  { intros n. unfold names. rewrite list_elem_of_In, filter_In, <- list_elem_of_In, sorted_keys_elem. split; [by intros []|]. intros [v Hv]. split; [by eexists|].
    destruct Ha as [_ Hd]. apply Hd in Hv as (h & w & b & _ & _ & -> & _). apply json_name_ends. }
  destruct (read_files_ok stale down now tab ws f names Ha Ht) as (roster & Erd & Hall); [by apply Forall_forall; intros n; apply Hnames|].
  exists f, roster. split_and!; [done|exact Erd| |].
  - intros a. split.
    + intros [i Hi]%list_elem_of_lookup. destruct (Forall2_lookup_r _ _ _ _ _ Hall Hi) as (n & _ & h & w & b & _ & H1 & H2 & H3). by exists h, w, b.
    + intros (h & w & b & Hh & Hb & ->). assert (Hn : json_name h ∈ names).
      { apply Hnames. destruct Ha as [_ Hd]. eexists. apply Hd. by exists h, w, b. }
      apply list_elem_of_lookup in Hn as [i Hi]. destruct (Forall2_lookup_l _ _ _ _ _ Hall Hi) as (a & Hai & h' & w' & b' & E%json_inj & H1 & H2 & ->).
      subst h'. apply list_elem_of_lookup. exists i. unfold tab in H2. by simplify_eq.
  - assert (Hnd : NoDup names) by (apply NoDup_ListNoDup, List.NoDup_filter, NoDup_ListNoDup, sorted_keys_NoDup).
    assert (E : map json_name (map a_hostname roster) = names).
    { clear -Hall Hws. induction Hall as [|n a names roster (h & w & b & -> & Hh & _ & ->) _ IH]; [done|]. cbn. rewrite IH. f_equal.
      by destruct (Hws h w Hh) as [-> _]. }
    rewrite <- E in Hnd. eapply (NoDup_fmap_1 json_name). exact Hnd.
Qed.
End roster.

Definition demo_writer : HeartbeatWriter := mk_writer "bastion-prod" "agarcia" "1.0.0" "" "" (of_int 1778600000) 2 17 4242 false false.

(** A started agent is healthy, a stopped one says so, and one that restarts after its stop beats once and falls silent. *)
Lemma roster_exact_witness :
  let U : Unicode := λ _, true in
  let es := [Start "bastion-prod" (of_int 1778600010); Turn "bastion-prod" (of_int 1778600020)]%py in
  ∃ f roster, run (mk_fleet {["bastion-prod"%py := demo_writer]} ∅) es = Ok f ∧
    read_all_heartbeats (λ _, None) DEFAULT_STALE_SECONDS DEFAULT_DOWN_SECONDS (of_int 1778600030) (f_dir f) = Ok roster ∧
    ∃ a, a ∈ roster ∧ a_hostname a = "bastion-prod"%py ∧ a_status a = "healthy"%py.
Proof.
  intros U es. destruct (roster_exact (λ _, None) DEFAULT_STALE_SECONDS DEFAULT_DOWN_SECONDS (of_int 1778600030) {["bastion-prod"%py := demo_writer]} es)
    as (f & roster & Hr & Hl & Ha & _).
  - intros h w [<- <-]%lookup_singleton_Some. split_and!; reflexivity.
  - repeat constructor.
  - exists f, roster. split; [exact Hr|]. split; [exact Hl|].
    exists (shown DEFAULT_STALE_SECONDS DEFAULT_DOWN_SECONDS (of_int 1778600030) demo_writer (mk_beat (of_int 1778600020) false)).
    split; [|split; [reflexivity|vm_compute; reflexivity]]. apply Ha. exists "bastion-prod"%py, demo_writer, (mk_beat (of_int 1778600020) false).
    split_and!; [reflexivity|vm_compute; reflexivity|reflexivity].
Defined.

Example restart_is_silent :
  let es := [Start "bastion-prod" (of_int 10); Stop "bastion-prod" (of_int 20); Start "bastion-prod" (of_int 30); Turn "bastion-prod" (of_int 1000)]%py in
  ab_beat (abs_run "bastion-prod"%py es) = Some (mk_beat (of_int 30) false).
Proof. vm_compute. reflexivity. Qed.

(** A file that holds JSON but no object ends the reading of the whole roster. *)
Example one_bad_file (U : Unicode) : read_all_heartbeats (λ _, None) DEFAULT_STALE_SECONDS DEFAULT_DOWN_SECONDS (of_int 5) {["x.json"%py := Ok (VList [])]} = Raise AttributeError.
Proof. reflexivity. Qed.
