(* ===== verification/Rotation.v ===== *)
(** plenith/rotation (seeds.py, corp.py, artifacts.py, rotator.py): the company that a deployment pretends to be, the
    decoy files written in its name, and the manifest of what was generated. *)

From Stdlib Require Import SpecFloat.
From S2P Require Import Prelude PyStr Posix Vfs Hash Json Float CounterAI Synthetic Session Backup AuditViews Http Responses Orchestrator.

#[local] Open Scope exc_scope.

(** ** [str.format] *)

Inductive piece := Lit (s : str) | Field (name spec : str).

Fixpoint at_colon (s : str) : str * str :=
  match s with
  | [] => ([], [])
  | c :: s => if (c =? 58)%N then ([], s) else let '(a, b) := at_colon s in (c :: a, b)
  end.

(** The templates of this program have no doubled braces. *)
Fixpoint pieces (inside : bool) (acc s : str) : exc (list piece) :=
  match s with
  | [] => if inside then Raise (ValueError "expected '}' before end of string"%py) else Ok [Lit acc]
  | c :: s =>
      if inside then
        if (c =? 125)%N then let '(name, spec) := at_colon acc in let* ps := pieces false [] s in Ok (Field name spec :: ps)
        else pieces true (acc ++ [c]) s
      else if (c =? 123)%N then let* ps := pieces true [] s in Ok (Lit acc :: ps)
      else if (c =? 125)%N then Raise (ValueError "Single '}' encountered in format string"%py)
      else pieces false (acc ++ [c]) s
  end.

Inductive arg_val := AStr (s : str) | AInt (n : Z).

Definition format_piece (fields : list (str * arg_val)) (p : piece) : exc str :=
  match p with
  | Lit s => Ok s
  | Field name spec =>
      let* v := of_option (KeyError name) (assoc_get name fields) in
      match v, spec with
      | AStr s, [] => Ok s
      | AInt n, [] => Ok (str_of_Z n)
      | AInt n, [48; 50; 100]%N => Ok (zero_pad 2 n)     (* 02d *)
      | _, _ => Raise (ValueError "format spec"%py)
      end
  end.

Definition format (t : str) (fields : list (str * arg_val)) : exc str :=
  let* ps := pieces false [] t in let* l := exc_map (format_piece fields) ps in Ok (concat l).

Example format_example : format "{app}-{num:02d}"%py [("app", AStr "db"); ("num", AInt 7)]%py = Ok "db-07"%py.
Proof. reflexivity. Qed.

(** ** seeds.py *)

Record DeploymentSeed := mk_seed { deployment_id : str; epoch : str }.

Definition US : str := [31%N].
Definition material (s : DeploymentSeed) : str := deployment_id s ++ US ++ epoch s.
Definition int63 (digest : bytes) : Z := Z.land (Z.of_N (be_num (take 8 digest))) (Z.shiftl 1 63 - 1).
Definition _root_int (s : DeploymentSeed) : Z := int63 (sha256 (encode (material s))).
Definition for_purpose (s : DeploymentSeed) (purpose : str) : Z := int63 (sha256 (encode (material s ++ US ++ purpose))).
Definition seed_signature (s : DeploymentSeed) : str := take 12 (sha (encode (material s))).

Definition iter_purposes : list str :=
  ["corp_identity"; "sudoers_compat"; "mysql_my_cnf"; "ssh_banner"; "ssh_config"; "ssh_host_fingerprint";
   "auth_log_fingerprint"; "bash_history_pool"; "motd"]%py.

(** ** corp.py *)

Definition _INDUSTRIES : list (str * str) :=
  [("fin", "financial-services"); ("med", "healthcare"); ("mfg", "manufacturing"); ("ret", "retail");
   ("log", "logistics"); ("ins", "insurance"); ("trv", "travel"); ("med", "media"); ("edu", "education");
   ("ene", "energy")]%py.
Definition _SUFFIXES : list str :=
  ["corp"; "io"; "tech"; "labs"; "systems"; "industries"; "global"; "group"]%py.
Definition _PREFIXES : list str :=
  ["atlas"; "nexus"; "vertex"; "summit"; "ridge"; "lattice"; "vector"; "axiom"; "helio"; "luna"; "delta"; "vega";
   "kestrel"; "harbor"; "boreal"; "aurora"; "meridian"; "polaris"; "obsidian"; "cypress"]%py.
Definition _ENV_TIERS : list str :=
  ["prod"; "stage"; "dev"; "qa"; "int"]%py.
Definition _HOSTNAME_PATTERNS : list str :=
  ["{app}-{env}-{num:02d}"; "{env}-{app}-{num:02d}"; "{app}{num:02d}.{env}"; "{env}{num:02d}-{app}"]%py.
Definition _PRIVATE_PREFIX : str := "10"%py.

Definition _MOTD_TAGLINES : list str :=
  ["internal use only — see {corp_domain}/security"; "authorized {industry} personnel only — log out when done";
   "{corp_name} {industry} operations — handled with care";
   "session monitored under {corp_name} acceptable-use policy";
   "{corp_name} internal — escalations to it-ops@{corp_domain}"]%py.

Definition _SSH_FP_ALPHABET : str := "ABCDEFGHIJKLMNOPQRSTUVWXYZabcdefghijklmnopqrstuvwxyz0123456789+/"%py.

Record CorpIdentity := mk_corp {
  industry_short : str; industry_long : str; corp_short : str; corp_suffix : str; corp_name : str; corp_domain : str;
  prod_subnet : str; hostname_pattern : str; decoy_hosts : list str; db_database_name : str; db_admin_password : str;
  ssh_host_fingerprint : str; auth_log_fingerprint : str; motd_tagline : str;
}.

Section generation.
Context {G : Type} `{Random G, RandomMore G}.

Definition rng_for (s : DeploymentSeed) (purpose : str) : G := seeded_int (for_purpose s purpose).

Definition _gen_password (g : G) : str * G :=
  let '(year, g) := choice g ["2024"; "2025"; "2026"]%py in
  let '(sym, g) := choice g ["!"; "#"; "$"; "@"; "%"]%py in
  let '(suffix, g) := choice g [""; "x"; "9"; "Z"; "_v2"]%py in
  let '(word, g) := choice g ["Vault"; "Backup"; "Nightly"; "Vault"; "Rotate"; "Failover"; "Tunnel"; "Audit"; "Phoenix"; "Cascade"; "Tempo"; "Hangar"]%py in
  (word ++ year ++ sym ++ suffix, g).

Definition _gen_ssh_fp (g : G) : str * G := choices g _SSH_FP_ALPHABET 43.

Definition _gen_motd_tagline (g : G) (industry name : str) : exc str :=
  let '(template, g) := choice g _MOTD_TAGLINES in
  format template [("industry", AStr industry); ("corp_name", AStr name);
                   ("corp_domain", AStr (lower (List.hd [] (split_ws name)) ++ ".corp"))]%py.

(** One host for each role, in the style of the deployment. *)
Fixpoint gen_hosts (pattern env : str) (apps : list str) (g : G) : exc (list str) * G :=
  match apps with
  | [] => (Ok [], g)
  | app :: apps =>
      let '(n, g) := randint g 1 9 in
      let h := format pattern [("app", AStr app); ("env", AStr env); ("num", AInt (Z.of_nat n))]%py in
      let '(hs, g) := gen_hosts pattern env apps g in (let* h := h in let* hs := hs in Ok (h :: hs), g)
  end.

Definition ROLES : list str := ["db"; "api"; "bastion"]%py.

Definition corp_from_seed (s : DeploymentSeed) : exc CorpIdentity :=
  let g := rng_for s "corp_identity"%py in
  let '((short, long), g) := choose g ([], []) _INDUSTRIES in
  let '(name, g) := choice g _PREFIXES in
  let '(suffix, g) := choice g _SUFFIXES in
  let full := capitalize name ++ " "%py ++ capitalize suffix in
  let '(tld, g) := if decide (suffix = "corp"%py) then choice g ["co"; "io"; "net"]%py else ("corp"%py, g) in
  let '(octet, g) := randint g 1 254 in
  let '(pattern, g) := choice g _HOSTNAME_PATTERNS in
  let '(envs, g) := shuffle g _ENV_TIERS in
  let '(hosts, g) := gen_hosts pattern (List.hd [] envs) ROLES g in
  let '(base, g) := choice g ["billing"; "ledger"; "core"; "ops"]%py in
  let '(password, g) := _gen_password g in
  let* hosts := hosts in
  let* tagline := _gen_motd_tagline g long full in
  Ok (mk_corp short long name suffix full (name ++ "."%py ++ tld)
        (_PRIVATE_PREFIX ++ "."%py ++ str_of_Z (Z.of_nat octet) ++ ".0.0/16"%py) pattern hosts
        (short ++ "_"%py ++ base) password
        (_gen_ssh_fp (rng_for s "ssh_host_fingerprint"%py)).1 (_gen_ssh_fp (rng_for s "auth_log_fingerprint"%py)).1 tagline).

Definition prod_ip (c : CorpIdentity) (host_index : nat) : exc str :=
  let octets := split_on DOT (List.hd [] (split_on SLASH (prod_subnet c))) in
  let last := ((Z.of_nat host_index * 17 + 41) mod 254 + 1)%Z in
  let* o0 := of_option IndexError (octets !! 0) in
  let* o1 := of_option IndexError (octets !! 1) in
  Ok (o0 ++ "."%py ++ o1 ++ ".20."%py ++ str_of_Z last).

Definition corp_dict (c : CorpIdentity) : pyval := VDict
  [("industry_short", VStr (industry_short c)); ("industry_long", VStr (industry_long c)); ("corp_short", VStr (corp_short c));
   ("corp_suffix", VStr (corp_suffix c)); ("corp_name", VStr (corp_name c)); ("corp_domain", VStr (corp_domain c));
   ("prod_subnet", VStr (prod_subnet c)); ("hostname_pattern", VStr (hostname_pattern c));
   ("decoy_hosts", VList (map VStr (decoy_hosts c))); ("db_database_name", VStr (db_database_name c));
   ("db_admin_password", VStr (db_admin_password c)); ("ssh_host_fingerprint", VStr (ssh_host_fingerprint c));
   ("auth_log_fingerprint", VStr (auth_log_fingerprint c)); ("motd_tagline", VStr (motd_tagline c))]%py.

(** ** artifacts.py *)

(** A day in the hundred and twenty days before April 2026 or the thirty after, as days after 1970-01-01. *)
Definition BASE_DAY : Z := 20544.
Definition stable_day (g : G) : Z * G := let '(n, g) := randrange g (-120) 31 in ((BASE_DAY + n)%Z, g).

Definition isoformat (day : Z) : str :=
  let '(y, m, d) := civil day in str_of_Z y ++ "-"%py ++ zero_pad 2 m ++ "-"%py ++ zero_pad 2 d.

Definition WEEKDAYS : list str := ["Mon"; "Tue"; "Wed"; "Thu"; "Fri"; "Sat"; "Sun"]%py.
Definition MONTHS : list str := ["Jan"; "Feb"; "Mar"; "Apr"; "May"; "Jun"; "Jul"; "Aug"; "Sep"; "Oct"; "Nov"; "Dec"]%py.

(** [strftime("%a %b %d %H:%M:%S %Y")] of a date. *)
Definition ctime (day : Z) : str :=
  let '(y, m, d) := civil day in
  nth (Z.to_nat ((day + 3) mod 7)) WEEKDAYS [] ++ " "%py ++ nth (Z.to_nat (m - 1)) MONTHS [] ++ " "%py ++ zero_pad 2 d
    ++ " 00:00:00 "%py ++ str_of_Z y.

Definition _SUDOERS_TEMPLATES : list str :=
  [("# Compat overrides for legacy services. Do not edit by hand.\n" ++
   "# Generated {date} by ansible role ops.{role_name} v{version}.\n" ++
   "\n" ++
   "Defaults  !syslog\n" ++
   "Defaults  targetpw\n" ++
   "%wheel    ALL=(ALL) NOPASSWD: ALL\n" ++
   "{deploy_user}    ALL=(ALL) NOPASSWD: /usr/bin/apt-get, /usr/bin/dpkg, /bin/systemctl\n");
   ("# Managed by Terraform — see {corp_domain}/iac/sudoers.tf\n" ++
   "# DO NOT EDIT. Last applied {date} by tfops@{corp_domain}.\n" ++
   "\n" ++
   "Defaults env_reset\n" ++
   "Defaults timestamp_timeout=120\n" ++
   "%ops    ALL=(ALL) NOPASSWD: /usr/bin/systemctl restart {app_name}, /usr/bin/journalctl\n" ++
   "{deploy_user}    ALL=(ALL) NOPASSWD: ALL\n");
   ("# This file is under Puppet management. Local edits will be overwritten.\n" ++
   "# Source: puppet:///modules/{corp_short}_compat/sudoers/legacy\n" ++
   "# Updated: {date} (catalog run {run_id}).\n" ++
   "\n" ++
   "Defaults  !syslog\n" ++
   "%{corp_short}_ops  ALL=(ALL) NOPASSWD: /usr/bin/{app_name}-control\n" ++
   "{deploy_user}      ALL=(ALL) NOPASSWD: /usr/bin/apt-get\n")]%py.

Definition _MYSQL_TEMPLATES : list str :=
  [("[client]\n" ++
   "user     = root\n" ++
   "password = {db_password}\n" ++
   "host     = {db_host}\n" ++
   "port     = 3306\n" ++
   "database = {db_database}\n" ++
   "\n" ++
   "[mysqldump]\n" ++
   "user     = backup_admin\n" ++
   "password = {backup_password}\n" ++
   "\n" ++
   "[mysqld]\n" ++
   "bind-address    = 127.0.0.1\n" ++
   "skip-name-resolve\n" ++
   "log-bin         = /var/log/mysql/mysql-bin.log\n");
   ("# {corp_name} primary database config — DO NOT distribute.\n" ++
   "[client]\n" ++
   "host       = {db_host}\n" ++
   "port       = 3306\n" ++
   "user       = svc_app\n" ++
   "password   = {db_password}\n" ++
   "database   = {db_database}\n" ++
   "default-character-set = utf8mb4\n" ++
   "\n" ++
   "[mysql]\n" ++
   "prompt     = \x22{corp_short} \\d> \x22\n" ++
   "\n" ++
   "[mysqldump]\n" ++
   "user       = svc_backup\n" ++
   "password   = {backup_password}\n" ++
   "single-transaction = true\n");
   ("[client]\n" ++
   "user     = root\n" ++
   "password = {db_password}\n" ++
   "socket   = /var/run/mysqld/mysqld.sock\n" ++
   "\n" ++
   "[mysqld]\n" ++
   "datadir = /var/lib/mysql\n" ++
   "log-error = /var/log/mysql/error.log\n" ++
   "bind-address = 127.0.0.1\n" ++
   "\n" ++
   "[{corp_short}_replication]\n" ++
   "user     = repl_admin\n" ++
   "password = {backup_password}\n" ++
   "host     = {db_host}\n")]%py.

Definition _BANNER_TEMPLATES : list str :=
  ["{corp_name} - {os_ver}\n{motd_tagline}\n"; "*** {corp_name} ({industry_long}) ***\n{motd_tagline}\n";
   "Welcome to {corp_name}.\n{motd_tagline}\n\nLast login: {last_login}\n";
   "{corp_name} {os_ver}\n--\n{motd_tagline}\n"]%py.
Definition _ROLE_NAMES : list str :=
  ["legacy-compat"; "platform-base"; "ops-toolkit"; "appfleet-core"; "sec-baseline"]%py.
Definition _OS_VERSIONS : list str :=
  ["Ubuntu 22.04.4 LTS"; "Ubuntu 22.04.5 LTS"; "Debian GNU/Linux 12 (bookworm)"; "Rocky Linux 9.3 (Blue Onyx)";
   "Amazon Linux 2023.4.20240916"]%py.
Definition _DEPLOY_USERS : list str :=
  ["deploy"; "ansible"; "tfops"; "puppet"; "ops-bot"; "ci-runner"]%py.

Definition hex_of (n : Z) : str := lstrip_char 48 (hex_digits 16 (Z.to_N n)).

Definition gen_sudoers (s : DeploymentSeed) (c : CorpIdentity) : exc str :=
  let g := rng_for s "sudoers_compat"%py in
  let '(template, g) := choice g _SUDOERS_TEMPLATES in
  let '(role_name, g) := choice g _ROLE_NAMES in
  let '(v1, g) := randint g 1 6 in
  let '(v2, g) := randint g 0 14 in
  let '(v3, g) := randint g 0 30 in
  let num n := str_of_Z (Z.of_nat n) in
  let '(deploy_user, g) := choice g _DEPLOY_USERS in
  let '(date, g) := stable_day g in
  let '(run, g) := randrange g (10 ^ 8) (10 ^ 9) in
  format template
    [("date", AStr (isoformat date)); ("role_name", AStr role_name); ("version", AStr (num v1 ++ "." ++ num v2 ++ "." ++ num v3));
     ("deploy_user", AStr deploy_user); ("corp_domain", AStr (corp_domain c)); ("corp_short", AStr (corp_short c));
     ("app_name", AStr (List.hd [] (split_on 95 (db_database_name c)))); ("run_id", AStr (hex_of run))]%py.

Definition gen_mysql_cnf (s : DeploymentSeed) (c : CorpIdentity) : exc str :=
  let g := rng_for s "mysql_my_cnf"%py in
  let '(template, g) := choice g _MYSQL_TEMPLATES in
  let '(suffix, g) := choice g ["_backup"; ".bak"; "Backup"]%py in
  let* db_host := of_option IndexError (decoy_hosts c !! 0) in
  format template
    [("db_password", AStr (db_admin_password c)); ("backup_password", AStr (db_admin_password c ++ suffix)); ("db_host", AStr db_host);
     ("db_database", AStr (db_database_name c)); ("corp_short", AStr (corp_short c)); ("corp_name", AStr (corp_name c))]%py.

Definition gen_ssh_banner (s : DeploymentSeed) (c : CorpIdentity) : exc str :=
  let g := rng_for s "ssh_banner"%py in
  let '(template, g) := choice g _BANNER_TEMPLATES in
  let '(os_ver, g) := choice g _OS_VERSIONS in
  let '(day, g) := stable_day g in
  format template
    [("corp_name", AStr (corp_name c)); ("industry_long", AStr (industry_long c)); ("motd_tagline", AStr (motd_tagline c));
     ("os_ver", AStr os_ver); ("last_login", AStr (ctime day))]%py.

Definition gen_motd (s : DeploymentSeed) (c : CorpIdentity) : str :=
  "=== "%py ++ corp_name c ++ " ===\n"%py ++ motd_tagline c ++ "\n\nProduction subnet: "%py ++ prod_subnet c
  ++ "\nFor ops escalations: it-ops@"%py ++ corp_domain c ++ "\n"%py.

Definition IDLE : list str := ["df -h"; "free -m"; "uptime"; "htop"; "tail -f /var/log/syslog"]%py.
Fixpoint idle_lines (g : G) (n : nat) : list str * G :=
  match n with
  | 0 => ([], g)
  | S n => let '(l, g) := choice g IDLE in let '(ls, g) := idle_lines g n in (l :: ls, g)
  end.

Definition gen_bash_history_pool (s : DeploymentSeed) (c : CorpIdentity) : exc (list str) :=
  let g := rng_for s "bash_history_pool"%py in
  let* h0 := of_option IndexError (decoy_hosts c !! 0) in
  let* h1 := of_option IndexError (decoy_hosts c !! 1) in
  let '(n, g) := randint g 2 4 in
  Ok (["ssh " ++ h0; "ssh " ++ h1; "mysql -h " ++ h0 ++ " -u root -p " ++ db_database_name c; "psql -h " ++ h0 ++ " " ++ db_database_name c;
       "curl https://api." ++ corp_domain c ++ "/health"; "git clone git@github.com:" ++ corp_short c ++ "/" ++ industry_short c ++ "-ops.git";
       "vim ~/projects/" ++ industry_short c ++ "-" ++ corp_short c ++ "/notes.md"]%py ++ (idle_lines g n).1).

(** The block of each host; some name a port. *)
Fixpoint host_blocks (c : CorpIdentity) (i : nat) (hosts : list str) (g : G) : exc (list str) :=
  match hosts with
  | [] => Ok []
  | host :: hosts =>
      let* ip := prod_ip c i in
      let '(r, g) := random g in
      let '(port, g) := if flt_b r (lit 4 10) then let '(p, g) := choose g 0%Z [22; 2222; 2200; 2022]%Z in (["    Port "%py ++ str_of_Z p], g) else ([], g) in
      let* rest := host_blocks c (S i) hosts g in
      Ok (["Host " ++ host; "    HostName " ++ ip; "    IdentityFile ~/.ssh/id_rsa"]%py ++ port ++ [[]] ++ rest)
  end.

Definition gen_rotated_ssh_config (s : DeploymentSeed) (c : CorpIdentity) : exc str :=
  let* blocks := host_blocks c 0 (decoy_hosts c) (rng_for s "ssh_config"%py) in
  Ok (join "\n"%py (blocks ++ ["Host github.com"; "    User git"; "    HostName github.com"; "    IdentityFile ~/.ssh/id_rsa_" ++ corp_short c]%py) ++ "\n"%py).

Record RotatedArtifacts := mk_rotated {
  ra_sudoers_compat : str; ra_mysql_my_cnf : str; ra_ssh_banner : str; ra_motd : str; ra_bash_history_pool_extras : list str; ra_ssh_config : str;
}.

Definition generate (s : DeploymentSeed) (c : CorpIdentity) : exc RotatedArtifacts :=
  let* sudoers := gen_sudoers s c in
  let* mysql := gen_mysql_cnf s c in
  let* banner := gen_ssh_banner s c in
  let* history := gen_bash_history_pool s c in
  let* ssh := gen_rotated_ssh_config s c in
  Ok (mk_rotated sudoers mysql banner (gen_motd s c) history ssh).

(** ** rotator.py *)

(** Disabled, or the seed with what was generated from it. *)
Definition ContentRotator : Type := option (DeploymentSeed * CorpIdentity * RotatedArtifacts).

Definition from_seed (s : DeploymentSeed) : exc ContentRotator :=
  let* c := corp_from_seed s in let* a := generate s c in Ok (Some (s, c, a)).

Definition rotator_from_config `{Unicode} (environ : str → option str) (cfg : pyval) : exc ContentRotator :=
  if negb (truthy cfg) then Ok None else
  let content := match cfg with VDict d => default VNone (assoc_get "content"%py d) | _ => VNone end in
  if negb (truthy content) then Ok None else
  let* id := get_ "deployment_id"%py content in
  let* id :=
    if truthy id then Ok id else
    let* var := get_ "env_var"%py content in
    if truthy var then match var with VStr v => Ok (match environ v with Some x => VStr x | None => VNone end) | _ => Raise (TypeError "str expected"%py) end
    else Ok id in
  if negb (truthy id) then Ok None else
  let* ep := get_key "epoch"%py (VStr "default"%py) content in
  from_seed (mk_seed (show_value id) (show_value ep)).

Definition signature (r : ContentRotator) : str := match r with Some (s, _, _) => seed_signature s | None => "disabled"%py end.

(** What the session reads of the rotator. *)
Definition planted (r : ContentRotator) : option artifacts :=
  match r with Some (_, _, a) => Some (mk_artifacts (ra_sudoers_compat a) (ra_mysql_my_cnf a)) | None => None end.

Definition bodies (a : RotatedArtifacts) : list (str * str) :=
  [("sudoers_compat", ra_sudoers_compat a); ("mysql_my_cnf", ra_mysql_my_cnf a); ("ssh_banner", ra_ssh_banner a); ("motd", ra_motd a);
   ("ssh_config", ra_ssh_config a); ("bash_history_extras", join "\n" (ra_bash_history_pool_extras a))]%py.

Definition body_hash (body : str) : str := take 16 (sha (encode body)).

Definition build_manifest (r : ContentRotator) : pyval :=
  match r with
  | None => VDict [("enabled"%py, VBool false)]
  | Some (s, c, a) => VDict
      [("enabled", VBool true); ("deployment_id", VStr (deployment_id s)); ("epoch", VStr (epoch s)); ("signature", VStr (signature r));
       ("corp", corp_dict c); ("artifact_hashes", VDict (map (λ nb, (nb.1, VStr (body_hash nb.2))) (bodies a)));
       ("artifact_sizes", VDict (map (λ nb, (nb.1, VInt (Z.of_nat (length nb.2)))) (bodies a)));
       ("rotation_purposes", VList (map VStr iter_purposes))]%py
  end.

Definition manifest_text (r : ContentRotator) : bytes := encode (dumps_indent (build_manifest r)).

(** The files that are written, in order. *)
Definition write_artifact_bundle (r : ContentRotator) : exc (list (str * bytes)) :=
  match r with
  | None => Raise (RuntimeError "Cannot write artifacts; rotation is disabled."%py)
  | Some (s, c, a) => Ok
      [("sudoers_compat.txt", encode (ra_sudoers_compat a)); ("mysql_my.cnf", encode (ra_mysql_my_cnf a)); ("ssh_banner.txt", encode (ra_ssh_banner a));
       ("motd.txt", encode (ra_motd a)); ("ssh_config", encode (ra_ssh_config a));
       ("bash_history_extras.txt", encode (join "\n" (ra_bash_history_pool_extras a) ++ "\n"));
       ("corp_identity.json", encode (dumps_indent (corp_dict c))); ("manifest.json", manifest_text r)]%py
  end.
End generation.

Definition demo_seed : DeploymentSeed := mk_seed "acme-prod"%py "2026Q2"%py.

Example demo_config :
  let U : Unicode := λ _, true in
  option_map (λ r, (decoy_hosts r.1.2, corp_domain r.1.2, motd_tagline r.1.2))
    (match rotator_from_config (G := unit) (λ _, None) (VDict [("content", VDict [("deployment_id", VStr "acme-prod"); ("epoch", VStr "2026Q2")])])%py with
     | Ok r => r | Raise _ => None end)
  = Some (["db-prod-01"; "api-prod-01"; "bastion-prod-01"], "atlas.co", "internal use only — see atlas.corp/security")%py.
Proof. vm_compute. reflexivity. Qed.

Example days : (isoformat BASE_DAY, ctime (BASE_DAY - 120)) = ("2026-04-01", "Tue Dec 02 00:00:00 2025")%py.
Proof. reflexivity. Qed.

(** The separator may occur in a configured id: two deployments then draw the same content. *)
Example separator_in_id : material (mk_seed "a\x1fb" "c")%py = material (mk_seed "a" "b\x1fc")%py.
Proof. reflexivity. Qed.

(** The observers know fifteen host names; those of a rotated company are none of them, unless its tier is prod. *)
Example rotated_hosts_unobserved :
  map (λ c, elements (decoy_hosts_in c)) ["ssh int03-db"; "ssh db05.stage"; "psql -h dev-db-02"; "ssh bastion-qa-07"]%py = [[]; []; []; []].
Proof. vm_compute. reflexivity. Qed.

(** ** Templates *)

Definition is_field (name : str) (p : piece) : bool := match p with Field n [] => bool_decide (n = name) | _ => false end.
Definition fields_in (keys : list str) (t : str) : bool :=
  match pieces false [] t with
  | Ok ps => forallb (λ p, match p with Lit _ => true | Field n _ => existsb (λ k, is_field k p) keys end) ps
  | Raise _ => false
  end.
Definition mentions (name t : str) : bool := match pieces false [] t with Ok ps => existsb (is_field name) ps | Raise _ => false end.

Lemma is_field_true name p : is_field name p = true → p = Field name [].
Proof. destruct p as [|n [|]]; try done. cbn. by intros ->%bool_decide_eq_true. Qed.

Lemma contains_concat (l : list str) x : x ∈ l → contains (concat l) x = true.
Proof.
  intros (l1 & l2 & ->)%list_elem_of_split. rewrite concat_app. cbn [concat]. apply contains_spec. by exists (concat l1), (concat l2).
Qed.

(** A template whose fields are all given as strings is filled, and shows each that it mentions. *)
Lemma format_filled t fields keys : fields_in keys t = true → (∀ k, k ∈ keys → ∃ v, assoc_get k fields = Some (AStr v)) →
  ∃ body, format t fields = Ok body ∧ ∀ name v, mentions name t = true → assoc_get name fields = Some (AStr v) → contains body v = true.
Proof.
  unfold fields_in, mentions, format. destruct (pieces false [] t) as [ps|]; [|done]. cbn [exc_bind]. intros Hf Hk.
  assert (Hl : ∃ l, exc_map (format_piece fields) ps = Ok l ∧
                    ∀ name v, existsb (is_field name) ps = true → assoc_get name fields = Some (AStr v) → v ∈ l).
  { induction ps as [|p ps IH]; [by exists []|]. cbn [forallb existsb exc_map] in *. apply andb_true_iff in Hf as [Hp Hf].
    destruct (IH Hf) as (l & El & Hin).
    assert (Hpx : ∃ x, format_piece fields p = Ok x ∧ ∀ name v, is_field name p = true → assoc_get name fields = Some (AStr v) → x = v).
    { destruct p as [s|n sp]; [by exists s|]. apply existsb_exists in Hp as (k & Hk1 & [= -> ->]%is_field_true).
      apply list_elem_of_In, Hk in Hk1 as [v Hv]. exists v. cbn. rewrite Hv. split; [done|].
      intros name w Hn. apply bool_decide_eq_true in Hn as ->. rewrite Hv. by intros [= ->]. }
    destruct Hpx as (x & Ex & Hx). exists (x :: l). rewrite Ex, El. split; [done|].
    intros name v [Hn|Hn]%orb_true_iff Hv; [rewrite (Hx _ _ Hn Hv); by left|right; by eapply Hin]. }
  destruct Hl as (l & -> & Hin). exists (concat l). split; [done|]. intros name v Hm Hv. by apply contains_concat, (Hin name).
Qed.

Lemma keys_given fields keys : Forall (λ k, ∃ v, assoc_get k fields = Some (AStr v)) keys → ∀ k, k ∈ keys → ∃ v, assoc_get k fields = Some (AStr v).
Proof. by rewrite Forall_forall. Qed.

Ltac given := apply keys_given; repeat (constructor; [by eexists|]); constructor.

(** ** What a client of the decoys sees *)

(** The hosts that an ssh client reads in a configuration, with their addresses. *)
Fixpoint ssh_hosts (current : str) (lines : list str) : list (str * str) :=
  match lines with
  | [] => []
  | l :: lines =>
      if startswith l "Host "%py then ssh_hosts (drop 5 l) lines
      else if startswith l "    HostName "%py then (current, drop 13 l) :: ssh_hosts current lines
      else ssh_hosts current lines
  end.

Definition address (octet : nat) (i : nat) : str :=
  "10."%py ++ str_of_Z (Z.of_nat octet) ++ ".20."%py ++ str_of_Z ((Z.of_nat i * 17 + 41) mod 254 + 1).

Definition one_line (s : str) : bool := forallb (λ c, negb (c =? NEWLINE)%N) s.

Lemma in_table {A} (P : A → bool) l x : forallb P l = true → x ∈ l → P x = true.
Proof. rewrite forallb_forall. intros H Hx. by apply H, list_elem_of_In. Qed.

Lemma hosts_table : forallb (λ pattern, forallb (λ env, forallb (λ app, forallb (λ n,
    match format pattern [("app", AStr app); ("env", AStr env); ("num", AInt (Z.of_nat n))]%py with
    | Ok h => contains h app && one_line h | Raise _ => false end) (seq 1 9)) ROLES) _ENV_TIERS) _HOSTNAME_PATTERNS = true.
Proof. vm_compute. reflexivity. Qed.

Lemma subnets_table : forallb (λ o, bool_decide (split_on DOT (List.hd [] (split_on SLASH ("10."%py ++ str_of_Z (Z.of_nat o) ++ ".0.0/16"%py)))
    = ["10"%py; str_of_Z (Z.of_nat o); "0"%py; "0"%py])) (seq 1 254) = true.
Proof. vm_compute. reflexivity. Qed.

Lemma addresses_table : forallb (λ o, forallb (λ i, one_line (address o i)) (seq 0 3)) (seq 1 254) = true.
Proof. vm_compute. reflexivity. Qed.

Section company.
Context {G : Type} `{HR : Random G} `{!RandomLaws G} `{HM : RandomMore G} `{!RandomMoreLaws G}.

Definition plays (h app : str) : Prop := contains h app = true ∧ one_line h = true.

Lemma gen_hosts_ok pattern env apps (g : G) : pattern ∈ _HOSTNAME_PATTERNS → env ∈ _ENV_TIERS → Forall (λ app, app ∈ ROLES) apps →
  ∃ hs, (gen_hosts pattern env apps g).1 = Ok hs ∧ Forall2 plays hs apps.
Proof.
  intros Hp He Ha. revert g. induction Ha as [|app apps Happ _ IH]; intros g; [by exists []|]. cbn [gen_hosts].
  pose proof (randint_range g 1 9 ltac:(lia)) as Hn. destruct (randint g 1 9) as [n g1]. cbn [fst] in Hn.
  destruct (IH g1) as (hs & E & Hhs). destruct (gen_hosts pattern env apps g1) as [r g2]. cbn [fst] in E |- *. subst r.
  pose proof (in_table _ _ _ hosts_table Hp) as T. apply (in_table _ _ _ T) in He as T1. apply (in_table _ _ _ T1) in Happ as T2.
  assert (T3 := in_table _ _ n T2 ltac:(apply elem_of_seq; lia)). cbv beta in T3.
  destruct (format _ _) as [h|]; [|done]. apply andb_true_iff in T3. exists (h :: hs). split; [done|]. by constructor.
Qed.

Lemma draw_in (g : G) l : l ≠ [] → (choice g l).1 ∈ l.
Proof. apply choice_elem. Qed.

Lemma tagline_ok (g : G) industry name : ∃ t, _gen_motd_tagline g industry name = Ok t.
Proof.
  unfold _gen_motd_tagline. pose proof (draw_in g _MOTD_TAGLINES ltac:(done)) as Ht. destruct (choice g _MOTD_TAGLINES) as [template g1].
  cbn [fst] in Ht. assert (T : forallb (fields_in ["industry"; "corp_name"; "corp_domain"]%py) _MOTD_TAGLINES = true) by (vm_compute; reflexivity).
  destruct (format_filled template [("industry", AStr industry); ("corp_name", AStr name);
                   ("corp_domain", AStr (lower (List.hd [] (split_ws name)) ++ ".corp"))]%py _ (in_table _ _ _ T Ht)) as (t & E & _); [given|by exists t].
Qed.

Lemma corp_ok s : ∃ c o, corp_from_seed (G := G) s = Ok c ∧ 1 ≤ o ≤ 254 ∧ prod_subnet c = "10."%py ++ str_of_Z (Z.of_nat o) ++ ".0.0/16"%py ∧
  Forall2 plays (decoy_hosts c) ROLES ∧ one_line (corp_short c) = true.
Proof.
  unfold corp_from_seed. destruct (choose _ _ _) as [[short long] g0].
  pose proof (draw_in g0 _PREFIXES ltac:(done)) as Hname. destruct (choice g0 _PREFIXES) as [name g1].
  destruct (choice g1 _SUFFIXES) as [suffix g2]. destruct (if decide _ then _ else _) as [tld g3].
  pose proof (randint_range g3 1 254 ltac:(lia)) as Ho. destruct (randint g3 1 254) as [o g4].
  pose proof (draw_in g4 _HOSTNAME_PATTERNS ltac:(done)) as Hp. destruct (choice g4 _HOSTNAME_PATTERNS) as [pattern g5].
  pose proof (shuffle_perm g5 _ENV_TIERS) as Hs. destruct (shuffle g5 _ENV_TIERS) as [envs g6]. cbn [fst] in *.
  assert (He : List.hd [] envs ∈ _ENV_TIERS).
  { rewrite <- Hs. destruct envs; [by apply Permutation_nil_l in Hs|by left]. }
  destruct (gen_hosts_ok pattern (List.hd [] envs) ROLES g6 Hp He ltac:(repeat constructor; set_solver)) as (hs & Eh & Hhs).
  destruct (gen_hosts _ _ _ _) as [r g7]. cbn [fst] in Eh. subst r. destruct (choice g7 _) as [base g8]. destruct (_gen_password g8) as [pw g9].
  cbn [exc_bind]. destruct (tagline_ok g9 long (capitalize name ++ " "%py ++ capitalize suffix)) as [t ->]. cbn [exc_bind].
  eexists _, o. split; [reflexivity|]. cbn [prod_subnet decoy_hosts corp_short]. split_and!; try done; try lia.
  apply (in_table one_line _PREFIXES); [vm_compute; reflexivity|done].
Qed.

Lemma prod_ip_ok c o i : 1 ≤ o ≤ 254 → prod_subnet c = "10."%py ++ str_of_Z (Z.of_nat o) ++ ".0.0/16"%py → prod_ip c i = Ok (address o i).
Proof.
  intros Ho Hs. unfold prod_ip. rewrite Hs. pose proof (in_table _ _ o subnets_table ltac:(apply elem_of_seq; lia)) as E.
  apply bool_decide_eq_true in E. rewrite E. done.
Qed.

Lemma one_line_free s : one_line s = true → NEWLINE ∉ s.
Proof. unfold one_line. rewrite forallb_forall. intros H Hin%list_elem_of_In. specialize (H _ Hin). by rewrite N.eqb_refl in H. Qed.

Lemma ssh_host_line cur h lines : ssh_hosts cur (("Host "%py ++ h) :: lines) = ssh_hosts h lines.
Proof. reflexivity. Qed.
Lemma ssh_address_line cur a lines : ssh_hosts cur (("    HostName "%py ++ a) :: lines) = (cur, a) :: ssh_hosts cur lines.
Proof. reflexivity. Qed.
Lemma ssh_other_line cur l lines : startswith l "Host "%py = false → startswith l "    HostName "%py = false → ssh_hosts cur (l :: lines) = ssh_hosts cur lines.
Proof. intros H1 H2. cbn [ssh_hosts]. by rewrite H1, H2. Qed.

(** The lines of the host blocks, and what an ssh client makes of them. *)
Lemma host_blocks_ok c o i hosts (g : G) rest : 1 ≤ o ≤ 254 → prod_subnet c = "10."%py ++ str_of_Z (Z.of_nat o) ++ ".0.0/16"%py →
  Forall (λ h, one_line h = true) hosts → i + length hosts ≤ 3 →
  ∃ lines, host_blocks c i hosts g = Ok lines ∧ Forall (λ l, NEWLINE ∉ l) lines ∧
           ∀ current, ∃ last, ssh_hosts current (lines ++ rest) = combine hosts (map (address o) (seq i (length hosts))) ++ ssh_hosts last rest.
Proof.
  intros Ho Hs Hh. revert i g. induction Hh as [|h hosts Hline _ IH]; intros i g Hi.
  { exists []. split_and!; [done|constructor|]. intros cur. by exists cur. }
  cbn [host_blocks]. rewrite (prod_ip_ok c o i Ho Hs). cbn [exc_bind]. destruct (random g) as [r g1].
  assert (Hport : ∀ p, NEWLINE ∉ ("    Port "%py ++ str_of_Z p) ∧ startswith ("    Port "%py ++ str_of_Z p) "Host "%py = false ∧
                       startswith ("    Port "%py ++ str_of_Z p) "    HostName "%py = false).
  { intros p. split_and!; [|done|done]. intros [Hin|Hin]%elem_of_app; [by apply (one_line_free "    Port "%py)|].
    destruct (str_of_Z_tok p) as [_ Ht]. rewrite Forall_forall in Ht. by apply Ht in Hin. }
  destruct (if flt_b r (lit 4 10) then _ else _) as [port g2] eqn:Ep.
  assert (Hp : port = [] ∨ ∃ p, port = ["    Port "%py ++ str_of_Z p]).
  { destruct (flt_b r (lit 4 10)); [|injection Ep as <- _; by left]. destruct (choose g1 0%Z _) as [p g3]. injection Ep as <- _. right. by exists p. }
  destruct (IH (S i) g2 ltac:(cbn [length] in Hi; lia)) as (lines & -> & Hl & Hread). cbn [exc_bind].
  eexists. split; [reflexivity|]. split.
  - assert (Ha : one_line (address o i) = true).
    { pose proof (in_table _ _ o addresses_table ltac:(apply elem_of_seq; lia)) as T. cbv beta in T. apply (in_table _ _ i T).
      apply elem_of_seq. cbn [length] in Hi. lia. }
    repeat (apply Forall_app; split); repeat constructor; try done.
    + intros [Hin|Hin]%elem_of_app; [by apply (one_line_free "Host "%py)|by apply one_line_free in Hline].
    + intros [Hin|Hin]%elem_of_app; [by apply (one_line_free "    HostName "%py)|by apply one_line_free in Ha].
    + by apply (one_line_free "    IdentityFile ~/.ssh/id_rsa"%py).
    + destruct Hp as [->|[p ->]]; repeat constructor. apply Hport.
    + by apply not_elem_of_nil.
  - intros cur. destruct (Hread h) as [last Hlast]. exists last. rewrite <- !app_assoc.
    change (ssh_hosts cur (("Host "%py ++ h) :: ("    HostName "%py ++ address o i) :: "    IdentityFile ~/.ssh/id_rsa"%py :: port ++ [] :: lines ++ rest)
            = (h, address o i) :: combine hosts (map (address o) (seq (S i) (length hosts))) ++ ssh_hosts last rest).
    rewrite ssh_host_line, ssh_address_line, <- Hlast, ssh_other_line by done. f_equal.
    destruct Hp as [->|[p ->]]; [by apply ssh_other_line|]. etransitivity; [apply ssh_other_line; apply Hport|]. by apply ssh_other_line.
Qed.

Lemma ssh_config_ok s c o : 1 ≤ o ≤ 254 → prod_subnet c = "10."%py ++ str_of_Z (Z.of_nat o) ++ ".0.0/16"%py →
  Forall2 plays (decoy_hosts c) ROLES → one_line (corp_short c) = true →
  ∃ body, gen_rotated_ssh_config (G := G) s c = Ok body ∧
    ssh_hosts [] (split_on NEWLINE body) = combine (decoy_hosts c) (map (address o) (seq 0 3)) ++ [("github.com", "github.com")]%py.
Proof.
  intros Ho Hs Hh Hc. unfold gen_rotated_ssh_config.
  assert (Hone : Forall (λ h, one_line h = true) (decoy_hosts c)) by (eapply Forall2_Forall_l; [exact Hh|]; apply Forall_true; by intros y x [_ H]).
  pose proof (Forall2_length _ _ _ Hh) as Hlen. cbn in Hlen.
  set (tail := ["Host github.com"; "    User git"; "    HostName github.com"; "    IdentityFile ~/.ssh/id_rsa_" ++ corp_short c]%py).
  destruct (host_blocks_ok c o 0 (decoy_hosts c) (rng_for s "ssh_config"%py) (tail ++ [[]]) Ho Hs Hone ltac:(lia)) as (lines & -> & Hl & Hread).
  cbn [exc_bind]. eexists. split; [reflexivity|].
  assert (E : split_on NEWLINE (join "\n"%py (lines ++ tail) ++ "\n"%py) = lines ++ tail ++ [[]]).
  { change (join "\n"%py (lines ++ tail) ++ "\n"%py) with (join "\n"%py (lines ++ tail) ++ NEWLINE :: []). rewrite split_on_app_sep, split_on_join, <- app_assoc; [done| |].
    - by intros [_ ?]%app_eq_nil.
    - apply Forall_app. split; [done|]. repeat constructor; by apply one_line_free. }
  rewrite E. destruct (Hread []) as [last ->]. rewrite Hlen. done.
Qed.

Lemma sudoers_ok s c : ∃ body, gen_sudoers (G := G) s c = Ok body.
Proof.
  unfold gen_sudoers. pose proof (draw_in (rng_for s "sudoers_compat"%py) _SUDOERS_TEMPLATES ltac:(done)) as Ht.
  destruct (choice _ _SUDOERS_TEMPLATES) as [t g]. cbn [fst] in Ht. destruct (choice g _) as [role g1]. destruct (randint g1 _ _) as [v1 g2].
  destruct (randint g2 _ _) as [v2 g3]. destruct (randint g3 _ _) as [v3 g4]. destruct (choice g4 _) as [user g5]. destruct (stable_day g5) as [day g6].
  destruct (randrange g6 _ _) as [run g7].
  assert (T : forallb (fields_in ["date"; "role_name"; "version"; "deploy_user"; "corp_domain"; "corp_short"; "app_name"; "run_id"]%py) _SUDOERS_TEMPLATES = true)
    by (vm_compute; reflexivity).
  match goal with |- context [format t ?f] => destruct (format_filled t f _ (in_table _ _ _ T Ht)) as (b & E & _); [given|by exists b] end.
Qed.

Lemma banner_ok s c : ∃ body, gen_ssh_banner (G := G) s c = Ok body.
Proof.
  unfold gen_ssh_banner. pose proof (draw_in (rng_for s "ssh_banner"%py) _BANNER_TEMPLATES ltac:(done)) as Ht.
  destruct (choice _ _BANNER_TEMPLATES) as [t g]. cbn [fst] in Ht. destruct (choice g _) as [os g1]. destruct (stable_day g1) as [day g2].
  assert (T : forallb (fields_in ["corp_name"; "industry_long"; "motd_tagline"; "os_ver"; "last_login"]%py) _BANNER_TEMPLATES = true)
    by (vm_compute; reflexivity).
  match goal with |- context [format t ?f] => destruct (format_filled t f _ (in_table _ _ _ T Ht)) as (b & E & _); [given|by exists b] end.
Qed.

Lemma mysql_ok s c h : decoy_hosts c !! 0 = Some h → ∃ body, gen_mysql_cnf (G := G) s c = Ok body ∧ contains body h = true ∧ contains body (db_admin_password c) = true.
Proof.
  intros Hh. unfold gen_mysql_cnf. pose proof (draw_in (rng_for s "mysql_my_cnf"%py) _MYSQL_TEMPLATES ltac:(done)) as Ht.
  destruct (choice _ _MYSQL_TEMPLATES) as [t g]. cbn [fst] in Ht. destruct (choice g _) as [suffix g1]. rewrite Hh. cbn [of_option exc_bind].
  assert (T : forallb (fields_in ["db_password"; "backup_password"; "db_host"; "db_database"; "corp_short"; "corp_name"]%py) _MYSQL_TEMPLATES = true)
    by (vm_compute; reflexivity).
  assert (M : forallb (λ t, mentions "db_host" t && mentions "db_password" t)%py _MYSQL_TEMPLATES = true) by (vm_compute; reflexivity).
  apply (in_table _ _ _ M) in Ht as Hm. apply andb_true_iff in Hm as [Hm1 Hm2].
  match goal with |- context [format t ?f] => destruct (format_filled t f _ (in_table _ _ _ T Ht)) as (b & E & Hb); [given|] end.
  exists b. split; [done|]. split; [by apply (Hb "db_host"%py)|by apply (Hb "db_password"%py)].
Qed.

Lemma history_ok s c h0 h1 : decoy_hosts c !! 0 = Some h0 → decoy_hosts c !! 1 = Some h1 →
  ∃ l, gen_bash_history_pool (G := G) s c = Ok l ∧ take 2 l = ["ssh "%py ++ h0; "ssh "%py ++ h1].
Proof. intros H0 H1. unfold gen_bash_history_pool. rewrite H0, H1. cbn. destruct (randint _ 2 4) as [n g]. by eexists. Qed.
End company.

(** What a session with this rotator serves for the decoy that is planted when MySQL is probed. *)
Lemma planted_mysql_read t s : (vfs_read t "/etc/mysql/my.cnf"%py None None (_spawn_fake_mysql s)).1
  = let body := match Session.rotator s with Some r => mysql_my_cnf r | None => MYSQL_MY_CNF end in
    Some (if decide ("/etc/mysql/my.cnf"%py ∈ _tampered (session_vfs s)) then body else maybe_inject_trap (counter_ai s) body "config"%py).
Proof.
  unfold vfs_read, _spawn_fake_mysql, plant_decoy. set (body := match Session.rotator s with Some r => _ | None => _ end). cbv zeta.
  change (_canon "/etc/mysql/my.cnf"%py None (Some (home (persona s)))) with "/etc/mysql/my.cnf"%py.
  unfold read, register_dynamic, write. change (_canon "/etc/mysql/my.cnf"%py None None) with "/etc/mysql/my.cnf"%py.
  set (p := "/etc/mysql/my.cnf"%py). rewrite decide_False by (cbn; set_solver). cbn. rewrite lookup_insert_eq.
  unfold read_static. cbn [_files]. rewrite lookup_insert_eq. repeat case_decide; done.
Qed.

Lemma demo_generated : ∃ c a, from_seed (G := unit) demo_seed = Ok (Some (demo_seed, c, a)).
Proof. eexists _, _. vm_compute. reflexivity. Qed.



(** The prompt of the language model still gives the password of the decoy that rotation replaces. *)
Example prompt_names_static_password :
  let r := match from_seed (G := unit) demo_seed with Ok r => r | Raise _ => None end in
  let s := match connect (G := unit) "c1"%py "e1"%py "jdoe"%py "10.0.0.9"%py jdoe f0 (Some [jdoe]) (planted r) None with Ok s => s | Raise _ => demo end in
  let s := observe_vfs_event EvRead "/etc/mysql/my.cnf"%py (_spawn_fake_mysql s) in
  contains (_build_attacker_state_block s) "password M3taD4ta!2026, host billing-db"%py = true ∧
  contains (default [] (option_map mysql_my_cnf (planted r))) "M3taD4ta"%py = false.
Proof. vm_compute. by split. Qed.

(** ** The manifest *)

(** Two different texts with the same image. *)
Definition collides {A} (f : str → A) : Prop := ∃ x y, x ≠ y ∧ f x = f y.

Lemma same_or_collides {A} (f : str → A) x y : f x = f y → x = y ∨ collides f.
Proof. destruct (decide (x = y)); [by left|]. intros E. right. by exists x, y. Qed.

Lemma same_bodies_or_collides (f : str → str) (l l' : list (str * str)) :
  map (λ nb, (nb.1, VStr (f nb.2))) l = map (λ nb, (nb.1, VStr (f nb.2))) l' → l = l' ∨ collides f.
Proof.
  revert l'. induction l as [|[n b] l IH]; intros [|[n' b'] l']; try done; [by left|]. cbn. intros [= -> E El].
  destruct (same_or_collides f b b' E) as [->|]; [|by right]. destruct (IH l' El) as [->|]; [by left|by right].
Qed.

Lemma app_sep_inj (c : N) a b a' b' : c ∉ a → c ∉ a' → a ++ c :: b = a' ++ c :: b' → a = a' ∧ b = b'.
Proof.
  revert a'. induction a as [|x a IH]; intros [|x' a'] Ha Ha'; cbn.
  - by intros [= ->].
  - intros [= -> _]. by destruct Ha'; left.
  - intros [= <- _]. by destruct Ha; left.
  - intros [= -> E]. destruct (IH a') as [-> ->]; [| |done|done]; intros Hin; [apply Ha|apply Ha']; by right.
Qed.

Lemma purpose_material_inj s p s' p' : 31%N ∉ deployment_id s → 31%N ∉ deployment_id s' → 31%N ∉ epoch s → 31%N ∉ epoch s' →
  material s ++ US ++ p = material s' ++ US ++ p' → s = s' ∧ p = p'.
Proof.
  intros Hd Hd' He He'. destruct s as [d e], s' as [d' e']. unfold material. cbn [deployment_id epoch] in *. rewrite <- !app_assoc. cbn [US app].
  intros E. apply app_sep_inj in E as [-> E]; [|done..]. by apply app_sep_inj in E as [-> ->].
Qed.

Lemma int63_range d : (0 <= int63 d < 2 ^ 63)%Z.
Proof. unfold int63. change (Z.shiftl 1 63 - 1)%Z with (Z.ones 63). rewrite Z.land_ones by lia. apply Z.mod_pos_bound. lia. Qed.

Definition entry (k : str) (m : pyval) : pyval := match m with VDict d => default VNone (assoc_get k d) | _ => VNone end.

(** a deployment's content is its own.  Its seeds are within 63 bits, and two purposes share one only if they are the same
    purpose of the same deployment and epoch or SHA-256 collides in those bits; equal manifests mean equal artifacts, up to
    a collision in the sixteen digits kept; and but for the shell history, which is written with one more newline, the
    hash in the manifest is that of the file in the bundle. *)
Theorem content_is_its_own s c a s' c' a' files :
  write_artifact_bundle (Some (s, c, a)) = Ok files →
  (∀ p, (0 <= for_purpose s p < 2 ^ 63)%Z) ∧
  (31%N ∉ deployment_id s → 31%N ∉ deployment_id s' → 31%N ∉ epoch s → 31%N ∉ epoch s' →
   ∀ p p', for_purpose s p = for_purpose s' p' → (s = s' ∧ p = p') ∨ collides (λ x, int63 (sha256 (encode x)))) ∧
  (build_manifest (Some (s, c, a)) = build_manifest (Some (s', c', a')) → (s = s' ∧ bodies a = bodies a') ∨ collides body_hash) ∧
  map (λ f, take 16 (sha f.2)) (take 5 files) = map (λ nb, body_hash nb.2) (take 5 (bodies a)) ∧
  assoc_get "bash_history_extras.txt"%py files = Some (encode (join "\n"%py (ra_bash_history_pool_extras a) ++ "\n"%py)) ∧
  assoc_get "manifest.json"%py files = Some (encode (dumps_indent (build_manifest (Some (s, c, a))))).
Proof.
  intros <-%Ok_inj. split_and!; try done.
  - intros p. apply int63_range.
  - intros H1 H2 H3 H4 p p' E. unfold for_purpose in E.
    destruct (same_or_collides (λ x, int63 (sha256 (encode x))) _ _ E) as [Em|]; [left|by right]. by apply purpose_material_inj in Em.
  - intros E. assert (Ed : VStr (deployment_id s) = VStr (deployment_id s')) by exact (f_equal (entry "deployment_id"%py) E).
    assert (Ee : VStr (epoch s) = VStr (epoch s')) by exact (f_equal (entry "epoch"%py) E).
    assert (Eh := f_equal (λ m, match entry "artifact_hashes"%py m with VDict d => d | _ => [] end) E).
    apply (same_bodies_or_collides body_hash (bodies a) (bodies a')) in Eh as [Eh|]; [left; split; [|done]|by right].
    destruct s, s'. cbn [deployment_id epoch] in Ed, Ee. congruence.
Qed.

Lemma content_is_its_own_witness :
  ∃ c a files, from_seed (G := unit) demo_seed = Ok (Some (demo_seed, c, a)) ∧ write_artifact_bundle (Some (demo_seed, c, a)) = Ok files ∧
    map (λ f, take 16 (sha f.2)) (take 5 files) = map (λ nb, body_hash nb.2) (take 5 (bodies a)).
Proof.
  destruct (demo_generated) as (c' & a & E). eexists c', a, _. split; [exact E|]. split; [reflexivity|].
  eapply (content_is_its_own demo_seed c' a demo_seed c' a). reflexivity.
Defined.
