(* ===== verification/Training.v ===== *)
(** plenith/training/reward.py and env.py: the reward of a step and of an episode, and the environment that plays the
    simulated attacker's commands through the pipeline while a policy picks the actions.

    The policy is a function of the observation vector; the wall clock and the presence of other users are
    those of a [world] for each step. *)

From Stdlib Require Import SpecFloat.
From S2P Require Import Prelude PyStr Vfs Float Json CounterAI Synthetic Session Heuristics Responses Policy Shell Search Orchestrator.
From S2P Require Import Engagement Pipeline Attacker.

#[local] Open Scope exc_scope.

(** ** reward.py *)

Record RewardWeights := mk_weights {
  per_credential_file_read : flt; per_payload_drop : flt; per_decoy_swallowed : flt; per_new_decoy_target : flt; per_honeytoken_modification : flt;
  dwell_per_command : flt; bonus_revshell : flt; bonus_ssh_persistence : flt; bonus_log_tampering : flt; bonus_dns_exfil : flt; bonus_elevation : flt;
  per_fingerprint_signal : flt; spurious_alert_penalty : flt; missed_alert_penalty : flt;
}.
Definition default_weights : RewardWeights :=
  mk_weights (of_int 5) (of_int 1) (of_int 8) (of_int 4) (of_int 3) (lit 3 10) (of_int 6) (of_int 6) (of_int 4) (of_int 4) (of_int 10)
    (of_int (-10)) (of_int (-2)) (of_int (-3)).

Definition _FINGERPRINT_SUBSTRINGS : list str :=
  ["as an AI"; "I cannot"; "I'm a language model"; "I do not have access"; "  As an assistant"; "I apologize"; "```python"; "```bash\n"]%py.
Definition _detect_fingerprint (response_preview : str) : bool := existsb (λ s, contains (lower response_preview) (lower s)) _FINGERPRINT_SUBSTRINGS.

Record StepReward := mk_reward { total : flt; components : list (str * flt) }.
Definition no_reward : StepReward := mk_reward f0 [].
Definition add (name : str) (value : flt) (r : StepReward) : StepReward :=
  if negb (ftruth value) then r
  else mk_reward (fadd (total r) value) (assoc_set name (fadd (default f0 (assoc_get name (components r))) value) (components r)).

(** The set held under a key, a list read as a set. *)
Definition items (k : str) (o : gmap str pyval) : gset str :=
  match o !! k with Some (VSet s) => s | Some (VList l) => list_to_set (strings_of l) | _ => ∅ end.
Definition added (k : str) (prev new : gmap str pyval) : gset str := items k new ∖ items k prev.

Definition set_deltas (w : RewardWeights) : list (str * flt) :=
  [("credential_files_read"%py, per_credential_file_read w); ("payload_drops"%py, per_payload_drop w); ("decoys_swallowed"%py, per_decoy_swallowed w);
   ("decoy_targets"%py, per_new_decoy_target w); ("honeytoken_modifications"%py, per_honeytoken_modification w)].

Definition delta_name (k : str) (n : nat) : str := "+"%py ++ k ++ "("%py ++ str_of_Z (Z.of_nat n) ++ ")"%py.
Definition delta_reward (prev new : gmap str pyval) (r : StepReward) (kw : str * flt) : StepReward :=
  let n := size (added kw.1 prev new) in
  if n =? 0 then r else add (delta_name kw.1 n) (fmul kw.2 (of_int (Z.of_nat n))) r.

Definition step_reward (w : RewardWeights) (prev new : gmap str pyval) (response_preview : str) (fired_an_alert worthy : bool) : StepReward :=
  let r := foldl (delta_reward prev new) no_reward (set_deltas w) in
  let r := if fired_an_alert && negb worthy then add "spurious_alert"%py (spurious_alert_penalty w) r
           else if negb fired_an_alert && worthy then add "missed_alert"%py (missed_alert_penalty w) r else r in
  if _detect_fingerprint response_preview then add "fingerprint"%py (per_fingerprint_signal w) r else r.

Definition bonuses (w : RewardWeights) : list (str * flt * str) :=
  [("reverse_shell_attempted", bonus_revshell w, "bonus_revshell"); ("ssh_persistence_attempt", bonus_ssh_persistence w, "bonus_ssh_persist");
   ("log_tampering", bonus_log_tampering w, "bonus_log_tamper"); ("dns_exfil_attempted", bonus_dns_exfil w, "bonus_dns_exfil");
   ("attempted_sudo_elevation", bonus_elevation w, "bonus_elevation")]%py.

Definition terminal_reward (w : RewardWeights) (n_commands : Z) (observed : gmap str pyval) : StepReward :=
  foldl (λ r b, if obs_true b.1.1 observed then add b.2 b.1.2 r else r)
    (add "dwell"%py (fmul (of_int n_commands) (dwell_per_command w)) no_reward) (bonuses w).

Definition SET_KEYS : list str := ["credential_files_read"; "decoy_targets"; "honeytoken_modifications"; "payload_drops"; "decoys_swallowed"]%py.
Definition BOOL_FLAGS : list str :=
  ["ssh_persistence_attempt"; "reverse_shell_attempted"; "dns_exfil_attempted"; "log_tampering"; "credential_search_attempted"]%py.
Definition something_alert_worthy (prev new : gmap str pyval) : bool :=
  existsb (λ k, negb (bool_decide (added k prev new = ∅))) SET_KEYS || existsb (λ k, obs_true k new && negb (obs_true k prev)) BOOL_FLAGS.

(** ** env.py *)

(** [_SyntheticLLM.complete], of the user's prompt. *)
Definition synthetic_llm (user_prompt : str) : str :=
  let line := lower user_prompt in
  if contains line "sudo -l"%py then "User jdoe may run the following commands:\n    (ALL) NOPASSWD: /usr/bin/apt-get\n"%py
  else if contains line "mysql"%py && contains line "-p"%py then "Enter password:\nERROR 1045 (28000): Access denied for user 'root'@'localhost'\n"%py
  else if any_in ["sudo -i"; "sudo bash"; "sudo su"]%py line then "root@host:~#\n"%py
  else [].

Definition training_world (w : world) : world := mk_world (w_moment w) (w_bot w) (w_date w) (λ _ user, inl (synthetic_llm user)).

Definition _severity_for (action_name : str) : str :=
  default "info"%py (assoc_get action_name
    [("alert_reverse_shell", "critical"); ("alert_ssh_persistence", "critical"); ("alert_credential_exfil", "high"); ("alert_dns_exfil", "high");
     ("alert_lateral_decoy", "high"); ("alert_log_tampering", "high"); ("alert_honeytoken_tamper", "high"); ("alert_credential_search", "medium");
     ("alert_payload_staging", "medium"); ("alert_decoy_swallowed", "medium"); ("isolate_session", "medium"); ("plant_sudo_vulnerability", "info");
     ("spawn_fake_mysql", "info"); ("plant_aws_credentials", "info")]%py).

Record DeceptionEnv := mk_env { _session : Session; _cmd_queue : list str; _prev_observed : gmap str pyval; _step_count : Z }.

Record StepResult := mk_result {
  sr_obs : list flt; sr_reward : flt; sr_done : bool; sr_components : list (str * flt); sr_cmd : option str; sr_source : str; sr_action : str; sr_step : Z;
}.

Section env.
Context {G : Type} `{Random G} `{Plugins}.
Context (exact : gmap str str) (reward_weights : RewardWeights) (episode_cap : Z).

(** The engine is told to do nothing: the policy being trained is outside the pipeline. *)
Definition _NoOpPolicy : Policy := λ _ _, None.

Definition reset (personas : list Persona) (id uuid : str) (start : flt) (queue : list str) : exc DeceptionEnv :=
  let* persona := of_option (ValueError "StopIteration"%py) (find (λ p, bool_decide (username p = "jdoe"%py)) personas) in
  let* s := connect (G := G) id uuid "jdoe"%py "192.0.2.99"%py persona start (Some personas) None None in
  Ok (mk_env s queue (observed s) 0).

Definition action_name_of (action_id : Z) : str := if (0 <=? action_id)%Z then default "noop"%py (ACTION_SPACE !! Z.to_nat action_id) else "noop"%py.

Definition env_record (t : moment) (cmd name : str) (s : Session) : gmap str pyval :=
  list_to_map [("action", VStr name); ("severity", VStr (_severity_for name)); ("rationale", VStr ("policy chose " ++ name));
               ("ts_offset_s", VFloat (round2 (elapsed t s))); ("triggered_by", VStr cmd)]%py.

(** The final reward alone. *)
Definition _finalize (t : moment) (e : DeceptionEnv) : StepResult :=
  let tr := terminal_reward reward_weights (_step_count e) (observed (_session e)) in
  mk_result (vectorize t (_session e)) (total tr) true (components tr) None [] [] (_step_count e).

(** [t0] and [t1] are the moments at which the action's offset and the observation vector are taken. *)
Definition step (w : world) (t0 t1 : moment) (action_id : Z) (e : DeceptionEnv) : exc StepResult * DeceptionEnv :=
  match _cmd_queue e with
  | [] => (Ok (_finalize t1 e), e)
  | cmd :: queue =>
      let n := (_step_count e + 1)%Z in
      let name := action_name_of action_id in
      let acts := negb (bool_decide (name = "noop"%py)) in
      let rec := env_record t0 cmd name (_session e) in
      match handle_command (G := G) (H0 := _NoOpPolicy) exact (training_world w) cmd (_session e) with
      | (Raise ex, s) => (Raise ex, mk_env s queue (_prev_observed e) n)
      | (Ok None, s) => (Raise (TypeError "cannot unpack"%py), mk_env s queue (_prev_observed e) n)
      | (Ok (Some (body, source)), s) =>
          let s := if acts then execute (G := G) name (with_actions (actions_taken s ++ [rec]) s) else s in
          let prev := _prev_observed e in
          let new := observed s in
          let sr := step_reward reward_weights prev new body acts (something_alert_worthy prev new) in
          let done := bool_decide (queue = []) || (episode_cap <=? n)%Z || bool_decide (strip cmd = "exit"%py) in
          let sr := if done then
                      let tr := terminal_reward reward_weights n new in
                      let sr := add "__terminal__"%py (total tr) sr in
                      mk_reward (total sr) (foldl (λ d kv, assoc_set kv.1 kv.2 d) (components sr) (components tr))
                    else sr in
          (Ok (mk_result (vectorize t1 s) (total sr) done (components sr) (Some cmd) source name n), mk_env s queue new n)
      end
  end.

(** An episode: the policy sees the last observation vector.  It ends when a step is done or raises; [inl] tells that the fuel was out. *)
Definition clocked : Type := world * moment * moment.
Fixpoint play (pick : list flt → Z) (clock : list clocked) (obs : list flt) (e : DeceptionEnv) : list (StepResult * DeceptionEnv) * bool * DeceptionEnv :=
  match clock with
  | [] => ([], false, e)
  | (w, t0, t1) :: clock =>
      match step w t0 t1 (pick obs) e with
      | (Raise _, e) => ([], true, e)
      | (Ok r, e) => if sr_done r then ([(r, e)], true, e) else let '(rs, fin, e') := play pick clock (sr_obs r) e in ((r, e) :: rs, fin, e')
      end
  end.
End env.

(** ** What an episode pays for *)

(** The new items of each step under [k], from the observations [prev]. *)
Fixpoint paid (k : str) (prev : gmap str pyval) (l : list (StepResult * DeceptionEnv)) : list (gset str) :=
  match l with [] => [] | (_, e) :: l => added k prev (_prev_observed e) :: paid k (_prev_observed e) l end.

Definition observes (s s' : Session) : Prop := evolves (observed s) (observed s').

#[export] Instance observes_primitives : Primitives observes.
Proof.
  split.
  - unfold observes. split; [intros s; reflexivity|]. intros a b c H1 H2. by transitivity (observed b).
  - intros t o s _. unfold observes. by rewrite (eq_refl : observed (call_vfs t o s) = observed s).
  - intros op path s. apply observe_vfs_event_evolves.
  - intros n r s. apply observe_search_event_evolves.
Qed.

(** Detector plugins that unset nothing. *)
Class EvolvingDetectors `{Plugins} : Prop := detectors_evolve : ∀ cmd s, observes s (run_detectors cmd s).

#[export] Instance no_plugins_evolve : @EvolvingDetectors no_plugins.
Proof. intros cmd s. reflexivity. Qed.

Lemma set_key_kind k : k ∈ SET_KEYS → ∃ s, _fresh_observed !! k = Some (VSet s) ∧ latches_for _fresh_observed recomputed k = true.
Proof.
  intros Hk. assert (HF : Forall (λ k, ∃ s, _fresh_observed !! k = Some (VSet s) ∧ latches_for _fresh_observed recomputed k = true) SET_KEYS).
  { repeat constructor; (exists ∅; split; vm_compute; reflexivity). }
  rewrite Forall_forall in HF. by apply HF.
Qed.

Lemma items_set k o : k ∈ SET_KEYS → obs_wf o → items k o = obs_set k o.
Proof.
  intros (s & E & _)%set_key_kind Ho. destruct (Ho k _ E) as (v & Ev & Hv). unfold items, obs_set. rewrite Ev. by destruct v.
Qed.

Lemma items_grow k a b : k ∈ SET_KEYS → obs_wf a → evolves a b → items k a ⊆ items k b.
Proof.
  intros Hk Ha Hab. destruct (Hab Ha) as [Hb Hle]. rewrite !items_set by done. destruct (set_key_kind k Hk) as (s & _ & Hl). by apply Hle.
Qed.

Lemma last_cons_default {A} (x d : A) l : List.last (x :: l) d = List.last l x.
Proof. revert x d. induction l as [|y l IH]; intros x d; [done|]. change (List.last (y :: l) d = List.last (y :: l) x). by rewrite !IH. Qed.

Section episode_laws.
Context {G : Type} `{Random G} `{Plugins} `{!EvolvingDetectors} (exact : gmap str str) (w : RewardWeights) (cap : Z).

Lemma noop_handle_observes wd cmd : keeps observes (handle_command (G := G) (H0 := _NoOpPolicy) exact wd cmd).
Proof.
  assert (Hnoop : ∀ t, keeps observes (modify (_maybe_record_action (G := G) (H0 := _NoOpPolicy) t cmd))) by (intros t s; reflexivity).
  unfold handle_command. cbv zeta.
  apply keeps_bind; [apply keeps_modify; intros s; apply update_observations_evolves|intros _].
  apply keeps_bind; [apply keeps_modify, detectors_evolve|intros _].
  apply keeps_bind; [apply Hnoop|intros _].
  apply keeps_bind; [apply dispatch_keeps; intros c s; by change (evolves (observed s) (observed s))|]. intros r. apply keeps_bind; [apply Hnoop|intros _; apply keeps_ret].
Qed.

(** A step that has a command: its observations are the new ones, and it is one command fewer. *)
Lemma step_ok wd t0 t1 a e r e' : step (G := G) exact w cap wd t0 t1 a e = (Ok r, e') → _prev_observed e = observed (_session e) →
  evolves (observed (_session e)) (observed (_session e')) ∧ _prev_observed e' = observed (_session e').
Proof.
  unfold step. destruct (_cmd_queue e) as [|cmd queue] eqn:Eq; [intros [= _ <-] Hp; split; [reflexivity|done]|]. intros E Hp.
  pose proof (noop_handle_observes (training_world wd) cmd (_session e)) as Hk.
  destruct (handle_command _ _ _ _) as [[[[body source]|]|ex] s]; [|done|done]. cbn [snd] in Hk. injection E as _ <-. cbn [_session _prev_observed].
  split; [|done]. destruct (negb _); [|exact Hk]. unfold observes in Hk. etransitivity; [exact Hk|].
  set (s1 := with_actions _ s). change (observed s) with (observed s1). apply execute_evolves.
Qed.

Lemma play_paid pick clock obs e k : k ∈ SET_KEYS → obs_wf (observed (_session e)) → _prev_observed e = observed (_session e) →
  let '(rs, _, _) := play (G := G) exact w cap pick clock obs e in
  let last := List.last (map (λ re, _prev_observed re.2) rs) (_prev_observed e) in
  items k (_prev_observed e) ⊆ items k last ∧
  ⋃ (paid k (_prev_observed e) rs) = items k last ∖ items k (_prev_observed e) ∧
  sum_list_with size (paid k (_prev_observed e) rs) = size (items k last ∖ items k (_prev_observed e)).
Proof.
  intros Hk. revert obs e. induction clock as [|[[wd t0] t1] clock IH]; intros obs e Hwf Hp; cbn [play].
  { cbn. rewrite difference_diag_L, size_empty. done. }
  destruct (step exact w cap wd t0 t1 (pick obs) e) as [[r|ex] e1] eqn:Es; [|cbn; by rewrite difference_diag_L, size_empty].
  destruct (step_ok _ _ _ _ _ _ _ Es Hp) as [Hev Hp1]. destruct (Hev Hwf) as [Hwf1 _].
  assert (Hsub : items k (_prev_observed e) ⊆ items k (_prev_observed e1)) by (rewrite Hp, Hp1; by apply items_grow).
  destruct (sr_done r).
  - cbn. split; [done|]. unfold added. rewrite union_empty_r_L. split; [reflexivity|apply Nat.add_0_r].
  - specialize (IH (sr_obs r) e1 Hwf1 Hp1). destruct (play _ _ _ _ _ _ _) as [[rs fin] e2]. cbn [map paid snd].
    rewrite last_cons_default. set (last := List.last _ _) in *. destruct IH as (I1 & I2 & I3).
    cbn [sum_list_with union_list foldr]. change (foldr union ∅ ?l) with (⋃ l). unfold added at 1 2.
    split; [set_solver|]. split.
    + rewrite I2. apply set_eq. intros x. rewrite !elem_of_union, !elem_of_difference. destruct (decide (x ∈ items k (_prev_observed e1))); set_solver.
    + rewrite I3, <- size_union by set_solver. f_equal. apply set_eq. intros x. rewrite !elem_of_union, !elem_of_difference.
      destruct (decide (x ∈ items k (_prev_observed e1))); set_solver.
Qed.

(** A step consumes a command and counts it; one that does not end the episode leaves commands and is below the cap. *)
Lemma step_progress wd t0 t1 a e r e' : step (G := G) exact w cap wd t0 t1 a e = (Ok r, e') → sr_done r = false →
  ∃ cmd, _cmd_queue e = cmd :: _cmd_queue e' ∧ _cmd_queue e' ≠ [] ∧ _step_count e' = (_step_count e + 1)%Z ∧ (_step_count e' < cap)%Z.
Proof.
  unfold step. destruct (_cmd_queue e) as [|cmd queue]; [by intros [= <- _]|].
  destruct (handle_command _ _ _ _) as [[[[body source]|]|ex] s]; [|done|done]. intros [= <- <-]. cbn [sr_done _cmd_queue _step_count].
  intros [[Hq Hc]%orb_false_iff _]%orb_false_iff. exists cmd. split_and!; [done|by apply bool_decide_eq_false in Hq|done|lia].
Qed.

Lemma play_ends pick clock obs e : 1 ≤ length clock → length (_cmd_queue e) ≤ length clock →
  let '(rs, fin, _) := play (G := G) exact w cap pick clock obs e in
  fin = true ∧ length rs ≤ Nat.max 1 (Nat.min (length (_cmd_queue e)) (Z.to_nat (cap - _step_count e))).
Proof.
  revert obs e. induction clock as [|[[wd t0] t1] clock IH]; intros obs e Hc Hq; [cbn in Hc; lia|]. cbn [play].
  destruct (step exact w cap wd t0 t1 (pick obs) e) as [[r|ex] e1] eqn:Es; [|cbn; split; [done|lia]].
  destruct (sr_done r) eqn:Ed; [cbn; split; [done|lia]|].
  destruct (step_progress _ _ _ _ _ _ _ Es Ed) as (cmd & Eq & Hne & En & Hcap). rewrite Eq in *. cbn [length] in *.
  assert (1 ≤ length (_cmd_queue e1)) by (destruct (_cmd_queue e1); [done|cbn; lia]).
  specialize (IH (sr_obs r) e1 ltac:(lia) ltac:(lia)). destruct (play _ _ _ _ _ _ _) as [[rs fin] e2]. destruct IH as [-> Hl].
  split; [done|]. cbn [length]. lia.
Qed.
End episode_laws.

(** ** The components of a reward *)

Lemma add_other x name v r : x ≠ name → assoc_get x (components (add name v r)) = assoc_get x (components r).
Proof. intros Hx. unfold add. destruct (negb (ftruth v)); [done|]. cbn [components]. rewrite assoc_get_set. by rewrite decide_False. Qed.

Lemma add_self name v r : ftruth v = true → assoc_get name (components r) = None → assoc_get name (components (add name v r)) = Some (fadd f0 v).
Proof. intros Hv Hn. unfold add. rewrite Hv. cbn [negb components]. rewrite assoc_get_set, decide_True, Hn by done. done. Qed.

Lemma delta_name_inj k k' n m : k ∈ SET_KEYS → k' ∈ SET_KEYS → delta_name k n = delta_name k' m → k = k'.
Proof.
  assert (T : forallb (λ k, (7 <=? length k) && forallb (λ k', implb (bool_decide (take 8 ("+"%py ++ k) = take 8 ("+"%py ++ k'))) (bool_decide (k = k'))) SET_KEYS) SET_KEYS = true)
    by (vm_compute; reflexivity).
  rewrite forallb_forall in T. intros Hk Hk' E. pose proof (T k ltac:(by apply list_elem_of_In)) as Tk. pose proof (T k' ltac:(by apply list_elem_of_In)) as Tk'.
  apply andb_true_iff in Tk as [Lk Tk]. apply andb_true_iff in Tk' as [Lk' _]. apply Nat.leb_le in Lk, Lk'.
  rewrite forallb_forall in Tk. specialize (Tk k' ltac:(by apply list_elem_of_In)).
  assert (P : ∀ k n, 7 ≤ length k → take 8 (delta_name k n) = take 8 ("+"%py ++ k)).
  { clear. intros k n Hl. unfold delta_name. rewrite app_assoc, take_app_le; [done|]. rewrite length_app. cbn. lia. }
  apply (f_equal (take 8)) in E. rewrite !P in E by done. rewrite bool_decide_eq_true_2 in Tk by done. by apply bool_decide_eq_true in Tk.
Qed.

Section components.
Context (prev new : gmap str pyval).

Lemma delta_other x r kw : (∀ n, x ≠ delta_name kw.1 n) → assoc_get x (components (delta_reward prev new r kw)) = assoc_get x (components r).
Proof. intros Hx. unfold delta_reward. destruct (_ =? 0); [done|]. by apply add_other. Qed.

Lemma deltas_other x l r : Forall (λ kw, ∀ n, x ≠ delta_name kw.1 n) l → assoc_get x (components (foldl (delta_reward prev new) r l)) = assoc_get x (components r).
Proof. intros Hl. revert r. induction Hl as [|kw l Hkw _ IH]; intros r; [done|]. cbn [foldl]. rewrite IH. by apply delta_other. Qed.

(** New items under [k] pay the weight of [k] times their number. *)
Lemma deltas_pay l k v : NoDup (map fst l) → Forall (λ kw, kw.1 ∈ SET_KEYS) l → (k, v) ∈ l →
  let n := size (added k prev new) in n ≠ 0 → ftruth (fmul v (of_int (Z.of_nat n))) = true →
  assoc_get (delta_name k n) (components (foldl (delta_reward prev new) no_reward l)) = Some (fadd f0 (fmul v (of_int (Z.of_nat n)))).
Proof.
  intros Hnd Hl (l1 & l2 & ->)%list_elem_of_split n Hn Hv. rewrite foldl_app. cbn [foldl]. rewrite map_app in Hnd. cbn [map fst] in Hnd.
  apply NoDup_app in Hnd as (_ & Hd & [Hk2 _]%NoDup_cons). apply Forall_app in Hl as [Hl1 [Hk Hl2]%Forall_cons]. cbn [fst] in Hk.
  assert (Hne : ∀ l : list (str * flt), Forall (λ kw, kw.1 ∈ SET_KEYS) l → k ∉ map fst l → Forall (λ kw, ∀ m, delta_name k n ≠ delta_name kw.1 m) l).
  { intros l Hs Hnk. rewrite Forall_forall in Hs |- *. intros kw Hin m E. apply delta_name_inj in E; [|done|by apply Hs]. apply Hnk. subst k.
    apply list_elem_of_fmap. by exists kw. }
  rewrite deltas_other by by apply Hne. unfold delta_reward at 1. cbv zeta. cbn [fst snd].
  change (size (added k prev new)) with n. rewrite (proj2 (Nat.eqb_neq n 0) Hn).
  apply add_self; [done|]. rewrite deltas_other; [done|]. apply Hne; [done|]. intros Hin. apply (Hd _ Hin). by left.
Qed.
End components.

Lemma plain_name x k n : head x ≠ Some 43%N → delta_name k n ≠ x.
Proof. intros Hx E. apply Hx. by rewrite <- E. Qed.

Definition plain (r : StepReward) : Prop := Forall (λ kv, head kv.1 ≠ Some 43%N) (components r).

Lemma plain_add name v r : head name ≠ Some 43%N → plain r → plain (add name v r).
Proof.
  intros Hn Hr. unfold add. destruct (negb (ftruth v)); [done|]. unfold plain. cbn [components]. apply Forall_forall. intros [x y] Hin.
  apply assoc_set_elem in Hin as [[-> _]|Hin]; [done|]. unfold plain in Hr. rewrite Forall_forall in Hr. by apply Hr.
Qed.

Lemma terminal_plain w n o : plain (terminal_reward w n o).
Proof.
  unfold terminal_reward, bonuses. cbn [foldl fst snd]. repeat (match goal with |- context [if ?b then add _ _ _ else _] => destruct b end);
    repeat (apply plain_add; [done|]); constructor.
Qed.

Lemma sets_other x (l d : list (str * flt)) : Forall (λ kv, x ≠ kv.1) l → assoc_get x (foldl (λ d kv, assoc_set kv.1 kv.2 d) d l) = assoc_get x d.
Proof. intros Hl. revert d. induction Hl as [|kv l Hkv _ IH]; intros d; [done|]. cbn [foldl]. by rewrite IH, assoc_get_set, decide_False. Qed.

Lemma weights_keys w : NoDup (map fst (set_deltas w)) ∧ Forall (λ kw, kw.1 ∈ SET_KEYS) (set_deltas w).
Proof.
  split; [apply (bool_decide_unpack _); vm_compute; exact I|]. unfold set_deltas. repeat constructor; cbn [fst]; set_solver.
Qed.

Lemma step_reward_pays w prev new body acts worthy k v : (k, v) ∈ set_deltas w →
  let n := size (added k prev new) in n ≠ 0 → ftruth (fmul v (of_int (Z.of_nat n))) = true →
  assoc_get (delta_name k n) (components (step_reward w prev new body acts worthy)) = Some (fadd f0 (fmul v (of_int (Z.of_nat n)))).
Proof.
  intros Hin n Hn Hv. destruct (weights_keys w) as [Hnd Hkeys]. pose proof (deltas_pay prev new _ k v Hnd Hkeys Hin Hn Hv) as Hpay. fold n in Hpay.
  unfold step_reward. destruct (_detect_fingerprint body); [rewrite add_other by by apply plain_name|];
    (destruct (acts && negb worthy); [by rewrite add_other by by apply plain_name|]);
    (destruct (negb acts && worthy); [by rewrite add_other by by apply plain_name|exact Hpay]).
Qed.

Section payments.
Context {G : Type} `{Random G} `{Plugins} (exact : gmap str str) (w : RewardWeights) (cap : Z).

Lemma step_pays wd t0 t1 a e r e' k v : step (G := G) exact w cap wd t0 t1 a e = (Ok r, e') → (k, v) ∈ set_deltas w →
  let n := size (added k (_prev_observed e) (_prev_observed e')) in n ≠ 0 → ftruth (fmul v (of_int (Z.of_nat n))) = true →
  assoc_get (delta_name k n) (sr_components r) = Some (fadd f0 (fmul v (of_int (Z.of_nat n)))).
Proof.
  unfold step. destruct (_cmd_queue e) as [|cmd queue].
  { intros [= _ <-] _. cbv zeta. unfold added. rewrite difference_diag_L, size_empty. done. }
  destruct (handle_command _ _ _ _) as [[[[body source]|]|ex] s]; [|done|done]. intros [= <- <-] Hin. cbn [_prev_observed sr_components]. cbv zeta.
  intros Hn Hv. set (acts := negb _). set (new := observed _) in *. set (sr := step_reward _ _ _ _ _ _).
  assert (Hpay : assoc_get (delta_name k (size (added k (_prev_observed e) new))) (components sr)
                 = Some (fadd f0 (fmul v (of_int (Z.of_nat (size (added k (_prev_observed e) new))))))) by by apply step_reward_pays.
  destruct (_ || _ || _); [|exact Hpay]. cbn [components]. rewrite sets_other.
  - by rewrite add_other by by apply plain_name.
  - eapply Forall_impl; [apply terminal_plain|]. intros kv Hkv. by apply plain_name.
Qed.

Lemma play_pays pick clock obs e k v : (k, v) ∈ set_deltas w →
  let '(rs, _, _) := play (G := G) exact w cap pick clock obs e in
  ∀ i r e1 A, rs !! i = Some (r, e1) → paid k (_prev_observed e) rs !! i = Some A → size A ≠ 0 → ftruth (fmul v (of_int (Z.of_nat (size A)))) = true →
    assoc_get (delta_name k (size A)) (sr_components r) = Some (fadd f0 (fmul v (of_int (Z.of_nat (size A))))).
Proof.
  intros Hin. revert obs e. induction clock as [|[[wd t0] t1] clock IH]; intros obs e; cbn [play]; [by intros i|].
  destruct (step exact w cap wd t0 t1 (pick obs) e) as [[r|ex] e1] eqn:Es; [|by intros i].
  assert (H1 : ∀ A, added k (_prev_observed e) (_prev_observed e1) = A → size A ≠ 0 → ftruth (fmul v (of_int (Z.of_nat (size A)))) = true →
    assoc_get (delta_name k (size A)) (sr_components r) = Some (fadd f0 (fmul v (of_int (Z.of_nat (size A)))))) by (intros A <-; by eapply step_pays).
  destruct (sr_done r).
  - intros [|i] r' e' A; [|done]. cbn. intros [= <- <-] [= HA]. by apply H1.
  - specialize (IH (sr_obs r) e1). destruct (play _ _ _ _ _ _ _) as [[rs fin] e2].
    intros [|i] r' e' A; cbn [paid lookup list_lookup]; [intros [= <- <-] [= HA]; by apply H1|apply IH].
Qed.
End payments.

(** C27: an episode ends, after at most as many steps as it has commands and as the cap allows, whatever the policy picks; and the bait is paid for
    once: over the episode, through the whole pipeline, the new items that its steps pay for are exactly those that
    the attacker came to touch, each at one step, whose reward names them with the weight of their kind times their number. *)
Theorem bait_paid_once {G} `{Random G} `{Plugins} `{!EvolvingDetectors} exact w cap pick clock obs e :
  obs_wf (observed (_session e)) → _prev_observed e = observed (_session e) → 1 ≤ length clock → length (_cmd_queue e) ≤ length clock →
  let '(rs, ended, _) := play (G := G) exact w cap pick clock obs e in
  let last := List.last (map (λ re, _prev_observed re.2) rs) (_prev_observed e) in
  ended = true ∧ length rs ≤ Nat.max 1 (Nat.min (length (_cmd_queue e)) (Z.to_nat (cap - _step_count e))) ∧
  (∀ k, k ∈ SET_KEYS →
     ⋃ (paid k (_prev_observed e) rs) = items k last ∖ items k (_prev_observed e) ∧
     sum_list_with size (paid k (_prev_observed e) rs) = size (items k last ∖ items k (_prev_observed e))) ∧
  (∀ k v i r e1 A, (k, v) ∈ set_deltas w → rs !! i = Some (r, e1) → paid k (_prev_observed e) rs !! i = Some A → size A ≠ 0 →
     ftruth (fmul v (of_int (Z.of_nat (size A)))) = true →
     assoc_get (delta_name k (size A)) (sr_components r) = Some (fadd f0 (fmul v (of_int (Z.of_nat (size A)))))).
Proof.
  intros Hwf Hp Hc Hq. pose proof (play_ends (G := G) exact w cap pick clock obs e Hc Hq) as He.
  pose proof (λ k, play_paid (G := G) exact w cap pick clock obs e k) as Hpaid. pose proof (λ k v, play_pays (G := G) exact w cap pick clock obs e k v) as Hpays.
  destruct (play exact w cap pick clock obs e) as [[rs ended] e']. cbv zeta. destruct He as [He1 He2]. split_and!; [done|done| |].
  - intros k Hk. destruct (Hpaid k Hk Hwf Hp) as (_ & P1 & P2). by split.
  - intros k v i r e1 A Hin. by apply Hpays.
Qed.

Definition demo_env : DeceptionEnv := mk_env demo ["cat ~/.aws/credentials"; "cat ~/.aws/credentials"; "ssh db-prod-01"; "exit"]%py (observed demo) 0.
Definition demo_clock : list clocked := repeat (demo_world, t0, t0) 4.

(** The same bait, read twice, is paid for once; but the one host of the ssh command is paid for as two, its name and the prefix of its name. *)
Example demo_rewards :
  map (λ re, map fst (sr_components re.1)) (play (G := unit) ∅ default_weights 30 (λ _, 0%Z) demo_clock [] demo_env).1.1
  = [["+credential_files_read(1)"; "missed_alert"]; []; ["+decoy_targets(2)"; "missed_alert"]; ["__terminal__"; "dwell"]]%py.
Proof. vm_compute. reflexivity. Qed.

(** Planting a decoy is charged as a spurious alert. *)
Example planting_is_spurious :
  map fst (sr_components (default (mk_result [] f0 false [] None [] [] 0) (fst <$> head
    (play (G := unit) ∅ default_weights 30 (λ _, 1%Z) demo_clock [] demo_env).1.1))) = ["+credential_files_read(1)"]%py ∧
  map fst (components (step_reward default_weights (observed demo) (observed demo) [] true false)) = ["spurious_alert"%py].
Proof. split; vm_compute; reflexivity. Qed.

Lemma bait_paid_once_witness :
  let '(rs, ended, _) := play (G := unit) ∅ default_weights 30 (λ _, 0%Z) demo_clock [] demo_env in
  ended = true ∧ length rs ≤ 4 ∧ ⋃ (paid "credential_files_read"%py (observed demo) rs)
    = items "credential_files_read"%py (List.last (map (λ re, _prev_observed re.2) rs) (observed demo)) ∖ items "credential_files_read"%py (observed demo).
Proof.
  pose proof (bait_paid_once (G := unit) ∅ default_weights 30 (λ _, 0%Z) demo_clock [] demo_env demo_wf eq_refl ltac:(cbn; lia) ltac:(cbn; lia)) as Hp.
  destruct (play _ _ _ _ _ _ _) as [[rs ended] e']. destruct Hp as (H1 & H2 & H3 & _). split; [exact H1|]. split; [eapply Nat.le_trans; [exact H2|]; apply Nat.leb_le; vm_compute; reflexivity|].
  apply (H3 "credential_files_read"%py). by left.
Defined.
