(* ===== verification/Stix.v ===== *)
(** plenith/connectors/mitre.py and stix.py: the ATT&CK techniques of the actions, and the bundle of indicators
    that is shared with other organisations. *)

From S2P Require Import Prelude PyStr Hash Json Float Logs Backup AuditViews.

(** ** ATT&CK *)

Record MitreMapping := mk_MitreMapping { technique : str; technique_name : str; tactic : str; tactic_id : str }.

Definition ACTION_TO_MITRE : list (str * list MitreMapping) :=
  [("alert_credential_search",
    [mk_MitreMapping "T1552.001" "Credentials In Files" "Credential Access" "TA0006";
     mk_MitreMapping "T1083" "File and Directory Discovery" "Discovery" "TA0007"]);
   ("alert_credential_exfil",
    [mk_MitreMapping "T1552.001" "Credentials In Files" "Credential Access" "TA0006";
     mk_MitreMapping "T1005" "Data from Local System" "Collection" "TA0009"]);
   ("alert_honeytoken_tamper",
    [mk_MitreMapping "T1070.004" "File Deletion" "Defense Evasion" "TA0005";
     mk_MitreMapping "T1565.001" "Stored Data Manipulation" "Impact" "TA0040"]);
   ("alert_payload_staging",
    [mk_MitreMapping "T1074" "Data Staged" "Collection" "TA0009"]);
   ("alert_decoy_swallowed",
    [mk_MitreMapping "T1083" "File and Directory Discovery" "Discovery" "TA0007"]);
   ("alert_dns_exfil",
    [mk_MitreMapping "T1071.004" "Application Layer Protocol: DNS" "Command and Control" "TA0011";
     mk_MitreMapping "T1048.003" "Exfiltration Over Unencrypted Protocol" "Exfiltration" "TA0010"]);
   ("alert_lateral_decoy",
    [mk_MitreMapping "T1021.004" "Remote Services: SSH" "Lateral Movement" "TA0008"]);
   ("alert_log_tampering",
    [mk_MitreMapping "T1070.003" "Clear Command History" "Defense Evasion" "TA0005";
     mk_MitreMapping "T1070.002" "Clear Linux or Mac System Logs" "Defense Evasion" "TA0005"]);
   ("alert_ssh_persistence",
    [mk_MitreMapping "T1098.004" "Account Manipulation: SSH Authorized Keys" "Persistence" "TA0003"]);
   ("alert_reverse_shell",
    [mk_MitreMapping "T1059.004" "Command and Scripting Interpreter: Unix Shell" "Execution" "TA0002";
     mk_MitreMapping "T1095" "Non-Application Layer Protocol" "Command and Control" "TA0011"]);
   ("alert_attacker_llm_detected",
    [mk_MitreMapping "MC-AI-001" "Adversary AI Tooling Detected" "Reconnaissance" "TA0043"]);
   ("isolate_session",
    [mk_MitreMapping "M1037" "Filter Network Traffic (mitigation)" "Mitigation" "M1037"]);
   ("plant_sudo_vulnerability",
    [mk_MitreMapping "M1015" "Active Directory Configuration (mitigation)" "Mitigation" "M1015"]);
   ("spawn_fake_mysql",
    [mk_MitreMapping "M1015" "Active Directory Configuration (mitigation)" "Mitigation" "M1015"]);
   ("plant_aws_credentials",
    [mk_MitreMapping "M1015" "Active Directory Configuration (mitigation)" "Mitigation" "M1015"])
  ]%py.

Definition all_techniques_for (action : str) : list MitreMapping := default [] (assoc_get action ACTION_TO_MITRE).
Definition technique_for (action : str) : option MitreMapping := head (all_techniques_for action).

Definition technique_dict (m : MitreMapping) : pyval := VDict
  [("technique", VStr (technique m)); ("name", VStr (technique_name m)); ("tactic", VStr (tactic m)); ("tactic_id", VStr (tactic_id m))]%py.

(** The alert keeps the order of its keys; new ones go to the end. *)
Definition enrich (alert : list (str * pyval)) : list (str * pyval) :=
  match assoc_get "action"%py alert with
  | Some (VStr ((_ :: _) as action)) =>
      match all_techniques_for action with
      | [] => alert
      | (primary :: rest) as mappings =>
          let alert := assoc_set "mitre_technique"%py (VStr (technique primary)) alert in
          let alert := assoc_set "mitre_technique_name"%py (VStr (technique_name primary)) alert in
          let alert := assoc_set "mitre_tactic"%py (VStr (tactic primary)) alert in
          let alert := assoc_set "mitre_tactic_id"%py (VStr (tactic_id primary)) alert in
          match rest with [] => alert | _ => assoc_set "mitre_techniques"%py (VList (map technique_dict mappings)) alert end
      end
  | _ => alert
  end.

(** The first of each. *)
Fixpoint dedupe (seen l : list str) : list str :=
  match l with
  | [] => []
  | t :: l => if decide (t ∈ seen) then dedupe seen l else t :: dedupe (t :: seen) l
  end.

Definition sigma_tags (action : str) : list str :=
  dedupe [] (flat_map (λ m, ["attack."%py ++ lower (technique m); "attack."%py ++ replace_char 32 95 (lower (tactic m))]) (all_techniques_for action)).

Definition coverage_report : pyval := VDict
  [("actions", VDict (map (λ am, (am.1, VList (map technique_dict am.2))) ACTION_TO_MITRE));
   ("tactics_covered", VList (map VStr (sorted_set (list_to_set (flat_map (λ am, map tactic am.2) ACTION_TO_MITRE)))));
   ("techniques_covered", VList (map VStr (sorted_set (list_to_set (flat_map (λ am, map technique am.2) ACTION_TO_MITRE)))))]%py.

(** ** STIX objects *)

Definition sdo := list (str * pyval).
Definition id_of (o : sdo) : str := match assoc_get "id"%py o with Some (VStr s) => s | _ => [] end.

(** [str(uuid.UUID(bytes=...))]. *)
Definition uuid_str (b : bytes) : str :=
  let h := hexdigest b in
  join "-"%py [take 8 h; take 4 (drop 8 h); take 4 (drop 12 h); take 4 (drop 16 h); drop 20 h].

Definition _stable_id (prefix key : str) : str :=
  let bits := take 16 (sha1 (encode key)) in
  let bits := <[6 := N.lor (N.land (nthN bits 6) 15) 80]> bits in
  let bits := <[8 := N.lor (N.land (nthN bits 8) 63) 128]> bits in
  prefix ++ "--"%py ++ uuid_str bits.

(** The clock: the text of the n-th call of [_utcnow]. *)
Definition clock := nat → str.

Section objects.
Context (_utcnow : clock).

Definition head_of (type_ id : str) (n : nat) : sdo :=
  [("type", VStr type_); ("spec_version", VStr "2.1"); ("id", VStr id); ("created", VStr (_utcnow n)); ("modified", VStr (_utcnow (S n)))]%py.

Definition _identity_object (n : nat) : sdo :=
  head_of "identity"%py (_stable_id "identity"%py "plenith-platform"%py) n
  ++ [("name", VStr "Plenith Deception Platform"); ("identity_class", VStr "system")]%py.

Definition indicator (kind key name pattern : str) (labels : list str) (n : nat) : sdo :=
  head_of "indicator"%py (_stable_id "indicator"%py (kind ++ ":"%py ++ key)) n
  ++ [("name", VStr name); ("indicator_types", VList [VStr "malicious-activity"]); ("pattern_type", VStr "stix"); ("pattern", VStr pattern);
      ("valid_from", VStr (_utcnow (S (S n)))); ("labels", VList (map VStr labels))]%py.

Definition _ipv4_indicator (ip label : str) (n : nat) : sdo :=
  indicator "ipv4"%py ip ("Attacker IP "%py ++ ip) ("[ipv4-addr:value = '"%py ++ ip ++ "']"%py) [label] n.
Definition _url_indicator (url : str) (n : nat) : sdo :=
  indicator "url"%py url ("Exfil URL "%py ++ url) ("[url:value = "%py ++ jstr url ++ "]"%py) ["exfil"%py] n.
Definition _domain_indicator (domain : str) (n : nat) : sdo :=
  indicator "domain"%py domain ("Suspicious domain "%py ++ domain) ("[domain-name:value = "%py ++ jstr domain ++ "]"%py) ["c2"; "exfil"]%py n.

Definition _attack_pattern (mitre_technique mitre_name : str) (n : nat) : sdo :=
  head_of "attack-pattern"%py (_stable_id "attack-pattern"%py ("mitre:"%py ++ mitre_technique)) n
  ++ [("name", VStr mitre_name);
      ("external_references", VList [VDict [("source_name", VStr "mitre-attack"); ("external_id", VStr mitre_technique);
         ("url", VStr ("https://attack.mitre.org/techniques/" ++ replace_char 46 47 mitre_technique ++ "/"))]])]%py.

(** ** The suspicious domain of a command *)

Definition _EXFIL_TLDS : list str :=
  [".oast.live"; ".oast.site"; ".oast.pro"; ".burpcollaborator.net"; ".interactsh.com"; ".interact.sh"; ".requestcatcher.com";
   ".ngrok.io"; ".ngrok.app"; ".webhook.site"]%py.

(** The text before the first occurrence and the text after it. *)
Fixpoint around (p s : str) : option (str * str) :=
  if startswith s p then Some ([], drop (length p) s)
  else match s with [] => None | c :: s => (λ x, (c :: x.1, x.2)) <$> around p s end.

Fixpoint take_while (f : N → bool) (s : str) : str := match s with c :: s => if f c then c :: take_while f s else [] | [] => [] end.
Definition not_in (stop : str) (c : N) : bool := negb (existsb (N.eqb c) stop).
Definition LEFT_STOP : str := " \x22'`("%py.
Definition RIGHT_STOP : str := " \x22'`)/?"%py.

Fixpoint domain_with (tlds : list str) (low : str) : option str :=
  match tlds with
  | [] => None
  | tld :: tlds =>
      match around tld low with
      | Some (before, after) => Some (rev (take_while (not_in LEFT_STOP) (rev before)) ++ tld ++ take_while (not_in RIGHT_STOP) after)
      | None => domain_with tlds low
      end
  end.
Definition _extract_domain (url_or_cmd : str) : option str := domain_with _EXFIL_TLDS (lower url_or_cmd).

(** ** The bundle *)

(** What the bundle reads of an engagement dict. *)
Record shared := mk_shared { sh_source_ip : option str; sh_observed : gmap str pyval; sh_actions : list (option str) }.

(** The objects an engagement asks for, as functions of the clock, with the calls each makes. *)
Definition attack (m : MitreMapping) : bool := startswith (technique m) "T"%py.
Definition requests (include_attack_patterns : bool) (e : shared) : list (nat * (nat → sdo)) :=
  (match sh_source_ip e with Some ((_ :: _) as ip) => [(3, _ipv4_indicator ip "attacker"%py)] | _ => [] end)
  ++ omap (λ cmd, match _extract_domain cmd with Some ((_ :: _) as d) => Some (3, _domain_indicator d) | _ => None end)
       (texts (default VNone (sh_observed e !! "dns_exfil_commands"%py)))
  ++ (if include_attack_patterns then
        flat_map (λ a, match a with
                       | Some ((_ :: _) as name) => map (λ m, (2, _attack_pattern (technique m) (technique_name m))) (List.filter attack (all_techniques_for name))
                       | _ => []
                       end) (sh_actions e)
      else []).

(** The objects, the ids seen so far (the identity's is not among them), and the calls of the clock. *)
Record building := mk_building { b_objects : list sdo; b_seen : list str; b_calls : nat }.

Definition add (b : building) (r : nat * (nat → sdo)) : building :=
  let obj := r.2 (b_calls b) in
  let calls := b_calls b + r.1 in
  if decide (id_of obj ∈ b_seen b) then mk_building (b_objects b) (b_seen b) calls
  else mk_building (b_objects b ++ [obj]) (id_of obj :: b_seen b) calls.

(** Each engagement reads the clock twice before its objects. *)
Definition add_engagement (include : bool) (b : building) (e : shared) : building :=
  foldl add (mk_building (b_objects b) (b_seen b) (b_calls b + 2)) (requests include e).

Definition bundle_objects (include : bool) (es : list shared) : list sdo :=
  b_objects (foldl (add_engagement include) (mk_building [_identity_object 0] [] 2) es).

Definition bundle_from_engagements (uuid4 : str) (include : bool) (es : list shared) : pyval := VDict
  [("type", VStr "bundle"); ("id", VStr (_stable_id "bundle" uuid4)); ("objects", VList (map VDict (bundle_objects include es)))]%py.

Definition write_bundle (uuid4 : str) (es : list shared) : bytes := encode (dumps_indent (bundle_from_engagements uuid4 true es)).
End objects.

(** The dicts of [audit.load_engagements] keep their actions under the logs. *)
Definition of_engagement (e : engagement) : shared :=
  mk_shared (Some (e_ip e)) (e_observed e) [].

Example stable_id_example : _stable_id "identity"%py "plenith-platform"%py = "identity--683848b5-e61d-59cd-a82c-16bacee73673"%py.
Proof. vm_compute. reflexivity. Qed.

(** ** The ids of a bundle *)

Lemma id_of_head c type_ id n rest : id_of (head_of c type_ id n ++ rest) = id.
Proof. done. Qed.

Definition pattern_id (m : MitreMapping) : str := _stable_id "attack-pattern"%py ("mitre:"%py ++ technique m).
Definition indicator_id (kind key : str) : str := _stable_id "indicator"%py (kind ++ ":"%py ++ key).
Definition suspicious (cmd : str) : option str := match _extract_domain cmd with Some ((_ :: _) as d) => Some d | _ => None end.

(** What an engagement contributes: its address, the suspicious domains of its commands, the techniques of its actions. *)
Definition wanted (include : bool) (e : shared) : list str :=
  (match sh_source_ip e with Some ((_ :: _) as ip) => [indicator_id "ipv4"%py ip] | _ => [] end)
  ++ map (indicator_id "domain"%py) (omap suspicious (texts (default VNone (sh_observed e !! "dns_exfil_commands"%py))))
  ++ (if include then
        flat_map (λ a, match a with Some ((_ :: _) as name) => map pattern_id (List.filter attack (all_techniques_for name)) | _ => [] end) (sh_actions e)
      else []).

Definition asks (r : nat * (nat → sdo)) (i : str) : Prop := ∀ n, id_of (r.2 n) = i.

Lemma Forall2_flat_map {A B C} (R : B → C → Prop) (f : A → list B) (g : A → list C) l :
  (∀ a, Forall2 R (f a) (g a)) → Forall2 R (flat_map f l) (flat_map g l).
Proof. intros H. induction l as [|a l IH]; [constructor|]. cbn [flat_map]. by apply Forall2_app. Qed.

Lemma requests_ask c include e : Forall2 asks (requests c include e) (wanted include e).
Proof.
  unfold requests, wanted. apply Forall2_app; [|apply Forall2_app].
  - destruct (sh_source_ip e) as [[|x ip]|]; repeat constructor.
  - induction (texts _) as [|cmd l IH]; [constructor|]. cbn [omap list_omap]. unfold suspicious at 1.
    destruct (_extract_domain cmd) as [[|x d]|]; [exact IH| |exact IH]. constructor; [done|exact IH].
  - destruct include; [|constructor]. apply Forall2_flat_map. intros [[|x name]|]; try constructor.
    apply Forall2_fmap_l, Forall2_fmap_r. apply Forall_Forall2_diag, Forall_true. done.
Qed.

Lemma dedupe_app seen l l' : dedupe seen (l ++ l') = dedupe seen l ++ dedupe (rev (dedupe seen l) ++ seen) l'.
Proof.
  revert seen. induction l as [|t l IH]; intros seen; [done|]. cbn [dedupe app]. case_decide as E; [apply IH|].
  rewrite IH. cbn [rev app]. by rewrite <- app_assoc.
Qed.

(** The state of the loop after the requests with the ids [l]. *)
Definition built (c : clock) (b : building) (l : list str) : Prop :=
  map id_of (b_objects b) = id_of (_identity_object c 0) :: dedupe [] l ∧ b_seen b = rev (dedupe [] l).

Lemma built_add c b l r i : built c b l → asks r i → built c (add b r) (l ++ [i]).
Proof.
  intros [Ho Hs] Hr. unfold built, add. rewrite (Hr (b_calls b)), dedupe_app, app_nil_r, Hs. cbn [dedupe].
  destruct (decide (i ∈ rev (dedupe [] l))); cbn [b_objects b_seen]; [by rewrite app_nil_r|].
  rewrite map_app, Ho. cbn [map]. rewrite (Hr (b_calls b)), rev_app_distr. done.
Qed.

Lemma built_requests c rs ids b l : Forall2 asks rs ids → built c b l → built c (foldl add b rs) (l ++ ids).
Proof.
  intros Hr. revert b l. induction Hr as [|r i rs ids Hri _ IH]; intros b l Hb; [by rewrite app_nil_r|].
  cbn [foldl]. rewrite cons_middle, app_assoc. apply IH. by apply built_add.
Qed.

Lemma built_engagements c include es b l : built c b l → built c (foldl (add_engagement c include) b es) (l ++ flat_map (wanted include) es).
Proof.
  revert b l. induction es as [|e es IH]; intros b l Hb; cbn [foldl flat_map]; [by rewrite app_nil_r|].
  rewrite app_assoc. apply IH. unfold add_engagement. apply built_requests; [apply requests_ask|exact Hb].
Qed.

Lemma dedupe_elem seen l x : x ∈ dedupe seen l ↔ x ∈ l ∧ x ∉ seen.
Proof.
  revert seen. induction l as [|t l IH]; intros seen; [cbn; rewrite !elem_of_nil; tauto|]. cbn [dedupe].
  case_decide as E; rewrite ?elem_of_cons, IH; [naive_solver|]. rewrite elem_of_cons. destruct (decide (x = t)) as [->|]; naive_solver.
Qed.

Lemma dedupe_NoDup seen l : NoDup (dedupe seen l).
Proof.
  revert seen. induction l as [|t l IH]; intros seen; [constructor|]. cbn [dedupe]. case_decide; [done|].
  constructor; [|done]. rewrite dedupe_elem. set_solver.
Qed.

Lemma wanted_not_identity include e : id_of (_identity_object (λ _, []) 0) ∉ wanted include e.
Proof.
  change (id_of _) with (_stable_id "identity"%py "plenith-platform"%py). unfold wanted. rewrite !elem_of_app. intros [H|[H|H]].
  - destruct (sh_source_ip e) as [[|x ip]|]; [by apply elem_of_nil in H| |by apply elem_of_nil in H].
    apply list_elem_of_singleton in H. by apply (f_equal (λ s, nth 1 s 0%N)) in H.
  - apply list_elem_of_fmap in H as (d & H & _). by apply (f_equal (λ s, nth 1 s 0%N)) in H.
  - destruct include; [|by apply elem_of_nil in H]. apply list_elem_of_In, in_flat_map in H as (a & _ & H%list_elem_of_In).
    destruct a as [[|x name]|]; [by apply elem_of_nil in H| |by apply elem_of_nil in H].
    apply list_elem_of_fmap in H as (m & H & _). by apply (f_equal (λ s, nth 1 s 0%N)) in H.
Qed.

(** ** The domains *)

Lemma startswith_drop s p : startswith s p = true → s = p ++ drop (length p) s.
Proof. intros [r ->]%startswith_spec. by rewrite drop_app_length. Qed.

Lemma around_split p s a b : around p s = Some (a, b) → s = a ++ p ++ b.
Proof.
  revert a. induction s as [|c s IH]; intros a; cbn [around]; destruct (startswith _ p) eqn:E; try done.
  - intros [= <- <-]. by apply startswith_drop.
  - intros [= <- <-]. by apply startswith_drop.
  - destruct (around p s) as [[a' b']|]; [|done]. intros [= <- <-]. cbn [app fst snd]. by rewrite <- (IH a').
Qed.

Lemma around_complete p s : contains s p = true → is_Some (around p s).
Proof.
  induction s as [|c s IH]; cbn [around contains]; destruct (startswith _ p); try done.
  cbn. intros [[a b] ->]%IH. by eexists.
Qed.

Lemma take_while_split f s : ∃ r, s = take_while f s ++ r.
Proof. induction s as [|c s [r IH]]; [by exists []|]. cbn. destruct (f c); [exists r; cbn; by rewrite <- IH|by eexists]. Qed.

Lemma take_while_Forall f s : Forall (λ c, f c = true) (take_while f s).
Proof. induction s as [|c s IH]; [constructor|]. cbn. destruct (f c) eqn:E; by constructor. Qed.

Lemma contains_middle a p b : contains (a ++ p ++ b) p = true.
Proof.
  induction a as [|c a IH]; cbn [app].
  - assert (Hs : startswith (p ++ b) p = true) by (apply startswith_spec; by exists b). destruct (p ++ b); cbn [contains]; by rewrite Hs.
  - cbn [contains]. by rewrite IH, orb_true_r.
Qed.

(** A run of the lower-cased command with one of the listed suffixes in it, and no blank, quote or parenthesis. *)
Lemma domain_with_spec tlds low d : Forall (Forall (λ c, not_in RIGHT_STOP c = true)) tlds → domain_with tlds low = Some d →
  (∃ a b, low = a ++ d ++ b) ∧ (∃ tld, tld ∈ tlds ∧ contains d tld = true) ∧ Forall (λ c, not_in " \x22'`"%py c = true) d.
Proof.
  intros Ht. induction Ht as [|tld tlds Hc _ IH]; [done|]. cbn [domain_with]. destruct (around tld low) as [[before after]|] eqn:E.
  - intros [= <-]. apply around_split in E. split; [|split].
    + destruct (take_while_split (not_in LEFT_STOP) (rev before)) as [r Hr]. destruct (take_while_split (not_in RIGHT_STOP) after) as [r' Hr'].
      exists (rev r), r'. rewrite E. apply (f_equal (@rev N)) in Hr. rewrite rev_involutive, rev_app_distr in Hr. rewrite Hr at 1. rewrite Hr' at 1.
      by rewrite <- !app_assoc.
    + exists tld. split; [by left|]. apply contains_middle.
    + rewrite !Forall_app. split; [|split].
      * apply Forall_rev. eapply Forall_impl; [apply take_while_Forall|]. intros c. unfold not_in. cbn. rewrite !negb_true_iff, !orb_false_iff. tauto.
      * eapply Forall_impl; [exact Hc|]. intros c. unfold not_in. cbn. rewrite !negb_true_iff, !orb_false_iff. tauto.
      * eapply Forall_impl; [apply take_while_Forall|]. intros c. unfold not_in. cbn. rewrite !negb_true_iff, !orb_false_iff. tauto.
  - intros Hd. destruct (IH Hd) as (H1 & (t & Ht & Hct) & H3). split; [done|]. split; [|done]. exists t. split; [by right|done].
Qed.

Lemma domain_with_complete tlds low tld : tld ∈ tlds → contains low tld = true → is_Some (domain_with tlds low).
Proof.
  intros Hin Hc. induction tlds as [|t tlds IH]; [by apply elem_of_nil in Hin|]. cbn [domain_with].
  destruct (around t low) as [[before after]|] eqn:E; [by eexists|].
  apply elem_of_cons in Hin as [->|Hin]; [|by apply IH]. apply around_complete in Hc as [x Hx]. by rewrite Hx in E.
Qed.

Lemma tlds_plain : Forall (Forall (λ c, not_in RIGHT_STOP c = true)) _EXFIL_TLDS.
Proof. repeat constructor. Qed.


(** The engagements that the audit tool loads carry no actions of their own, so no technique reaches the bundle. *)
Lemma loaded_has_no_techniques e i : i ∈ wanted true (of_engagement e) → startswith i "indicator--"%py = true.
Proof.
  unfold wanted, of_engagement. cbn [sh_source_ip sh_observed sh_actions flat_map]. rewrite app_nil_r, elem_of_app.
  assert (Hi : ∀ kind key, startswith (indicator_id kind key) "indicator--"%py = true).
  { intros kind key. apply startswith_spec. unfold indicator_id, _stable_id. eexists. rewrite app_assoc. reflexivity. }
  intros [H|H].
  - destruct (e_ip e); [by apply elem_of_nil in H|]. by apply list_elem_of_singleton in H as ->.
  - by apply list_elem_of_fmap in H as (d & -> & _).
Qed.

(** The walk to the left stops at blanks and quotes, not at slashes: the domain of a URL keeps its scheme. *)
Example domain_keeps_scheme : _extract_domain "curl http://x.oast.pro/a"%py = Some "http://x.oast.pro"%py.
Proof. vm_compute. reflexivity. Qed.
