(* ===== verification/MfaProviders.v ===== *)
(** plenith/connectors/mfa_providers.py: the clients of second-factor services, and what they answer when the
    service or the network does not. *)

From S2P Require Import Prelude PyStr Hash Json Push AuditViews Http.

#[local] Open Scope exc_scope.

(** The approval states of the contract. *)
Definition approved : pyval := VStr "approved"%py.
Definition denied : pyval := VStr "denied"%py.
Definition pending : pyval := VStr "pending"%py.
Definition expired : pyval := VStr "expired"%py.

Section clients.
Context `{Unicode} {S : Type} (send : hreq → S → exc hresp * S).

(** ** Duo *)

Record DuoAuthClient := mk_Duo { host : str; integration_key : str; secret_key : str }.

Section duo.
Context (c : DuoAuthClient) (date : str) (query_param : str → str → str).   (* email.utils.formatdate; str(httpx.QueryParams({k: v})) *)

Definition canon_params (params : list (str * str)) : str := join "&"%py (map (λ kv, kv.1 ++ "="%py ++ query_param kv.1 kv.2) (sort_items params)).
Definition method_name (m : http_method) : str := match m with GET => "GET" | POST => "POST" end%py.

Definition _sign (m : http_method) (path : str) (params : list (str * str)) : exc (list (str * str)) :=
  let canonical := join [NEWLINE] [date; method_name m; lower (host c); path; canon_params params] in
  let sig := hexdigest (hmac sha1 (encode (secret_key c)) (encode canonical)) in
  let plain := integration_key c ++ ":"%py ++ sig in
  if forallb (λ x, x <? 128)%N plain then Ok [("Date", date); ("Authorization", "Basic " ++ b64 false plain)]%py
  else Raise (ValueError "ascii"%py).

Definition _api_call (m : http_method) (path : str) (params : list (str * str)) (s : S) : exc pyval * S :=
  match _sign m path params with
  | Raise e => (Raise e, s)
  | Ok headers =>
      let req := mk_hreq m ("https://"%py ++ host c ++ path) headers None (match m with POST => Form params | GET => Query params end) in
      let '(v, s) := or_else (VDict []) (fetch send req (λ r, let* j := r_json r in get_key "response"%py (VDict []) j) s) in (Ok v, s)
  end.

Definition after (r : exc pyval * S) (f : pyval → exc pyval) : exc pyval * S := ((let* v := r.1 in f v), r.2).

Definition duo_request_push (username ip : str) (s : S) : exc pyval * S :=
  after (_api_call POST "/auth/v2/auth"%py
           [("username", username); ("factor", "push"); ("ipaddr", ip); ("async", "1"); ("type", "Plenith step-up"); ("display_username", username)]%py s)
    (get_ "txid"%py).

Definition duo_poll (token : str) (s : S) : exc pyval * S :=
  after (_api_call GET "/auth/v2/auth_status"%py [("txid"%py, token)] s)
    (λ result, let* r := get_ "result"%py result in
       Ok (if is_text "allow"%py r then approved else if is_text "deny"%py r then denied else if is_text "waiting"%py r then pending else expired)).

Definition duo_verify_totp (username code : str) (s : S) : exc pyval * S :=
  after (_api_call POST "/auth/v2/auth"%py [("username", username); ("factor", "passcode"); ("passcode", code)]%py s)
    (λ result, let* r := get_ "result"%py result in Ok (VBool (is_text "allow"%py r))).
End duo.

(** ** Okta *)

Record OktaVerifyClient := mk_Okta { org_url : str; api_token : str }.

Section okta.
Context (c : OktaVerifyClient).

Definition _headers : list (str * str) :=
  [("Authorization", "SSWS " ++ api_token c); ("Content-Type", "application/json"); ("Accept", "application/json")]%py.
Definition okta_get (path : str) : hreq := mk_hreq GET (org_url c ++ path) _headers None NoPayload.

Definition _resolve_user (login : str) (s : S) : pyval * S :=
  or_else VNone (fetch send (okta_get ("/api/v1/users/"%py ++ login)) (λ r, let* j := r_json r in get_ "id"%py j) s).

(** [r.json()] walked as a list: a string gives its characters and a dict its keys, which have no [get]. *)
Definition items_of (v : pyval) : exc (list pyval) :=
  match v with
  | VList l => Ok l
  | VStr s => Ok (map (λ c, VStr [c]) s)
  | VDict d => Ok (map (λ kv, VStr kv.1) d)
  | _ => Raise (TypeError "not iterable"%py)
  end.

Fixpoint first_factor (kind : str) (l : list pyval) : exc (option pyval) :=
  match l with
  | [] => Ok None
  | f :: l => let* t := get_ "factorType"%py f in if is_text kind t then Ok (Some f) else first_factor kind l
  end.

Definition factors_of (user_id : pyval) : hreq := okta_get ("/api/v1/users/"%py ++ show_value user_id ++ "/factors"%py).

Definition _find_push_factor (user_id : pyval) (s : S) : pyval * S :=
  or_else VNone (fetch send (factors_of user_id) (λ r, let* j := r_json r in let* l := items_of j in let* f := first_factor "push"%py l in
                                             match f with Some f => get_ "id"%py f | None => Ok VNone end) s).

Definition verify_url (user_id factor_id : pyval) : str :=
  org_url c ++ "/api/v1/users/"%py ++ show_value user_id ++ "/factors/"%py ++ show_value factor_id ++ "/verify"%py.

(** The pushes in flight: the poll address of each token. *)
Definition in_flight := gmap str pyval.

Definition okta_token (user_id factor_id : pyval) : str :=
  rstrip_char 61 (b64 true (encode (show_value user_id ++ "|"%py ++ show_value factor_id))).

Definition okta_request_push (username ip : str) (st : in_flight) (s : S) : pyval * in_flight * S :=
  let '(user_id, s) := _resolve_user username s in
  if negb (truthy user_id) then (VNone, st, s) else
  let '(factor_id, s) := _find_push_factor user_id s in
  if negb (truthy factor_id) then (VNone, st, s) else
  let '(poll_url, s) := or_else VNone (fetch send (mk_hreq POST (verify_url user_id factor_id) _headers None (JsonBody (VDict [])))
      (λ r, let* j := r_json r in let* a := get_key "_links"%py (VDict []) j in let* b := get_key "poll"%py (VDict []) a in get_ "href"%py b) s) in
  if negb (truthy poll_url) then (VNone, st, s)
  else let token := okta_token user_id factor_id in (VStr token, <[token := poll_url]> st, s).

Definition okta_poll (token : str) (st : in_flight) (s : S) : pyval * S :=
  match st !! token with
  | Some (VStr url) =>
      or_else expired (fetch send (mk_hreq GET url _headers None NoPayload)
        (λ r, let* j := r_json r in let* result := get_ "factorResult"%py j in
           Ok (if is_text "SUCCESS"%py result then approved else if is_text "REJECTED"%py result then denied
               else if is_text "TIMEOUT"%py result then expired else pending)) s)
  | _ => (expired, s)   (* no push, or an address that is not a string, which the client refuses *)
  end.

Definition okta_verify_totp (username code : str) (s : S) : pyval * S :=
  let '(user_id, s) := _resolve_user username s in
  if negb (truthy user_id) then (VBool false, s) else
  let '(factor, s) := fetch send (factors_of user_id) (λ r, let* j := r_json r in let* l := items_of j in first_factor "token:software:totp"%py l) s in
  match (let* f := factor in match f with Some (VDict d) => of_option (KeyError "id"%py) (assoc_get "id"%py d) | Some _ => Raise AttributeError | None => Ok VNone end) with
  | Raise _ => (VBool false, s)
  | Ok factor_id =>
      if negb (truthy factor_id) then (VBool false, s) else
      let '(r, s) := send (mk_hreq POST (verify_url user_id factor_id) _headers None (JsonBody (VDict [("passCode"%py, VStr code)]))) s in
      or_else (VBool false) ((let* r := r in
        if (status_code r =? 200)%Z then let* j := r_json r in let* v := get_ "factorResult"%py j in Ok (VBool (is_text "SUCCESS"%py v)) else Ok (VBool false)), s)
  end.
End okta.

(** ** Twilio *)

Record TwilioVerifyClient := mk_Twilio { service_sid : str; account_sid : str; auth_token : str }.

Section twilio.
Context (c : TwilioVerifyClient).

Definition _base : str := "https://verify.twilio.com/v2"%py.
Definition twilio_req (m : http_method) (path : str) (p : payload) : hreq :=
  mk_hreq m (_base ++ "/Services/"%py ++ service_sid c ++ path) [] (Some (account_sid c, auth_token c)) p.

Definition twilio_request_push (username ip : str) (s : S) : pyval * S :=
  or_else VNone (fetch send (twilio_req POST "/Verifications"%py (Form [("Channel", "push"); ("To", username); ("Details", "Plenith step-up from " ++ ip)]%py))
    (λ r, let* j := r_json r in get_ "sid"%py j) s).

Definition twilio_poll (token : str) (s : S) : pyval * S :=
  or_else expired (fetch send (twilio_req GET ("/Verifications/"%py ++ token) NoPayload)
    (λ r, let* j := r_json r in let* status := get_ "status"%py j in
       Ok (if is_text "approved"%py status then approved else if is_text "denied"%py status then denied else if is_text "pending"%py status then pending else expired)) s).

Definition twilio_verify_totp (username code : str) (s : S) : pyval * S :=
  or_else (VBool false) (fetch send (twilio_req POST "/VerificationCheck"%py (Form [("To", username); ("Code", code)]%py))
    (λ r, let* j := r_json r in let* status := get_ "status"%py j in Ok (VBool (is_text "approved"%py status))) s).
End twilio.

(** ** The push service of this repository *)

Record PushSimClient := mk_PushSim { base_url : str }.

Section push_sim.
Context (c : PushSimClient).

Definition sim_request_push (username ip : str) (s : S) : pyval * S :=
  or_else VNone (fetch send (mk_hreq POST (base_url c ++ "/push/request"%py) [] None (JsonBody (VDict [("username", VStr username); ("ip", VStr ip)]%py)))
    (λ r, let* j := r_json r in get_ "token"%py j) s).

Definition sim_poll (token : str) (s : S) : pyval * S :=
  let '(r, s) := send (mk_hreq GET (base_url c ++ "/push/poll/"%py ++ token) [] None NoPayload) s in
  or_else expired ((let* r := r in
    if (status_code r =? 404)%Z then Ok expired
    else let* r := raise_for_status r in let* j := r_json r in get_key "status"%py pending j), s).

Definition sim_verify_totp (username code : str) (s : S) : pyval * S := (VBool false, s).
End push_sim.
End clients.

(** ** [build_from_config] *)

Inductive provider := Duo (c : DuoAuthClient) | Okta (c : OktaVerifyClient) | Twilio (c : TwilioVerifyClient) | PushSim (c : PushSimClient).

(** The configured block: the provider's name and, for each section, its string arguments. *)
Record mfa_block := mk_mfa_block { m_provider : option str; m_sections : list (str * list (str * str)) }.

(** The keyword arguments of a client; one it does not have raises TypeError. *)
Definition kwargs (allowed : list str) (args : list (str * str)) : bool := forallb (λ kv, bool_decide (kv.1 ∈ "name"%py :: "timeout_seconds"%py :: allowed)) args.
Definition arg (k dflt : str) (args : list (str * str)) : str := default dflt (assoc_get k args).

Definition build_from_config (cfg : option mfa_block) : option provider :=
  match cfg with
  | None => None
  | Some b =>
      let name := lower (default [] (m_provider b)) in
      let args := default [] (assoc_get (replace_char 45 95 name) (m_sections b)) in
      if decide (name = "duo"%py) then
        if kwargs ["host"; "integration_key"; "secret_key"]%py args
        then Some (Duo (mk_Duo (arg "host"%py [] args) (arg "integration_key"%py [] args) (arg "secret_key"%py [] args))) else None
      else if decide (name = "okta"%py) then
        if kwargs ["org_url"; "api_token"]%py args then Some (Okta (mk_Okta (arg "org_url"%py [] args) (arg "api_token"%py [] args))) else None
      else if decide (name = "twilio"%py ∨ name = "authy"%py) then
        if kwargs ["service_sid"; "account_sid"; "auth_token"]%py args
        then Some (Twilio (mk_Twilio (arg "service_sid"%py [] args) (arg "account_sid"%py [] args) (arg "auth_token"%py [] args))) else None
      else if decide (name = "push-sim"%py) then
        if kwargs ["base_url"]%py args then Some (PushSim (mk_PushSim (arg "base_url"%py "http://push-sim:8080"%py args))) else None
      else None
  end.

(** ** No approval without the service's word *)

Section safety.
Context `{Unicode} {S : Type} (send : hreq → S → exc hresp * S).

(** [poll] answers approved only when the service said so, and expired when it said nothing. *)
Definition guarded (poll : S → pyval * S) (req : hreq) (k word : str) : Prop :=
  (∀ s, (poll s).1 = approved → says send req s k word) ∧ (∀ s, silent send req s → (poll s).1 = expired).

(** [verify] answers True only when the service said so, and False when it said nothing. *)
Definition vouched (verify : S → pyval * S) (req : hreq) (k word : str) : Prop :=
  (∀ s, (verify s).1 = VBool true → says send req s k word) ∧ (∀ s, silent send req s → (verify s).1 = VBool false).

(** A client that reads one field of the answer, with [bad] when there is none. *)
Lemma reads_guarded req (f : pyval → pyval) bad good k w : bad ≠ good → (∀ v, f v = good → v = VStr w) →
  (∀ s, (or_else bad (fetch send req (λ r, let* j := r_json r in let* v := get_ k j in Ok (f v)) s)).1 = good → says send req s k w) ∧
  (∀ s, silent send req s → (or_else bad (fetch send req (λ r, let* j := r_json r in let* v := get_ k j in Ok (f v)) s)).1 = bad).
Proof.
  intros Hne Hf. split.
  - intros s E. destruct (or_else bad _) as [a s'] eqn:Eo. cbn in E. subst a. apply or_else_inv in Eo; [|done].
    by eapply (fetch_says send _ _ f _ _ _ _ _ (λ a, a = good)).
  - intros s Hs. destruct (fetch_silent send req (λ j, let* v := get_ k j in Ok (f v)) s Hs) as (e & s' & ->). done.
Qed.

Ltac read_word := intros v; cbn beta; repeat case_match; try done; intros _; by apply is_text_true.

Lemma twilio_guarded c token : guarded (twilio_poll send c token) (twilio_req c GET ("/Verifications/"%py ++ token) NoPayload) "status"%py "approved"%py.
Proof. apply reads_guarded; [done|read_word]. Qed.

Lemma twilio_vouched c user code : vouched (twilio_verify_totp send c user code)
  (twilio_req c POST "/VerificationCheck"%py (Form [("To", user); ("Code", code)]%py)) "status"%py "approved"%py.
Proof.
  apply (reads_guarded _ (λ status, VBool (is_text "approved"%py status))); [done|]. intros v [= E]. by apply is_text_true.
Qed.

Lemma okta_guarded c st token url : st !! token = Some (VStr url) →
  guarded (okta_poll send c token st) (mk_hreq GET url (_headers c) None NoPayload) "factorResult"%py "SUCCESS"%py.
Proof.
  intros Hst. unfold guarded, okta_poll. rewrite Hst.
  refine (reads_guarded _ (λ result, if is_text "SUCCESS"%py result then approved else if is_text "REJECTED"%py result then denied
               else if is_text "TIMEOUT"%py result then expired else pending) expired approved _ _ _ _); [done|read_word].
Qed.

(** The last request of the verification, in the state the earlier ones left. *)
Lemma okta_vouched c user code s : (okta_verify_totp send c user code s).1 = VBool true →
  ∃ user_id factor_id s', says send (mk_hreq POST (verify_url c user_id factor_id) (_headers c) None (JsonBody (VDict [("passCode"%py, VStr code)]))) s' "factorResult"%py "SUCCESS"%py.
Proof.
  unfold okta_verify_totp. destruct (_resolve_user _ _ _ _) as [user_id s1]. destruct (negb (truthy user_id)); [done|].
  destruct (fetch _ _ _ _) as [f s2]. destruct (exc_bind f _) as [factor_id|e]; [|done]. destruct (negb (truthy factor_id)); [done|].
  destruct (send _ s2) as [r s3] eqn:Es. intros E. exists user_id, factor_id, s2. unfold says. rewrite Es. cbn [fst].
  destruct (or_else _ _) as [a s4] eqn:Eo. cbn in E. subst a. apply or_else_inv in Eo; [|done]. injection Eo as Eo _.
  apply exc_bind_ok in Eo as (resp & -> & Eo). exists resp. destruct (status_code resp =? 200)%Z eqn:Ec; [|done].
  apply exc_bind_ok in Eo as (j & Hj & (v & Hv & Eo%Ok_inj)%exc_bind_ok). injection Eo as Eo. apply is_text_true in Eo as ->.
  apply get_text in Hv as (d & -> & Hd). exists d. split; [done|]. split; [|done]. apply Z.eqb_eq in Ec. unfold is_success. by rewrite Ec.
Qed.

(** Duo wraps its answer in a response object. *)
Definition duo_says (req : hreq) (s : S) (w : str) : Prop :=
  ∃ r d d', (send req s).1 = Ok r ∧ is_success r = true ∧ r_json r = Ok (VDict d) ∧ assoc_get "response"%py d = Some (VDict d') ∧
            assoc_get "result"%py d' = Some (VStr w).

Lemma duo_call_says c date q m path ps s v s' w :
  _api_call send c date q m path ps s = (Ok v, s') → get_ "result"%py v = Ok (VStr w) →
  ∃ headers, _sign c date q m path ps = Ok headers ∧
    duo_says (mk_hreq m ("https://"%py ++ host c ++ path) headers None (match m with POST => Form ps | GET => Query ps end)) s w.
Proof.
  unfold _api_call. destruct (_sign c date q m path ps) as [headers|e] eqn:Eh; [|done].
  destruct (or_else _ _) as [a s1] eqn:Eo. intros [= -> ->] Hv. exists headers. split; [done|].
  apply get_text in Hv as (d' & -> & Hd'). apply or_else_inv in Eo; [|by intros [= ->]].
  apply fetch_inv in Eo as (r & Hr & Hs & Hread). apply exc_bind_ok in Hread as (j & Hj & Hj').
  apply get_key_inv in Hj' as (d & -> & Ed). exists r, d, d'. destruct (assoc_get "response"%py d) as [x|] eqn:Er; cbn in Ed; [by subst x|].
  by injection Ed as ->.
Qed.

Lemma duo_guarded c date q token s : (duo_poll send c date q token s).1 = Ok approved →
  ∃ headers, _sign c date q GET "/auth/v2/auth_status"%py [("txid"%py, token)] = Ok headers ∧
    duo_says (mk_hreq GET ("https://"%py ++ host c ++ "/auth/v2/auth_status"%py) headers None (Query [("txid"%py, token)])) s "allow"%py.
Proof.
  unfold duo_poll, after. destruct (_api_call _ _ _ _ _ _ _ _) as [[v|e] s'] eqn:Ea; [|done]. cbn [fst exc_bind].
  intros (r & Hr & E%Ok_inj)%exc_bind_ok. assert (r = VStr "allow"%py) as ->.
  { revert E. destruct (is_text "allow"%py r) eqn:Et; [by intros _; apply is_text_true|]. by repeat case_match. }
  by apply (duo_call_says _ _ _ GET _ _ _ _ _ _ Ea).
Qed.
End safety.

(** ** The push service behind the client *)

Section push_service.
Context (cfg : config) (json_seconds : time → pyval).

Definition view_json (v : view) : pyval := VDict
  [("token", VStr (v_token v)); ("username", VStr (v_username v)); ("ip", VStr (v_ip v)); ("status", VStr (v_status v));
   ("age_seconds", json_seconds (age v)); ("expires_in", json_seconds (expires_in v))]%py.

(** What the handlers of push_sim.py write on the wire. *)
Definition http_of (m : http_method) (r : response) : hresp :=
  match r with
  | Created token expires s => mk_hresp 201 (Ok (VDict [("token", VStr token); ("expires_at", json_seconds expires); ("status", VStr s)]%py))
  | NoContent => mk_hresp 204 (Raise JSONDecodeError)
  | BadRequest => mk_hresp 400 (Ok (VDict [("error", VStr "bad JSON body")]%py))
  | NotFound => mk_hresp 404 (Ok (VDict [("error", VStr match m with GET => "no such token" | POST => "no such token, or already final" end)]%py))
  | Poll v => mk_hresp 200 (Ok (view_json v))
  | Listing vs => mk_hresp 200 (Ok (VDict [("pushes", VList (map view_json vs))]%py))
  | Healthy => mk_hresp 200 (Ok (VDict [("ok", VBool true)]%py))
  | NoRoute => mk_hresp 404 (Raise JSONDecodeError)
  end.

Definition body_of (p : payload) : body :=
  let text k d := match assoc_get k d with Some (VStr s) => Some s | _ => None end in
  match p with JsonBody (VDict d) => Fields (text "username"%py d) (text "ip"%py d) None | _ => NoBody end.

(** The service at [base], at a moment, with the next token it would draw. *)
Definition push_service (base : str) (now : time) (fresh : str) (req : hreq) (t : pushes) : exc hresp * pushes :=
  let path := drop (length base) (h_url req) in
  match h_method req with
  | GET => (Ok (http_of GET (do_GET path now t)), t)
  | POST => let '(r, t) := do_POST cfg path (body_of (h_payload req)) fresh now t in (Ok (http_of POST r), t)
  end.

Lemma sim_poll_approved base now fresh token t :
  (sim_poll (push_service base now fresh) (mk_PushSim base) token t).1 = approved →
  ∃ v, do_GET ("/push/poll/"%py ++ token) now t = Poll v ∧ v_status v = "approved"%py.
Proof.
  unfold sim_poll, push_service. cbn [h_method h_url base_url]. rewrite drop_app_length.
  destruct (do_GET _ now t) as [| | | |v| | |] eqn:E; try done; cbn.
  - unfold do_GET in E. by repeat case_match.
  - intros [= Hv]. by exists v.
Qed.
End push_service.


(** The canonical request names each parameter twice: the query parameter already holds the name. *)
Example duo_names_twice (q : str → str → str) : (∀ k v, q k v = k ++ "="%py ++ v) → canon_params q [("txid", "t1")]%py = "txid=txid=t1"%py.
Proof. intros Hq. unfold canon_params. cbn. by rewrite Hq. Qed.

