(* ===== verification/Compliance.v ===== *)
(** plenith/compliance (controls.py, evidence.py, report.py): the table of controls, the evidence harvested from
    the honeypot's files, and the attestation rendered as Markdown, HTML and JSON.

    The files are given as the directory listings the harvester walks, each file with what reading and parsing it gives;
    the clock is an argument. *)

From Stdlib Require Import SpecFloat.
From S2P Require Import Prelude PyStr Regex Float Json Sanitize Aggregations AuditViews Backup Http Stix.

#[local] Open Scope exc_scope.

(** ** controls.py *)

Definition EVIDENCE_ENGAGEMENT_COUNT : str := "engagement_count"%py.
Definition EVIDENCE_ALERTS_BY_SEVERITY : str := "alerts_by_severity"%py.
Definition EVIDENCE_ALERTS_BY_ACTION : str := "alerts_by_action"%py.
Definition EVIDENCE_MITRE_COVERAGE : str := "mitre_attck_coverage"%py.
Definition EVIDENCE_IOC_EXPORT_COUNT : str := "ioc_exports"%py.
Definition EVIDENCE_ROTATION_HISTORY : str := "content_rotation_epochs"%py.
Definition EVIDENCE_MFA_DECISIONS : str := "mfa_decisions"%py.
Definition EVIDENCE_ISOLATION_PROBES : str := "isolation_probe_history"%py.
Definition EVIDENCE_CONNECTORS : str := "siem_connectors_configured"%py.
Definition EVIDENCE_POLICY_ENGINE : str := "active_policy_engine"%py.
Definition EVIDENCE_OT_PROBES : str := "ot_decoy_ioc_count"%py.
Definition EVIDENCE_COUNTER_AI : str := "counter_ai_detections"%py.

Record ControlMapping := mk_control { framework : str; control_id : str; c_title : str; statement : str; c_evidence : list str; c_notes : str }.

Definition _SOC2 : list ControlMapping :=
  [mk_control "SOC2" "CC6.1" "Logical Access Controls"
     "The entity implements logical access security software, infrastructure, and architectures over protected information assets to protect them from security events."
     [EVIDENCE_POLICY_ENGINE; EVIDENCE_MFA_DECISIONS; EVIDENCE_CONNECTORS] "Plenith evidence: identity-proxy risk-scored routing with MFA step-up gate to real-prod; trained-policy or heuristic deception layer behind it.";
   mk_control "SOC2" "CC6.6" "External Communication Restrictions"
     "The entity implements logical access security measures to protect against threats from sources outside its system boundaries."
     [EVIDENCE_ISOLATION_PROBES; EVIDENCE_CONNECTORS] "§4.2 isolation pillar: default-DROP egress, internal DNS resolver with no recursion, audited LLM bridge as sole egress path. 18-probe validation runs continuously.";
   mk_control "SOC2" "CC6.7" "System Operation Monitoring"
     "The entity restricts the transmission, movement, and removal of information to authorized internal and external users and protects it during transmission, movement, or removal."
     [EVIDENCE_ALERTS_BY_ACTION; EVIDENCE_IOC_EXPORT_COUNT] "DNS-exfil detector + CoreDNS query log capture covert channels. STIX 2.1 export for IoC sharing.";
   mk_control "SOC2" "CC7.1" "Detection and Monitoring"
     "To meet its objectives, the entity uses detection and monitoring procedures to identify (a) changes to configurations that result in the introduction of vulnerabilities, and (b) anomalies that may indicate malicious acts, natural disasters, and errors."
     [EVIDENCE_ALERTS_BY_SEVERITY; EVIDENCE_MITRE_COVERAGE; EVIDENCE_COUNTER_AI] "14 heuristic alerts + counter-AI detector covering 12 ATT&CK tactics. RL-trained policy as V2.";
   mk_control "SOC2" "CC7.2" "System Monitoring"
     "The entity monitors system components and the operation of those components for anomalies that are indicative of malicious acts, natural disasters, and errors affecting the entity's ability to meet its objectives; anomalies are analyzed to determine whether they represent security events."
     [EVIDENCE_ALERTS_BY_SEVERITY; EVIDENCE_OT_PROBES] "All alerts emit through SIEM connectors (CEF/LEEF/syslog/HEC) with MITRE ATT&CK technique tags. OT decoys log Modbus/S7/DNP3 probes as separate IoC stream.";
   mk_control "SOC2" "CC7.3" "Evaluation of Security Events"
     "The entity evaluates security events to determine whether they could or have resulted in a failure of the entity to meet its objectives (security incidents) and, if so, takes actions to prevent or address such failures."
     [EVIDENCE_ALERTS_BY_SEVERITY; EVIDENCE_MITRE_COVERAGE] "Every alert ships with severity (critical/high/medium/info), ATT&CK technique, recommended response, and an LLM-narrated incident summary on demand.";
   mk_control "SOC2" "CC7.4" "Security Incident Response"
     "The entity responds to identified security incidents by executing a defined incident-response program to understand, contain, remediate, and communicate security incidents, as appropriate."
     [EVIDENCE_MFA_DECISIONS; EVIDENCE_ALERTS_BY_ACTION] "`isolate_session` heuristic response, MFA-step-up gating, ChatOps notifiers (Slack/Teams) + PagerDuty paging for critical alerts.";
   mk_control "SOC2" "CC8.1" "Change Management"
     "The entity authorizes, designs, develops or acquires, configures, documents, tests, approves, and implements changes to infrastructure, data, software, and procedures to meet its objectives."
     [EVIDENCE_ROTATION_HISTORY] "Content-rotation epochs (quarterly cadence) regenerate every decoy artifact deterministically. Each epoch has a manifest with SHA-256 hashes for the auditor."]%py.

Definition _ISO27001 : list ControlMapping :=
  [mk_control "ISO27001" "A.8.7" "Protection against malware"
     "Protection against malware shall be implemented and supported by appropriate user awareness."
     [EVIDENCE_ALERTS_BY_ACTION; EVIDENCE_COUNTER_AI] "Heuristic detection + counter-AI prompt-trap deception for LLM-driven attackers.";
   mk_control "ISO27001" "A.8.8" "Management of technical vulnerabilities"
     "Information about technical vulnerabilities of information systems shall be obtained, the organization's exposure to such vulnerabilities shall be evaluated, and appropriate measures shall be taken."
     [EVIDENCE_ISOLATION_PROBES] "Continuous breakout-probe validation (18 probes × 3 agents, every 15 minutes by the §4.2 CronJob).";
   mk_control "ISO27001" "A.8.15" "Logging"
     "Logs that record activities, exceptions, faults and other relevant events shall be produced, stored, protected and analysed."
     [EVIDENCE_ALERTS_BY_SEVERITY; EVIDENCE_CONNECTORS; EVIDENCE_IOC_EXPORT_COUNT] "Every event written to the engagement JSONL log + fan-out emit to configured SIEM (Splunk HEC, Elastic, CEF/LEEF/syslog) with per-alert MITRE tags.";
   mk_control "ISO27001" "A.8.16" "Monitoring activities"
     "Networks, systems and applications shall be monitored for anomalous behaviour and appropriate actions taken to evaluate potential information security incidents."
     [EVIDENCE_ALERTS_BY_ACTION; EVIDENCE_MITRE_COVERAGE; EVIDENCE_OT_PROBES] "Heuristic + RL policies score every command across 12 ATT&CK tactics. OT decoys cover ICS-layer monitoring (Modbus/S7/DNP3).";
   mk_control "ISO27001" "A.8.20" "Networks security"
     "Networks and network devices shall be secured, managed and controlled to protect information in systems and applications."
     [EVIDENCE_ISOLATION_PROBES] "k8s NetworkPolicy enforces §4.2 isolation: agents only egress to other agents + audited LLM bridge. CronJob runs the breakout-probe script every 15min.";
   mk_control "ISO27001" "A.8.22" "Segregation of networks"
     "Groups of information services, users and information systems shall be segregated in the organization's networks."
     [EVIDENCE_ISOLATION_PROBES] "decoy_net (internal:true) is fully segregated from bridge_net; only audited services (proxy, llm-egress) are dual-homed.";
   mk_control "ISO27001" "A.8.23" "Web filtering"
     "Access to external websites shall be managed to reduce exposure to malicious content."
     [EVIDENCE_ISOLATION_PROBES; EVIDENCE_ALERTS_BY_ACTION] "CoreDNS sealed against external recursion; `alert_dns_exfil` heuristic catches attempts at the shell level even when the agent isn't compromised.";
   mk_control "ISO27001" "A.8.28" "Secure coding"
     "Secure coding principles shall be applied to software development."
     [] "Out-of-band: code is open-source under MIT; 412-test pytest suite enforces invariants on every PR via GitHub Actions CI."]%py.

Definition _NIS2 : list ControlMapping :=
  [mk_control "NIS2" "Art21(2)(a)" "Policies on risk analysis and information security"
     "Policies on risk analysis and information system security."
     [EVIDENCE_POLICY_ENGINE; EVIDENCE_ROTATION_HISTORY] "RL-trained or heuristic policy + quarterly content rotation epoch with SHA-256 artifact manifest.";
   mk_control "NIS2" "Art21(2)(b)" "Incident handling"
     "Incident handling."
     [EVIDENCE_ALERTS_BY_SEVERITY; EVIDENCE_ALERTS_BY_ACTION; EVIDENCE_MFA_DECISIONS] "Severity-tagged alerts → MFA step-up + isolate_session response + ChatOps + PagerDuty paging. Audit JSONL log preserves the full incident chain.";
   mk_control "NIS2" "Art21(2)(c)" "Business continuity"
     "Business continuity, such as backup management and disaster recovery, and crisis management."
     [EVIDENCE_ROTATION_HISTORY] "Stateless agent containers; engagement state in a PVC; Helm chart documents RPO/RTO at the cluster level.";
   mk_control "NIS2" "Art21(2)(d)" "Supply chain security"
     "Supply chain security, including security-related aspects concerning the relationships between each entity and its direct suppliers or service providers."
     [EVIDENCE_CONNECTORS] "All third-party connectors (Duo, Okta, Splunk, PagerDuty, Slack) abstracted behind a Protocol — provider can be swapped without orchestrator changes.";
   mk_control "NIS2" "Art21(2)(e)" "Network and information system security"
     "Security in network and information systems acquisition, development and maintenance, including vulnerability handling and disclosure."
     [EVIDENCE_ISOLATION_PROBES; EVIDENCE_ALERTS_BY_ACTION] "18-probe breakout test runs on every deploy and every 15 min in production. PROXY-protocol v1 forwarding so agents see real client IPs.";
   mk_control "NIS2" "Art21(2)(f)" "Effectiveness assessment"
     "Policies and procedures to assess the effectiveness of cybersecurity risk-management measures."
     [EVIDENCE_MITRE_COVERAGE; EVIDENCE_ENGAGEMENT_COUNT] "ATT&CK coverage matrix exported from `tools/connectors.py coverage`; engagement-count histogram from audit tool.";
   mk_control "NIS2" "Art21(2)(g)" "Basic cyber hygiene"
     "Basic cyber hygiene practices and cybersecurity training."
     [] "Out-of-band: operator runbook + dashboard.";
   mk_control "NIS2" "Art21(2)(h)" "Cryptography and encryption"
     "Policies and procedures regarding the use of cryptography and, where appropriate, encryption."
     [EVIDENCE_MFA_DECISIONS] "TOTP (RFC 6238), HMAC-SHA1; SSH transport encryption; MFA decision files include integrity timestamps.";
   mk_control "NIS2" "Art21(2)(i)" "Human resources security and access control"
     "Human resources security, access control policies and asset management."
     [EVIDENCE_MFA_DECISIONS; EVIDENCE_POLICY_ENGINE] "Identity-proxy risk-scored access; MFA enrollment store with per-user TOTP secrets; per-engagement state keyed by (source_ip, claimed_user).";
   mk_control "NIS2" "Art21(2)(j)" "Multi-factor authentication"
     "The use of multi-factor authentication or continuous authentication solutions, secured voice, video and text communications and secured emergency communication systems."
     [EVIDENCE_MFA_DECISIONS] "MFA step-up gateway with Duo / Okta / Twilio / push-sim providers. PROXY-v1 forwarding preserves real source IP for decision keying."]%py.

Definition _FRAMEWORKS : list (str * list ControlMapping) := [("soc2", _SOC2); ("iso27001", _ISO27001); ("nis2", _NIS2)]%py.
Definition all_frameworks : list str := map fst _FRAMEWORKS.
Definition controls_for (framework : str) : list ControlMapping := default [] (assoc_get (lower framework) _FRAMEWORKS).
Definition all_controls : list ControlMapping := flat_map snd _FRAMEWORKS.

(** ** Counters whose keys are JSON values *)

Abbreviation counts := (list (pyval * Z)).

Definition int_of (v : pyval) : option Z := match v with VBool b => Some (Z.b2z b) | VInt n => Some n | _ => None end.
Definition num_of (v : pyval) : option flt := match v with VFloat f => Some f | v => of_int <$> int_of v end.

(** [a == b] of two hashable values. *)
Definition same_key (a b : pyval) : bool :=
  match a, b with
  | VNone, VNone => true
  | VStr s, VStr t => bool_decide (s = t)
  | _, _ =>
      match int_of a, int_of b with
      | Some x, Some y => (x =? y)%Z
      | _, _ => match num_of a, num_of b with Some x, Some y => SFeqb x y | _, _ => false end
      end
  end.
Definition hashable (v : pyval) : bool := match v with VList _ | VSet _ | VDict _ => false | _ => true end.

(** [d[k] = d.get(k, 0) + 1]: a present key keeps its place and its first form. *)
Fixpoint count_key (k : pyval) (c : counts) : counts :=
  match c with
  | [] => [(k, 1%Z)]
  | (k', n) :: c => if same_key k' k then (k', n + 1)%Z :: c else (k', n) :: count_key k c
  end.

(** [sorted(d.items())]: strings compare with strings and numbers with numbers, and the keys of a dict differ. *)
Definition key_leb (a b : pyval) : bool :=
  match a, b with
  | VStr s, VStr t => str_leb s t
  | _, _ => match num_of a, num_of b with Some x, Some y => fle_b x y | _, _ => false end
  end.
Definition is_str (v : pyval) : bool := match v with VStr _ => true | _ => false end.
Definition is_num (v : pyval) : bool := match num_of v with Some _ => true | None => false end.
Fixpoint insert_count (x : pyval * Z) (c : counts) : counts :=
  match c with [] => [x] | y :: c' => if key_leb x.1 y.1 then x :: c else y :: insert_count x c' end.
Definition sorted_counts (c : counts) : exc counts :=
  match c with
  | [] | [_] => Ok c
  | _ => if forallb is_str (map fst c) || forallb is_num (map fst c) then Ok (foldr insert_count [] c)
         else Raise (TypeError "'<' not supported between instances"%py)
  end.

(** ** evidence.py *)

Record EvidenceReport := mk_report {
  period_start_ts : flt; period_end_ts : flt;
  engagement_count : Z; alerts_by_severity : counts; alerts_by_action : counts;
  mitre_techniques : list str; mitre_tactics : list str; ioc_exports : Z; rotation_epochs : list str;
  mfa_decisions : list (str * Z); isolation_probe_runs : Z; siem_connectors : list str; policy_engine : pyval; ot_probes : Z;
  counter_ai_detections : Z; counter_ai_proven_via_trap : Z;
}.

(** A file of a log directory: its name, its modification time, and what reading and parsing it gives (for a directory,
    the error of reading one). *)
Record log_file := mk_log_file { l_name : str; l_mtime : flt; l_read : exc pyval }.
Inductive entry := Sub (name : str) (files : list log_file) | Plain (f : log_file).

Definition glob_json (files : list log_file) : list log_file := List.filter (λ f, endswith (l_name f) ".json"%py) files.
Definition is_a_directory : exn := OSError "Is a directory"%py.
Definition as_file (e : entry) : log_file := match e with Sub n _ => mk_log_file n f0 (Raise is_a_directory) | Plain f => f end.

(** The places the harvester is pointed at, where they are given and exist. [s_rotation]: what the manifest of each entry
    reads as, if it has one. *)
Record sources := mk_sources {
  s_state : option (list (str * exc pyval)); s_logs : option (list entry); s_mfa : option (list str);
  s_rotation : option (list (option (exc pyval))); s_config : pyval; s_isolation : option (exc str); s_ot : option (exc str);
}.

Definition or_else_dict (v : pyval) : pyval := if truthy v then v else VDict [].

(** [for a in v or []]. *)
Definition iterate (v : pyval) : exc (list pyval) :=
  if negb (truthy v) then Ok [] else
  match v with
  | VList l => Ok l
  | VStr s => Ok (map (λ c, VStr [c]) s)
  | VDict d => Ok (map (λ kv, VStr kv.1) d)
  | VSet s => Ok (map VStr (elements s))
  | _ => Raise (TypeError "object is not iterable"%py)
  end.

(** A file that cannot be read, or is not JSON, is passed over. *)
Definition readable_or {A} (dflt : A) (r : exc pyval) (k : pyval → exc A) : exc A :=
  match r with
  | Raise (OSError _) | Raise JSONDecodeError => Ok dflt
  | Raise e => Raise e
  | Ok data => k data
  end.

(** *** The logs *)

Definition alerts := (counts * counts)%type.

Definition count_alert (acc : alerts) (a : pyval) : exc alerts :=
  let* sev := get_key "severity"%py (VStr "info"%py) a in
  let* act := get_key "action"%py (VStr "unknown"%py) a in
  if hashable sev && hashable act then Ok (count_key sev acc.1, count_key act acc.2) else Raise (TypeError "unhashable type"%py).

Definition log_actions (start : flt) (f : log_file) : exc (list pyval) :=
  readable_or [] (l_read f) (λ data,
    if flt_b (l_mtime f) start then Ok [] else let* v := get_key "actions_taken"%py (VList []) data in iterate v).

Definition add_log (start : flt) (acc : alerts) (f : log_file) : exc alerts :=
  let* l := log_actions start f in exc_fold count_alert acc l.

(** [dir] is the logs directory, [es] what is left of its listing. *)
Fixpoint walk (start : flt) (dir : list entry) (acc : alerts) (es : list entry) : exc alerts :=
  match es with
  | [] => Ok acc
  | Sub _ files :: es => let* acc := exc_fold (add_log start) acc (glob_json files) in walk start dir acc es
  | Plain _ :: _ => exc_fold (add_log start) acc (glob_json (map as_file dir))
  end.

(** *** The engagements *)

Section collect.
Context `{Unicode} (parse_float : str → option flt).   (* float(s) of a string *)

(** [float(v)]. *)
Definition float_of (v : pyval) : exc flt :=
  match v with
  | VFloat f => Ok f
  | VInt n => match of_int n with S754_infinity _ => Raise (ValueError "int too large to convert to float"%py) | f => Ok f end
  | VBool b => Ok (of_int (Z.b2z b))
  | VStr s => of_option (ValueError "could not convert string to float"%py) (parse_float s)
  | _ => Raise (TypeError "float() argument"%py)
  end.

(** The engagements, those held to be a model, and those proven to be one by a trap. *)
Definition engagement_tally := (Z * Z * Z)%type.

Definition count_state (start : flt) (acc : engagement_tally) (f : str * exc pyval) : exc engagement_tally :=
  readable_or acc f.2 (λ data,
    let* last := get_key "last_seen_at"%py (VInt 0) data in
    let* last_seen := float_of last in
    if flt_b last_seen start then Ok acc else
    let* obs := get_key "observed"%py (VDict []) data in
    let* likely := get_ "attacker_likely_llm"%py obs in
    let* proven := get_ "attacker_llm_proven_via_trap"%py obs in
    let '(n, l, p) := acc in
    Ok (n + 1, l + Z.b2z (truthy likely), p + Z.b2z (truthy proven))%Z).

(** *** Rotation, connectors, the policy *)

Definition add_epoch (acc : list str) (manifest : option (exc pyval)) : exc (list str) :=
  match manifest with
  | None => Ok acc
  | Some r =>
      readable_or acc r (λ m,
        let* enabled := get_ "enabled"%py m in
        if truthy enabled
        then let* d := get_key "deployment_id"%py (VStr "?"%py) m in
             let* e := get_key "epoch"%py (VStr "?"%py) m in
             Ok (acc ++ [show_value d ++ "/"%py ++ show_value e])
        else Ok acc)
  end.

Definition SIEM_BLOCKS : list str := ["splunk_hec"; "elastic_bulk"; "syslog_udp"; "syslog_tcp"; "webhook"]%py.
Definition CHAT_BLOCKS : list str := ["slack"; "teams"; "pagerduty"]%py.

(** [v.get(a) or v.get(b)] of the sub-block [k]. *)
Definition configured (block : pyval) (a b k : str) : exc bool :=
  let* v := get_ k block in
  let* x := get_ a (or_else_dict v) in
  if truthy x then Ok true else let* y := get_ b (or_else_dict v) in Ok (truthy y).

Definition add_connector (block : pyval) (a b prefix : str) (acc : list str) (k : str) : exc (list str) :=
  let* c := configured block a b k in Ok (if c then acc ++ [prefix ++ k] else acc).

Definition from_config (config : pyval) : exc (list str * pyval) :=
  if negb (truthy config) then Ok ([], VStr "unknown"%py) else
  let* block := get_ "connectors"%py config in
  let* l := exc_fold (add_connector (or_else_dict block) "url"%py "host"%py []) [] SIEM_BLOCKS in
  let* chat := get_ "chatops"%py config in
  let* l := exc_fold (add_connector (or_else_dict chat) "url"%py "routing_key"%py "chatops:"%py) l CHAT_BLOCKS in
  let* pol := get_ "policy"%py config in
  let* engine := get_key "engine"%py (VStr "heuristic"%py) (or_else_dict pol) in
  Ok (l, engine).

(** The lines of a log beside the logs directory. *)
Definition count_lines (r : option (exc str)) : exc Z :=
  match r with
  | None | Some (Raise (OSError _)) => Ok 0%Z
  | Some (Raise e) => Raise e
  | Some (Ok text) => Ok (Z.of_nat (length (splitlines text)))
  end.

Definition mfa_counts (names : list str) : list (str * Z) :=
  let n suffix := Z.of_nat (length (List.filter (λ s, endswith s suffix) names)) in
  [("pass", n ".pass"); ("fail", n ".fail")]%py.

Definition str_list (k : str) (v : pyval) : list str :=
  match v with VDict d => match assoc_get k d with Some (VList l) => omap (λ x, match x with VStr s => Some s | _ => None end) l | _ => [] end | _ => [] end.

Definition period_start (now : flt) (period_days : Z) : flt := fsub now (of_int (period_days * 86400)).

Definition collect (now : flt) (period_days : Z) (src : sources) : exc EvidenceReport :=
  let start := period_start now period_days in
  let* t := match s_state src with
            | Some fs => exc_fold (count_state start) (0, 0, 0)%Z (List.filter (λ f, endswith f.1 ".json"%py) fs)
            | None => Ok (0, 0, 0)%Z end in
  let '(n, likely, proven) := t in
  let* al := match s_logs src with Some dir => walk start dir ([], []) dir | None => Ok ([], []) end in
  let mfa := match s_mfa src with Some names => mfa_counts names | None => [] end in
  let* epochs := match s_rotation src with Some l => exc_fold add_epoch [] l | None => Ok [] end in
  let* cfg := from_config (s_config src) in
  let* probes := match s_logs src with Some _ => count_lines (s_isolation src) | None => Ok 0%Z end in
  let* ot := match s_logs src with Some _ => count_lines (s_ot src) | None => Ok 0%Z end in
  Ok (mk_report start now n al.1 al.2 (str_list "techniques_covered"%py coverage_report) (str_list "tactics_covered"%py coverage_report)
        0 epochs mfa probes cfg.1 cfg.2 ot likely proven).
End collect.

(** A value of the report: a counter, or any other value. *)
Inductive evidence := Counts (c : counts) | Value (v : pyval).

Definition strs (l : list str) : pyval := VList (map VStr l).
Definition ints (d : list (str * Z)) : pyval := VDict (map (λ kn, (kn.1, VInt kn.2)) d).

Definition evidence_table (rep : EvidenceReport) : list (str * evidence) :=
  [(EVIDENCE_ENGAGEMENT_COUNT, Value (VInt (engagement_count rep)));
   (EVIDENCE_ALERTS_BY_SEVERITY, Counts (alerts_by_severity rep));
   (EVIDENCE_ALERTS_BY_ACTION, Counts (alerts_by_action rep));
   (EVIDENCE_MITRE_COVERAGE, Value (VDict [("techniques", strs (mitre_techniques rep)); ("tactics", strs (mitre_tactics rep))]%py));
   (EVIDENCE_IOC_EXPORT_COUNT, Value (VInt (ioc_exports rep)));
   (EVIDENCE_ROTATION_HISTORY, Value (strs (rotation_epochs rep)));
   (EVIDENCE_MFA_DECISIONS, Value (ints (mfa_decisions rep)));
   (EVIDENCE_ISOLATION_PROBES, Value (VInt (isolation_probe_runs rep)));
   (EVIDENCE_CONNECTORS, Value (strs (siem_connectors rep)));
   (EVIDENCE_POLICY_ENGINE, Value (policy_engine rep));
   (EVIDENCE_OT_PROBES, Value (VInt (ot_probes rep)));
   (EVIDENCE_COUNTER_AI, Value (ints [("detections", counter_ai_detections rep); ("proven_via_trap", counter_ai_proven_via_trap rep)]%py))].
Definition evidence_value (rep : EvidenceReport) (evidence_type : str) : option evidence := assoc_get evidence_type (evidence_table rep).

(** ** report.py: the assessment *)

Fixpoint meaningful (v : pyval) : bool :=
  match v with
  | VNone => false
  | VBool b => b
  | VInt n => (0 <? n)%Z
  | VFloat f => fgt_b f f0
  | VStr s => negb (bool_decide (s = []))
  | VList l => match l with [] => false | _ => true end
  | VSet s => negb (bool_decide (s = ∅))
  | VDict d => existsb (λ kv, meaningful kv.2) d
  end.
Definition _has_meaningful_evidence (e : option evidence) : bool :=
  match e with
  | None => false
  | Some (Counts c) => existsb (λ kn, 0 <? kn.2)%Z c
  | Some (Value v) => meaningful v
  end.

Definition PRESENT : str := "evidence-present"%py.
Definition NO_DATA : str := "no-evidence-this-period"%py.
Definition OUT_OF_BAND : str := "out-of-band"%py.

Definition collected (rep : EvidenceReport) (types : list str) : list (str * option evidence) :=
  foldl (λ d t, assoc_set t (evidence_value rep t) d) [] types.
Definition _assess (rep : EvidenceReport) (c : ControlMapping) : str * list (str * option evidence) :=
  let status := match c_evidence c with
                | [] => OUT_OF_BAND
                | types => if existsb (λ t, _has_meaningful_evidence (evidence_value rep t)) types then PRESENT else NO_DATA
                end in
  (status, collected rep (c_evidence c)).

Definition _STATUS_SYMBOL : list (str * str) := [(PRESENT, "✓ EVIDENCE"); (NO_DATA, "○ NO DATA"); (OUT_OF_BAND, "— OUT-OF-BAND")]%py.

(** ** report.py: Markdown *)

(** [d.setdefault(k, v0)] and [d[k] = f(d[k])]. *)
Definition update {V} (k : str) (v0 : V) (f : V → V) (d : list (str * V)) : list (str * V) := assoc_set k (f (default v0 (assoc_get k d))) d.

Section report.
Context `{Unicode} (iso iso_seconds : flt → exc str).   (* [fromtimestamp(t).isoformat()], whole and to the second, in the local zone *)
Context (rep : EvidenceReport).

Definition totals := (list (str * (Z * Z)) * list (str * Z))%type.

(** The totals of the frameworks, each with the number of its controls that have evidence, and the totals of the statuses. *)
Definition count_control (acc : totals) (c : ControlMapping) : totals :=
  let status := (_assess rep c).1 in
  (update (framework c) (0, 0)%Z (λ n, (n.1 + 1, n.2 + Z.b2z (bool_decide (status = PRESENT)))%Z) acc.1,
   update status 0%Z (λ n, n + 1)%Z acc.2).
Definition summary (controls : list ControlMapping) : totals :=
  foldl count_control ([], [(PRESENT, 0); (NO_DATA, 0); (OUT_OF_BAND, 0)]%Z) controls.

(** [f"{w / t * 100:.0f}"]. *)
Definition percent (w t : Z) : str :=
  str_of_Z (if (t =? 0)%Z then 0%Z else round_half_even (fmul (fdiv (of_int w) (of_int t)) (of_int 100))).

Definition framework_row (x : str * (Z * Z)) : str :=
  "| "%py ++ x.1 ++ " | "%py ++ str_of_Z x.2.1 ++ " | "%py ++ str_of_Z x.2.2 ++ " ("%py ++ percent x.2.2 x.2.1 ++ "%) |"%py.

Definition status_total (by_status : list (str * Z)) (k : str) : str := str_of_Z (default 0%Z (assoc_get k by_status)).

Definition summary_lines (controls : list ControlMapping) : list str :=
  let '(framework_counts, by_status) := summary controls in
  ["## Summary"; []; "| Framework | Controls in scope | With evidence this period |"; "|---|---:|---:|"]%py
  ++ map framework_row (sort_items framework_counts)
  ++ [[]; "**Status totals:** "%py ++ status_total by_status PRESENT ++ " evidence-present, "%py ++ status_total by_status NO_DATA
          ++ " no-data, "%py ++ status_total by_status OUT_OF_BAND ++ " out-of-band"%py; []].

Definition pair_text (kn : pyval * Z) : str := show_value kn.1 ++ "="%py ++ str_of_Z kn.2.

Definition when (b : bool) (l : str) : list str := if b then [l] else [].
Definition filled {A} (l : list A) : bool := match l with [] => false | _ => true end.

Definition fact_lines : exc (list str) :=
  let* sev := sorted_counts (alerts_by_severity rep) in
  Ok (["## Platform facts (period-end snapshot)"%py; []; "- Engagements observed: **"%py ++ str_of_Z (engagement_count rep) ++ "**"%py]
      ++ when (filled sev) ("- Alerts fired: "%py ++ join ", "%py (map pair_text sev))
      ++ ["- Active policy engine: `"%py ++ show_value (policy_engine rep) ++ "`"%py;
          "- ATT&CK techniques covered: "%py ++ str_of_Z (Z.of_nat (length (mitre_techniques rep)));
          "- ATT&CK tactics covered: "%py ++ str_of_Z (Z.of_nat (length (mitre_tactics rep)))]
      ++ when (filled (siem_connectors rep)) ("- SIEM/SOAR connectors configured: "%py ++ join ", "%py (siem_connectors rep))
      ++ when (filled (mfa_decisions rep)) ("- MFA decisions in period: "%py ++ show_value (ints (mfa_decisions rep)))
      ++ when (filled (rotation_epochs rep)) ("- Content-rotation epochs: "%py ++ join ", "%py (rotation_epochs rep))
      ++ when (negb (counter_ai_detections rep =? 0)%Z)
           ("- Counter-AI detections (likely-LLM attackers): "%py ++ str_of_Z (counter_ai_detections rep) ++ " ("%py
            ++ str_of_Z (counter_ai_proven_via_trap rep) ++ " proven via trap)"%py)
      ++ [[]]).

Definition code (s : str) : str := "`"%py ++ s ++ "`"%py.
Definition EMPTY : str := "_(empty)_"%py.

Definition _format_evidence_value (e : option evidence) : exc str :=
  match e with
  | None | Some (Value VNone) => Ok "_(no data this period)_"%py
  | Some (Counts []) | Some (Value (VDict [])) | Some (Value (VList [])) => Ok EMPTY
  | Some (Counts c) => let* c := sorted_counts c in Ok (join ", "%py (map (λ kn, code (pair_text kn)) c))
  | Some (Value (VDict d)) => Ok (join ", "%py (map (λ kv, code (kv.1 ++ "="%py ++ show_value kv.2)) (sort_items d)))
  | Some (Value (VList l)) => Ok (code (join "`, `"%py (map show_value l)))
  | Some (Value v) => Ok (code (show_value v))
  end.

Definition evidence_line (x : str * option evidence) : exc str :=
  let* pretty := _format_evidence_value x.2 in Ok ("- "%py ++ code x.1 ++ ": "%py ++ pretty).

Definition control_lines (c : ControlMapping) : exc (list str) :=
  let '(status, coll) := _assess rep c in
  let* ev := match c_evidence c with
             | [] => Ok ["_Evidence for this control is collected out-of-band (e.g. via the operator runbook or upstream GRC platform)._"%py]
             | _ => let* l := exc_map evidence_line coll in Ok ("**Evidence collected:**"%py :: [] :: l) end in
  Ok (["### "%py ++ control_id c ++ " — "%py ++ c_title c ++ "    "%py ++ code (default "?"%py (assoc_get status _STATUS_SYMBOL)); [];
       "> "%py ++ statement c; []]
      ++ (if decide (c_notes c = []) then [] else ["**Implementation:** "%py ++ c_notes c; []])
      ++ ev ++ [[]]).

(** The controls of each framework, the frameworks in the order of their names. *)
Definition sections (controls : list ControlMapping) : list (str * list ControlMapping) :=
  sort_items (foldl (λ d c, update (framework c) [] (λ l, l ++ [c]) d) [] controls).

Definition section_lines (x : str * list ControlMapping) : exc (list str) :=
  let* ls := exc_map control_lines x.2 in Ok (("## "%py ++ x.1) :: [] :: concat ls).

Definition to_markdown (title : str) (controls : list ControlMapping) : exc str :=
  let* from := iso_seconds (period_start_ts rep) in
  let* to := iso_seconds (period_end_ts rep) in
  let* facts := fact_lines in
  let* ss := exc_map section_lines (sections controls) in
  Ok (rstrip (join [NEWLINE]
    (["# "%py ++ title; []; "**Reporting period:** "%py ++ from ++ " → "%py ++ to; []] ++ summary_lines controls ++ facts ++ concat ss)) ++ [NEWLINE]).

(** ** report.py: JSON *)

Definition key_text (k : pyval) : str :=
  match k with VNone => "null"%py | VBool b => if b then "true"%py else "false"%py | k => show_value k end.
Definition evidence_json (e : option evidence) : exc jval :=
  match e with
  | None => Ok (to_json VNone)
  | Some (Value v) => Ok (to_json v)
  | Some (Counts c) => let* c := sorted_counts c in Ok (JObj (map (λ kn, (key_text kn.1, to_json (VInt kn.2))) c))
  end.
Definition obj (l : list (str * jval)) : jval := JObj (sort_items l).
Definition jtext (s : str) : jval := to_json (VStr s).
Definition member_json {A} (f : A → exc jval) (x : str * A) : exc (str * jval) := let* j := f x.2 in Ok (x.1, j).

(** [asdict(rep)]. *)
Definition report_fields : list (str * option evidence) :=
  let v x := Some (Value x) in
  let i x := v (VInt x) in
  [("period_start_ts", v (VFloat (period_start_ts rep))); ("period_end_ts", v (VFloat (period_end_ts rep)));
   ("engagement_count", i (engagement_count rep)); ("alerts_by_severity", Some (Counts (alerts_by_severity rep)));
   ("alerts_by_action", Some (Counts (alerts_by_action rep))); ("mitre_techniques", v (strs (mitre_techniques rep)));
   ("mitre_tactics", v (strs (mitre_tactics rep))); ("ioc_exports", i (ioc_exports rep)); ("rotation_epochs", v (strs (rotation_epochs rep)));
   ("mfa_decisions", v (ints (mfa_decisions rep))); ("isolation_probe_runs", i (isolation_probe_runs rep));
   ("siem_connectors", v (strs (siem_connectors rep))); ("policy_engine", v (policy_engine rep)); ("ot_probes", i (ot_probes rep));
   ("counter_ai_detections", i (counter_ai_detections rep)); ("counter_ai_proven_via_trap", i (counter_ai_proven_via_trap rep))]%py.

Definition control_json (c : ControlMapping) : exc jval :=
  let '(status, coll) := _assess rep c in
  let* ev := exc_map (member_json evidence_json) coll in
  Ok (obj [("framework", jtext (framework c)); ("control_id", jtext (control_id c)); ("title", jtext (c_title c)); ("statement", jtext (statement c));
           ("notes", jtext (c_notes c)); ("status", jtext status); ("evidence", obj ev)]%py).

Definition report_json (title : str) (controls : list ControlMapping) : exc str :=
  let* start := iso (period_start_ts rep) in
  let* end_ := iso (period_end_ts rep) in
  let* fields := exc_map (member_json evidence_json) report_fields in
  let* cs := exc_map control_json controls in
  Ok (pretty 0 (obj [("title", jtext title); ("period", obj [("start", jtext start); ("end", jtext end_)]); ("evidence_report", obj fields);
                     ("controls", JArr cs)]%py)).

(** ** report.py: HTML *)

Definition _HTML_CSS : str := ("\n" ++
   "* { box-sizing: border-box; }\n" ++
   "body { font-family: -apple-system, BlinkMacSystemFont, 'Segoe UI', sans-serif;\n" ++
   "       max-width: 900px; margin: 2em auto; padding: 0 1em;\n" ++
   "       color: #1d1d1f; line-height: 1.5; }\n" ++
   "h1 { border-bottom: 2px solid #1d1d1f; padding-bottom: 6px; }\n" ++
   "h2 { margin-top: 2em; color: #1d3a8a; }\n" ++
   "h3 { margin-top: 1.5em; font-size: 1.1em; }\n" ++
   "table { border-collapse: collapse; margin: 1em 0; }\n" ++
   "th, td { padding: 6px 12px; border: 1px solid #d1d1d6; text-align: left; }\n" ++
   "th { background: #f5f5f7; }\n" ++
   "code { background: #f5f5f7; padding: 1px 6px; border-radius: 3px;\n" ++
   "       font-family: 'SF Mono', Menlo, monospace; font-size: 0.9em; }\n" ++
   "blockquote { border-left: 3px solid #1d3a8a; margin: 8px 0; padding: 4px 12px;\n" ++
   "             background: #f5f8ff; color: #555; }\n" ++
   ".status-evidence-present { color: #1c7430; font-weight: 600; }\n" ++
   ".status-no-evidence-this-period { color: #8a6d3b; }\n" ++
   ".status-out-of-band { color: #6c757d; }\n")%py.

(** [html.escape]: the apostrophe too. *)
Definition escape (s : str) : str := replace_all 39 "&#x27;"%py (_h s).

Definition sub (pattern template s : str) : str := match re_sub (rx pattern) template 0 s with Ok s => s | Raise _ => s end.
Definition _inline (s : str) : str :=
  sub "_([^_]+)_"%py "<i>\\1</i>"%py (sub "\\*\\*([^\\*]+)\\*\\*"%py "<b>\\1</b>"%py (sub "`([^`]+)`"%py "<code>\\1</code>"%py (escape s))).

Record page := mk_page { p_out : list str; p_in_list : bool; p_in_table : bool; p_table_buf : list str }.

Definition put (s : str) (p : page) : page := mk_page (p_out p ++ [s]) (p_in_list p) (p_in_table p) (p_table_buf p).
Definition flush_list (p : page) : page :=
  if p_in_list p then mk_page (p_out p ++ ["</ul>"%py]) false (p_in_table p) (p_table_buf p) else p.

Definition cells_of (row : str) : list str := map strip (split_on 124 (rstrip_char 124 (lstrip_char 124 row))).
Definition separator (cells : list str) : bool :=
  forallb (λ c, bool_decide (strip (List.filter (λ x, negb ((x =? 45) || (x =? 58))%N) c) = [])) cells.
Definition tagged (tag s : str) : str := "<"%py ++ tag ++ ">"%py ++ s ++ "</"%py ++ tag ++ ">"%py.
Definition table_row (i : nat) (row : str) : list str :=
  let cells := cells_of row in
  if (i =? 1) && separator cells then []
  else [tagged "tr"%py (concat (map (λ c, tagged (if i =? 0 then "th"%py else "td"%py) (_inline c)) cells))].
Definition flush_table (p : page) : page :=
  mk_page (p_out p ++ (if p_in_table p && filled (p_table_buf p)
                       then ["<table>"%py] ++ concat (imap table_row (p_table_buf p)) ++ ["</table>"%py] else []))
    (p_in_list p) false [].
Definition flush (p : page) : page := flush_table (flush_list p).

Definition h3_class (text : str) : str :=
  if contains text "EVIDENCE"%py then "status-evidence-present"%py
  else if contains text "NO DATA"%py then "status-no-evidence-this-period"%py
  else if contains text "OUT-OF-BAND"%py then "status-out-of-band"%py
  else [].

Definition html_line (p : page) (line : str) : page :=
  let stripped := rstrip line in
  if startswith stripped "# "%py then put (tagged "h1"%py (_inline (drop 2 stripped))) (flush p)
  else if startswith stripped "## "%py then put (tagged "h2"%py (_inline (drop 3 stripped))) (flush p)
  else if startswith stripped "### "%py
  then let text := drop 4 stripped in put ("<h3 class='"%py ++ h3_class text ++ "'>"%py ++ _inline text ++ "</h3>"%py) (flush p)
  else if startswith stripped "> "%py then put (tagged "blockquote"%py (_inline (drop 2 stripped))) (flush p)
  else if startswith stripped "- "%py
  then let p := flush_table p in
       let p := if p_in_list p then p else mk_page (p_out p ++ ["<ul>"%py]) true (p_in_table p) (p_table_buf p) in
       put (tagged "li"%py (_inline (drop 2 stripped))) p
  else if startswith stripped "|"%py && endswith stripped "|"%py
  then let p := flush_list p in mk_page (p_out p) (p_in_list p) true (p_table_buf p ++ [stripped])
  else match stripped with [] => flush p | _ => put (tagged "p"%py (_inline stripped)) (flush p) end.

Definition html_lines (md : str) : list str := p_out (flush (foldl html_line (mk_page [] false false []) (splitlines md))).
Definition _markdown_to_html (md : str) : str := join [NEWLINE] (html_lines md).

Definition to_html (title : str) (controls : list ControlMapping) : exc str :=
  let* md := to_markdown title controls in
  Ok ("<!doctype html><html><head><meta charset='utf-8'><title>"%py ++ escape title ++ "</title><style>"%py ++ _HTML_CSS
      ++ "</style></head><body>"%py ++ _markdown_to_html md ++ "</body></html>"%py).
End report.

(** ** The harvest *)

(** The log files that are read, in order: those of each directory up to the first plain file, which has the logs directory
    itself read and ends the walk. *)
Fixpoint walked (dir es : list entry) : list log_file :=
  match es with
  | [] => []
  | Sub _ files :: es => glob_json files ++ walked dir es
  | Plain _ :: _ => glob_json (map as_file dir)
  end.

(** The alerts of the files that can be read and were written in the period. *)
Definition ok_or {A} (dflt : A) (m : exc A) : A := match m with Ok a => a | Raise _ => dflt end.
Definition window_alerts (start : flt) (files : list log_file) : list pyval := flat_map (λ f, ok_or [] (log_actions start f)) files.
Definition attr (k dflt : str) (a : pyval) : pyval := ok_or VNone (get_key k (VStr dflt) a).

Definition total (c : counts) : Z := foldr (λ kn z, kn.2 + z)%Z 0%Z c.
Definition count_of (s : str) (c : counts) : Z := total (List.filter (λ kn, same_key kn.1 (VStr s)) c).
Definition having (k dflt s : str) (l : list pyval) : list pyval := List.filter (λ a, same_key (attr k dflt a) (VStr s)) l.

Lemma same_key_str k s : same_key k (VStr s) = true ↔ k = VStr s.
Proof.
  destruct k as [|b|n|f|t|l|x|d]; cbn; try (split; discriminate). rewrite bool_decide_eq_true. split; congruence.
Qed.

Lemma same_key_from s k : same_key (VStr s) k = true → k = VStr s.
Proof. destruct k; cbn; try done. intros ->%bool_decide_eq_true. done. Qed.

Lemma total_count_key k c : total (count_key k c) = (total c + 1)%Z.
Proof.
  unfold total in *. induction c as [|[k' n] c IH]; [done|]. cbn [count_key]. destruct (same_key k' k); cbn [foldr snd]; [lia|]. rewrite IH. lia.
Qed.

Lemma same_key_eq k k' s : same_key k' k = true → same_key k' (VStr s) = same_key k (VStr s).
Proof.
  intros E. apply eq_bool_prop_intro. rewrite !Is_true_true, !same_key_str. split; [intros ->; by apply same_key_from|].
  intros ->. by apply same_key_str.
Qed.

Lemma count_of_cons s k n c : count_of s ((k, n) :: c) = ((if same_key k (VStr s) then n else 0) + count_of s c)%Z.
Proof. unfold count_of, total. cbn [List.filter fst]. by destruct (same_key k (VStr s)). Qed.

Lemma count_of_count_key s k c : count_of s (count_key k c) = (count_of s c + Z.b2z (same_key k (VStr s)))%Z.
Proof.
  induction c as [|[k' n] c IH]; cbn [count_key].
  - rewrite count_of_cons. by destruct (same_key k (VStr s)).
  - destruct (same_key k' k) eqn:E; rewrite !count_of_cons.
    + rewrite (same_key_eq _ _ s E). destruct (same_key k (VStr s)); cbn [Z.b2z]; lia.
    + rewrite IH. lia.
Qed.

Lemma exc_fold_app {A B} (f : A → B → exc A) a l l' : exc_fold f a (l ++ l') = exc_bind (exc_fold f a l) (λ a, exc_fold f a l').
Proof. revert a. induction l as [|b l IH]; intros a; [done|]. cbn. destruct (f a b); [apply IH|done]. Qed.

(** The walk is one pass over the alerts of the files walked. *)
Lemma add_logs_fold start acc fs acc' : exc_fold (add_log start) acc fs = Ok acc' → exc_fold count_alert acc (window_alerts start fs) = Ok acc'.
Proof.
  revert acc. induction fs as [|f fs IH]; intros acc; [done|]. cbn. intros (a & (l & Hl & Ha)%exc_bind_ok & H)%exc_bind_ok.
  rewrite exc_fold_app, Hl. cbn. rewrite Ha. by apply IH.
Qed.

Lemma walk_fold start dir acc es acc' : walk start dir acc es = Ok acc' →
  exc_fold count_alert acc (window_alerts start (walked dir es)) = Ok acc'.
Proof.
  revert acc. induction es as [|[n files|f] es IH]; intros acc; [done| |apply add_logs_fold].
  cbn [walk walked]. intros (a & Ha & H)%exc_bind_ok. apply add_logs_fold in Ha. unfold window_alerts in *.
  rewrite flat_map_app, exc_fold_app, Ha. by apply IH.
Qed.

Lemma count_alert_ok acc a acc' : count_alert acc a = Ok acc' →
  acc' = (count_key (attr "severity"%py "info"%py a) acc.1, count_key (attr "action"%py "unknown"%py a) acc.2).
Proof.
  unfold count_alert. intros (sev & Hs & (act & Ha & H)%exc_bind_ok)%exc_bind_ok. unfold attr. rewrite Hs, Ha. cbn.
  destruct (hashable sev && hashable act); [|done]. by apply Ok_inj in H as <-.
Qed.

Lemma filter_length_cons {A} (f : A → bool) a l : Z.of_nat (length (List.filter f (a :: l))) = (Z.b2z (f a) + Z.of_nat (length (List.filter f l)))%Z.
Proof. cbn. destruct (f a); cbn [length Z.b2z]; lia. Qed.

Lemma count_alerts_exact l acc acc' : exc_fold count_alert acc l = Ok acc' →
  let n := Z.of_nat (length l) in
  total acc'.1 = (total acc.1 + n)%Z ∧ total acc'.2 = (total acc.2 + n)%Z ∧
  ∀ s, count_of s acc'.1 = (count_of s acc.1 + Z.of_nat (length (having "severity"%py "info"%py s l)))%Z
     ∧ count_of s acc'.2 = (count_of s acc.2 + Z.of_nat (length (having "action"%py "unknown"%py s l)))%Z.
Proof.
  revert acc. induction l as [|a l IH]; intros acc.
  - intros <-%Ok_inj. cbn. split_and!; [lia..|]. intros s. lia.
  - cbn [exc_fold]. intros (b & ->%count_alert_ok & H)%exc_bind_ok. apply IH in H as (H1 & H2 & H3). cbn [fst snd] in *.
    rewrite H1, H2, !total_count_key. cbn [length]. split_and!; [lia..|]. intros s. destruct (H3 s) as [-> ->].
    unfold having. rewrite !count_of_count_key, !filter_length_cons. lia.
Qed.

(** *** The engagements *)

Section engagements.
Context (parse_float : str → option flt).

(** The engagement in a file that was seen in the period: its observations. *)
Definition seen (start : flt) (f : str * exc pyval) : option pyval :=
  match f.2 with
  | Ok data =>
      match exc_bind (get_key "last_seen_at"%py (VInt 0) data) (float_of parse_float) with
      | Ok t => if flt_b t start then None else Some (ok_or VNone (get_key "observed"%py (VDict []) data))
      | Raise _ => None
      end
  | Raise _ => None
  end.
Definition flagged (k : str) (obs : pyval) : bool := truthy (ok_or VNone (get_ k obs)).

Definition how_many (k : str) (l : list pyval) : Z := Z.of_nat (length (List.filter (flagged k) l)).

Lemma count_state_ok start acc f acc' : count_state parse_float start acc f = Ok acc' →
  acc' = match seen start f with
         | Some obs => (acc.1.1 + 1, acc.1.2 + Z.b2z (flagged "attacker_likely_llm" obs),
                        acc.2 + Z.b2z (flagged "attacker_llm_proven_via_trap" obs))%py%Z
         | None => acc end.
Proof.
  unfold count_state, seen, readable_or. destruct (f.2) as [data|[]]; try done; [|by intros <-%Ok_inj..].
  intros (last & Hl & (t & Ht & H)%exc_bind_ok)%exc_bind_ok. rewrite Hl. cbn. rewrite Ht. destruct (flt_b t start); [by apply Ok_inj in H as <-|].
  apply exc_bind_ok in H as (obs & -> & (x & Hx & (y & Hy & H)%exc_bind_ok)%exc_bind_ok). destruct acc as [[n l] p]. apply Ok_inj in H as <-.
  unfold flagged. cbn [ok_or]. by rewrite Hx, Hy.
Qed.

Lemma count_states_exact start fs acc acc' : exc_fold (count_state parse_float start) acc fs = Ok acc' →
  let l := omap (seen start) fs in
  acc' = (acc.1.1 + Z.of_nat (length l), acc.1.2 + how_many "attacker_likely_llm"%py l, acc.2 + how_many "attacker_llm_proven_via_trap"%py l)%Z.
Proof.
  revert acc. induction fs as [|f fs IH]; intros acc.
  - intros <-%Ok_inj. destruct acc as [[n l] p]. unfold how_many. cbn -[Z.add]. by rewrite !Z.add_0_r.
  - cbn [exc_fold]. intros (b & ->%count_state_ok & H)%exc_bind_ok. apply IH in H as ->. cbn [omap list_omap]. destruct (seen start f) as [obs|]; [|done].
    unfold how_many. rewrite !filter_length_cons. cbn [fst snd length]. f_equal; [f_equal|]; lia.
Qed.
End engagements.

Lemma collect_parts `{Unicode} parse_float now days src rep : collect parse_float now days src = Ok rep →
  let start := period_start now days in
  let seen_now := omap (seen parse_float start) (List.filter (λ f, endswith f.1 ".json"%py) (default [] (s_state src))) in
  engagement_count rep = Z.of_nat (length seen_now) ∧ counter_ai_detections rep = how_many "attacker_likely_llm"%py seen_now ∧
  counter_ai_proven_via_trap rep = how_many "attacker_llm_proven_via_trap"%py seen_now ∧
  (let dir := default [] (s_logs src) in walk start dir ([], []) dir = Ok (alerts_by_severity rep, alerts_by_action rep)).
Proof.
  unfold collect. set (start := period_start now days). intros ([[n l] p] & Ht & ([bs ba] & Hw & Hr)%exc_bind_ok)%exc_bind_ok.
  apply exc_bind_ok in Hr as (ep & _ & (cf & _ & (pr & _ & (ot & _ & <-%Ok_inj)%exc_bind_ok)%exc_bind_ok)%exc_bind_ok).
  assert (Hx : exc_fold (count_state parse_float start) (0, 0, 0)%Z (List.filter (λ f, endswith f.1 ".json"%py) (default [] (s_state src))) = Ok (n, l, p)).
  { by destruct (s_state src). }
  apply count_states_exact in Hx. cbn [fst snd] in Hx. rewrite !Z.add_0_l in Hx.
  apply pair_equal_spec in Hx as [[-> ->]%pair_equal_spec ->]. split_and!; [done..|]. by destruct (s_logs src).
Qed.

Definition is_dir (e : entry) : bool := match e with Sub _ _ => true | Plain _ => false end.
Definition files_in (e : entry) : list log_file := match e with Sub _ fs => fs | Plain _ => [] end.
Lemma walked_dirs dir es : forallb is_dir es = true → walked dir es = flat_map (λ e, glob_json (files_in e)) es.
Proof. induction es as [|[n fs|f] es IH]; cbn; [done| |done]. intros H. by rewrite IH. Qed.


#[local] Instance ascii_printable : Unicode := λ c, (32 <=? c)%N && (c <? 127)%N.

Definition any_time (_ : flt) : exc str := Ok "2026-01-01T00:00:00"%py.
Definition demo_state (last : Z) (llm : bool) : pyval := VDict
  [("last_seen_at", VInt last); ("observed", VDict [("attacker_likely_llm", VBool llm)])]%py.
Definition demo_alert (sev act : str) : pyval := VDict [("severity", VStr sev); ("action", VStr act)]%py.
Definition demo_log (l : list pyval) : log_file := mk_log_file "a.json"%py (of_int 999999) (Ok (VDict [("actions_taken", VList l)]%py)).
Definition demo_logs : list entry :=
  [Sub "db"%py [demo_log [demo_alert "high" "alert_dns_exfil"; demo_alert "low" "alert_dns_exfil"]%py];
   Sub "web"%py [demo_log [demo_alert "high" "isolate_session"]%py; mk_log_file "b.json"%py (of_int 999999) (Raise JSONDecodeError)]].
Definition demo_sources (logs : list entry) : sources := mk_sources
  (Some [("a.json", Ok (demo_state 999000 true)); ("b.json", Ok (demo_state 5 true)); ("c.json", Raise JSONDecodeError);
         ("d.json", Ok (demo_state 950000 false))]%py)
  (Some logs) (Some ["x.pass"; "y.fail"; "z.pass"]%py) None (VDict [("policy", VDict [("engine", VStr "trained")])]%py) None None.
Definition demo_collect (logs : list entry) : exc EvidenceReport := collect (λ _, None) (of_int 1000000) 1 (demo_sources logs).


(** A plain file listed first in the logs directory ends the walk: no host's log is read. *)
Example plain_file_ends_walk :
  (λ r, (alerts_by_severity r, alerts_by_action r)) <$> ok_or None (exc_bind (demo_collect (Plain (mk_log_file "index.txt"%py (of_int 999999) (Ok VNone)) :: demo_logs)) (λ r, Ok (Some r)))
  = Some ([], []).
Proof. vm_compute. reflexivity. Qed.

(** Nothing was deployed and nothing configured: the controls whose evidence includes the engine's name, or the static ATT&CK
    table, are reported as evidenced. *)
Definition nothing : sources := mk_sources None None None None VNone None None.
Example empty_deployment_attests :
  ∃ rep, collect (λ _, None) (of_int 1000000000) 90 nothing = Ok rep ∧
    map control_id (List.filter (λ c, bool_decide ((_assess rep c).1 = PRESENT)) _NIS2)
    = ["Art21(2)(a)"; "Art21(2)(f)"; "Art21(2)(i)"]%py.
Proof. eexists. split; [vm_compute; reflexivity|]. vm_compute. reflexivity. Qed.

(** The italics of the page reach inside the code spans. *)
Example html_breaks_names :
  map _inline ["`alerts_by_severity`: `high=2`"; "`mfa_decisions`: `p_ass=1` it's"]%py
  = ["<code>alerts<i>by</i>severity</code>: <code>high=2</code>"; "<code>mfa<i>decisions</code>: <code>p</i>ass=1</code> it&#x27;s"]%py.
Proof. vm_compute. reflexivity. Qed.

(** A state file whose JSON is not an object ends the harvest. *)
Example one_list_ends_harvest :
  collect (λ _, None) (of_int 1000000) 1 (mk_sources (Some [("a.json"%py, Ok (VList []))]) None None None VNone None None) = Raise AttributeError.
Proof. vm_compute. reflexivity. Qed.

(** A severity that is null among others cannot be sorted: the harvest accepts it, and no report is written. *)
Example null_severity_ends_report :
  (let* rep := demo_collect [Sub "db"%py [demo_log [VDict [("severity", VNone)]%py; demo_alert "low" "isolate_session"]%py]] in
   to_markdown any_time rep "Report"%py []) = Raise (TypeError "'<' not supported between instances"%py).
Proof. vm_compute. reflexivity. Qed.

(** ** The attestation *)

Lemma update_get {V} k k' (v0 : V) f d :
  assoc_get k' (update k v0 f d) = if decide (k = k') then Some (f (default v0 (assoc_get k d))) else assoc_get k' d.
Proof. unfold update. rewrite assoc_get_set. repeat case_decide; congruence. Qed.

Lemma insert_item_perm {V} x (l : list (str * V)) : insert_item x l ≡ₚ x :: l.
Proof. induction l as [|y l IH]; cbn; [done|]. case_match; [done|]. rewrite IH. apply Permutation_swap. Qed.
Lemma sort_items_perm {V} (l : list (str * V)) : sort_items l ≡ₚ l.
Proof. induction l as [|x l IH]; cbn; [done|]. by rewrite insert_item_perm, IH. Qed.

Lemma assess_status rep c : (_assess rep c).1 ∈ [PRESENT; NO_DATA; OUT_OF_BAND].
Proof. unfold _assess. destruct (c_evidence c); [cbn [fst]; repeat constructor|]. case_match; cbn [fst]; repeat constructor. Qed.

Lemma assess_present rep c : (_assess rep c).1 = PRESENT ↔ ∃ t, t ∈ c_evidence c ∧ _has_meaningful_evidence (evidence_value rep t) = true.
Proof.
  transitivity (existsb (λ t, _has_meaningful_evidence (evidence_value rep t)) (c_evidence c) = true).
  - unfold _assess. destruct (c_evidence c) as [|t l]; [split; discriminate|]. destruct (existsb _ (t :: l)); split; (done || discriminate).
  - rewrite existsb_exists. setoid_rewrite list_elem_of_In. done.
Qed.

Definition status_is (rep : EvidenceReport) (s : str) (c : ControlMapping) : bool := bool_decide ((_assess rep c).1 = s).
Definition of_framework (f : str) (c : ControlMapping) : bool := bool_decide (framework c = f).
Definition many {A} (p : A → bool) (l : list A) : Z := Z.of_nat (length (List.filter p l)).

Lemma many_snoc {A} (p : A → bool) l a : many p (l ++ [a]) = (many p l + Z.b2z (p a))%Z.
Proof. unfold many. rewrite List.filter_app, length_app. cbn. destruct (p a); cbn [length Z.b2z]; lia. Qed.

Lemma summary_frameworks rep cs f :
  default (0, 0)%Z (assoc_get f (summary rep cs).1) = (many (of_framework f) cs, many (λ c, of_framework f c && status_is rep PRESENT c) cs).
Proof.
  induction cs as [|c cs IH] using rev_ind; [done|]. unfold summary in *. rewrite foldl_snoc, !many_snoc. cbn [count_control fst]. rewrite update_get.
  unfold of_framework at 2 4. destruct (decide (framework c = f)) as [->|Hf]; cbn [default].
  - rewrite IH. cbn [fst snd]. by rewrite (bool_decide_eq_true_2 (f = f)).
  - rewrite IH, (bool_decide_eq_false_2 (framework c = f)) by done. cbn. by rewrite !Z.add_0_r.
Qed.

Lemma summary_statuses rep cs :
  (summary rep cs).2 = map (λ s, (s, many (status_is rep s) cs)) [PRESENT; NO_DATA; OUT_OF_BAND].
Proof.
  induction cs as [|c cs IH] using rev_ind; [done|]. unfold summary in *. rewrite foldl_snoc. cbn [count_control snd]. rewrite IH.
  cbn [map]. rewrite !many_snoc.
  assert (E : ∀ s, status_is rep s c = bool_decide ((_assess rep c).1 = s)) by done. rewrite !E. clear E.
  pose proof (assess_status rep c) as Hs. rewrite !elem_of_cons, elem_of_nil in Hs. destruct Hs as [->|[->|[->|[]]]]; cbn -[Z.add]; by rewrite ?Z.add_0_r.
Qed.

Lemma status_partition rep cs :
  (many (status_is rep PRESENT) cs + many (status_is rep NO_DATA) cs + many (status_is rep OUT_OF_BAND) cs = Z.of_nat (length cs))%Z.
Proof.
  induction cs as [|c cs IH] using rev_ind; [done|]. rewrite !many_snoc, length_app. cbn [length].
  assert (E : ∀ s, status_is rep s c = bool_decide ((_assess rep c).1 = s)) by done. rewrite !E. clear E.
  pose proof (assess_status rep c) as Hs. rewrite !elem_of_cons, elem_of_nil in Hs.
  revert IH. generalize (many (status_is rep PRESENT) cs) (many (status_is rep NO_DATA) cs) (many (status_is rep OUT_OF_BAND) cs).
  intros a b d IH. destruct Hs as [->|[->|[->|[]]]]; rewrite Nat2Z.inj_add;
    repeat (case_bool_decide; [|try done]); try discriminate; cbn [Z.b2z]; lia.
Qed.

(** *** The sections *)

Definition grouped (cs : list ControlMapping) : list (str * list ControlMapping) :=
  foldl (λ d c, update (framework c) [] (λ l, l ++ [c]) d) [] cs.

Lemma grouped_get cs f : default [] (assoc_get f (grouped cs)) = List.filter (of_framework f) cs.
Proof.
  induction cs as [|c cs IH] using rev_ind; [done|]. unfold grouped in *. rewrite foldl_snoc, update_get, List.filter_app. cbn.
  unfold of_framework at 2. destruct (decide (framework c = f)) as [->|Hf]; cbn [default].
  - by rewrite IH, bool_decide_eq_true_2.
  - by rewrite IH, bool_decide_eq_false_2, app_nil_r.
Qed.

Lemma grouped_NoDup cs : NoDup (map fst (grouped cs)).
Proof.
  induction cs as [|c cs IH] using rev_ind; [constructor|]. unfold grouped in *. rewrite foldl_snoc. by apply assoc_set_NoDup.
Qed.

Lemma update_snoc_perm {A} k (a : A) (d : list (str * list A)) : flat_map snd (update k [] (λ l, l ++ [a]) d) ≡ₚ flat_map snd d ++ [a].
Proof.
  unfold update. induction d as [|[k' l] d IH]; [done|]. cbn [assoc_set assoc_get]. destruct (decide (k = k')) as [->|]; cbn.
  - rewrite <- !app_assoc. apply Permutation_app_head, Permutation_app_comm.
  - by rewrite IH, app_assoc.
Qed.

Lemma grouped_perm cs : flat_map snd (grouped cs) ≡ₚ cs.
Proof. induction cs as [|c cs IH] using rev_ind; [done|]. unfold grouped in *. by rewrite foldl_snoc, update_snoc_perm, IH. Qed.

Lemma flat_map_perm {A B} (f : A → list B) l l' : l ≡ₚ l' → flat_map f l ≡ₚ flat_map f l'.
Proof. induction 1; cbn; [done|by f_equiv| |by etransitivity]. rewrite !app_assoc. f_equiv. apply Permutation_app_comm. Qed.

Lemma sections_exact cs : flat_map snd (sections cs) ≡ₚ cs ∧ ∀ f l, (f, l) ∈ sections cs → l = List.filter (of_framework f) cs.
Proof.
  split.
  - unfold sections. etransitivity; [apply flat_map_perm, sort_items_perm|]. apply grouped_perm.
  - intros f l Hin. unfold sections in Hin. apply (elem_of_Permutation_proper _ _ _ (sort_items_perm (grouped cs))) in Hin. apply assoc_get_elem in Hin; [|apply grouped_NoDup].
    by rewrite <- grouped_get, Hin.
Qed.

(** *** Rendering does not fail *)

Definition named (c : counts) : bool := forallb is_str (map fst c).

Lemma sorted_counts_ok c : named c = true → ∃ c', sorted_counts c = Ok c'.
Proof. unfold named, sorted_counts. destruct c as [|x [|y c]]; [by eexists..|]. intros ->. by eexists. Qed.

Lemma exc_map_total {A B} (f : A → exc B) l : (∀ x, x ∈ l → ∃ y, f x = Ok y) → ∃ r, exc_map f l = Ok r.
Proof.
  induction l as [|x l IH]; intros Hf; [by eexists|]. destruct (Hf x) as [y Hy]; [by left|].
  destruct IH as [r Hr]; [intros z Hz; apply Hf; by right|]. cbn [exc_map]. rewrite Hy, Hr. by eexists.
Qed.

Definition named_value (e : option evidence) : Prop := match e with Some (Counts c) => named c = true | _ => True end.

Section rendering.
Context `{Unicode} (iso iso_seconds : flt → exc str) (rep : EvidenceReport).
Hypothesis Hsev : named (alerts_by_severity rep) = true.
Hypothesis Hact : named (alerts_by_action rep) = true.

Lemma evidence_value_named t : named_value (evidence_value rep t).
Proof.
  unfold evidence_value. destruct (assoc_get t (evidence_table rep)) as [e|] eqn:E; [|done]. apply assoc_get_in in E.
  assert (Hall : Forall (λ x, named_value (Some x.2)) (evidence_table rep)) by (repeat constructor; assumption).
  rewrite Forall_forall in Hall. exact (Hall _ E).
Qed.

Lemma collected_named types x : x ∈ collected rep types → named_value x.2.
Proof.
  unfold collected. induction types as [|t types IH] using rev_ind; [by intros ?%elem_of_nil|]. rewrite foldl_snoc.
  destruct x as [k v]. intros [[-> ->]|Hx]%assoc_set_elem; [apply evidence_value_named|by apply IH].
Qed.

Lemma format_total e : named_value e → ∃ s, _format_evidence_value e = Ok s.
Proof.
  destruct e as [[c|[| | | | |[]| |[]]]|]; cbn; try (by eexists). intros [c' Hc]%sorted_counts_ok. destruct c; [by eexists|]. rewrite Hc. by eexists.
Qed.

Lemma evidence_json_total e : named_value e → ∃ j, evidence_json e = Ok j.
Proof. destruct e as [[c|v]|]; cbn; [|by eexists..]. intros [c' ->]%sorted_counts_ok. by eexists. Qed.

Lemma control_lines_total c : ∃ l, control_lines rep c = Ok l.
Proof.
  unfold control_lines, _assess. destruct (c_evidence c) as [|t l]; [by eexists|].
  destruct (exc_map_total evidence_line (collected rep (t :: l))) as [r Hr].
  - intros x Hx%collected_named. unfold evidence_line. destruct (format_total _ Hx) as [s ->]. by eexists.
  - rewrite Hr. by eexists.
Qed.

Lemma members_total l : Forall (λ x, named_value x.2) l → ∃ r, exc_map (member_json evidence_json) l = Ok r.
Proof.
  intros Hl. apply exc_map_total. intros x Hx. rewrite Forall_forall in Hl. unfold member_json. destruct (evidence_json_total _ (Hl _ Hx)) as [j ->]. by eexists.
Qed.

Lemma control_json_total c : ∃ j, control_json rep c = Ok j.
Proof.
  unfold control_json, _assess. destruct (members_total (collected rep (c_evidence c))) as [r Hr].
  - apply Forall_forall. intros x. apply collected_named.
  - rewrite Hr. by eexists.
Qed.

Lemma markdown_total title cs : (∀ t, ∃ s, iso_seconds t = Ok s) → ∃ md, to_markdown iso_seconds rep title cs = Ok md.
Proof.
  intros Hiso. unfold to_markdown, fact_lines. destruct (Hiso (period_start_ts rep)) as [a ->], (Hiso (period_end_ts rep)) as [b ->].
  destruct (sorted_counts_ok _ Hsev) as [sev ->]. cbn [exc_bind]. destruct (exc_map_total (section_lines rep) (sections cs)) as [r Hr].
  - intros x _. unfold section_lines. destruct (exc_map_total (control_lines rep) x.2) as [ls Hls]; [intros; apply control_lines_total|].
    rewrite Hls. by eexists.
  - rewrite Hr. by eexists.
Qed.

Lemma json_total title cs : (∀ t, ∃ s, iso t = Ok s) → ∃ j, report_json iso rep title cs = Ok j.
Proof.
  intros Hiso. unfold report_json. destruct (Hiso (period_start_ts rep)) as [a ->], (Hiso (period_end_ts rep)) as [b ->]. cbn [exc_bind].
  destruct (members_total (report_fields rep)) as [fs ->]; [unfold report_fields; repeat constructor; assumption|].
  destruct (exc_map_total (control_json rep) cs) as [l Hl]; [intros; apply control_json_total|]. rewrite Hl. by eexists.
Qed.
End rendering.


(** *** The page's lists and tables *)

Definition occurs (m : str) (l : list str) : nat := length (List.filter (λ s, bool_decide (s = m)) l).
Definition balanced (open : nat) (l : list str) : Prop :=
  occurs "<ul>"%py l = open + occurs "</ul>"%py l ∧ occurs "<table>"%py l = occurs "</table>"%py l.
(** A line that opens and closes neither. *)
Definition inner (s : str) : Prop := Forall (λ m, s ≠ m) ["<ul>"; "</ul>"; "<table>"; "</table>"]%py.

Lemma occurs_app m l l' : occurs m (l ++ l') = occurs m l + occurs m l'.
Proof. unfold occurs. by rewrite List.filter_app, length_app. Qed.

Lemma occurs_none m l : Forall (λ s, s ≠ m) l → occurs m l = 0.
Proof.
  unfold occurs. induction 1 as [|s l Hs _ IH]; [done|]. cbn [List.filter]. by rewrite bool_decide_eq_false_2.
Qed.

Lemma balanced_inner n l l' : Forall inner l' → balanced n l → balanced n (l ++ l').
Proof.
  intros Hl' [H1 H2]. assert (Hm : ∀ m, m ∈ ["<ul>"; "</ul>"; "<table>"; "</table>"]%py → occurs m l' = 0).
  { intros m Hm. apply occurs_none. eapply Forall_impl; [exact Hl'|]. intros s Hs. unfold inner in Hs. rewrite Forall_forall in Hs. by apply Hs. }
  unfold balanced. rewrite !occurs_app, !Hm by (rewrite !elem_of_cons; tauto). lia.
Qed.

Definition well_nested (p : page) : Prop := balanced (if p_in_list p then 1 else 0) (p_out p).

Lemma put_nested s p : inner s → well_nested p → well_nested (put s p).
Proof. intros Hs. apply balanced_inner. by constructor. Qed.

(** The counts of a single mark. *)
Ltac count_marks :=
  repeat match goal with |- context [occurs ?m [?s]] => let v := eval vm_compute in (occurs m [s]) in change (occurs m [s]) with v end.

Lemma flush_list_nested p : well_nested p → well_nested (flush_list p) ∧ p_in_list (flush_list p) = false.
Proof.
  unfold well_nested, flush_list. destruct (p_in_list p) eqn:E; [|by rewrite E]. cbn [p_in_list p_out]. intros [H1 H2]. split; [|done].
  unfold balanced. rewrite !occurs_app. count_marks. lia.
Qed.

Lemma row_inner i row : Forall inner (table_row i row).
Proof. unfold table_row. case_match; [constructor|]. repeat constructor; discriminate. Qed.

Lemma rows_inner l k : Forall inner (concat (imap (λ i, table_row (k + i)) l)).
Proof.
  revert k. induction l as [|row l IH]; intros k; [constructor|]. cbn [imap concat]. apply Forall_app. split; [apply row_inner|].
  erewrite imap_ext; [apply (IH (S k))|]. intros i x _. cbn. f_equal. lia.
Qed.

Lemma flush_table_nested p : well_nested p → well_nested (flush_table p) ∧ p_in_list (flush_table p) = p_in_list p.
Proof.
  intros Hp. split; [|done]. unfold well_nested, flush_table in *. cbn [p_out p_in_list].
  destruct (p_in_table p && _); [|by rewrite app_nil_r]. assert (Hr : Forall inner (concat (imap table_row (p_table_buf p)))) by exact (rows_inner _ 0).
  pose proof (balanced_inner _ _ _ Hr Hp) as [H1 H2].
  rewrite !occurs_app in *. unfold balanced. rewrite !occurs_app. count_marks. cbn [Nat.add] in *. lia.
Qed.

Lemma flush_nested p : well_nested p → well_nested (flush p) ∧ p_in_list (flush p) = false.
Proof.
  intros [Hp E]%flush_list_nested. apply flush_table_nested in Hp as [Hp E']. unfold flush. by rewrite E'.
Qed.

Lemma tagged_inner t s : t ∈ ["h1"; "h2"; "h3"; "blockquote"; "li"; "p"]%py → inner (tagged t s).
Proof.
  rewrite !elem_of_cons, elem_of_nil. intros Ht. repeat (destruct Ht as [->|Ht]; [repeat constructor; discriminate|]). done.
Qed.

Lemma html_line_nested p line : well_nested p → well_nested (html_line p line).
Proof.
  intros Hp. pose proof (proj1 (flush_nested _ Hp)) as Hf. pose proof (proj1 (flush_list_nested _ Hp)) as Hl. pose proof (proj1 (flush_table_nested _ Hp)) as Ht.
  unfold html_line. repeat case_match; try (apply put_nested; [|done]); try (apply tagged_inner; rewrite !elem_of_cons; tauto); try done.
  - repeat constructor; discriminate.
  - apply put_nested; [repeat constructor; discriminate|]. destruct Ht as [H1' H2']. unfold well_nested, balanced in *.
    cbn [p_out p_in_list]. rewrite !occurs_app. count_marks. rewrite H4 in H1'. lia.
Qed.

(** Whatever the text, every list and every table of the page is closed. *)
Theorem html_balanced md : balanced 0 (html_lines md).
Proof.
  unfold html_lines. assert (Hall : ∀ ls p, well_nested p → well_nested (foldl html_line p ls)).
  { induction ls as [|l ls IH]; intros p Hp; [done|]. apply IH, html_line_nested, Hp. }
  destruct (flush_nested (foldl html_line (mk_page [] false false []) (splitlines md))) as [H E]; [by apply Hall|].
  unfold well_nested in H. by rewrite E in H.
Qed.
